(* ===== verification/_CoqProject ===== *)
-Q . S2P
Prelude.v
Interfaces.v
NimbusPrimitives.v
XcmPrimitives.v
AuthorMapping.v
AuthorInherent.v
SlotFilter.v
AuraFilter.v
AsyncBacking.v
EmergencyXcm.v
Maintenance.v
ForeignAssets.v
XcmLocations.v
RelayRoots.v
Migrations.v
XcmControl.v
Randomness.v
RandomnessHooks.v
SlotTimer.v
Runtime.v
TemplateRuntime.v
Evm.v
Batch.v
Erc20.v
CallPermit.v
Proxy.v
AssetsErc20.v
PalletXcm.v
XcmUtils.v
ClaimSlot.v
BlockImport.v
BlockProduction.v
RelayParents.v
BlockBuilder.v
Lookahead.v
Basic.v
TemplateNode.v
EndToEnd.v
TemplateChain.v
PrecompileSet.v
TokenStorage.v
Weights.v
Benchmarks.v
RandomnessBenchmarks.v
