(* ===== verification/Prelude.v ===== *)
(** * Moonkit: a verification development

    Moonkit is a set of FRAME pallets, EVM precompiles and client code for building
    Cumulus parachains with the Nimbus consensus framework.  This library models its
    core logic, the state machines that run on chain and the timing of the collator,
    and proves what each component promises and how they work together.

    ** The program and the files

    Authorship.  A block carries the author's Nimbus id in its digest; a mandatory
    inherent checks that the author's account may author in the current slot.
    - [NimbusPrimitives.v]: [primitives/nimbus-primitives] and [primitives/session-keys]:
      digest items, inherents, and the traits between pallets as classes ([CanAuthor],
      [AccountLookup], [KeysLookup], [SlotBeacon]).
    - [AuthorMapping.v]: [pallets/author-mapping]: ids, keys and deposits of accounts.
    - [AuthorInherent.v]: [pallets/author-inherent] (hooks, inherent, block executor) and
      the sealing of the client.
    - [SlotFilter.v]: [pallets/author-slot-filter]: the pseudo-random eligible subset.
    - [AuraFilter.v]: [pallets/aura-style-filter]: round robin.
    - [AsyncBacking.v]: [pallets/async-backing]: blocks per relay slot, slot checks.
    - [Runtime.v]: the pipeline as [template/runtime] composes it, with its account set
      and [NimbusApi::can_author]; the classes are instantiated by the pallets above.
    - [TemplateRuntime.v]: the template's constants, limits, fees and block hook, and the
      genesis of its development chains ([template/node/src/chain_spec.rs]).
    - [TemplateNode.v]: the template node's specifications, arguments and collator
      parameters ([template/node/src/{cli,command,service,chain_spec}.rs]).

    Block production and import, [client/consensus/nimbus-consensus].
    - [ClaimSlot.v]: [lib.rs] and [collators.rs]: keys, slot claims, upgrades, the
      connections to backing groups, the search for a parent.
    - [BlockImport.v]: [import_queue.rs] and [slot_based/block_import.rs]: the verifier
      and the block imports around it.
    - [BlockProduction.v]: [collator.rs], [proposer.rs] and [manual_seal.rs]: inherent
      data, proposing, sealing, importing and packing a block.
    - [SlotTimer.v]: [slot_based/slot_timer.rs].
    - [RelayParents.v]: relay parents, cores and the relay chain data cache of
      [slot_based/].
    - [BlockBuilder.v]: [slot_based/block_builder_task.rs] and [collation_task.rs].
    - [Lookahead.v], [Basic.v]: the two relay-chain-driven collators.
    - [EndToEnd.v]: the slot-based collator and the template runtime together: the client's
      APIs are those of the runtime, and the runtime executes what the collator sends.
    - [TemplateChain.v]: chains of blocks of the template runtime from the genesis of
      [testnet_genesis], and the collators of its authorities.

    Safety of XCM and upgrades.
    - [XcmPrimitives.v]: [primitives/xcm]: pausing of XCM execution, asset ids.
    - [XcmLocations.v]: its location matchers and generators.
    - [EmergencyXcm.v]: [pallets/emergency-para-xcm]: pause after a relay chain gap.
    - [Maintenance.v]: [pallets/maintenance-mode]: restricted operation.
    - [Migrations.v]: [pallets/migrations]: migrations at runtime upgrades.
    - [XcmControl.v]: the last two over one XCM execution manager, block by block.
    - [ForeignAssets.v]: [pallets/foreign-asset-creator]: ids of foreign assets.
    - [RelayRoots.v]: [pallets/relay-storage-roots]: recent relay storage roots.

    Randomness.
    - [Randomness.v]: [pallets/randomness], requests, payments and results.
    - [RandomnessHooks.v]: its hooks, inherent and VRF verification, and the life cycle.

    EVM precompiles.
    - [Evm.v]: the EVM handle they run against (an interface).
    - [Batch.v], [Erc20.v], [CallPermit.v], [AssetsErc20.v], [Proxy.v], [PalletXcm.v],
      [XcmUtils.v]: [precompiles/batch], [balances-erc20] and [assets-erc20] (with
      EIP-2612 permits), [call-permit], [proxy], [pallet-xcm] and [xcm-utils].
    - [PrecompileSet.v]: the batch, ERC-20, call-permit and proxy precompiles over one
      state, in an EVM in which they and arbitrary contracts call one another.
    - [TokenStorage.v]: the approvals and nonces of the token and call-permit precompiles
      in the chain's key-value store, below the prefixes the code writes out.

    Weights and benchmarks.
    - [Weights.v]: [pallets/*/src/weights.rs] and what calls and hooks declare with them.
    - [Benchmarks.v], [RandomnessBenchmarks.v]: [pallets/*/src/benchmarks.rs], as handlers
      over the pallets' storage.

    This file holds what all of them share: machine integers, bytes, the state monad
    of handlers, properties of handlers, sums over finite maps, tactics and hints.
    [Interfaces.v] holds the interfaces to code outside the repository.

    ** How code is modelled

    A pallet's storage is a record [State]; a storage map is a [gmap], a value with an
    optional presence an [option].  A handler is a function in the monad [M S E A] of
    this file: it ends in [Ok] with a result and a state, in [Err] with an error and the
    state reached, or in [Panic], which makes a block invalid.  A dispatchable runs in
    [transactional], which is the storage layer that rolls an error back; hooks do not.
    Configuration traits are records [Config].  Pallets call one another through
    classes, or through [zoom], which runs a call on the part of the state that belongs
    to the callee.  Unsigned integers are [Z]; saturating, checked and wrapping
    operations are those of Rust, and a plain [+] or [-] takes the build's
    [overflow-checks] as a flag and is a panic or wraps.  How a component evolves over
    time is a relation [step] or a fold over its calls, and properties of all reachable
    states are proved by induction over it.

    Code outside the repository (the FRAME pallets, currencies, codecs, digests, weights,
    hash functions, signatures, the EVM, the relay chain, the XCM executor, the client's
    backend and proposer) is a parameter: a class
    of operations with a class of laws that state its documented behaviour, or a field
    of a [Config].  Every interface has a concrete instance, which the witnesses use to
    evaluate the handlers and to discharge the hypotheses of the theorems.

    The client's tasks are handlers too: the body of a loop is one handler over the state
    the task keeps across its rounds, a [continue] or [break] is an error that leaves it,
    and the loop is a fold.  Queries of the client and of the relay chain read one world;
    imports, announcements and messages are what changes it, so that within one round
    every query sees what the round did before.

    ** What the theorems show

    - Authorship: a block that does not panic was checked for the account of its first
      nimbus digest, which is eligible in its slot ([AuthorInherent]); the eligible set
      has exactly the configured size and is never empty ([SlotFilter]); from genesis on
      some author of the set can always author, and the runtime API predicts import
      exactly ([Runtime]); the client's seal is accepted and whatever is accepted is
      sealed by the claimed author; registrations are only changed by their owner and
      deposits stay reserved ([AuthorMapping]); author and VRF key come from the same
      registration ([Runtime]); the genesis of the template's development chains lets
      every authority author ([TemplateRuntime]), every chain from it consists of blocks
      of its authorities, in later and later slots, and some authority's collator can
      always extend it ([TemplateChain]).
    - Block production: a claim is made exactly for the first key the runtime lets author;
      whatever the collators submit or answer is a block sealed by the claim's author
      that passes the verifier, was imported, and was built on the parent and for the
      relay parent and core the code means; cores are used in order; the lookahead
      collator builds chains of at most two blocks; the basic collator builds one block
      per slot and fork; the template runtime executes a block of the node's collator
      exactly if the slot of its relay parent is later than the parent's ([EndToEnd]); the
      size limit the node's collator uses, and why its instant-seal node stalls
      ([TemplateNode]).
    - Timing: at most one block more than the velocity per relay slot, slots in order,
      and an exact comparison of [can_build_upon] with the hook, which also looks at the
      parachain slot ([AsyncBacking]); the
      collator's slots are in order, its attempts evenly spaced, its authoring ends
      before its slot ([SlotTimer]); the template's hook admits exactly one block per
      relay slot ([TemplateRuntime]).
    - Randomness: every request is backed by the result counters of the pallet and, but
      for what fulfilments cost beyond their requests' funds, by its funds; results are authentic VRF outputs, every outcome of preparing, fulfilling
      and expiring a request, and which requests can never be fulfilled.
    - XCM and upgrades: pause states agree with the last event and with the queues,
      maintenance mode and migrations over one manager refine a machine of two bits (in
      which a genesis in maintenance does not suspend XCM),
      upgrades are only authorised while paused, every migration completes at most once
      and within the weight of a block, foreign assets resolve to the ids that map back
      to them, the stored relay roots are the most recent ones.
    - Precompiles: an owner's funds move only within its allowances (and, below the
      existential deposit, with the dust a transfer leaves), allowances are spent exactly, signed permits use nonces one by one and cannot be replayed, a batch keeps
      the promise of its mode and never runs out of the gas it reserves for logs; the
      assets precompile refines ERC-20 allowances; a proxy acts only with the leave of the
      real account and within its type; what is sent over XCM is what was named; a
      location identifies an asset; who may not execute messages cannot; an inert account that
      signs nothing and has no immediate proxy keeps its funds beyond its allowances, its
      allowances and its registrations, whatever others call through several precompiles
      and contracts, nested and reentered ([PrecompileSet]); the data of all instances of
      the token precompiles is apart in the chain's store ([TokenStorage]).
    - Weights and benchmarks: the two implementations of every weight agree but for the
      author inherent's; what authorship costs a block of the template; for each benchmark
      when it runs through, on chains with room for the money it makes, and which do not
      measure what they mean to.

    Several theorems establish behaviour that differs from what the code intends, with
    the exact condition: [can_build_upon] in the last slot, the panic of the relay number
    check near the upper bound, stale names of foreign assets, the weight guard of
    migrations, skipped epochs, fulfilments that cost more than the request holds, the
    blocks beyond the documented velocity, the size check of [set_keys], and benchmarks
    that the pallet's own mock cannot run.

    ** Bounds and fuel

    Loops of the code are structural recursions over their lists, with these exceptions.
    [SlotFilter.select] counts down the authors still to be drawn, which is exactly the
    number of rounds of the code's loop, and is proved never to panic.
    [RelayParents.find_ancestors] takes the offset as fuel: every round of the code's loop
    adds one ancestor and it ends with that many, and the theorem about it shows that
    the fuel never runs out.  [Lookahead.build_loop] counts the two rounds of the code.
    The loops without an end, [SlotTimer.attempts] and [BlockBuilder.run_block_builder],
    run any given number of rounds, and their theorems hold for every number.

    ** What is not modelled

    Mocks and tests, the derive-generated codecs, the template runtime's configuration of
    FRAME, Cumulus and the XCM executor (types handed to libraries) and its runtime APIs
    that forward to them, the template node's sub-commands, services and RPC (built from
    library parts), the spawning of the client's tasks, the export of proofs of validity
    and functions that only log.  Weights are modelled as the values the code declares;
    that they bound the real cost is measured by the benchmarks, not proved. *)
From Stdlib Require Import ZArith Lia.
From stdpp Require Import prelude gmap fin_maps sorting.

Local Open Scope Z_scope.

(** ** Machine integers

    Rust's unsigned integers are [Z] with the width written out.  [umax w] is
    [uN::MAX]; the operations are the inherent methods of the same name. *)
Definition umax (w : Z) : Z := 2 ^ w - 1.

Definition saturating_add (w a b : Z) : Z := Z.min (a + b) (umax w).

Definition saturating_sub (a b : Z) : Z := Z.max 0 (a - b).

Definition saturating_mul (w a b : Z) : Z := Z.min (a * b) (umax w).

Definition checked_add (w a b : Z) : option Z :=
  if a + b <=? umax w then Some (a + b) else None.

Definition checked_sub (a b : Z) : option Z :=
  if b <=? a then Some (a - b) else None.

Definition wrapping (w a : Z) : Z := a mod 2 ^ w.

(** The operators [+], [-] and [*] depend on the build: with [overflow-checks] they
    panic ([None]) on overflow, without they wrap. *)
Definition op_add (oc : bool) (w a b : Z) : option Z :=
  if oc then checked_add w a b else Some (wrapping w (a + b)).

Definition op_sub (oc : bool) (w a b : Z) : option Z :=
  if oc then checked_sub a b else Some (wrapping w (a - b)).

Definition op_mul (oc : bool) (w a b : Z) : option Z :=
  if oc then (if a * b <=? umax w then Some (a * b) else None) else Some (wrapping w (a * b)).

(** A value that fits in [w] bits. *)
Definition fits (w a : Z) : Prop := 0 <= a <= umax w.

#[export] Instance fits_dec w a : Decision (fits w a).
Proof. unfold fits. apply _. Defined.

(** ** Byte strings: bytes are [Z] in [0, 256) *)
Fixpoint to_le_bytes (n : nat) (z : Z) : list Z :=
  match n with
  | O => []
  | S n' => z mod 256 :: to_le_bytes n' (z / 256)
  end.

Definition to_be_bytes (n : nat) (z : Z) : list Z := rev (to_le_bytes n z).

Fixpoint from_le_bytes (l : list Z) : Z :=
  match l with
  | [] => 0
  | b :: l' => b + 256 * from_le_bytes l'
  end.

(** ** State, errors and panics

    A handler runs against a state.  [Err] keeps the state reached when the
    error was returned, because only the transactional layer of a dispatchable
    rolls it back; [Panic] has no state: the block is invalid. *)
Inductive outcome (S E A : Type) : Type :=
  | Ok (a : A) (s : S)
  | Err (e : E) (s : S)
  | Panic.
Arguments Ok {S E A} a s.
Arguments Err {S E A} e s.
Arguments Panic {S E A}.

Definition M (S E A : Type) : Type := S -> outcome S E A.

#[export] Instance M_ret S E : MRet (M S E) := fun A a s => Ok a s.

#[export] Instance M_bind S E : MBind (M S E) := fun A B k m s =>
  match m s with
  | Ok a s' => k a s'
  | Err e s' => Err e s'
  | Panic => Panic
  end.

Section Primitives.
Context {S E : Type}.

(** Read a part of the state. *)
Definition gets {A} (f : S -> A) : M S E A := fun s => Ok (f s) s.

(** Replace the state. *)
Definition modify (f : S -> S) : M S E unit := fun s => Ok tt (f s).

Definition fail {A} (e : E) : M S E A := fun s => Err e s.

Definition panic {A} : M S E A := fun _ => Panic.

(** [ensure!(b, e)] *)
Definition ensure (b : bool) (e : E) : M S E unit := fun s =>
  if b then Ok tt s else Err e s.

(** [assert!(b)] *)
Definition assert (b : bool) : M S E unit := fun s =>
  if b then Ok tt s else Panic.

(** [o.ok_or(e)?] *)
Definition ok_or {A} (o : option A) (e : E) : M S E A := fun s =>
  match o with Some a => Ok a s | None => Err e s end.

(** [r?] where the error is returned as it is *)
Definition try_ {A} (r : E + A) : M S E A := fun s =>
  match r with inr a => Ok a s | inl e => Err e s end.

(** [o.expect(..)] *)
Definition expect {A} (o : option A) : M S E A := fun s =>
  match o with Some a => Ok a s | None => Panic end.

(** [if b { m }] *)
Definition when (b : bool) (m : M S E unit) : M S E unit := fun s =>
  if b then m s else Ok tt s.

(** The storage layer around a dispatchable: an error rolls the state back. *)
Definition transactional {A} (m : M S E A) : M S E A := fun s =>
  match m s with
  | Err e _ => Err e s
  | o => o
  end.

(** [match m { Ok(a) => .., Err(e) => .. }]: the error becomes a value *)
Definition attempt {E' A} (m : M S E' A) : M S E (E' + A) := fun s =>
  match m s with
  | Ok a s' => Ok (inr a) s'
  | Err e s' => Ok (inl e) s'
  | Panic => Panic
  end.

(** A call into another component, which owns the part [get] of the state. *)
Definition zoom {X E' A} (get : S -> X) (set : X -> S -> S) (f : E' -> E) (m : M X E' A) :
    M S E A := fun s =>
  match m (get s) with
  | Ok a x => Ok a (set x s)
  | Err e x => Err (f e) (set x s)
  | Panic => Panic
  end.

(** The state after a handler that does not panic; a panic keeps it. *)
Definition final_state {A} (m : M S E A) (s : S) : S :=
  match m s with Ok _ s' | Err _ s' => s' | Panic => s end.
End Primitives.

(** [for x in l { body(x)?; }] *)
Fixpoint for_each {S E A} (body : A -> M S E unit) (l : list A) : M S E unit :=
  match l with
  | [] => mret tt
  | x :: l' => body x ;; for_each body l'
  end.

(** The errors of a dispatchable: [BadOrigin], the pallet's own, or one that
    code outside the pallet returned. *)
Inductive dispatch_error (E X : Type) : Type :=
  | BadOrigin
  | Module (e : E)
  | Foreign (x : X).
Arguments BadOrigin {E X}.
Arguments Module {E X} e.
Arguments Foreign {E X} x.

(** ** Properties of handlers *)

Section HandlerProperties.
Context {S E A : Type}.

(** An error leaves the state as it was. *)
Definition err_atomic (m : M S E A) : Prop :=
  forall s e s', m s = Err e s' -> s' = s.

(** The handler never writes. *)
Definition read_only (m : M S E A) : Prop :=
  forall s, match m s with Ok _ s' | Err _ s' => s' = s | Panic => True end.

(** The handler has no error outcome. *)
Definition no_err (m : M S E A) : Prop :=
  forall s e s', m s <> Err e s'.

(** The handler keeps [I], whatever its outcome. *)
Definition preserves (I : S -> Prop) (m : M S E A) : Prop :=
  forall s, I s -> match m s with Ok _ s' | Err _ s' => I s' | Panic => True end.

(** The handler keeps [I] when it succeeds; who runs it discards the state of errors. *)
Definition keeps (I : S -> Prop) (m : M S E A) : Prop :=
  forall s a s', I s -> m s = Ok a s' -> I s'.

(** Total correctness: from [s] the handler succeeds, with [Q]. *)
Definition runs (m : M S E A) (Q : A -> S -> Prop) (s : S) : Prop :=
  match m s with Ok a s' => Q a s' | _ => False end.
End HandlerProperties.

(** ** Sums over finite maps *)
Definition map_sum {K V} `{Countable K} (f : K -> V -> Z) (m : gmap K V) : Z :=
  map_fold (fun k v acc => f k v + acc) 0 m.

(** ** Tactics *)

(** Unfold the monad. *)
Ltac unfold_M :=
  unfold mbind, M_bind, mret, M_ret, gets, modify, fail, panic, ensure, assert,
    ok_or, try_, expect, when, attempt in *.

(** Case analysis on an innermost [match] of the goal or a hypothesis. *)
Ltac destruct_scrutinee x :=
  lazymatch x with
  | context [match _ with _ => _ end] => fail
  | _ => let E := fresh "E" in destruct x eqn:E
  end.

Ltac exec_step :=
  match goal with
  | H : context [match ?x with _ => _ end] |- _ => destruct_scrutinee x
  | |- context [match ?x with _ => _ end] => destruct_scrutinee x
  end.

(** Symbolic execution of a handler. *)
Ltac exec := unfold_M; simpl in *; repeat (exec_step; simplify_eq/=).

(** Turn boolean comparisons into propositions. *)
Ltac bool_to_prop :=
  repeat match goal with
  | H : (_ <? _) = true |- _ => apply Z.ltb_lt in H
  | H : (_ <? _) = false |- _ => apply Z.ltb_ge in H
  | H : (_ <=? _) = true |- _ => apply Z.leb_le in H
  | H : (_ <=? _) = false |- _ => apply Z.leb_gt in H
  | H : (_ =? _) = true |- _ => apply Z.eqb_eq in H
  | H : (_ =? _) = false |- _ => apply Z.eqb_neq in H
  | H : (_ && _)%bool = true |- _ => apply andb_true_iff in H as [? ?]
  | H : (_ || _)%bool = false |- _ => apply orb_false_iff in H as [? ?]
  | H : negb _ = true |- _ => apply negb_true_iff in H
  | H : negb _ = false |- _ => apply negb_false_iff in H
  | H : bool_decide _ = true |- _ => apply bool_decide_eq_true in H
  | H : bool_decide _ = false |- _ => apply bool_decide_eq_false in H
  end.

(** ** Lemmas on machine integers *)

Lemma umax_nonneg w : 0 <= w -> 0 <= umax w.
Proof. intros. unfold umax. pose proof (Z.pow_pos_nonneg 2 w). lia. Qed.

Lemma saturating_add_bound w a b : saturating_add w a b <= umax w.
Proof. unfold saturating_add. lia. Qed.

Lemma saturating_add_exact w a b : a + b <= umax w -> saturating_add w a b = a + b.
Proof. unfold saturating_add. lia. Qed.

Lemma checked_add_Some w a b c :
  checked_add w a b = Some c <-> c = a + b /\ a + b <= umax w.
Proof.
  unfold checked_add. destruct (Z.leb_spec (a + b) (umax w)); split; intros; simplify_eq; try lia.
  f_equal; lia.
Qed.

Lemma checked_sub_Some a b c : checked_sub a b = Some c <-> c = a - b /\ b <= a.
Proof.
  unfold checked_sub. destruct (Z.leb_spec b a); split; intros; simplify_eq; try lia.
  f_equal; lia.
Qed.

Lemma wrapping_fits w a : 0 <= w -> fits w (wrapping w a).
Proof.
  intros. unfold fits, wrapping, umax.
  pose proof (Z.mod_pos_bound a (2 ^ w) (Z.pow_pos_nonneg 2 w ltac:(lia) H)). lia.
Qed.

Lemma wrapping_small w a : fits w a -> wrapping w a = a.
Proof. unfold fits, wrapping, umax. intros. apply Z.mod_small. lia. Qed.

Lemma op_add_exact oc w a b : fits w (a + b) -> op_add oc w a b = Some (a + b).
Proof.
  intros H. unfold op_add. destruct oc.
  - apply checked_add_Some. unfold fits in H. lia.
  - by rewrite wrapping_small.
Qed.

Lemma op_sub_exact oc w a b : fits w (a - b) -> op_sub oc w a b = Some (a - b).
Proof.
  intros H. unfold op_sub. destruct oc.
  - apply checked_sub_Some. unfold fits in H. lia.
  - by rewrite wrapping_small.
Qed.

Lemma op_mul_exact oc w a b : fits w (a * b) -> op_mul oc w a b = Some (a * b).
Proof.
  intros H. unfold op_mul. destruct oc.
  - destruct (Z.leb_spec (a * b) (umax w)); [done|]. unfold fits in H. lia.
  - by rewrite wrapping_small.
Qed.

(** ** Lemmas on byte strings *)

Lemma length_to_le_bytes n z : length (to_le_bytes n z) = n.
Proof. revert z. induction n; intros; simpl; auto. Qed.

Lemma length_to_be_bytes n z : length (to_be_bytes n z) = n.
Proof. unfold to_be_bytes. by rewrite length_rev, length_to_le_bytes. Qed.

Lemma from_to_le_bytes n z : from_le_bytes (to_le_bytes n z) = z mod 256 ^ Z.of_nat n.
Proof.
  revert z. induction n as [|n IH]; intros z.
  - by rewrite Z.mod_1_r.
  - cbn [to_le_bytes from_le_bytes]. rewrite IH, Nat2Z.inj_succ, Z.pow_succ_r by lia.
    rewrite Z.rem_mul_r; lia.
Qed.

Lemma to_le_bytes_inj n a b :
  0 <= a < 256 ^ Z.of_nat n -> 0 <= b < 256 ^ Z.of_nat n ->
  to_le_bytes n a = to_le_bytes n b -> a = b.
Proof.
  intros Ha Hb Heq. apply (f_equal from_le_bytes) in Heq.
  rewrite !from_to_le_bytes in Heq. by rewrite !Z.mod_small in Heq.
Qed.

Lemma to_be_bytes_inj n a b :
  0 <= a < 256 ^ Z.of_nat n -> 0 <= b < 256 ^ Z.of_nat n ->
  to_be_bytes n a = to_be_bytes n b -> a = b.
Proof.
  unfold to_be_bytes. intros Ha Hb Heq. apply (f_equal (@rev Z)) in Heq.
  rewrite !rev_involutive in Heq. by eapply to_le_bytes_inj.
Qed.

Lemma from_le_bytes_bound l :
  Forall (fun b => 0 <= b < 256) l -> 0 <= from_le_bytes l < 256 ^ Z.of_nat (length l).
Proof.
  induction 1 as [|b l Hb _ IH]; [done|].
  cbn [from_le_bytes length]. rewrite Nat2Z.inj_succ, Z.pow_succ_r by lia. lia.
Qed.

(** ** Lemmas on handlers *)

Lemma bind_Ok {S E A B} (m : M S E A) (k : A -> M S E B) s b s' :
  (m ≫= k) s = Ok b s' <-> exists a s1, m s = Ok a s1 /\ k a s1 = Ok b s'.
Proof.
  unfold mbind, M_bind. split.
  - intros. destruct (m s); naive_solver.
  - intros (a & s1 & -> & ?). done.
Qed.

Lemma zoom_Ok {S E X E' A} (get : S -> X) set (f : E' -> E) (m : M X E' A) s a s' :
  zoom get set f m s = Ok a s' -> exists x, m (get s) = Ok a x /\ s' = set x s.
Proof. unfold zoom. destruct (m (get s)); [|done..]. intros [= <- <-]. eauto. Qed.

Lemma bind_Err {S E A B} (m : M S E A) (k : A -> M S E B) s e s' :
  (m ≫= k) s = Err e s' <->
  m s = Err e s' \/ exists a s1, m s = Ok a s1 /\ k a s1 = Err e s'.
Proof.
  unfold mbind, M_bind. split.
  - intros. destruct (m s); naive_solver.
  - intros [-> | (a & s1 & -> & ?)]; done.
Qed.

(** Take a successful run apart. *)
Ltac inv_ok_step :=
  match goal with
  | Hr : (_ ≫= _) _ = Ok _ _ |- _ => apply bind_Ok in Hr as (? & ? & ? & ?)
  | Hr : mret _ _ = Ok _ _ |- _ => first [injection Hr as <- <-|injection Hr as <-|injection Hr as ? ?]
  | Hr : gets _ _ = Ok _ _ |- _ => injection Hr as <- <-
  | Hr : modify _ _ = Ok _ _ |- _ => injection Hr as <- <-
  | Hr : fail _ _ = Ok _ _ |- _ => discriminate Hr
  | Hr : panic _ = Ok _ _ |- _ => discriminate Hr
  | Hr : ensure ?b _ _ = Ok _ _ |- _ =>
      unfold ensure in Hr; destruct b eqn:?; [injection Hr as <- <-|discriminate Hr]
  | Hr : assert ?b _ = Ok _ _ |- _ =>
      unfold assert in Hr; destruct b eqn:?; [injection Hr as <- <-|discriminate Hr]
  | Hr : ok_or ?o _ _ = Ok _ _ |- _ =>
      unfold ok_or in Hr; destruct o eqn:?; [first [injection Hr as <- <-|injection Hr as -> <-]|discriminate Hr]
  | Hr : try_ ?o _ = Ok _ _ |- _ =>
      unfold try_ in Hr; destruct o eqn:?; [discriminate Hr|first [injection Hr as <- <-|injection Hr as -> <-]]
  | Hr : expect ?o _ = Ok _ _ |- _ =>
      unfold expect in Hr; destruct o eqn:?; [first [injection Hr as <- <-|injection Hr as -> <-]|discriminate Hr]
  end.

Ltac inv_ok := repeat inv_ok_step.

Section Handlers.
Context {S E A B : Type}.
Implicit Types (m : M S E A) (k : A -> M S E B).

Lemma transactional_atomic m : err_atomic (transactional m).
Proof. intros s e s' H. unfold transactional in H. case_match; by simplify_eq. Qed.

(** A handler that is already atomic needs no transactional layer. *)
Lemma transactional_id m s : err_atomic m -> transactional m s = m s.
Proof.
  intros Hm. unfold transactional. destruct (m s) eqn:Hs; [done| |done].
  by rewrite (Hm _ _ _ Hs).
Qed.

Lemma err_atomic_bind m k :
  read_only m -> (forall a, err_atomic (k a)) -> err_atomic (m ≫= k).
Proof.
  intros Hm Hk s e s' [He | (a & s1 & He & Hk')]%bind_Err.
  - specialize (Hm s). by rewrite He in Hm.
  - specialize (Hm s). rewrite He in Hm. subst s1. by eapply Hk.
Qed.

Lemma err_atomic_bind_r m k :
  err_atomic m -> (forall a, no_err (k a)) -> err_atomic (m ≫= k).
Proof.
  intros Hm Hk s e s' [He | (a & s1 & He & Hk')]%bind_Err; [by eapply Hm|].
  by apply Hk in Hk'.
Qed.

Lemma no_err_bind m k : no_err m -> (forall a, no_err (k a)) -> no_err (m ≫= k).
Proof.
  intros Hm Hk s e s' [He | (a & s1 & He & Hk')]%bind_Err.
  - by apply Hm in He.
  - by apply Hk in Hk'.
Qed.

Lemma no_err_atomic m : no_err m -> err_atomic m.
Proof. intros Hm s e s' H. by apply Hm in H. Qed.

Lemma preserves_bind I m k :
  preserves I m -> (forall a, preserves I (k a)) -> preserves I (m ≫= k).
Proof.
  intros Hm Hk s Hs. specialize (Hm s Hs). unfold mbind, M_bind.
  destruct (m s); auto. by apply Hk.
Qed.

Lemma preserves_Ok I m s a s' : preserves I m -> I s -> m s = Ok a s' -> I s'.
Proof. intros Hm Hs Hr. specialize (Hm s Hs). by rewrite Hr in Hm. Qed.

Lemma preserves_final I m s : preserves I m -> I s -> I (final_state m s).
Proof. intros Hm Hs. specialize (Hm s Hs). unfold final_state. by destruct (m s). Qed.

(** An atomic handler keeps [I] as soon as its successes do. *)
Lemma preserves_atomic (I : S -> Prop) m :
  err_atomic m -> (forall s a s', I s -> m s = Ok a s' -> I s') -> preserves I m.
Proof.
  intros Ha Hm s Hs. destruct (m s) eqn:Hr; eauto.
  by rewrite (Ha _ _ _ Hr).
Qed.

Lemma keeps_bind I m k : keeps I m -> (forall a, keeps I (k a)) -> keeps I (m ≫= k).
Proof. intros Hm Hk s b s' Hs (a & s1 & H1 & H2)%bind_Ok. eapply Hk; [|exact H2]. by eapply Hm. Qed.

Lemma read_only_keeps I m : read_only m -> keeps I m.
Proof. intros Hm s a s' Hs Hr. specialize (Hm s). rewrite Hr in Hm. by rewrite Hm. Qed.

Lemma read_only_preserves I m : read_only m -> preserves I m.
Proof. intros Hm s Hs. specialize (Hm s). destruct (m s); congruence. Qed.
End Handlers.

Section ReadOnly.
Context {S E : Type}.

Lemma read_only_ret {A} (a : A) : read_only (E := E) (mret a : M S E A).
Proof. done. Qed.

Lemma read_only_gets {A} (f : S -> A) : read_only (E := E) (gets f).
Proof. done. Qed.

Lemma read_only_fail {A} (e : E) : read_only (S := S) (A := A) (fail e).
Proof. done. Qed.

Lemma read_only_panic {A} : read_only (S := S) (E := E) (A := A) panic.
Proof. done. Qed.

Lemma read_only_ensure b (e : E) : read_only (S := S) (ensure b e).
Proof. by destruct b. Qed.

Lemma read_only_assert b : read_only (S := S) (E := E) (assert b).
Proof. by destruct b. Qed.

Lemma read_only_ok_or {A} (o : option A) (e : E) : read_only (S := S) (ok_or o e).
Proof. by destruct o. Qed.

Lemma read_only_try {A} (r : E + A) : read_only (S := S) (try_ r).
Proof. by destruct r. Qed.

Lemma read_only_expect {A} (o : option A) : read_only (S := S) (E := E) (expect o).
Proof. by destruct o. Qed.

Lemma no_err_modify (f : S -> S) : no_err (E := E) (modify f).
Proof. done. Qed.

Lemma no_err_ret {A} (a : A) : no_err (mret a : M S E A).
Proof. done. Qed.

Lemma no_err_gets {A} (f : S -> A) : no_err (E := E) (gets f).
Proof. done. Qed.

Lemma no_err_expect {A} (o : option A) : no_err (S := S) (E := E) (expect o).
Proof. by destruct o. Qed.

Lemma no_err_attempt {E' A} (m : M S E' A) : no_err (E := E) (attempt m).
Proof. intros s e s' H. unfold attempt in H. by case_match. Qed.

Lemma no_err_assert b : no_err (S := S) (E := E) (assert b).
Proof. by destruct b. Qed.
End ReadOnly.

(** ** Successful runs *)
Section Runs.
Context {S E : Type}.

Lemma runs_bind {A B} (m : M S E A) (k : A -> M S E B) Q s :
  runs (m ≫= k) Q s <-> runs m (fun a => runs (k a) Q) s.
Proof. unfold runs, mbind, M_bind. by destruct (m s). Qed.

Lemma runs_mono {A} (m : M S E A) (Q R : A -> S -> Prop) s :
  runs m Q s -> (forall a s', Q a s' -> R a s') -> runs m R s.
Proof. unfold runs. destruct (m s); naive_solver. Qed.

Lemma runs_Ok {A} (m : M S E A) Q s : runs m Q s <-> exists a s', m s = Ok a s' /\ Q a s'.
Proof. unfold runs. destruct (m s); naive_solver. Qed.

Lemma runs_ensure b (e : E) (Q : unit -> S -> Prop) s : runs (ensure b e) Q s <-> b = true /\ Q tt s.
Proof. unfold runs, ensure. destruct b; naive_solver. Qed.

Lemma runs_assert b (Q : unit -> S -> Prop) s : runs (E := E) (assert b) Q s <-> b = true /\ Q tt s.
Proof. unfold runs, assert. destruct b; naive_solver. Qed.

Lemma runs_ok_or {A} (o : option A) (e : E) (Q : A -> S -> Prop) s :
  runs (ok_or o e) Q s <-> exists a, o = Some a /\ Q a s.
Proof. unfold runs, ok_or. destruct o; naive_solver. Qed.

Lemma runs_expect {A} (o : option A) (Q : A -> S -> Prop) s :
  runs (E := E) (expect o) Q s <-> exists a, o = Some a /\ Q a s.
Proof. unfold runs, expect. destruct o; naive_solver. Qed.

Lemma runs_transactional {A} (m : M S E A) Q s : runs (transactional m) Q s <-> runs m Q s.
Proof. unfold runs, transactional. by destruct (m s). Qed.
End Runs.

(** [auto with handler] proves [read_only], [no_err] and [err_atomic] goals
    along the structure of the code. *)
Create HintDb handler.
#[export] Hint Resolve read_only_ret read_only_gets read_only_fail read_only_panic
  read_only_ensure read_only_assert read_only_ok_or read_only_try read_only_expect : handler.
#[export] Hint Resolve no_err_modify no_err_ret no_err_gets no_err_expect
  no_err_assert no_err_attempt no_err_bind : handler.
#[export] Hint Resolve transactional_atomic no_err_atomic : handler.
#[export] Hint Extern 4 (err_atomic (_ ≫= _)) =>
  first [ apply err_atomic_bind; [solve [auto with handler] | intro]
        | apply err_atomic_bind_r; [|intro; solve [auto 8 with handler]] ] : handler.

(** Rule induction: what every step keeps holds after any number of steps. *)
Lemma rtc_invariant {A} (R : relation A) (I : A -> Prop) x y :
  (forall a b, I a -> R a b -> I b) -> rtc R x y -> I x -> I y.
Proof. intros Hstep. induction 1; eauto. Qed.

(** ** Counters that are used up one by one

    Steps [tx] over a state with a counter; those that [hit] use the counter's value. *)
Section Counters.
Context {S Tx : Type} (exec_tx : S -> Tx -> S) (count : S -> Z) (hit : S -> Tx -> bool).

Fixpoint hits (s : S) (txs : list Tx) : list (Z * Tx) :=
  match txs with
  | [] => []
  | tx :: txs => (if hit s tx then [(count s, tx)] else []) ++ hits (exec_tx s tx) txs
  end.

(** If each hit, and nothing else, advances the counter, the values used are
    consecutive; and what holds of one hit holds of all. *)
Lemma hits_consecutive (P : Tx -> Prop) (Q : Z -> Tx -> Prop) s txs :
  (forall s tx, P tx -> count (exec_tx s tx) = count s + (if hit s tx then 1 else 0)) ->
  (forall s tx, P tx -> hit s tx = true -> Q (count s) tx) ->
  Forall P txs ->
  (hits s txs).*1 = seqZ (count s) (Z.of_nat (length (hits s txs))) /\
  count (foldl exec_tx s txs) = count s + Z.of_nat (length (hits s txs)) /\
  Forall (fun '(n, tx) => Q n tx) (hits s txs).
Proof.
  intros Hcount HQ Htxs. revert s.
  induction Htxs as [|tx txs Hok _ IH]; intros s; [simpl; split; [done|split; [lia|constructor]]|].
  specialize (Hcount s tx Hok). specialize (HQ s tx Hok). cbn [hits foldl].
  destruct (IH (exec_tx s tx)) as (IH1 & IH2 & IH3).
  destruct (hit s tx); simpl; rewrite Hcount in IH1, IH2.
  - split; [|split].
    + rewrite seqZ_cons by lia. f_equal. etransitivity; [exact IH1|]. f_equal; lia.
    + rewrite IH2. lia.
    + constructor; auto.
  - rewrite Z.add_0_r in *. auto.
Qed.
End Counters.

(** ** Lemmas on [map_sum] *)
Section MapSum.
Context {K V : Type} `{Countable K}.
Implicit Types (m : gmap K V) (f : K -> V -> Z).

Lemma map_sum_empty f : map_sum f ∅ = 0.
Proof. apply map_fold_empty. Qed.

Lemma map_sum_insert f m k v :
  m !! k = None -> map_sum f (<[k := v]> m) = f k v + map_sum f m.
Proof.
  intros. unfold map_sum. rewrite map_fold_insert_L; [done| |done].
  intros. lia.
Qed.

Lemma map_sum_delete f m k v :
  m !! k = Some v -> map_sum f (delete k m) = map_sum f m - f k v.
Proof.
  intros Hk. rewrite <- (insert_delete_id m k v Hk) at 2.
  rewrite map_sum_insert by apply lookup_delete_eq. lia.
Qed.

(** Overwriting: the old value's contribution goes, the new one's comes. *)
Lemma map_sum_insert_any f m k v :
  map_sum f (<[k := v]> m) = f k v + map_sum f m - from_option (f k) 0 (m !! k).
Proof.
  destruct (m !! k) as [w|] eqn:Hk; simpl.
  - rewrite <- insert_delete_eq, map_sum_insert by apply lookup_delete_eq.
    rewrite (map_sum_delete f m k w) by done. lia.
  - rewrite map_sum_insert by done. lia.
Qed.

Lemma map_sum_nonneg f m :
  (forall k v, m !! k = Some v -> 0 <= f k v) -> 0 <= map_sum f m.
Proof.
  induction m as [|k v m Hk IH] using map_ind; intros Hf.
  - by rewrite map_sum_empty.
  - rewrite map_sum_insert by done.
    assert (0 <= f k v) by (apply Hf; by simplify_map_eq).
    assert (0 <= map_sum f m); [|lia].
    apply IH. intros k' v' Hk'. apply Hf. destruct (decide (k = k')); by simplify_map_eq.
Qed.

(** A summand is at most the sum. *)
Lemma map_sum_lookup_le f m k v :
  (forall k v, m !! k = Some v -> 0 <= f k v) -> m !! k = Some v -> f k v <= map_sum f m.
Proof.
  intros Hf Hk. pose proof (map_sum_delete f m k v Hk).
  assert (0 <= map_sum f (delete k m)); [|lia].
  apply map_sum_nonneg. intros k' v' [_ ?]%lookup_delete_Some. eauto.
Qed.

Lemma map_sum_ext f g m :
  (forall k v, m !! k = Some v -> f k v = g k v) -> map_sum f m = map_sum g m.
Proof.
  induction m as [|k v m Hk IH] using map_ind; intros Hf.
  - by rewrite !map_sum_empty.
  - rewrite !map_sum_insert by done. rewrite Hf by (by simplify_map_eq).
    rewrite IH; [done|]. intros k' v' Hk'. apply Hf.
    destruct (decide (k = k')); by simplify_map_eq.
Qed.

(** A sum of ones counts at most the entries. *)
Lemma map_sum_le_size f m :
  (forall k v, m !! k = Some v -> f k v <= 1) -> map_sum f m <= Z.of_nat (size m).
Proof.
  induction m as [|k v m Hk IH] using map_ind; intros Hf.
  - rewrite map_sum_empty. lia.
  - rewrite map_sum_insert, map_size_insert_None by done.
    assert (f k v <= 1) by (apply Hf; by simplify_map_eq).
    assert (map_sum f m <= Z.of_nat (size m)); [|lia].
    apply IH. intros k' v' Hk'. apply Hf. destruct (decide (k = k')); by simplify_map_eq.
Qed.
End MapSum.
