(* ===== verification/Interfaces.v ===== *)
(** * The interfaces to code outside the repository

    The code reaches balances through the traits [ReservableCurrency] and
    [Currency] of the runtime framework, and bytes through the SCALE codec; neither
    is part of this repository.  Each is a class of operations; its documented
    behaviour is a class of laws.  The clients' theorems are proved against the
    laws.  [Ledger] and [fixed_codec] are concrete implementations that satisfy
    them, used to evaluate the handlers on concrete inputs. *)
From Stdlib Require Import ZArith Lia.
From stdpp Require Import prelude gmap fin_maps sorting.
From S2P Require Import Prelude.

Local Open Scope Z_scope.

(** ** [ReservableCurrency]: the deposit side *)
Class ReservableCurrency (A L : Type) := {
  reserved_balance : L -> A -> Z;
  (** [None] is the error, whose payload the code discards *)
  reserve : L -> A -> Z -> option L;
  (** the part that could not be unreserved is returned and ignored *)
  unreserve : L -> A -> Z -> L;
}.

Class ReservableCurrencyLaws (A L : Type) `{EqDecision A} `{ReservableCurrency A L} : Prop := {
  (** a successful [reserve] moves exactly [v] into the reserve of [a] *)
  reserve_spec c a v c' b :
    0 <= v -> reserve c a v = Some c' ->
    reserved_balance c' b = reserved_balance c b + (if decide (a = b) then v else 0);
  (** [unreserve] releases up to [v] *)
  unreserve_spec c a v b :
    0 <= v ->
    reserved_balance (unreserve c a v) b =
      reserved_balance c b - (if decide (a = b) then Z.min v (reserved_balance c a) else 0);
}.

(** ** [Currency]: transfers with [ExistenceRequirement::KeepAlive] *)
Class Currency (A L X : Type) := {
  free_balance : L -> A -> Z;
  transfer : L -> A -> A -> Z -> X + L;
}.

Class CurrencyLaws (A L X : Type) `{EqDecision A} `{Currency A L X} : Prop := {
  free_balance_nonneg c a : 0 <= free_balance c a;
  (** a successful transfer moves exactly [v] from [a] to [b] *)
  transfer_spec c a b v c' x :
    0 <= v -> transfer c a b v = inr c' ->
    free_balance c' x =
      free_balance c x - (if decide (a = x) then v else 0)
                       + (if decide (b = x) then v else 0);
}.

(** ** A concrete ledger

    Accounts are integers; a missing entry is a zero balance.  [KeepAlive] keeps
    the source at or above an existential deposit of 1. *)
Record Ledger := mkLedger {
  l_free : gmap Z Z;
  l_reserved : gmap Z Z;
}.

Definition bal (m : gmap Z Z) (a : Z) : Z := Z.max 0 (default 0 (m !! a)).

Definition credit (m : gmap Z Z) (a v : Z) : gmap Z Z := <[a := bal m a + v]> m.

#[export] Instance ledger_reservable : ReservableCurrency Z Ledger := {
  reserved_balance c a := bal (l_reserved c) a;
  reserve c a v :=
    if v <=? bal (l_free c) a
    then Some (mkLedger (credit (l_free c) a (- v)) (credit (l_reserved c) a v))
    else None;
  unreserve c a v :=
    let v' := Z.min v (bal (l_reserved c) a) in
    mkLedger (credit (l_free c) a v') (credit (l_reserved c) a (- v'));
}.

#[export] Instance ledger_currency : Currency Z Ledger unit := {
  free_balance c a := bal (l_free c) a;
  transfer c a b v :=
    if decide (a = b) then inr c
    else if v + 1 <=? bal (l_free c) a
    then inr (mkLedger (credit (credit (l_free c) a (- v)) b v) (l_reserved c))
    else inl tt;
}.

Lemma bal_nonneg m a : 0 <= bal m a.
Proof. unfold bal. lia. Qed.

Lemma bal_credit m a v x :
  0 <= bal m a + v -> bal (credit m a v) x = bal m x + (if decide (a = x) then v else 0).
Proof.
  intros Hv. unfold credit. unfold bal at 1. case_decide; subst.
  - rewrite lookup_insert_eq. simpl. lia.
  - rewrite lookup_insert_ne by done. unfold bal. lia.
Qed.

#[export] Instance ledger_reservable_laws : ReservableCurrencyLaws Z Ledger.
Proof.
  split.
  - intros c a v c' b Hv Hr. simpl in *. case_match; simplify_eq; simpl; bool_to_prop.
    apply bal_credit. pose proof (bal_nonneg (l_reserved c) a). lia.
  - intros c a v b Hv. simpl. rewrite bal_credit.
    + case_decide; lia.
    + pose proof (bal_nonneg (l_reserved c) a). lia.
Qed.

#[export] Instance ledger_currency_laws : CurrencyLaws Z Ledger unit.
Proof.
  split.
  - intros. apply bal_nonneg.
  - intros c a b v c' x Hv Ht. simpl in *. case_decide; simplify_eq.
    { repeat case_decide; lia. }
    case_match; simplify_eq; simpl; bool_to_prop.
    assert (Ha : forall y, bal (credit (l_free c) a (- v)) y
      = bal (l_free c) y + (if decide (a = y) then - v else 0)).
    { intros y. apply bal_credit. lia. }
    pose proof (bal_nonneg (l_free c) b).
    rewrite bal_credit, Ha; [|rewrite Ha]; repeat case_decide; subst; done || lia.
Qed.

(** ** The SCALE codec of a type

    [decode] consumes a prefix of the input and returns the rest. *)
Class Codec (A : Type) := {
  encode : A -> list Z;
  decode : list Z -> option (A * list Z);
}.

Class CodecLaws (A : Type) `{Codec A} : Prop := {
  decode_encode a rest : decode (encode a ++ rest) = Some (a, rest);
}.

(** Types whose values are all encoded in the same number of bytes. *)
Class FixedSize (A : Type) `{Codec A} := {
  encoded_size : nat;
  length_encode a : length (encode a) = encoded_size;
}.
Arguments encoded_size A {_ _}.

(** A concrete codec: one byte per value. *)
Definition fixed_codec : Codec Z := {|
  encode a := [a];
  decode l := match l with [] => None | b :: l' => Some (b, l') end;
|}.

Lemma fixed_codec_laws : @CodecLaws Z fixed_codec.
Proof. by split. Qed.

(** ** The digest items of a block header

    [D] is the framework's digest item; the code builds items with three of its
    constructors and inspects them with the accessors below.  [*_try_to id]
    decodes the payload of an item of the right kind and engine. *)
Class DigestItemOps (D : Type) := {
  PreRuntime : list Z -> list Z -> D;
  Consensus : list Z -> list Z -> D;
  Seal : list Z -> list Z -> D;
  as_pre_runtime : D -> option (list Z * list Z);
  as_consensus : D -> option (list Z * list Z);
  pre_runtime_try_to : forall {A} `{Codec A}, D -> list Z -> option A;
  seal_try_to : forall {A} `{Codec A}, D -> list Z -> option A;
}.

Class DigestItemLaws (D : Type) `{DigestItemOps D} : Prop := {
  as_pre_runtime_PreRuntime i b : as_pre_runtime (PreRuntime i b) = Some (i, b);
  as_pre_runtime_Consensus i b : as_pre_runtime (Consensus i b) = None;
  as_pre_runtime_Seal i b : as_pre_runtime (Seal i b) = None;
  as_consensus_PreRuntime i b : as_consensus (PreRuntime i b) = None;
  as_consensus_Consensus i b : as_consensus (Consensus i b) = Some (i, b);
  as_consensus_Seal i b : as_consensus (Seal i b) = None;
  as_consensus_or_pre_runtime d : as_consensus d = None \/ as_pre_runtime d = None;
  pre_runtime_try_to_PreRuntime A `{Codec A} i b j :
    pre_runtime_try_to (A := A) (PreRuntime i b) j =
      if decide (i = j) then fst <$> decode b else None;
  pre_runtime_try_to_Consensus A `{Codec A} i b j :
    pre_runtime_try_to (A := A) (Consensus i b) j = None;
  pre_runtime_try_to_Seal A `{Codec A} i b j :
    pre_runtime_try_to (A := A) (Seal i b) j = None;
  seal_try_to_Seal A `{Codec A} i b j :
    seal_try_to (A := A) (Seal i b) j = if decide (i = j) then fst <$> decode b else None;
  seal_try_to_PreRuntime A `{Codec A} i b j : seal_try_to (A := A) (PreRuntime i b) j = None;
  seal_try_to_Consensus A `{Codec A} i b j : seal_try_to (A := A) (Consensus i b) j = None;
}.

(** A concrete digest item. *)
Inductive Item :=
  | IPre (id data : list Z)
  | ICons (id data : list Z)
  | ISeal (id data : list Z).

#[export] Instance item_digest : DigestItemOps Item := {|
  PreRuntime := IPre;
  Consensus := ICons;
  Seal := ISeal;
  as_pre_runtime d := match d with IPre i b => Some (i, b) | _ => None end;
  as_consensus d := match d with ICons i b => Some (i, b) | _ => None end;
  pre_runtime_try_to A _ d j :=
    match d with IPre i b => if decide (i = j) then fst <$> decode b else None | _ => None end;
  seal_try_to A _ d j :=
    match d with ISeal i b => if decide (i = j) then fst <$> decode b else None | _ => None end;
|}.

#[export] Instance item_digest_laws : DigestItemLaws Item.
Proof. split; try done. intros []; by (left + right). Qed.

(** ** Weights

    A weight has two [u64] components.  [weight_sub] is the operator [-], which
    panics ([None]) or wraps on underflow as the build [oc] has it. *)
Class WeightOps (Weight : Type) := {
  weight_zero : Weight;
  ref_time : Weight -> Z;
  proof_size : Weight -> Z;
  weight_saturating_add : Weight -> Weight -> Weight;
  weight_saturating_sub : Weight -> Weight -> Weight;
  weight_sub : bool -> Weight -> Weight -> option Weight;
}.

Class WeightLaws (Weight : Type) `{WeightOps Weight} : Prop := {
  ref_time_zero : ref_time (weight_zero : Weight) = 0;
  proof_size_zero : proof_size (weight_zero : Weight) = 0;
  ref_time_fits (a : Weight) : fits 64 (ref_time a);
  proof_size_fits (a : Weight) : fits 64 (proof_size a);
  ref_time_add (a b : Weight) :
    ref_time (weight_saturating_add a b) = saturating_add 64 (ref_time a) (ref_time b);
  proof_size_add (a b : Weight) :
    proof_size (weight_saturating_add a b) = saturating_add 64 (proof_size a) (proof_size b);
  ref_time_sub (a b : Weight) :
    ref_time (weight_saturating_sub a b) = saturating_sub (ref_time a) (ref_time b);
  proof_size_sub (a b : Weight) :
    proof_size (weight_saturating_sub a b) = saturating_sub (proof_size a) (proof_size b);
  weight_sub_spec oc (a b : Weight) :
    match weight_sub oc a b with
    | Some c => op_sub oc 64 (ref_time a) (ref_time b) = Some (ref_time c) /\
        op_sub oc 64 (proof_size a) (proof_size b) = Some (proof_size c)
    | None => op_sub oc 64 (ref_time a) (ref_time b) = None \/
        op_sub oc 64 (proof_size a) (proof_size b) = None
    end;
}.

(** Concrete weights: pairs of integers, read as the nearest [u64]. *)
Definition PairWeight : Type := Z * Z.

Definition u64_clamp (v : Z) : Z := Z.max 0 (Z.min v (umax 64)).

Lemma u64_clamp_fits v : fits 64 (u64_clamp v).
Proof. unfold fits, u64_clamp. pose proof (umax_nonneg 64). lia. Qed.

Lemma u64_clamp_id v : fits 64 v -> u64_clamp v = v.
Proof. unfold fits, u64_clamp. lia. Qed.

#[export] Instance pair_weight : WeightOps PairWeight := {|
  weight_zero := (0, 0);
  ref_time w := u64_clamp w.1;
  proof_size w := u64_clamp w.2;
  weight_saturating_add a b :=
    (saturating_add 64 (u64_clamp a.1) (u64_clamp b.1),
     saturating_add 64 (u64_clamp a.2) (u64_clamp b.2));
  weight_saturating_sub a b :=
    (saturating_sub (u64_clamp a.1) (u64_clamp b.1),
     saturating_sub (u64_clamp a.2) (u64_clamp b.2));
  weight_sub oc a b :=
    r ← op_sub oc 64 (u64_clamp a.1) (u64_clamp b.1);
    p ← op_sub oc 64 (u64_clamp a.2) (u64_clamp b.2);
    Some (r, p);
|}.

Lemma op_sub_fits oc a b c :
  fits 64 a -> fits 64 b -> op_sub oc 64 a b = Some c -> fits 64 c.
Proof.
  intros Ha Hb. unfold op_sub. destruct oc.
  - intros [-> ?]%checked_sub_Some. unfold fits in *. lia.
  - intros [= <-]. by apply wrapping_fits.
Qed.

Lemma saturating_add_fits a b : fits 64 a -> fits 64 b -> fits 64 (saturating_add 64 a b).
Proof. unfold fits, saturating_add. lia. Qed.

Lemma saturating_sub_fits a b : fits 64 a -> fits 64 b -> fits 64 (saturating_sub a b).
Proof. unfold fits, saturating_sub. lia. Qed.

#[export] Instance pair_weight_laws : WeightLaws PairWeight.
Proof.
  split; intros; try apply u64_clamp_fits; try done;
    try (apply u64_clamp_id; (apply saturating_add_fits || apply saturating_sub_fits);
         apply u64_clamp_fits).
  simpl. set (a1 := u64_clamp a.1). set (b1 := u64_clamp b.1).
  set (a2 := u64_clamp a.2). set (b2 := u64_clamp b.2).
  destruct (op_sub oc 64 a1 b1) as [r|] eqn:Hr; simpl; [|by left].
  destruct (op_sub oc 64 a2 b2) as [p|] eqn:Hp; simpl; [|by right].
  split; f_equal; symmetry; apply u64_clamp_id; eapply op_sub_fits; eauto using u64_clamp_fits;
    apply u64_clamp_fits.
Qed.
