(* ===== verification/NimbusPrimitives.v ===== *)
(** * The primitives shared by the pallets and the client

    Models [primitives/nimbus-primitives/src/{lib,digests,inherents}.rs] and
    [primitives/session-keys/src/{digest,vrf,inherent}.rs]: engine identifiers,
    the digest items that carry the author, the seal and the VRF output, the
    dummy inherents, and the traits through which the pallets see each other.
    A trait whose implementation reads storage is a class over a world [W]. *)
From Stdlib Require Import ZArith Lia.
From stdpp Require Import prelude gmap fin_maps sorting.
From S2P Require Import Prelude.
From S2P Require Import Interfaces.

Local Open Scope Z_scope.

(** ** Identifiers *)

(** [NIMBUS_ENGINE_ID = *b"nmbs"] *)
Definition NIMBUS_ENGINE_ID : list Z := [110; 109; 98; 115].

(** [VRF_ENGINE_ID = *b"rand"] *)
Definition VRF_ENGINE_ID : list Z := [114; 97; 110; 100].

(** [INHERENT_IDENTIFIER] of the author inherent: [*b"author__"] *)
Definition AUTHOR_INHERENT_IDENTIFIER : list Z := [97; 117; 116; 104; 111; 114; 95; 95].

(** [INHERENT_IDENTIFIER] of the randomness inherent: [*b"baberand"] *)
Definition BABE_INHERENT_IDENTIFIER : list Z := [98; 97; 98; 101; 114; 97; 110; 100].

(** [NIMBUS_KEY_ID] and [VRF_KEY_ID]: the key types are the engine ids. *)
Definition NIMBUS_KEY_ID : list Z := [110; 109; 98; 115].

Definition VRF_KEY_ID : list Z := VRF_ENGINE_ID.

(** ** The traits between pallets *)

(** [EventHandler<Author>]: it hears of the author of each block. *)
Class EventHandler (W Author : Type) := note_author : Author -> W -> W.

(** [impl EventHandler for ()] *)
Definition note_author_unit (Author : Type) : EventHandler unit Author := fun _ w => w.

(** [CanAuthor<AuthorId>]: [None] is a panic of the implementation. *)
Class CanAuthor (W AuthorId : Type) :=
  can_author : W -> AuthorId -> Z -> option bool.

(** [impl CanAuthor for ()] *)
Definition can_author_unit (AuthorId : Type) : CanAuthor unit AuthorId :=
  fun _ _ _ => Some true.

(** [AccountLookup<AccountId>] *)
Class AccountLookup (W NimbusId AccountId : Type) :=
  lookup_account : W -> NimbusId -> option AccountId.

(** [impl AccountLookup for ()] *)
Definition lookup_account_unit (NimbusId AccountId : Type) :
    AccountLookup unit NimbusId AccountId :=
  fun _ _ => None.

(** [KeysLookup<AuthorId, Keys>] *)
Class KeysLookup (W AuthorId Keys : Type) :=
  lookup_keys : W -> AuthorId -> option Keys.

(** [impl KeysLookup for ()] *)
Definition lookup_keys_unit (AuthorId Keys : Type) : KeysLookup unit AuthorId Keys :=
  fun _ _ => None.

(** [SlotBeacon]: any provider of a block number is a slot beacon. *)
Class SlotBeacon (W : Type) := slot : W -> Z.

Definition slot_of_block_number {W} (current_block_number : W -> Z) : SlotBeacon W :=
  current_block_number.

(** [DigestsProvider<Id, BlockHash>]: the digests to add to a block of [Id] *)
Class DigestsProvider (P Id BlockHash D : Type) :=
  provide_digests : P -> Id -> BlockHash -> list D.

(** [impl DigestsProvider for ()] *)
#[export] Instance no_digests Id BlockHash D : DigestsProvider unit Id BlockHash D :=
  fun _ _ _ => [].

(** [impl DigestsProvider for F: Fn(Id, BlockHash) -> D] *)
#[export] Instance digests_of_function Id BlockHash D :
    DigestsProvider (Id -> BlockHash -> list D) Id BlockHash D :=
  fun f id parent => f id parent.

#[global] Arguments can_author {_ _ _} _ _ _ : simpl never.
#[global] Arguments lookup_account {_ _ _ _} _ _ : simpl never.
#[global] Arguments slot {_ _} _ : simpl never.

(** ** Nimbus digests *)
Section Digests.
Context {D NimbusId NimbusSignature PreDigest VrfSignature : Type}.
Context `{DigestItemOps D} `{Codec NimbusId} `{Codec NimbusSignature}.
Context `{Codec PreDigest} `{Codec VrfSignature}.

Definition nimbus_pre_digest (author : NimbusId) : D :=
  PreRuntime NIMBUS_ENGINE_ID (encode author).

Definition as_nimbus_pre_digest (d : D) : option NimbusId :=
  pre_runtime_try_to d NIMBUS_ENGINE_ID.

Definition nimbus_seal (signature : NimbusSignature) : D :=
  Seal NIMBUS_ENGINE_ID (encode signature).

Definition as_nimbus_seal (d : D) : option NimbusSignature :=
  seal_try_to d NIMBUS_ENGINE_ID.

Definition nimbus_consensus_digest (author : NimbusId) : D :=
  Consensus NIMBUS_ENGINE_ID (encode author).

(** The code calls the pre-runtime accessor here. *)
Definition as_nimbus_consensus_digest (d : D) : option NimbusId :=
  pre_runtime_try_to d NIMBUS_ENGINE_ID.

(** *** VRF digests *)
Definition vrf_pre_digest (digest : PreDigest) : D :=
  PreRuntime VRF_ENGINE_ID (encode digest).

Definition as_vrf_pre_digest (d : D) : option PreDigest :=
  pre_runtime_try_to d VRF_ENGINE_ID.

Definition vrf_seal (signature : VrfSignature) : D :=
  Seal VRF_ENGINE_ID (encode signature).

Definition as_vrf_seal (d : D) : option VrfSignature :=
  seal_try_to d VRF_ENGINE_ID.
End Digests.

(** ** VRF transcripts and keys

    [VrfInput::new] is a parameter: it takes a label and labelled bytes. *)
Section Vrf.
Context {VrfInput VrfSignData : Type} (new_input : list Z -> list (list Z * list Z) -> VrfInput).
Context (sign_data : VrfInput -> VrfSignData).

(** [*b"last vrf output"] *)
Definition LAST_VRF_OUTPUT_LABEL : list Z :=
  [108; 97; 115; 116; 32; 118; 114; 102; 32; 111; 117; 116; 112; 117; 116].

(** [*b"VRFInOutContext"] *)
Definition VRF_INOUT_CONTEXT : list Z :=
  [86; 82; 70; 73; 110; 79; 117; 116; 67; 111; 110; 116; 101; 120; 116].

Definition make_vrf_transcript (last_vrf_output : list Z) : VrfInput :=
  new_input VRF_ENGINE_ID [(LAST_VRF_OUTPUT_LABEL, last_vrf_output)].

Definition make_vrf_sign_data (last_vrf_output : list Z) : VrfSignData :=
  sign_data (make_vrf_transcript last_vrf_output).

(** [impl From<NimbusId> for VrfId]: both keys wrap the same 32 bytes. *)
Record NimbusKey := mkNimbusKey { nimbus_bytes : list Z }.
Record VrfKey := mkVrfKey { vrf_bytes : list Z }.

Definition vrf_of_nimbus (nimbus_id : NimbusKey) : VrfKey := mkVrfKey (nimbus_bytes nimbus_id).

(** Different outputs have different transcripts, and different authors different keys. *)
Lemma vrf_injective :
  (forall l l' i i', new_input l i = new_input l' i' -> l = l' /\ i = i') ->
  (forall a b, make_vrf_transcript a = make_vrf_transcript b -> a = b) /\
  (forall m n, vrf_of_nimbus m = vrf_of_nimbus n -> m = n).
Proof.
  intros Hinj. split; [by intros a b [_ [= ->]]%Hinj|]. intros [m] [n]. unfold vrf_of_nimbus. simpl. congruence.
Qed.
End Vrf.

(** ** Inherents

    The inherent data is a map from identifier to bytes; [put_data] of the
    framework is a parameter. *)
Section Inherents.
Context {InherentData E : Type} (put_data : InherentData -> list Z -> E + InherentData).

(** [InherentDataProvider::provide_inherent_data] of both crates. *)
Definition provide_author_inherent (d : InherentData) : E + InherentData :=
  put_data d AUTHOR_INHERENT_IDENTIFIER.

Definition provide_babe_inherent (d : InherentData) : E + InherentData :=
  put_data d BABE_INHERENT_IDENTIFIER.

(** [try_handle_error]: [None] leaves the error to another provider; every error
    of the own inherent is fatal. *)
Definition try_handle_author_error (fatal : E) (identifier : list Z) : option (E + unit) :=
  if bool_decide (identifier <> AUTHOR_INHERENT_IDENTIFIER) then None else Some (inl fatal).

Definition try_handle_babe_error (fatal : E) (identifier : list Z) : option (E + unit) :=
  if bool_decide (identifier <> BABE_INHERENT_IDENTIFIER) then None else Some (inl fatal).
End Inherents.

(** [InherentError] and its [IsFatalError] (both crates). *)
Inductive InherentError := Other (msg : list Z).

Definition is_fatal_error (e : InherentError) : bool :=
  match e with Other _ => true end.

Definition inherent_error_try_from `{Codec InherentError}
    (own id : list Z) (data : list Z) : option InherentError :=
  if bool_decide (id = own) then fst <$> decode data else None.

(** ** Properties *)
Section Properties.
Context {D NimbusId NimbusSignature PreDigest VrfSignature : Type}.
Context `{!DigestItemOps D} `{!DigestItemLaws D}.
Context `{!Codec NimbusId} `{!CodecLaws NimbusId}.
Context `{!Codec NimbusSignature} `{!CodecLaws NimbusSignature}.
Context `{!Codec PreDigest} `{!CodecLaws PreDigest}.
Context `{!Codec VrfSignature} `{!CodecLaws VrfSignature}.

Lemma decode_encode_nil {A} `{!Codec A} `{!CodecLaws A} (a : A) :
  fst <$> decode (encode a) = Some a.
Proof. by rewrite <- (app_nil_r (encode a)), decode_encode. Qed.

(** The digest items round-trip and do not get confused: a pre-digest, seal,
    VRF pre-digest and VRF seal each give back what was put in, no accessor reads
    an item of another kind or engine, and the consensus accessor reads
    pre-runtime items, so it never reads a consensus digest. *)
Theorem digests_roundtrip (a : NimbusId) (sig : NimbusSignature) (p : PreDigest)
    (v : VrfSignature) :
  as_nimbus_pre_digest (nimbus_pre_digest a : D) = Some a /\
  as_nimbus_seal (nimbus_seal sig : D) = Some sig /\
  as_vrf_pre_digest (vrf_pre_digest p : D) = Some p /\
  as_vrf_seal (vrf_seal v : D) = Some v /\
  as_nimbus_seal (NimbusSignature := NimbusSignature) (nimbus_pre_digest a : D) = None /\
  as_nimbus_pre_digest (NimbusId := NimbusId) (nimbus_seal sig : D) = None /\
  as_nimbus_pre_digest (NimbusId := NimbusId) (vrf_pre_digest p : D) = None /\
  as_vrf_pre_digest (PreDigest := PreDigest) (nimbus_pre_digest a : D) = None /\
  as_nimbus_consensus_digest (NimbusId := NimbusId) (nimbus_consensus_digest a : D) = None /\
  as_nimbus_consensus_digest (nimbus_pre_digest a : D) = Some a.
Proof.
  unfold as_nimbus_pre_digest, as_nimbus_seal, as_vrf_pre_digest, as_vrf_seal,
    as_nimbus_consensus_digest, nimbus_pre_digest, nimbus_seal, vrf_pre_digest, vrf_seal,
    nimbus_consensus_digest.
  rewrite !pre_runtime_try_to_PreRuntime, !seal_try_to_Seal, seal_try_to_PreRuntime,
    pre_runtime_try_to_Seal, pre_runtime_try_to_Consensus.
  repeat case_decide; try done. by rewrite !decode_encode_nil.
Qed.
End Properties.

Section Witnesses.
#[local] Existing Instance fixed_codec.
#[local] Existing Instance fixed_codec_laws.

Lemma digests_roundtrip_witness :
  as_nimbus_pre_digest (nimbus_pre_digest 3 : Item) = Some 3 /\
  as_nimbus_consensus_digest (NimbusId := Z) (nimbus_consensus_digest 3 : Item) = None.
Proof.
  destruct (digests_roundtrip (D := Item) 3 4 5 6)
    as (H1 & _ & _ & _ & _ & _ & _ & _ & H2 & _).
  split; [exact H1|exact H2].
Defined.
End Witnesses.
