(* ===== verification/XcmPrimitives.v ===== *)
(** * The traits of the XCM primitives ([primitives/xcm/src/lib.rs])

    The trait through which the maintenance-mode and migrations pallets suspend
    and resume the execution of XCM messages, and the conversion between accounts and
    the assets whose contracts they are. *)
From Stdlib Require Import ZArith Lia.
From stdpp Require Import prelude gmap fin_maps sorting.
From S2P Require Import Prelude.

(** [PauseXcmExecution]: [X] is the state of the implementation. *)
Class PauseXcmExecution (X E : Type) := {
  suspend_xcm_execution : M X E unit;
  resume_xcm_execution : M X E unit;
}.

(** [impl PauseXcmExecution for ()] *)
#[export] Instance pause_xcm_unit (E : Type) : PauseXcmExecution unit E := {
  suspend_xcm_execution := mret tt;
  resume_xcm_execution := mret tt;
}.

(** [AccountIdAssetIdConversion]: the prefix of an asset's account and its id. *)
Class AccountIdAssetIdConversion (Account AssetId : Type) := {
  account_to_asset_id : Account -> option (list Z * AssetId);
  asset_id_to_account : list Z -> AssetId -> Account;
}.

(** What an implementation promises: [xcm_suspended] is what it switches, a failed
    call leaves it alone, and no call panics. *)
Class PauseXcmLaws (X E : Type) `{PauseXcmExecution X E} (xcm_suspended : X -> bool) : Prop := {
  suspend_spec x :
    match suspend_xcm_execution x with
    | Ok _ x' => xcm_suspended x' = true
    | Err _ x' => xcm_suspended x' = xcm_suspended x
    | Panic => False
    end;
  resume_spec x :
    match resume_xcm_execution x with
    | Ok _ x' => xcm_suspended x' = false
    | Err _ x' => xcm_suspended x' = xcm_suspended x
    | Panic => False
    end;
}.

(** A concrete implementation: a flag and a switch that makes the calls fail. *)
Definition switch : Type := bool * bool.

#[export] Instance switch_pause : PauseXcmExecution switch unit := {
  suspend_xcm_execution x := if x.2 then Err tt x else Ok tt (true, x.2);
  resume_xcm_execution x := if x.2 then Err tt x else Ok tt (false, x.2);
}.

#[export] Instance switch_pause_laws : PauseXcmLaws switch unit fst.
Proof. split; by intros [b []]. Qed.
