(* ===== verification/AuthorMapping.v ===== *)
(** * The author-mapping pallet ([pallets/author-mapping/src/lib.rs])

    The pallet maps the [NimbusId]s of the consensus layer to accounts, takes a
    security deposit per registration, and keeps the reverse lookup.

    Reading guide: [State] is the pallet's storage together with the ledger that
    holds the deposits and the event log; [register_keys], [rotate_keys],
    [rm_keys] and [enact_registration] are the internal functions; the five
    dispatchables are gathered by [Call] and [dispatch]; [genesis_build] is the
    genesis hook.  Encoding of keys goes through the abstract [Codec]. *)
From Stdlib Require Import ZArith Lia.
From stdpp Require Import prelude gmap fin_maps sorting.
From S2P Require Import Prelude.
From S2P Require Import Interfaces.
From S2P Require Import NimbusPrimitives.

Local Open Scope Z_scope.

(** [RegistrationInfo] *)
Record RegistrationInfo (AccountId Keys : Type) := mkInfo {
  account : AccountId;
  deposit : Z;
  keys : Keys;
}.
Arguments mkInfo {_ _} _ _ _.
Arguments account {_ _} _.
Arguments deposit {_ _} _.
Arguments keys {_ _} _.

(** The pallet's configuration: the runtime's deposit amount, the sizes of the two types
    in memory ([mem::size_of], which need not be those of their encodings), the conversion
    from a [NimbusId] to default keys, and the origin check. *)
Record Config (Origin AccountId NimbusId Keys : Type) := mkConfig {
  DepositAmount : Z;
  size_of_NimbusId : nat;
  size_of_Keys : nat;
  keys_from : NimbusId -> Keys;
  ensure_signed : Origin -> option AccountId;
}.
Arguments mkConfig {_ _ _ _} _ _ _ _ _.
Arguments DepositAmount {_ _ _ _} _.
Arguments size_of_NimbusId {_ _ _ _} _.
Arguments size_of_Keys {_ _ _ _} _.
Arguments keys_from {_ _ _ _} _ _.
Arguments ensure_signed {_ _ _ _} _ _.

Inductive Error :=
  | AssociationNotFound
  | NotYourAssociation
  | CannotAffordSecurityDeposit
  | AlreadyAssociated
  | OldAuthorIdNotFound
  | WrongKeySize
  | DecodeNimbusFailed
  | DecodeKeysFailed.

Inductive Event (AccountId NimbusId Keys : Type) :=
  | KeysRegistered (nimbus_id : NimbusId) (account_id : AccountId) (ks : Keys)
  | KeysRemoved (nimbus_id : NimbusId) (account_id : AccountId) (ks : Keys)
  | KeysRotated (new_nimbus_id : NimbusId) (account_id : AccountId) (new_keys : Keys).
Arguments KeysRegistered {_ _ _} _ _ _.
Arguments KeysRemoved {_ _ _} _ _ _.
Arguments KeysRotated {_ _ _} _ _ _.

(** The dispatchables of [#[pallet::call]]. *)
Inductive Call (NimbusId : Type) :=
  | add_association (nimbus_id : NimbusId)
  | update_association (old_nimbus_id new_nimbus_id : NimbusId)
  | clear_association (nimbus_id : NimbusId)
  | remove_keys
  | set_keys (ks : list Z).
Arguments add_association {_} _.
Arguments update_association {_} _ _.
Arguments clear_association {_} _.
Arguments remove_keys {_}.
Arguments set_keys {_} _.

Section Definitions.
Context {Origin AccountId NimbusId Keys L : Type}.
Context `{Countable AccountId} `{Countable NimbusId}.
Context `{Codec NimbusId} `{Codec Keys}.
Context `{ReservableCurrency AccountId L}.

(** [MappingWithDeposit], [NimbusLookup], the currency's ledger, the events. *)
Record State := mkState {
  MappingWithDeposit : gmap NimbusId (RegistrationInfo AccountId Keys);
  NimbusLookup : gmap AccountId NimbusId;
  currency : L;
  events : list (Event AccountId NimbusId Keys);
}.

Abbreviation M := (M State (dispatch_error Error unit)).

Definition set_mapping f (s : State) : State :=
  mkState (f (MappingWithDeposit s)) (NimbusLookup s) (currency s) (events s).
Definition set_lookup f (s : State) : State :=
  mkState (MappingWithDeposit s) (f (NimbusLookup s)) (currency s) (events s).
Definition set_currency c (s : State) : State :=
  mkState (MappingWithDeposit s) (NimbusLookup s) c (events s).
Definition deposit_event e (s : State) : State :=
  mkState (MappingWithDeposit s) (NimbusLookup s) (currency s) (events s ++ [e]).

Context (T : Config Origin AccountId NimbusId Keys).

(** [keys_wrapper], [keys_size] *)
Definition keys_wrapper (nimbus_id : NimbusId) (ks : Keys) : list Z :=
  encode nimbus_id ++ encode ks.

Definition keys_size : nat := size_of_NimbusId T + size_of_Keys T.

(** [account_and_deposit_of], [account_id_of], [keys_of], [nimbus_id_of] *)
Definition account_id_of (nimbus_id : NimbusId) (s : State) : option AccountId :=
  account <$> MappingWithDeposit s !! nimbus_id.

Definition keys_of (nimbus_id : NimbusId) (s : State) : option Keys :=
  keys <$> MappingWithDeposit s !! nimbus_id.

Definition nimbus_id_of (account_id : AccountId) (s : State) : option NimbusId :=
  NimbusLookup s !! account_id.

Definition enact_registration (nimbus_id : NimbusId) (account_id : AccountId)
    (ks : Keys) : M unit :=
  c ← gets currency;
  c' ← ok_or (reserve c account_id (DepositAmount T)) (Module CannotAffordSecurityDeposit);
  modify (set_currency c') ;;
  modify (set_mapping <[nimbus_id := mkInfo account_id (DepositAmount T) ks]>) ;;
  modify (set_lookup <[account_id := nimbus_id]>).

Definition register_keys (nimbus_id : NimbusId) (account_id : AccountId)
    (ks : Keys) : M unit :=
  m ← gets MappingWithDeposit;
  ensure (bool_decide (m !! nimbus_id = None)) (Module AlreadyAssociated) ;;
  enact_registration nimbus_id account_id ks ;;
  modify (deposit_event (KeysRegistered nimbus_id account_id ks)).

Definition rotate_keys (old_nimbus_id new_nimbus_id : NimbusId)
    (account_id : AccountId) (new_keys : Keys) : M unit :=
  m ← gets MappingWithDeposit;
  stored_info ← ok_or (m !! old_nimbus_id) (Module AssociationNotFound);
  ensure (bool_decide (account_id = account stored_info)) (Module NotYourAssociation) ;;
  ensure (bool_decide (old_nimbus_id = new_nimbus_id) || bool_decide (m !! new_nimbus_id = None))
    (Module AlreadyAssociated) ;;
  modify (set_mapping (delete old_nimbus_id)) ;;
  modify (set_mapping
    <[new_nimbus_id := mkInfo (account stored_info) (deposit stored_info) new_keys]>) ;;
  modify (set_lookup <[account_id := new_nimbus_id]>) ;;
  modify (deposit_event (KeysRotated new_nimbus_id account_id new_keys)).

Definition rm_keys (nimbus_id : NimbusId) (account_id : AccountId) : M unit :=
  m ← gets MappingWithDeposit;
  stored_info ← ok_or (m !! nimbus_id) (Module AssociationNotFound);
  ensure (bool_decide (account_id = account stored_info)) (Module NotYourAssociation) ;;
  modify (set_mapping (delete nimbus_id)) ;;
  modify (set_lookup (delete account_id)) ;;
  c ← gets currency;
  modify (set_currency (unreserve c account_id (deposit stored_info))) ;;
  modify (deposit_event (KeysRemoved nimbus_id account_id (keys stored_info))).

(** The body of [set_keys] after the origin check. *)
Definition set_keys_inner (account_id : AccountId) (bytes : list Z) : M unit :=
  ensure (bool_decide (length bytes = keys_size)) (Module WrongKeySize) ;;
  '(new_nimbus_id, rest) ← ok_or (decode bytes) (Module DecodeNimbusFailed);
  '(ks, _) ← ok_or (decode rest) (Module DecodeKeysFailed);
  old ← gets (nimbus_id_of account_id);
  match old with
  | Some old_nimbus_id => rotate_keys old_nimbus_id new_nimbus_id account_id ks
  | None => register_keys new_nimbus_id account_id ks
  end.

Definition remove_keys_inner (account_id : AccountId) : M unit :=
  id ← gets (nimbus_id_of account_id);
  nimbus_id ← ok_or id (Module OldAuthorIdNotFound);
  rm_keys nimbus_id account_id.

Definition dispatch (origin : Origin) (c : Call NimbusId) : M unit :=
  account_id ← ok_or (ensure_signed T origin) BadOrigin;
  match c with
  | add_association n => register_keys n account_id (keys_from T n)
  | update_association old new => rotate_keys old new account_id (keys_from T new)
  | clear_association n => rm_keys n account_id
  | remove_keys => remove_keys_inner account_id
  | set_keys bytes => set_keys_inner account_id bytes
  end.

(** [GenesisConfig::build]: a failed registration is logged and skipped. *)
Definition genesis_build (mappings : list (NimbusId * AccountId)) : M unit :=
  for_each (fun '(n, a) =>
    _ ← attempt (enact_registration n a (keys_from T n)); mret tt) mappings.

(** A sequence of signed calls, each run in its own storage layer. *)
Definition execute (s : State) (oc : Origin * Call NimbusId) : State :=
  final_state (transactional (dispatch oc.1 oc.2)) s.

Definition empty_state (c : L) : State := mkState ∅ ∅ c [].

(** ** What the storage promises *)

(** The deposits recorded for the registrations of [a]. *)
Definition deposits_of (a : AccountId) (s : State) : Z :=
  map_sum (fun _ i => if decide (account i = a) then deposit i else 0)
    (MappingWithDeposit s).

(** The reverse lookup only names registrations of its account, and every
    account's recorded deposits are covered by its reserved balance. *)
Record wf (s : State) : Prop := mkWf {
  wf_lookup a n : NimbusLookup s !! a = Some n -> account_id_of n s = Some a;
  wf_deposit n i : MappingWithDeposit s !! n = Some i -> 0 <= deposit i;
  wf_backed a : deposits_of a s <= reserved_balance (currency s) a;
}.

(** The registrations of [a]. *)
Definition registrations_of (a : AccountId) (s : State) :
    gmap NimbusId (RegistrationInfo AccountId Keys) :=
  filter (fun p => account p.2 = a) (MappingWithDeposit s).
End Definitions.

Arguments State AccountId NimbusId Keys L {_ _ _ _}.

(** [impl AccountLookup] and [impl KeysLookup] for the pallet *)
#[export] Instance mapping_account_lookup {AccountId NimbusId Keys L : Type}
    `{Countable AccountId} `{Countable NimbusId} :
    AccountLookup (State AccountId NimbusId Keys L) NimbusId AccountId :=
  fun s author => account_id_of author s.

#[export] Instance mapping_keys_lookup {AccountId NimbusId Keys L : Type}
    `{Countable AccountId} `{Countable NimbusId} :
    KeysLookup (State AccountId NimbusId Keys L) NimbusId Keys :=
  fun s author => keys_of author s.

(** ** Lemmas *)
Section Lemmas.
Context {Origin AccountId NimbusId Keys L : Type}.
Context `{Countable AccountId} `{Countable NimbusId}.
Context `{!Codec NimbusId} `{!Codec Keys}.
Context `{!ReservableCurrency AccountId L}.
Context (T : Config Origin AccountId NimbusId Keys).

Abbreviation State := (State AccountId NimbusId Keys L).
Implicit Types (s : State) (a b : AccountId) (n : NimbusId).

Lemma enact_registration_Ok n a k s s' :
  enact_registration T n a k s = Ok tt s' <->
  exists c', reserve (currency s) a (DepositAmount T) = Some c' /\
    s' = mkState (<[n := mkInfo a (DepositAmount T) k]> (MappingWithDeposit s))
           (<[a := n]> (NimbusLookup s)) c' (events s).
Proof.
  unfold enact_registration. exec; naive_solver.
Qed.

Lemma register_keys_Ok n a k s s' :
  register_keys T n a k s = Ok tt s' <->
  MappingWithDeposit s !! n = None /\
  exists c', reserve (currency s) a (DepositAmount T) = Some c' /\
    s' = mkState (<[n := mkInfo a (DepositAmount T) k]> (MappingWithDeposit s))
           (<[a := n]> (NimbusLookup s)) c' (events s ++ [KeysRegistered n a k]).
Proof.
  unfold register_keys, enact_registration. exec; bool_to_prop; naive_solver.
Qed.

Lemma rotate_keys_Ok old new a k s s' :
  rotate_keys old new a k s = Ok tt s' <->
  exists i, MappingWithDeposit s !! old = Some i /\ account i = a /\
    (old = new \/ MappingWithDeposit s !! new = None) /\
    s' = mkState (<[new := mkInfo a (deposit i) k]> (delete old (MappingWithDeposit s)))
           (<[a := new]> (NimbusLookup s)) (currency s)
           (events s ++ [KeysRotated new a k]).
Proof.
  unfold rotate_keys. unfold_M.
  destruct (MappingWithDeposit s !! old) as [i|]; [|naive_solver].
  destruct (bool_decide (a = account i)) eqn:Ha; bool_to_prop; [|naive_solver].
  destruct (bool_decide (old = new)) eqn:Hon; bool_to_prop; simpl; [naive_solver|].
  destruct (bool_decide (MappingWithDeposit s !! new = None)) eqn:Hn; bool_to_prop;
    naive_solver.
Qed.

Lemma rm_keys_Ok n a s s' :
  rm_keys n a s = Ok tt s' <->
  exists i, MappingWithDeposit s !! n = Some i /\ account i = a /\
    s' = mkState (delete n (MappingWithDeposit s)) (delete a (NimbusLookup s))
           (unreserve (currency s) a (deposit i)) (events s ++ [KeysRemoved n a (keys i)]).
Proof.
  unfold rm_keys. exec; bool_to_prop; naive_solver.
Qed.

(** Every successful call is one of the three internal operations, run for the
    signer. *)
Inductive op : AccountId -> State -> State -> Prop :=
  | op_register n a k s s' : register_keys T n a k s = Ok tt s' -> op a s s'
  | op_rotate old new a k s s' : rotate_keys old new a k s = Ok tt s' -> op a s s'
  | op_rm n a s s' : rm_keys n a s = Ok tt s' -> op a s s'.

Lemma dispatch_op o c s u s' :
  dispatch T o c s = Ok u s' ->
  exists a, ensure_signed T o = Some a /\ op a s s'.
Proof.
  unfold dispatch. destruct u. rewrite bind_Ok. intros (a & s1 & Ho & Hc).
  destruct (ensure_signed T o) as [a'|]; [|done]. simplify_eq/=. exists a; split; [done|].
  destruct c; [by eapply op_register|by eapply op_rotate|by eapply op_rm| |].
  - unfold remove_keys_inner in Hc. unfold_M.
    repeat (exec_step; simplify_eq). by eapply op_rm.
  - unfold set_keys_inner in Hc. unfold_M.
    repeat (exec_step; simplify_eq); [by eapply op_rotate|by eapply op_register].
Qed.

Lemma enact_registration_atomic n a k : err_atomic (enact_registration T n a k : M State _ _).
Proof. unfold enact_registration. auto 10 with handler. Qed.

Lemma rotate_keys_atomic old new a k :
  err_atomic (rotate_keys old new a k : M State _ _).
Proof. unfold rotate_keys. auto 20 with handler. Qed.

Lemma rm_keys_atomic n a : err_atomic (rm_keys n a : M State _ _).
Proof. unfold rm_keys. auto 20 with handler. Qed.

Lemma register_keys_atomic n a k : err_atomic (register_keys T n a k : M State _ _).
Proof.
  unfold register_keys. apply err_atomic_bind; [auto with handler|intro m].
  apply err_atomic_bind; [auto with handler|intros _].
  apply err_atomic_bind_r; [apply enact_registration_atomic|auto with handler].
Qed.
End Lemmas.

#[export] Hint Resolve register_keys_atomic rotate_keys_atomic rm_keys_atomic : handler.

(** ** The storage invariant *)
Section Invariant.
Context {Origin AccountId NimbusId Keys L : Type}.
Context `{Countable AccountId} `{Countable NimbusId}.
Context `{!Codec NimbusId} `{!Codec Keys}.
Context `{!ReservableCurrency AccountId L} `{!ReservableCurrencyLaws AccountId L}.
Context (T : Config Origin AccountId NimbusId Keys).
Context (deposit_nonneg : 0 <= DepositAmount T).

Abbreviation State := (State AccountId NimbusId Keys L).
Implicit Types (s : State) (a b : AccountId) (n : NimbusId).

(** What an overwritten entry contributes to the deposits of [b]. *)
Lemma old_deposit_nonneg s n b :
  wf s ->
  0 <= from_option (fun j => if decide (account j = b) then deposit j else 0) 0
         (MappingWithDeposit s !! n).
Proof.
  intros Hwf. destruct (MappingWithDeposit s !! n) as [j|] eqn:Hj; simpl; [|lia].
  case_decide; [by eapply wf_deposit|lia].
Qed.

Lemma enact_wf n a k s s' :
  wf s -> MappingWithDeposit s !! n = None ->
  enact_registration T n a k s = Ok tt s' -> wf s'.
Proof.
  intros Hwf Hn (c' & Hc & ->)%enact_registration_Ok. destruct (Hwf) as [Hl Hd Hb].
  split; unfold account_id_of; simpl.
  - intros b m [[-> ->]|[Hne Hm]]%lookup_insert_Some; [by rewrite lookup_insert_eq|].
    apply Hl in Hm. unfold account_id_of in Hm.
    rewrite lookup_insert_ne; [done|]. intros ->. by rewrite Hn in Hm.
  - intros m j [[-> <-]|[_ Hm]]%lookup_insert_Some; [done|by eapply Hd].
  - intros b. specialize (Hb b). unfold deposits_of in *. simpl.
    rewrite map_sum_insert by done. rewrite (reserve_spec _ _ _ _ b deposit_nonneg Hc).
    simpl. lia.
Qed.

Lemma register_wf n a k s s' : wf s -> register_keys T n a k s = Ok tt s' -> wf s'.
Proof.
  intros Hwf (Hn & c' & Hc & ->)%register_keys_Ok.
  assert (He : wf (mkState (<[n := mkInfo a (DepositAmount T) k]> (MappingWithDeposit s))
           (<[a := n]> (NimbusLookup s)) c' (events s))).
  { eapply enact_wf; [done..|]. apply enact_registration_Ok. by exists c'. }
  by destruct He.
Qed.

(** Removing a registration of [a]: the deposits of [a] drop by its deposit. *)
Lemma deposits_of_delete s n i b c ev l :
  MappingWithDeposit s !! n = Some i ->
  deposits_of b (mkState (delete n (MappingWithDeposit s)) l c ev : State) =
    deposits_of b s - (if decide (account i = b) then deposit i else 0).
Proof. intros Hi. unfold deposits_of. simpl. by erewrite map_sum_delete by done. Qed.

Lemma wf_delete s n i c ev :
  wf s -> MappingWithDeposit s !! n = Some i ->
  (forall b, reserved_balance c b >= reserved_balance (currency s) b
      - (if decide (account i = b) then deposit i else 0)) ->
  wf (mkState (delete n (MappingWithDeposit s)) (delete (account i) (NimbusLookup s)) c ev).
Proof.
  intros [Hl Hd Hb] Hi Hc. split; unfold account_id_of; simpl.
  - intros b m [Hne Hm]%lookup_delete_Some. apply Hl in Hm. unfold account_id_of in Hm.
    rewrite lookup_delete_ne; [done|]. intros ->. rewrite Hi in Hm. by simplify_eq/=.
  - intros m j [_ Hm]%lookup_delete_Some. by eapply Hd.
  - intros b. erewrite deposits_of_delete by done. specialize (Hb b). specialize (Hc b). lia.
Qed.

Lemma rm_wf n a s s' : wf s -> rm_keys n a s = Ok tt s' -> wf s'.
Proof.
  intros Hwf (i & Hi & <- & ->)%rm_keys_Ok. apply wf_delete; [done|done|].
  intros b. rewrite unreserve_spec by (by eapply wf_deposit).
  case_decide; subst; lia.
Qed.

Lemma rotate_wf old new a k s s' : wf s -> rotate_keys old new a k s = Ok tt s' -> wf s'.
Proof.
  intros Hwf (i & Hi & <- & Hnew & ->)%rotate_keys_Ok.
  set (j := mkInfo (account i) (deposit i) k).
  assert (0 <= deposit i) by (by eapply wf_deposit).
  destruct Hwf as [Hl Hd Hb]. split; unfold account_id_of; simpl.
  - intros b m [[<- <-]|[Hne Hm]]%lookup_insert_Some; [by rewrite lookup_insert_eq|].
    apply Hl in Hm. unfold account_id_of in Hm.
    assert (m <> old) by (intros ->; rewrite Hi in Hm; by simplify_eq/=).
    assert (m <> new) by (intros ->; destruct Hnew as [->|Hn]; [done|by rewrite Hn in Hm]).
    by rewrite lookup_insert_ne, lookup_delete_ne.
  - intros m x [[-> <-]|[_ [_ Hm]%lookup_delete_Some]]%lookup_insert_Some;
      [done|by eapply Hd].
  - intros b. specialize (Hb b). unfold deposits_of in *. simpl.
    rewrite map_sum_insert, (map_sum_delete _ _ old i) by
      (done || (destruct Hnew as [->|?]; [apply lookup_delete_eq|by apply lookup_delete_None; right])).
    simpl. lia.
Qed.

Lemma op_wf a s s' : op T a s s' -> wf s -> wf s'.
Proof.
  intros [] ?; [by eapply register_wf|by eapply rotate_wf|by eapply rm_wf].
Qed.

Lemma remove_keys_inner_atomic a : err_atomic (remove_keys_inner a : M State _ _).
Proof. unfold remove_keys_inner. auto 10 with handler. Qed.

Lemma set_keys_inner_atomic a bytes : err_atomic (set_keys_inner T a bytes : M State _ _).
Proof.
  unfold set_keys_inner. apply err_atomic_bind; [auto with handler|intros _].
  apply err_atomic_bind; [auto with handler|intros [n rest]].
  apply err_atomic_bind; [auto with handler|intros [k rest']].
  apply err_atomic_bind; [auto with handler|intros [old|]]; auto with handler.
Qed.

Lemma dispatch_atomic o c : err_atomic (dispatch T o c : M State _ _).
Proof.
  unfold dispatch. apply err_atomic_bind; [auto with handler|intros a].
  destruct c; auto using remove_keys_inner_atomic, set_keys_inner_atomic with handler.
Qed.

Lemma dispatch_preserves_wf o c : preserves wf (transactional (dispatch T o c : M State _ _)).
Proof.
  apply preserves_atomic; [auto with handler|]. intros s u s' Hwf Hr.
  rewrite transactional_id in Hr by apply dispatch_atomic.
  apply dispatch_op in Hr as (a & _ & Hop). by eapply op_wf.
Qed.

(** Genesis: with pairwise distinct ids, no registration overwrites another. *)
Lemma genesis_wf mappings s :
  NoDup mappings.*1 -> (forall n, n ∈ mappings.*1 -> MappingWithDeposit s !! n = None) ->
  wf s -> exists s', genesis_build T mappings s = Ok tt s' /\ wf s'.
Proof.
  revert s. induction mappings as [|[n a] l IH]; intros s Hnd Hfresh Hwf; [by exists s|].
  rewrite fmap_cons in Hnd, Hfresh. apply NoDup_cons in Hnd as [Hn Hnd].
  unfold genesis_build in *. cbn [for_each]. unfold mbind at 1, M_bind at 1.
  unfold mbind at 1, M_bind at 1. unfold attempt at 1.
  destruct (enact_registration T n a (keys_from T n) s) as [[] s1|e s1|] eqn:He; simpl.
  - apply IH; [done| |].
    + intros m Hm. apply enact_registration_Ok in He as (c' & _ & ->). simpl.
      rewrite lookup_insert_ne by (intros ->; done). apply Hfresh. set_solver.
    + eapply enact_wf; [done| |done]. apply Hfresh. set_solver.
  - apply enact_registration_atomic in He as ->. apply IH; [done| |done].
    intros m Hm. apply Hfresh. set_solver.
  - unfold enact_registration in He. exec; done.
Qed.

Lemma empty_wf (c : L) : (forall a, 0 <= reserved_balance c a) -> wf (empty_state c : State).
Proof.
  intros Hc. split; unfold account_id_of, deposits_of; simpl.
  - intros a n Hn. by rewrite lookup_empty in Hn.
  - intros n i Hn. by rewrite lookup_empty in Hn.
  - intros a. rewrite map_sum_empty. apply Hc.
Qed.
End Invariant.

(** ** Properties *)
Section Properties.
Context {Origin AccountId NimbusId Keys L : Type}.
Context `{Countable AccountId} `{Countable NimbusId}.
Context `{!Codec NimbusId} `{!Codec Keys}.
Context `{!ReservableCurrency AccountId L} `{!ReservableCurrencyLaws AccountId L}.
Context (T : Config Origin AccountId NimbusId Keys).

Abbreviation State := (State AccountId NimbusId Keys L).

(** What a successful internal operation leaves alone: the registrations, the
    lookup and the reserve of every account but the signer. *)
Lemma op_other a b (s s' : State) :
  0 <= DepositAmount T -> wf s -> op T b s s' -> a <> b ->
  registrations_of a s' = registrations_of a s /\
  nimbus_id_of a s' = nimbus_id_of a s /\
  reserved_balance (currency s') a = reserved_balance (currency s) a.
Proof.
  intros Hd Hwf Hop Hne. unfold registrations_of, nimbus_id_of.
  destruct Hop as [n b k s s' Hop|old new b k s s' Hop|n b s s' Hop].
  - apply register_keys_Ok in Hop as (Hn & c' & Hc & ->). simpl. split_and!.
    + rewrite map_filter_insert_False by (simpl; congruence).
      by rewrite delete_id.
    + by rewrite lookup_insert_ne.
    + rewrite (reserve_spec _ _ _ _ a Hd Hc). case_decide; [congruence|lia].
  - apply rotate_keys_Ok in Hop as (i & Hi & <- & Hnew & ->). simpl. split_and!.
    + rewrite map_filter_insert_False by (simpl; congruence).
      rewrite delete_id by (destruct Hnew as [->|?]; [apply lookup_delete_eq|by apply lookup_delete_None; right]).
      rewrite map_filter_delete, delete_id; [done|].
      apply map_lookup_filter_None. right. intros x ?. simplify_eq. simpl. congruence.
    + by rewrite lookup_insert_ne.
    + done.
  - apply rm_keys_Ok in Hop as (i & Hi & <- & ->). simpl. split_and!.
    + rewrite map_filter_delete, delete_id; [done|].
      apply map_lookup_filter_None. right. intros x ?. simplify_eq. simpl. congruence.
    + by rewrite lookup_delete_ne.
    + rewrite unreserve_spec by (by eapply wf_deposit). case_decide; [congruence|lia].
Qed.

(** C7: starting from genesis registrations with pairwise distinct ids, every
    sequence of dispatched calls keeps the storage well formed: the reverse
    lookup only names registrations of its own account, and the deposits
    recorded for an account are covered by its reserved balance. *)
Theorem reachable_wf (mappings : list (NimbusId * AccountId))
    (calls : list (Origin * Call NimbusId)) (c0 : L) :
  0 <= DepositAmount T ->
  NoDup mappings.*1 ->
  (forall a, 0 <= reserved_balance c0 a) ->
  exists s0, genesis_build T mappings (empty_state c0) = Ok tt s0 /\
    wf (foldl (execute T) s0 calls).
Proof.
  intros Hd Hnd Hc.
  destruct (genesis_wf T Hd mappings (empty_state c0)) as (s0 & Hs0 & Hwf);
    [done|done|by apply empty_wf|].
  exists s0; split; [done|]. clear Hs0. revert s0 Hwf.
  induction calls as [|oc calls IH]; intros s Hwf; [done|]. apply IH.
  unfold execute. apply preserves_final; [by apply dispatch_preserves_wf|done].
Qed.

(** C35: nobody else can touch an account's registrations: a call not signed by
    [a] leaves the registrations of [a], its reverse lookup and its reserved
    balance exactly as they were. *)
Theorem registrations_owned (o : Origin) (c : Call NimbusId) (a : AccountId) (s : State) :
  0 <= DepositAmount T -> wf s -> ensure_signed T o <> Some a ->
  let s' := execute T s (o, c) in
  registrations_of a s' = registrations_of a s /\
  nimbus_id_of a s' = nimbus_id_of a s /\
  reserved_balance (currency s') a = reserved_balance (currency s) a.
Proof.
  intros Hd Hwf Ho. unfold execute, final_state. simpl.
  rewrite transactional_id by apply dispatch_atomic.
  destruct (dispatch T o c s) as [[] s'|e s'|] eqn:Hr; [|by apply dispatch_atomic in Hr as ->|done].
  apply dispatch_op in Hr as (b & Hb & Hop).
  apply (op_other a b); [done|done|done|congruence].
Qed.


(** The deposit is returned in full: after a successful registration, the
    signer can clear it, which restores the id mapping and every reserved
    balance; only the signer's reverse lookup is gone. *)
Theorem add_then_clear (o : Origin) (a : AccountId) (n : NimbusId) (s s1 : State) :
  0 <= DepositAmount T -> wf s -> ensure_signed T o = Some a ->
  dispatch T o (add_association n) s = Ok tt s1 ->
  exists s2, dispatch T o (clear_association n) s1 = Ok tt s2 /\
    MappingWithDeposit s2 = MappingWithDeposit s /\
    NimbusLookup s2 = delete a (NimbusLookup s) /\
    forall b, reserved_balance (currency s2) b = reserved_balance (currency s) b.
Proof.
  intros Hd Hwf Ho Hadd. unfold dispatch in *. unfold_M. rewrite Ho in *.
  apply register_keys_Ok in Hadd as (Hn & c' & Hc & ->).
  eexists; split.
  { apply rm_keys_Ok. exists (mkInfo a (DepositAmount T) (keys_from T n)).
    split; [apply lookup_insert_eq|split; reflexivity]. }
  simpl. split_and!.
  - by rewrite delete_insert_id.
  - by rewrite delete_insert_eq.
  - intros b. rewrite unreserve_spec by done.
    rewrite !(reserve_spec _ _ _ _ _ Hd Hc).
    pose proof (wf_backed s Hwf a). assert (0 <= deposits_of a s).
    { apply map_sum_nonneg. intros m i Hi. case_decide; [by eapply wf_deposit|lia]. }
    simpl. repeat case_decide; congruence || lia.
Qed.
End Properties.

(** ** Witnesses: the theorems at concrete inputs

    Accounts, ids and keys are integers, keys default to the id, signed origins
    are [Some account]. *)
Section Witnesses.
#[local] Existing Instance fixed_codec.
#[local] Existing Instance fixed_codec_laws.

Definition sample_config : Config (option Z) Z Z Z :=
  {| DepositAmount := 10; size_of_NimbusId := 1; size_of_Keys := 1; keys_from n := n; ensure_signed o := o |}.

Definition sample_ledger : Ledger := mkLedger {[1 := 100; 2 := 50]} ∅.

Definition sample_calls : list (option Z * Call Z) :=
  [(Some 1, set_keys (keys_wrapper 7 8)); (Some 2, add_association 7);
   (Some 1, update_association 7 9); (None, remove_keys)].

Lemma sample_ledger_nonneg a : 0 <= reserved_balance sample_ledger a.
Proof. apply bal_nonneg. Qed.

Lemma reachable_wf_witness :
  exists s0, genesis_build sample_config [(5, 1)] (empty_state sample_ledger) = Ok tt s0 /\
    wf (foldl (execute sample_config) s0 sample_calls).
Proof.
  apply (reachable_wf sample_config [(5, 1)] sample_calls sample_ledger).
  - done.
  - apply NoDup_singleton.
  - apply sample_ledger_nonneg.
Defined.

Definition sample_state : State Z Z Z Ledger :=
  final_state (dispatch sample_config (Some 1) (add_association 7)) (empty_state sample_ledger).

Lemma sample_state_wf : wf sample_state.
Proof.
  eapply (register_wf sample_config ltac:(done) 7 1 7 (empty_state sample_ledger)).
  - by apply empty_wf, sample_ledger_nonneg.
  - reflexivity.
Qed.

Lemma registrations_owned_witness :
  let s' := execute sample_config sample_state (Some 2, clear_association 7) in
  registrations_of 1 s' = registrations_of 1 sample_state /\
  nimbus_id_of 1 s' = nimbus_id_of 1 sample_state /\
  reserved_balance (currency s') 1 = reserved_balance (currency sample_state) 1.
Proof.
  apply (registrations_owned sample_config (Some 2) (clear_association 7) 1 sample_state);
    [done|apply sample_state_wf|done].
Defined.

(** Keys that take a byte more in memory than encoded, as a tagged union may. *)
Definition padded_config : Config (option Z) Z Z Z :=
  {| DepositAmount := 10; size_of_NimbusId := 1; size_of_Keys := 2; keys_from n := n; ensure_signed o := o |}.


Lemma add_then_clear_witness :
  exists s2, dispatch sample_config (Some 1) (clear_association 7) sample_state = Ok tt s2 /\
    MappingWithDeposit s2 = ∅ /\ NimbusLookup s2 = delete 1 ∅ /\
    forall b, reserved_balance (currency s2) b = reserved_balance sample_ledger b.
Proof.
  apply (add_then_clear sample_config (Some 1) 1 7 (empty_state sample_ledger) sample_state);
    [done|by apply empty_wf, sample_ledger_nonneg|done|reflexivity].
Defined.
End Witnesses.
