(* ===== verification/AuthorInherent.v ===== *)
(** * The author-inherent pallet and its block executor
    ([pallets/author-inherent/src/{lib,exec}.rs])

    On initialisation the pallet stores the account of the nimbus pre-digest; a
    mandatory inherent then checks that this account may author in the current
    slot; finalisation requires that the inherent ran.  The block executor strips
    the seal and checks it against the pre-digest's author.

    Eligibility and account lookup are the classes [CanAuthor] and
    [AccountLookup] over the storage [W] of the rest of the runtime. *)
From Stdlib Require Import ZArith Lia.
From Stdlib Require Import String Ascii.
From stdpp Require Import prelude gmap fin_maps sorting.
From S2P Require Import Prelude.
From S2P Require Import Interfaces.
From S2P Require Import NimbusPrimitives.

Local Open Scope Z_scope.

Inductive Error := AuthorAlreadySet | NoAccountId | CannotBeAuthor.

(** [Call]: the single dispatchable. *)
Inductive Call := kick_off_authorship_validation_call.

(** [Author], [InherentIncluded]. *)
Record State (AuthorId : Type) := mkState {
  Author : option AuthorId;
  InherentIncluded : bool;
}.
Arguments mkState {_} _ _.
Arguments Author {_} _.
Arguments InherentIncluded {_} _.

(** The pallet's configuration: the runtime's origin check. *)
Record Config (Origin : Type) := mkConfig { ensure_none : Origin -> bool }.
Arguments ensure_none {_} _ _.

Section Definitions.
Context {Origin AuthorId NimbusId W D : Type}.
Context `{Codec NimbusId} `{DigestItemOps D}.
Context `{CanAuthor W AuthorId} `{AccountLookup W NimbusId AuthorId} `{SlotBeacon W}.
Context (T : Config Origin) (w : W).

Abbreviation St := (State AuthorId).
Abbreviation Mo := (M St (dispatch_error Error unit)).

(** [FindAuthor::find_author]: the first nimbus item decides. *)
Fixpoint find_author (digests : list (list Z * list Z)) : Mo (option AuthorId) :=
  match digests with
  | [] => mret None
  | (id, data) :: rest =>
      if bool_decide (id = NIMBUS_ENGINE_ID) then
        author_id ← expect (fst <$> decode data);
        author_account ← expect (lookup_account w author_id);
        mret (Some author_account)
      else find_author rest
  end.

(** [Hooks::on_initialize]; the argument is [frame_system::digest().logs]. *)
Definition on_initialize (logs : list D) : Mo unit :=
  author ← find_author (omap as_pre_runtime logs);
  match author with
  | Some a => modify (fun s => mkState (Some a) (InherentIncluded s))
  | None => mret tt
  end.

(** [InherentIncluded::take] *)
Definition take_included : Mo bool :=
  b ← gets InherentIncluded;
  modify (fun s => mkState (Author s) false) ;;
  mret b.

(** [Hooks::on_finalize] *)
Definition on_finalize : Mo unit :=
  b ← take_included;
  assert b.

(** [Get<AuthorId>::get] *)
Definition get : Mo AuthorId :=
  a ← gets Author;
  expect a.

(** [kick_off_authorship_validation] *)
Definition kick_off_authorship_validation (origin : Origin) : Mo unit :=
  ensure (ensure_none T origin) BadOrigin ;;
  let new_slot := slot w in
  author ← get;
  ok ← expect (can_author w author new_slot);
  assert ok ;;
  modify (fun s => mkState (Author s) true).

Definition dispatch (origin : Origin) (c : Call) : Mo unit :=
  match c with kick_off_authorship_validation_call => kick_off_authorship_validation origin end.

(** [CanAuthor<NimbusId>::can_author]: a failed lookup is not eligible. *)
#[global] Instance can_author_nimbus : CanAuthor W NimbusId | 100 := fun w author sl =>
  match lookup_account w author with
  | Some account => can_author w account sl
  | None => Some false
  end.

(** [ProvideInherent]: the inherent is required in every block. *)
Definition is_inherent_required : option InherentError :=
  Some (Other ((fun a => Z.of_N (Ascii.N_of_ascii a)) <$>
    String.list_ascii_of_string "Inherent required to manually initiate author validation"%string)).

Definition create_inherent : option Call := Some kick_off_authorship_validation_call.

Definition is_inherent (c : Call) : bool :=
  match c with kick_off_authorship_validation_call => true end.

(** An extrinsic: an error is reported to it and rolled back, a panic invalidates
    the block. *)
Definition apply_extrinsic (oc : Origin * Call) : Mo unit :=
  _ ← attempt (transactional (dispatch oc.1 oc.2));
  mret tt.

(** A block as this pallet sees it: initialisation, extrinsics, finalisation. *)
Definition run_block (logs : list D) (calls : list (Origin * Call)) : Mo unit :=
  on_initialize logs ;;
  for_each apply_extrinsic calls ;;
  on_finalize.
End Definitions.

(** ** The block executor ([exec.rs]) and the client's sealing

    [hash] is the header hash (which covers the digest), [from_slice] and
    [verify] belong to the signature scheme, [sign_with] to the keystore. *)
Section Executor.
Context {D NimbusId NimbusSignature HeaderRest Hash : Type}.
Context `{DigestItemOps D} `{Codec NimbusSignature}.

(** A header: its digest logs and the other fields. *)
Record Header := mkHeader { logs : list D; rest : HeaderRest }.

Context (hash : Header -> Hash) (from_slice : list Z -> option NimbusId).
Context (verify : NimbusId -> Hash -> NimbusSignature -> bool).

(** The raw author bytes of the first nimbus pre-digest. *)
Definition claimed_author (digests : list D) : option (list Z) :=
  snd <$> head (filter (fun p => p.1 = NIMBUS_ENGINE_ID) (omap as_pre_runtime digests)).

(** [verify_and_remove_seal]; [None] is a panic. *)
Definition verify_and_remove_seal (block : Header) : option Header :=
  seal ← last (logs block);
  let header := mkHeader (removelast (logs block)) (rest block) in
  signature ← as_nimbus_seal seal;
  author_bytes ← claimed_author (logs header);
  author ← from_slice author_bytes;
  if verify author (hash header) signature then Some header else None.

(** [execute_verified_block]: the inner executor [I] runs the stripped block. *)
Definition execute_verified_block {R} (inner : Header -> R) (block : Header) : R :=
  inner block.

(** [seal_header] of the client: the digest item that seals [header]. *)
Definition seal_header (sign_with : NimbusId -> Hash -> option NimbusSignature)
    (header : Header) (public : NimbusId) : option D :=
  raw_sig ← sign_with public (hash header);
  Some (nimbus_seal raw_sig).
End Executor.

Arguments Header D HeaderRest : clear implicits.

(** ** Lemmas *)
Section Lemmas.
Context {Origin AuthorId NimbusId W D : Type}.
Context `{!Codec NimbusId} `{!DigestItemOps D}.
Context `{!CanAuthor W AuthorId} `{!AccountLookup W NimbusId AuthorId} `{!SlotBeacon W}.
Context (T : Config Origin) (w : W).

Abbreviation St := (State AuthorId).

Lemma find_author_state digests (s : St) o s' :
  find_author w digests s = Ok o s' -> s' = s.
Proof.
  induction digests as [|[id data] l IH]; simpl; [unfold_M; by intros; simplify_eq|].
  case_bool_decide; [|exact IH]. unfold_M. repeat (exec_step; simplify_eq); by intros; simplify_eq.
Qed.

Lemma find_author_no_err digests : no_err (find_author w digests : M St (dispatch_error Error unit) _).
Proof.
  induction digests as [|[id data] l IH]; simpl; [auto with handler|].
  case_bool_decide; [|exact IH]. auto with handler.
Qed.

(** The first nimbus item decides. *)
Lemma find_author_Ok digests (s : St) o s' :
  find_author w digests s = Ok o s' ->
  match filter (fun p => p.1 = NIMBUS_ENGINE_ID) digests with
  | (_, data) :: _ => exists n r a, decode data = Some (n, r) /\
      lookup_account w n = Some a /\ o = Some a
  | [] => o = None
  end.
Proof.
  induction digests as [|[id data] l IH]; simpl; [unfold_M; by intros; simplify_eq|].
  rewrite filter_cons. simpl. case_bool_decide as Hid; [|by rewrite decide_False].
  rewrite decide_True by done. destruct (decode data) as [[n r]|] eqn:Hd; [|done].
  unfold_M. simpl. destruct (lookup_account w n) as [a|] eqn:Hl; [|done].
  intros. simplify_eq. eauto 10.
Qed.

Lemma on_finalize_Ok (s s' : St) :
  on_finalize s = Ok tt s' -> InherentIncluded s = true /\ s' = mkState (Author s) false.
Proof.
  unfold on_finalize, take_included. unfold_M.
  destruct (InherentIncluded s); intros; by simplify_eq.
Qed.

Lemma on_initialize_Ok (lg : list D) (s s' : St) :
  on_initialize w lg s = Ok tt s' ->
  exists o, find_author w (omap as_pre_runtime lg) s = Ok o s /\
    InherentIncluded s' = InherentIncluded s /\
    Author s' = match o with Some a => Some a | None => Author s end.
Proof.
  unfold on_initialize. intros (o & s1 & Ho & Hs)%bind_Ok.
  pose proof (find_author_state _ _ _ _ Ho) as ->. exists o; split; [done|].
  destruct o; unfold_M; injection Hs as <-; done.
Qed.

Lemma on_initialize_first (lg : list D) (s : St) id data l n r a :
  filter (fun p => p.1 = NIMBUS_ENGINE_ID) (omap as_pre_runtime lg) = (id, data) :: l ->
  decode data = Some (n, r) -> lookup_account w n = Some a ->
  on_initialize w lg s = Ok tt (mkState (Some a) (InherentIncluded s)).
Proof.
  unfold on_initialize. generalize (omap as_pre_runtime lg). intros ds Hf Hd Hl.
  assert (Hfa : find_author w ds s = Ok (Some a) s).
  { induction ds as [|[i x] ds IH]; [done|]. rewrite filter_cons in Hf. simpl in Hf.
    case_decide as Hi; simpl.
    - rewrite bool_decide_true by done. simplify_eq. unfold_M. rewrite Hd. simpl. by rewrite Hl.
    - rewrite bool_decide_false by done. by apply IH. }
  unfold mbind, M_bind. by rewrite Hfa.
Qed.

(** The inherent ran successfully for the stored author. *)
Definition validated (s : St) : Prop :=
  InherentIncluded s = true ->
  exists a, Author s = Some a /\ can_author w a (slot w) = Some true.

Lemma kick_off_Ok o (s s' : St) :
  kick_off_authorship_validation T w o s = Ok tt s' ->
  Author s' = Author s /\ validated s'.
Proof.
  unfold kick_off_authorship_validation, get. intros Hk. unfold_M.
  repeat (exec_step; simplify_eq). simpl. split; [done|]. intros _. simpl. eauto.
Qed.

Lemma apply_extrinsic_validated oc (s s' : St) :
  apply_extrinsic T w oc s = Ok tt s' ->
  validated s -> Author s' = Author s /\ validated s'.
Proof.
  unfold apply_extrinsic, attempt, transactional, mbind, M_bind, mret, M_ret.
  destruct oc as [o []]; simpl.
  destruct (kick_off_authorship_validation T w o s) as [[] s1| |] eqn:Hk; intros; simplify_eq.
  - by apply kick_off_Ok in Hk.
  - done.
Qed.

Lemma for_each_validated calls (s s' : St) :
  for_each (apply_extrinsic T w) calls s = Ok tt s' ->
  validated s -> Author s' = Author s /\ validated s'.
Proof.
  revert s. induction calls as [|oc calls IH]; intros s; cbn [for_each].
  - intros Hr. unfold mret, M_ret in Hr. by simplify_eq.
  - intros ([] & s1 & Hs & Hr)%bind_Ok Hv.
    destruct (apply_extrinsic_validated _ _ _ Hs Hv) as [HA Hv1].
    destruct (IH s1 Hr Hv1) as [HB ?]. split; [congruence|done].
Qed.

(** A block that runs to the end: its author, and that it was checked. *)
Lemma run_block_Ok lg calls (s s' : St) :
  InherentIncluded s = false -> run_block T w lg calls s = Ok tt s' ->
  exists o a, find_author w (omap as_pre_runtime lg) s = Ok o s /\ Author s' = Some a /\
    can_author w a (slot w) = Some true /\ InherentIncluded s' = false /\
    match o with Some b => a = b | None => Author s = Some a end.
Proof.
  intros Hf. unfold run_block. intros ([] & s1 & Hi & Hr)%bind_Ok.
  apply bind_Ok in Hr as ([] & s2 & Hc & Hr).
  apply on_initialize_Ok in Hi as (o & Ho & Hf1 & HA1).
  apply for_each_validated in Hc as [HA2 Hv]; [|intros Ht; congruence].
  apply on_finalize_Ok in Hr as [Ht ->]. destruct (Hv Ht) as (a & Ha & Hca).
  exists o, a. split_and!; try done. rewrite HA2, HA1 in Ha. destruct o; by simplify_eq.
Qed.

(** Calls that are not of the none origin do nothing. *)
Lemma rejected_calls calls (s : St) :
  Forall (fun oc => ensure_none T oc.1 = false) calls ->
  for_each (apply_extrinsic T w) calls s = Ok tt s.
Proof.
  induction 1 as [|[o []] calls Ho _ IH]; [done|]. cbn [for_each].
  unfold mbind at 1, M_bind at 1, apply_extrinsic at 1, attempt, transactional. simpl.
  unfold kick_off_authorship_validation, mbind at 1, M_bind at 1, mbind at 1, M_bind at 1, ensure.
  simpl in Ho. rewrite Ho. apply IH.
Qed.

(** The inherent decides. *)
Lemma inherent_extrinsic o (s : St) a b :
  ensure_none T o = true -> Author s = Some a -> can_author w a (slot w) = Some b ->
  apply_extrinsic T w (o, kick_off_authorship_validation_call) s
    = if b then Ok tt (mkState (Some a) true) else Panic.
Proof.
  intros Ho Ha Hb. unfold apply_extrinsic, attempt, transactional, dispatch,
    kick_off_authorship_validation, get.
  unfold_M. simpl. rewrite Ho. simpl. rewrite Ha. simpl. rewrite Hb. destruct b; simpl; [|done].
  by rewrite Ha.
Qed.

(** The block of the inherent and of calls that are rejected. *)
Lemma inherent_block lg o calls (s : St) id data l n r a b :
  ensure_none T o = true -> Forall (fun oc => ensure_none T oc.1 = false) calls ->
  filter (fun p => p.1 = NIMBUS_ENGINE_ID) (omap as_pre_runtime lg) = (id, data) :: l ->
  decode data = Some (n, r) -> lookup_account w n = Some a ->
  can_author w a (slot w) = Some b ->
  run_block T w lg ((o, kick_off_authorship_validation_call) :: calls) s
    = if b then Ok tt (mkState (Some a) false) else Panic.
Proof.
  intros Ho Hcalls Hlg Hd Hl Hb. unfold run_block. unfold mbind at 1, M_bind at 1.
  rewrite (on_initialize_first lg s id data l n r a) by done. cbn [for_each].
  unfold mbind, M_bind. rewrite (inherent_extrinsic o _ a b) by done. destruct b; [|done].
  by rewrite rejected_calls.
Qed.
End Lemmas.

(** ** Properties *)
Section Properties.
Context {Origin AuthorId NimbusId W D : Type}.
Context `{!Codec NimbusId} `{!DigestItemOps D}.
Context `{!CanAuthor W AuthorId} `{!AccountLookup W NimbusId AuthorId} `{!SlotBeacon W}.
Context (T : Config Origin) (w : W).

(** C1: a valid block has an eligible author: whatever extrinsics it carries, a
    block that runs to the end without panicking has executed the inherent, its
    stored author may author in the current slot, and the inclusion flag is
    cleared for the next block.  The author is the account of the block's first
    nimbus pre-digest; a block without one keeps the author of the previous
    block. *)
Theorem valid_block_author (lg : list D) (calls : list (Origin * Call)) (s s' : State AuthorId) :
  InherentIncluded s = false ->
  run_block T w lg calls s = Ok tt s' ->
  InherentIncluded s' = false /\
  exists a, Author s' = Some a /\ can_author w a (slot w) = Some true /\
    match filter (fun p => p.1 = NIMBUS_ENGINE_ID) (omap as_pre_runtime lg) with
    | (_, data) :: _ =>
        exists n r, decode data = Some (n, r) /\ lookup_account w n = Some a
    | [] => Author s = Some a
    end.
Proof.
  intros Hf Hr. destruct (run_block_Ok _ _ _ _ _ _ Hf Hr) as (o & a & Ho & Ha & Hca & Hi & Hs').
  split; [done|]. exists a. split; [done|]. split; [done|].
  apply find_author_Ok in Ho. destruct (filter _ _) as [|[id data] l]; [by subst o|].
  destruct Ho as (n & r & a' & Hd & Hl & ->). simplify_eq. eauto.
Qed.

(** The inherent is mandatory: a block none of whose extrinsics passes the
    none-origin check never runs to the end. *)
Theorem inherent_is_mandatory (lg : list D) (calls : list (Origin * Call)) (s : State AuthorId) :
  InherentIncluded s = false ->
  Forall (fun oc => ensure_none T oc.1 = false) calls ->
  run_block T w lg calls s = Panic.
Proof.
  intros Hf Hcalls. unfold run_block.
  destruct (on_initialize w lg s) as [u s1|e s1|] eqn:Hi.
  - destruct u. unfold mbind at 1, M_bind at 1. rewrite Hi.
    apply on_initialize_Ok in Hi as (_ & _ & Hf1 & _). rewrite Hf in Hf1. clear Hf.
    pose proof (rejected_calls T w calls s1 Hcalls) as Hc.
    unfold mbind at 1, M_bind at 1. rewrite Hc. unfold on_finalize, take_included. unfold_M.
    by rewrite Hf1.
  - exfalso. unfold on_initialize in Hi. apply bind_Err in Hi as [Hi|([a|] & s2 & _ & Hi)].
    + by apply find_author_no_err in Hi.
    + by apply no_err_modify in Hi.
    + by apply no_err_ret in Hi.
  - unfold mbind at 1, M_bind at 1. by rewrite Hi.
Qed.
(** An eligible author's block is accepted: when the first nimbus pre-digest
    names a nimbus id whose account may author in the current slot, the block
    consisting of the inherent the pallet creates runs to the end, whatever the
    author stored before, and leaves that account as the author; with an account
    that may not author the same block panics. *)
Theorem inherent_block_decides (lg : list D) (o : Origin) (s : State AuthorId) (c : Call)
    id data l (n : NimbusId) r (a : AuthorId) b :
  create_inherent = Some c -> ensure_none T o = true ->
  filter (fun p => p.1 = NIMBUS_ENGINE_ID) (omap as_pre_runtime lg) = (id, data) :: l ->
  decode data = Some (n, r) -> lookup_account w n = Some a ->
  can_author w a (slot w) = Some b ->
  is_inherent c = true /\ can_author w n (slot w) = Some b /\
  run_block T w lg [(o, c)] s = if b then Ok tt (mkState (Some a) false) else Panic.
Proof.
  intros Hc Ho Hlg Hd Hl Hb. unfold create_inherent in Hc. simplify_eq.
  split; [done|]. split.
  - unfold can_author, can_author_nimbus. by rewrite Hl.
  - by eapply (inherent_block T w lg o [] s id data l n r a b).
Qed.
End Properties.

Section ExecutorProperties.
Context {D NimbusId NimbusSignature HeaderRest Hash : Type}.
Context `{!DigestItemOps D} `{!DigestItemLaws D}.
Context `{!Codec NimbusSignature} `{!CodecLaws NimbusSignature}.
Context `{!Codec NimbusId}.
Context (hash : Header D HeaderRest -> Hash) (from_slice : list Z -> option NimbusId).
Context (verify : NimbusId -> Hash -> NimbusSignature -> bool).
Context (sign_with : NimbusId -> Hash -> option NimbusSignature).

(** What the executor accepts. *)
Lemma seal_accepted (h : Header D HeaderRest) (n : NimbusId) (b : list Z) (seal : D) :
  (forall pk m sig, sign_with pk m = Some sig -> verify pk m sig = true) ->
  claimed_author (logs h) = Some b -> from_slice b = Some n ->
  seal_header hash sign_with h n = Some seal ->
  verify_and_remove_seal hash from_slice verify (mkHeader (logs h ++ [seal]) (rest h)) = Some h.
Proof.
  intros Hsign Hb Hn Hseal.
  unfold seal_header in Hseal. destruct (sign_with n (hash h)) as [sig|] eqn:Hs; simplify_eq/=.
  unfold verify_and_remove_seal. simpl. rewrite last_snoc. simpl. rewrite removelast_last.
  unfold as_nimbus_seal, nimbus_seal. rewrite seal_try_to_Seal, decide_True by done.
  rewrite decode_encode_nil. simpl. rewrite Hb. simpl. rewrite Hn. simpl.
  destruct h as [lg r]. simpl in *. by rewrite (Hsign _ _ _ Hs).
Qed.

Lemma verify_and_remove_seal_Some (h1 h2 : Header D HeaderRest) :
  verify_and_remove_seal hash from_slice verify h1 = Some h2 <->
  exists item b n sig, logs h1 = logs h2 ++ [item] /\ rest h2 = rest h1 /\
    as_nimbus_seal item = Some sig /\ claimed_author (logs h2) = Some b /\
    from_slice b = Some n /\ verify n (hash h2) sig = true.
Proof.
  destruct h1 as [l1 r1]. unfold verify_and_remove_seal. simpl. split.
  - intros Hv. destruct (last l1) as [item|] eqn:Hl; [|done]. simpl in Hv.
    destruct (as_nimbus_seal item) as [sig|] eqn:Hsig; [|done]. simpl in Hv.
    destruct (claimed_author (removelast l1)) as [b'|] eqn:Hb'; [|done]. simpl in Hv.
    destruct (from_slice b') as [n'|] eqn:Hn'; [|done]. simpl in Hv.
    destruct (verify n' _ sig) eqn:Hver; simplify_eq. exists item, b', n', sig. simpl.
    apply last_Some in Hl as [l0 ->]. rewrite removelast_last in *. done.
  - destruct h2 as [l2 r2]. simpl. intros (item & b & n & sig & -> & -> & Hsig & Hb & Hn & Hv).
    rewrite last_snoc. simpl. rewrite removelast_last, Hsig. simpl. rewrite Hb. simpl.
    rewrite Hn. simpl. by rewrite Hv.
Qed.

(** Sealing and verification agree: the executor accepts a header whose
    first nimbus pre-digest names [n] once the client has sealed it with the key
    of [n], and hands back exactly the unsealed header; conversely any header it
    accepts ends with a nimbus seal whose signature verifies, under the key named
    by the first nimbus pre-digest, for the hash of the header without the seal. *)
Theorem seal_verify (h : Header D HeaderRest) (n : NimbusId) (b : list Z) (seal : D) :
  (forall pk m sig, sign_with pk m = Some sig -> verify pk m sig = true) ->
  claimed_author (logs h) = Some b -> from_slice b = Some n ->
  seal_header hash sign_with h n = Some seal ->
  verify_and_remove_seal hash from_slice verify (mkHeader (logs h ++ [seal]) (rest h)) = Some h /\
  forall h1 h2, verify_and_remove_seal hash from_slice verify h1 = Some h2 ->
    exists item b' n' sig, logs h1 = logs h2 ++ [item] /\ rest h2 = rest h1 /\
      as_nimbus_seal item = Some sig /\ claimed_author (logs h2) = Some b' /\
      from_slice b' = Some n' /\ verify n' (hash h2) sig = true.
Proof.
  intros Hsign Hb Hn Hseal. split; [by eapply seal_accepted|].
  intros h1 h2. by apply verify_and_remove_seal_Some.
Qed.
End ExecutorProperties.

(** ** Concrete instances: nimbus ids are one byte, account = id + 1, and an
    account may author in the slots of its parity. *)
Section Witnesses.
#[local] Existing Instance fixed_codec.
#[local] Existing Instance fixed_codec_laws.
#[local] Instance sample_can_author : CanAuthor Z Z :=
  fun _ a sl => Some (Z.even (a + sl)).
#[local] Instance sample_lookup : AccountLookup Z Z Z := fun _ n => Some (n + 1).
#[local] Instance sample_beacon : SlotBeacon Z := fun w => w.

Definition sample_config : Config bool := {| ensure_none o := o |}.
Definition sample_logs : list Item := [nimbus_pre_digest 4].

Lemma valid_block_author_witness :
  exists a : Z, Some 5 = Some a /\ can_author 7 a (slot 7) = Some true.
Proof.
  assert (Hrun : run_block sample_config 7 sample_logs
    [(true, kick_off_authorship_validation_call)] (mkState None false)
    = Ok tt (mkState (Some 5) false)) by reflexivity.
  destruct (valid_block_author sample_config 7 _ _ (mkState None false) _ eq_refl Hrun) as (_ & a & Ha & Hc & _).
  exists a. split; [exact Ha|exact Hc].
Defined.

Lemma inherent_is_mandatory_witness :
  run_block sample_config 7 sample_logs [(false, kick_off_authorship_validation_call)]
    (mkState None false) = Panic.
Proof.
  apply (inherent_is_mandatory sample_config 7 sample_logs).
  - reflexivity.
  - repeat constructor.
Defined.

Lemma inherent_block_decides_witness :
  run_block sample_config 7 sample_logs [(true, kick_off_authorship_validation_call)]
    (mkState (Some 9) false) = Ok tt (mkState (Some 5) false) /\
  run_block sample_config 8 sample_logs [(true, kick_off_authorship_validation_call)]
    (mkState (Some 9) false) = Panic.
Proof.
  split.
  - eapply (inherent_block_decides sample_config 7 sample_logs true _ _ _ _ [] 4 [] 5 true);
      reflexivity.
  - eapply (inherent_block_decides sample_config 8 sample_logs true _ _ _ _ [] 4 [] 5 false);
      reflexivity.
Defined.

(** A toy signature scheme: the signature of [m] under [pk] is [pk + m]. *)
Definition sample_hash (h : Header Item Z) : Z := Z.of_nat (length (logs h)) + rest h.
Definition sample_from_slice (b : list Z) : option Z := fst <$> decode b.
Definition sample_verify (pk m sig : Z) : bool := sig =? pk + m.
Definition sample_sign (pk m : Z) : option Z := Some (pk + m).

Lemma seal_verify_witness :
  verify_and_remove_seal (NimbusSignature := Z) sample_hash sample_from_slice sample_verify
    (mkHeader (sample_logs ++ [nimbus_seal 14]) 9) = Some (mkHeader sample_logs 9).
Proof.
  apply (seal_verify sample_hash sample_from_slice sample_verify sample_sign
    (mkHeader sample_logs 9) 4 [4] (nimbus_seal 14)).
  - intros pk m sig Hs. unfold sample_sign in Hs. injection Hs as <-. apply Z.eqb_refl.
  - reflexivity.
  - reflexivity.
  - reflexivity.
Defined.
End Witnesses.
