(* ===== verification/SlotFilter.v ===== *)
(** * The author slot filter ([pallets/author-slot-filter/src/{lib,num,migration}.rs])

    For every slot a pseudo-random subset of the potential authors is eligible;
    its size is a governance parameter, a non-zero [u32].

    The on-chain randomness, [Percent::mul_ceil] and the [u32] codec are code
    outside the repository: the first two are fields of [Config], the last is the
    class [Codec]. *)
From Stdlib Require Import ZArith Lia.
From stdpp Require Import prelude gmap fin_maps sorting.
From S2P Require Import Prelude.
From S2P Require Import Interfaces.
From S2P Require Import NimbusPrimitives.

Local Open Scope Z_scope.

(** ** Non-zero integers ([num.rs]) *)

(** [NonZeroU32]: the wrapper itself does not exclude zero. *)
Record NonZeroU32 := NonZero { get : Z }.

(** [NonZeroU32::new] *)
Definition new (n : Z) : option NonZeroU32 :=
  if n =? 0 then None else Some (NonZero n).

(** [NonZeroU32::new_unchecked] *)
Definition new_unchecked (n : Z) : NonZeroU32 := NonZero n.

(** The derived [Encode] and the hand-written [Decode]. *)
Definition encode_nonzero `{Codec Z} (n : NonZeroU32) : list Z := encode (get n).

Definition decode_nonzero `{Codec Z} (input : list Z) : option (NonZeroU32 * list Z) :=
  '(n, rest) ← decode input;
  nz ← new n;
  Some (nz, rest).

(** [Deserialize]: [value] is the deserialised [u32], if there is one. *)
Definition deserialize_nonzero (value : option Z) : option NonZeroU32 :=
  n ← value; new n.

(** [Serialize] *)
Definition serialize_nonzero (n : NonZeroU32) : Z := get n.

(** [EligibilityValue::default] *)
Definition default_eligibility : NonZeroU32 := new_unchecked 50.

(** ** The pallet *)
Inductive Event := EligibleUpdated (n : NonZeroU32).

Section Definitions.
Context {Origin AccountId Percent : Type} `{EqDecision AccountId}.

(** The runtime's randomness and potential authors, the origin check, and the
    arithmetic of [Percent] that the migration uses. *)
Record Config := mkConfig {
  RandomnessSource : list Z -> list Z;
  PotentialAuthors : list AccountId;
  ensure_root : Origin -> bool;
  mul_ceil : Percent -> Z -> Z;
  from_percent : Z -> Percent;
}.

(** [EligibleRatio] and [EligibleCount] (absent until first written), the fake
    author key, the events. *)
Record State := mkState {
  EligibleRatio : option Percent;
  EligibleCount : option NonZeroU32;
  is_fake_author : bool;
  events : list Event;
}.

Context (T : Config).

(** Getters with the default of the storage item. *)
Definition eligible_count (s : State) : NonZeroU32 :=
  default default_eligibility (EligibleCount s).

Definition eligible_ratio (s : State) : Percent :=
  default (from_percent T 50) (EligibleRatio s).

Definition put_count (n : NonZeroU32) (s : State) : State :=
  mkState (EligibleRatio s) (Some n) (is_fake_author s) (events s).

(** The subject of the [i]-th sample: [filter], two bytes of the index, four of
    the seed. *)
Definition subject (i seed : Z) : list Z :=
  [102; 105; 108; 116; 101; 114] ++ take 2 (to_le_bytes 8 i) ++ take 4 (to_be_bytes 4 seed).

(** One sample, as [u32]. *)
Definition sample (i seed : Z) : Z :=
  from_le_bytes (take 4 (RandomnessSource T (subject i seed))).

(** [Vec::remove]: panics when the index is out of range. *)
Definition vec_remove (l : list AccountId) (i : nat) : option (AccountId * list AccountId) :=
  a ← l !! i; Some (a, take i l ++ drop (S i) l).

(** The loop [for i in i..num_eligible], with [fuel] rounds left. *)
Fixpoint select (fuel : nat) (i seed : Z) (eligible active : list AccountId) :
    option (list AccountId * list AccountId) :=
  match fuel with
  | O => Some (eligible, active)
  | S fuel' =>
      let randomness := sample i seed in
      if bool_decide (length active = 0%nat) then None
      else
        '(a, active') ← vec_remove active (Z.to_nat (randomness mod Z.of_nat (length active)));
        select fuel' (i + 1) seed (eligible ++ [a]) active'
  end.

(** [compute_pseudo_random_subset]; [None] is a panic. *)
Definition compute_pseudo_random_subset (active : list AccountId) (seed : Z) (s : State) :
    option (list AccountId * list AccountId) :=
  let num_eligible := get (eligible_count s) in
  let num_eligible :=
    if Z.of_nat (length active) <? num_eligible then Z.of_nat (length active) else num_eligible in
  select (Z.to_nat num_eligible) 0 seed [] active.

(** [CanAuthor::can_author] *)
Definition slot_can_author (author : AccountId) (slot : Z) (s : State) : option bool :=
  if is_fake_author s then Some true
  else
    '(eligible, _) ← compute_pseudo_random_subset (PotentialAuthors T) slot s;
    Some (bool_decide (author ∈ eligible)).

(** [Hooks::on_initialize]: [fake] tells whether fake authors are being used. *)
Definition on_initialize (fake : bool) : M State (dispatch_error unit unit) unit :=
  when fake (modify (fun s => mkState (EligibleRatio s) (EligibleCount s) true (events s))).

(** [set_eligible] *)
Definition set_eligible (origin : Origin) (n : NonZeroU32) :
    M State (dispatch_error unit unit) unit :=
  ensure (ensure_root T origin) BadOrigin ;;
  modify (put_count n) ;;
  modify (fun s => mkState (EligibleRatio s) (EligibleCount s) (is_fake_author s)
    (events s ++ [EligibleUpdated n])).

(** [GenesisConfig::build] *)
Definition genesis_build (eligible : NonZeroU32) : M State (dispatch_error unit unit) unit :=
  modify (put_count eligible).

(** [percent_of_num] *)
Definition percent_of_num (percent : Percent) (num : Z) : Z := mul_ceil T percent num.

(** [EligibleRatioToEligiblityCount::on_runtime_upgrade] *)
Definition on_runtime_upgrade : M State (dispatch_error unit unit) unit :=
  old_value ← gets eligible_ratio;
  let total_authors := Z.of_nat (length (PotentialAuthors T)) in
  let new_value := percent_of_num old_value (wrapping 32 total_authors) in
  let new_value := default default_eligibility (new new_value) in
  modify (put_count new_value).

(** [pre_upgrade]: the count that the migration is to store. *)
Definition pre_upgrade `{Codec Z} (s : State) : list Z :=
  let old_value := eligible_ratio s in
  let total_authors := Z.of_nat (length (PotentialAuthors T)) in
  let new_value := percent_of_num old_value (wrapping 32 total_authors) in
  let expected_value := default default_eligibility (new new_value) in
  encode_nonzero expected_value.

(** [post_upgrade]: panics unless the stored count is the expected one. *)
Definition post_upgrade `{Codec Z} (state : list Z) : M State (dispatch_error unit unit) unit :=
  '(expected, _) ← expect (decode_nonzero state);
  actual ← gets eligible_count;
  assert (get expected =? get actual).

Definition empty_state : State := mkState None None false [].
End Definitions.

Arguments Config Origin AccountId Percent : clear implicits.
Arguments State Percent : clear implicits.

(** The filter as the author check of the runtime. *)
#[export] Instance slot_filter {Origin AccountId Percent} `{EqDecision AccountId} :
    CanAuthor (Config Origin AccountId Percent * State Percent) AccountId :=
  fun w author sl => slot_can_author w.1 author sl w.2.

(** ** How the pallet's storage evolves

    A call of [set_eligible] carries an encoded argument, genesis a deserialised
    one. *)
Section Reachability.
Context {Origin AccountId Percent : Type} `{!EqDecision AccountId} `{!Codec Z}.
Context (T : Config Origin AccountId Percent).

Inductive step : State Percent -> State Percent -> Prop :=
  | step_on_initialize fake s s' : on_initialize fake s = Ok tt s' -> step s s'
  | step_set_eligible o input n rest s :
      decode_nonzero input = Some (n, rest) ->
      step s (final_state (transactional (set_eligible T o n)) s)
  | step_migrate s s' : on_runtime_upgrade T s = Ok tt s' -> step s s'.

Inductive reachable : State Percent -> Prop :=
  | reachable_empty : reachable empty_state
  | reachable_genesis v n s :
      fits 32 v -> deserialize_nonzero (Some v) = Some n -> genesis_build n empty_state = Ok tt s -> reachable s
  | reachable_step s s' : reachable s -> step s s' -> reachable s'.
End Reachability.

(** ** Lemmas *)
Section Lemmas.
Context {Origin AccountId Percent : Type} `{!EqDecision AccountId}.
Context (T : Config Origin AccountId Percent).
Implicit Types (active eligible : list AccountId) (s : State Percent).

Lemma new_nonzero n nz : new n = Some nz <-> get nz = n /\ n <> 0.
Proof.
  unfold new. destruct (Z.eqb_spec n 0).
  - split; [done|]. by intros [].
  - split; [intros; by simplify_eq/=|]. intros [<- _]. by destruct nz.
Qed.

Lemma vec_remove_spec active i a rest :
  vec_remove active i = Some (a, rest) ->
  a :: rest ≡ₚ active /\ active !! i = Some a.
Proof.
  unfold vec_remove. destruct (active !! i) as [b|] eqn:Hi; intros; simplify_eq/=.
  split; [|done]. rewrite <- (take_drop_middle _ _ _ Hi) at 3. by rewrite Permutation_middle.
Qed.

(** The loop never panics while it asks for no more authors than there are; it
    moves authors from one list to the other. *)
Lemma select_spec fuel i seed eligible active :
  (fuel <= length active)%nat ->
  exists chosen rest,
    select T fuel i seed eligible active = Some (eligible ++ chosen, rest) /\
    chosen ++ rest ≡ₚ active /\ length chosen = fuel.
Proof.
  revert i eligible active. induction fuel as [|fuel IH]; intros i eligible active Hf.
  - exists [], active. by rewrite app_nil_r.
  - cbn [select]. rewrite bool_decide_false by lia.
    destruct (lookup_lt_is_Some_2 active
      (Z.to_nat (sample T i seed mod Z.of_nat (length active)))) as [a Ha].
    { pose proof (Z.mod_pos_bound (sample T i seed) (Z.of_nat (length active))). lia. }
    destruct (vec_remove active _) as [[b rest]|] eqn:Hr.
    2: { unfold vec_remove in Hr. by rewrite Ha in Hr. }
    apply vec_remove_spec in Hr as [Hp _].
    assert (Hl : S (length rest) = length active) by (by rewrite <- Hp).
    destruct (IH (i + 1) (eligible ++ [b]) rest) as (chosen & rest' & Hs & Hp' & Hlen); [lia|].
    exists (b :: chosen), rest'. simpl. rewrite Hs, <- app_assoc. split; [done|].
    split; [|by rewrite Hlen]. by rewrite <- Hp, <- Hp'.
Qed.

Lemma subset_spec active seed s :
  0 <= get (eligible_count s) ->
  exists chosen rest,
    compute_pseudo_random_subset T active seed s = Some (chosen, rest) /\
    chosen ++ rest ≡ₚ active /\
    Z.of_nat (length chosen) = Z.min (get (eligible_count s)) (Z.of_nat (length active)).
Proof.
  intros Hc. unfold compute_pseudo_random_subset.
  set (n := if Z.of_nat (length active) <? _ then _ else _).
  assert (Hn : n = Z.min (get (eligible_count s)) (Z.of_nat (length active))).
  { unfold n. destruct (Z.ltb_spec (Z.of_nat (length active)) (get (eligible_count s))); lia. }
  destruct (select_spec (Z.to_nat n) 0 seed [] active) as (ch & rest & Hs & Hp & Hl); [lia|].
  exists ch, rest. rewrite Hs, Hl. split; [done|]. split; [done|]. lia.
Qed.

(** The stored count is a non-zero [u32]. *)
Definition count_ok s : Prop := 0 < get (eligible_count s) <= umax 32.

Lemma count_ok_put n s : 0 < get n <= umax 32 -> count_ok (put_count n s).
Proof. done. Qed.

Lemma count_ok_empty : count_ok empty_state.
Proof. unfold count_ok, umax. simpl. lia. Qed.
End Lemmas.

(** ** Properties *)
Section Properties.
Context {Origin AccountId Percent : Type} `{!EqDecision AccountId} `{!Codec Z}.
Context (T : Config Origin AccountId Percent).
(** [Decode for u32] and [Percent::mul_ceil] return a [u32]. *)
Context (decode_u32 : forall l n rest, decode l = Some (n, rest) -> fits 32 n).
Context (mul_ceil_u32 : forall p n, fits 32 (mul_ceil T p n)).
Implicit Types (s : State Percent).

Lemma reachable_count_ok s :
  reachable T s -> count_ok s.
Proof.
  induction 1 as [|v n s Hf Hv Hs|s s' _ IH Hstep].
  - apply count_ok_empty.
  - simpl in Hv. apply new_nonzero in Hv as [Hn Hz]. unfold genesis_build, modify in Hs. simplify_eq.
    apply count_ok_put. unfold fits in Hf. lia.
  - destruct Hstep as [fake s s' Hi|o input n rest s Hd|s s' Hm].
    + unfold on_initialize, when, modify in Hi. destruct fake; by simplify_eq.
    + unfold decode_nonzero in Hd. destruct (decode input) as [[m r]|] eqn:He; [|done].
      simpl in Hd. destruct (new m) as [nz|] eqn:Hz; simplify_eq/=.
      apply new_nonzero in Hz as [Hn Hz]. pose proof (decode_u32 _ _ _ He) as Hf.
      unfold final_state, transactional, set_eligible. unfold_M.
      destruct (ensure_root T o); simpl; [|done].
      unfold count_ok, fits, umax, eligible_count in *. simpl in *. lia.
    + unfold on_runtime_upgrade in Hm. unfold_M. simplify_eq. apply count_ok_put.
      unfold percent_of_num. set (x := mul_ceil T _ _).
      assert (Hf : fits 32 x) by apply mul_ceil_u32. unfold new, fits in *. clearbody x.
      destruct (Z.eqb_spec x 0); unfold umax in *; simpl; lia.
Qed.

(** Numbers that are not zero survive serialisation, zero does not. *)
Lemma serialize_roundtrip n :
  deserialize_nonzero (Some (serialize_nonzero n)) = if get n =? 0 then None else Some n.
Proof. unfold deserialize_nonzero, serialize_nonzero. simpl. unfold new. by destruct n. Qed.

(** The checks around the migration pass: from every state, what [pre_upgrade] saved is
    what [post_upgrade] finds. *)
Lemma upgrade_checked s s' :
  (forall n rest, fits 32 n -> decode (encode n ++ rest) = Some (n, rest)) ->
  on_runtime_upgrade T s = Ok tt s' -> post_upgrade (pre_upgrade T s) s' = Ok tt s'.
Proof.
  intros Hcodec Hm. unfold on_runtime_upgrade in Hm. unfold_M. simplify_eq. unfold post_upgrade, pre_upgrade.
  set (v := default default_eligibility _).
  assert (Hv : get v <> 0 /\ fits 32 (get v)).
  { unfold v, percent_of_num. set (x := mul_ceil T _ _). assert (Hx : fits 32 x) by apply mul_ceil_u32.
    unfold new. destruct (Z.eqb_spec x 0); simpl; [|done]. split; [done|]. by apply (bool_decide_unpack _). }
  destruct Hv as [Hz Hf]. unfold decode_nonzero, encode_nonzero.
  rewrite <- (app_nil_r (encode _)), Hcodec by done. simpl.
  unfold new at 1. rewrite (proj2 (Z.eqb_neq _ _)) by done. unfold_M. simpl. by rewrite Z.eqb_refl.
Qed.

(** What a caller sees of the check, when the fake author key is not set. *)
Lemma can_author_spec s sl :
  count_ok s -> is_fake_author s = false ->
  exists chosen rest,
    chosen ++ rest ≡ₚ PotentialAuthors T /\
    Z.of_nat (length chosen)
      = Z.min (get (eligible_count s)) (Z.of_nat (length (PotentialAuthors T))) /\
    forall a, can_author (T, s) a sl = Some (bool_decide (a ∈ chosen)).
Proof.
  intros Hc Hf. destruct (subset_spec T (PotentialAuthors T) sl s) as (ch & rest & Hs & Hp & Hl).
  { unfold count_ok in Hc. lia. }
  exists ch, rest. split; [done|]. split; [done|]. intros a.
  unfold can_author, slot_filter, slot_can_author. simpl. by rewrite Hf, Hs.
Qed.

(** Somebody is always drawn. *)
Lemma author_exists s sl :
  reachable T s -> PotentialAuthors T <> [] ->
  exists a, a ∈ PotentialAuthors T /\ can_author (T, s) a sl = Some true.
Proof.
  intros Hc%reachable_count_ok HT. destruct (is_fake_author s) eqn:Hf.
  - destruct (PotentialAuthors T) as [|a l]; [done|]. exists a. split; [by left|].
    unfold can_author, slot_filter, slot_can_author. simpl. by rewrite Hf.
  - destruct (can_author_spec s sl Hc Hf) as (ch & rest & Hp & Hl & Ha).
    unfold count_ok in Hc. destruct ch as [|a ch].
    { destruct (PotentialAuthors T); [done|]. simpl in Hl. lia. }
    exists a. rewrite Ha, <- Hp. split; [set_solver|]. rewrite bool_decide_true; set_solver.
Qed.

(** C17: somebody may always author: in every state reached from genesis by
    governance calls, block initialisations and the storage migration, with at
    least one potential author, the check of every slot never panics and some
    potential author passes it. *)
Theorem some_author_eligible s sl :
  reachable T s -> PotentialAuthors T <> [] ->
  (forall a, exists b, can_author (T, s) a sl = Some b) /\
  exists a, a ∈ PotentialAuthors T /\ can_author (T, s) a sl = Some true.
Proof.
  intros Hc HT. split; [|by apply author_exists].
  intros a. apply reachable_count_ok in Hc. destruct (is_fake_author s) eqn:Hf.
  - exists true. unfold can_author, slot_filter, slot_can_author. simpl. by rewrite Hf.
  - destruct (can_author_spec s sl Hc Hf) as (ch & rest & _ & _ & Ha). by eexists.
Qed.

(** The eligible set has the configured size: outside fake-author mode,
    exactly [min count n] of [n] distinct potential authors are eligible, nobody
    else is, and when the count covers them all every one of them is. *)
Theorem eligible_set_exact s sl :
  reachable T s -> is_fake_author s = false -> NoDup (PotentialAuthors T) ->
  let n := Z.of_nat (length (PotentialAuthors T)) in
  Z.of_nat (length (filter (fun a => can_author (T, s) a sl = Some true) (PotentialAuthors T)))
    = Z.min (get (eligible_count s)) n /\
  (forall a, can_author (T, s) a sl = Some true -> a ∈ PotentialAuthors T) /\
  (n <= get (eligible_count s) ->
   forall a, can_author (T, s) a sl = Some true <-> a ∈ PotentialAuthors T).
Proof.
  intros Hc%reachable_count_ok Hf Hnd n.
  destruct (can_author_spec s sl Hc Hf) as (ch & rest & Hp & Hl & Ha).
  assert (Hiff : forall a, can_author (T, s) a sl = Some true <-> a ∈ ch).
  { intros a. rewrite Ha. split; [intros; simplify_eq; by bool_to_prop|].
    intros. by rewrite bool_decide_true. }
  split; [|split].
  - unfold n. rewrite <- Hl. f_equal. apply Permutation_length. apply NoDup_Permutation.
    + by apply NoDup_filter.
    + rewrite <- Hp in Hnd. by apply NoDup_app in Hnd as [? _].
    + intros a. rewrite list_elem_of_filter, Hiff, <- Hp. set_solver.
  - intros a Hin%Hiff. rewrite <- Hp. set_solver.
  - intros Hn a. rewrite Hiff. assert (rest = []) as ->.
    { apply Permutation_length in Hp.
      rewrite length_app in Hp. destruct rest; [done|]. simpl in Hp. lia. }
    by rewrite app_nil_r in Hp; rewrite Hp.
Qed.

(** The samples are independent draws: two samples with indices below 2^16
    ask the randomness source about the same subject only when both the index and
    the slot agree; beyond that the two index bytes wrap around and subjects
    repeat. *)
Theorem subject_injective i j sl sl' :
  0 <= i -> 0 <= j -> fits 32 sl -> fits 32 sl' ->
  (subject i sl = subject j sl' <-> i mod 2 ^ 16 = j mod 2 ^ 16 /\ sl = sl').
Proof.
  intros Hi Hj Hs Hs'. unfold subject.
  assert (Hb : forall z, take 4 (to_be_bytes 4 z) = to_be_bytes 4 z).
  { intros z. apply take_ge. by rewrite length_to_be_bytes. }
  assert (Hlow : forall z, take 2 (to_le_bytes 8 z) = to_le_bytes 2 z) by done.
  rewrite !Hb, !Hlow.
  assert (H2 : forall z, from_le_bytes (to_le_bytes 2 z) = z mod 2 ^ 16).
  { intros z. by rewrite from_to_le_bytes. }
  split.
  - intros Heq. apply app_inv_head in Heq.
    apply app_inj_1 in Heq as [H1 H3]; [|by rewrite !length_to_le_bytes].
    split; [by rewrite <- !H2, H1|].
    eapply to_be_bytes_inj; [| |exact H3]; unfold fits, umax in *; simpl in *; lia.
  - intros [Hm ->]. do 2 f_equal.
    assert (Hc : forall z, to_le_bytes 2 z = to_le_bytes 2 (z mod 2 ^ 16)).
    { intros z. change (2 ^ 16) with (256 * 256). cbn [to_le_bytes].
      assert (H1 : (z mod (256 * 256)) mod 256 = z mod 256).
      { rewrite Z.rem_mul_r by lia.
        rewrite (Z.mul_comm 256), Z_mod_plus_full. by apply Z.mod_mod. }
      rewrite H1. do 2 f_equal. rewrite Z.rem_mul_r by lia.
      rewrite (Z.mul_comm 256), Z.div_add by lia.
      rewrite (Z.div_small (z mod 256)) by (apply Z.mod_pos_bound; lia). by rewrite Z.add_0_l, Z.mod_mod. }
    by rewrite (Hc i), (Hc j), Hm.
Qed.
End Properties.

(** ** A concrete runtime: four authors, a constant randomness source *)
Section Witnesses.
#[local] Instance u32_codec : Codec Z := {|
  encode n := to_le_bytes 4 n;
  decode l := if bool_decide (length l < 4)%nat then None
              else Some (wrapping 32 (from_le_bytes (take 4 l)), drop 4 l);
|}.

Definition sample_config : Config bool Z Z := {|
  RandomnessSource := fun sub => nth 6 sub 0 :: repeat 3 31;
  PotentialAuthors := [10; 20; 30; 40];
  ensure_root := fun o => o;
  mul_ceil := fun p n => Z.min (umax 32) (Z.max 0 ((p * n + 99) / 100));
  from_percent := fun p => p;
|}.

Lemma sample_decode_u32 l n rest : decode l = Some (n, rest) -> fits 32 n.
Proof. simpl. case_bool_decide; intros; simplify_eq. by apply wrapping_fits. Qed.

Lemma sample_mul_ceil p n : fits 32 (mul_ceil sample_config p n).
Proof. unfold fits, mul_ceil, sample_config, umax. lia. Qed.

(** Governance sets the count to 3, then the storage migration halves it to 2. *)
Definition sample_state : State Z :=
  final_state (on_runtime_upgrade sample_config)
    (final_state (transactional (set_eligible sample_config true (NonZero 3))) empty_state).

Lemma sample_reachable : reachable sample_config sample_state.
Proof.
  apply (reachable_step _
    (final_state (transactional (set_eligible sample_config true (NonZero 3))) empty_state)).
  - apply (reachable_step _ empty_state); [apply reachable_empty|].
    by apply (step_set_eligible sample_config true [3; 0; 0; 0] (NonZero 3) []).
  - by apply step_migrate.
Qed.

Lemma some_author_eligible_witness :
  exists a, a ∈ PotentialAuthors sample_config /\
    can_author (sample_config, sample_state) a 9 = Some true.
Proof.
  apply (some_author_eligible sample_config sample_decode_u32 sample_mul_ceil sample_state 9).
  - apply sample_reachable.
  - done.
Defined.

Lemma eligible_set_exact_witness :
  length (filter (fun a => can_author (sample_config, sample_state) a 9 = Some true)
    (PotentialAuthors sample_config)) = 2%nat.
Proof.
  apply Nat2Z.inj.
  apply (eligible_set_exact sample_config sample_decode_u32 sample_mul_ceil sample_state 9).
  - apply sample_reachable.
  - reflexivity.
  - by apply (bool_decide_unpack _).
Defined.

Lemma subject_injective_witness : subject 1 7 <> subject 2 7 /\ subject 1 7 = subject 65537 7.
Proof.
  split.
  - intros Hs. apply (subject_injective 1 2 7 7) in Hs as [Hm _]; [|by vm_compute..].
    vm_compute in Hm. congruence.
  - apply (subject_injective 1 65537 7 7); by vm_compute.
Defined.
End Witnesses.
