(* ===== verification/AuraFilter.v ===== *)
(** * The aura-style author filter ([pallets/aura-style-filter/src/lib.rs])

    One author is eligible per slot, chosen round robin from the potential
    authors. *)
From Stdlib Require Import ZArith Lia.
From stdpp Require Import prelude gmap fin_maps sorting.
From S2P Require Import Prelude.
From S2P Require Import NimbusPrimitives.

Local Open Scope Z_scope.

Section Definitions.
Context {AccountId : Type} `{EqDecision AccountId}.

(** The runtime's set of potential authors. *)
Record Config := mkConfig { PotentialAuthors : list AccountId }.

(** [CanAuthor::can_author].  The index [active[slot % active.len()]] panics on an
    empty set: the remainder has a zero divisor. *)
Definition aura_can_author (T : Config) (account : AccountId) (slot : Z) : option bool :=
  let active := PotentialAuthors T in
  if bool_decide (length active = 0%nat) then None
  else
    active_author ← active !! Z.to_nat (slot mod Z.of_nat (length active));
    Some (bool_decide (account = active_author)).

#[global] Instance aura_filter : CanAuthor Config AccountId := aura_can_author.
End Definitions.

Arguments Config AccountId : clear implicits.

Section Properties.
Context {AccountId : Type} `{EqDecision AccountId}.
Implicit Types (T : Config AccountId) (a b : AccountId) (sl : Z).

(** The author of a slot. *)
Lemma aura_can_author_spec T sl :
  PotentialAuthors T <> [] ->
  exists b, PotentialAuthors T !! Z.to_nat (sl mod Z.of_nat (length (PotentialAuthors T))) = Some b /\
    forall a, aura_can_author T a sl = Some (bool_decide (a = b)).
Proof.
  intros Hne. assert (Hlen : length (PotentialAuthors T) <> 0%nat).
  { by destruct (PotentialAuthors T). }
  destruct (lookup_lt_is_Some_2 (PotentialAuthors T)
    (Z.to_nat (sl mod Z.of_nat (length (PotentialAuthors T))))) as [b Hb].
  { pose proof (Z.mod_pos_bound sl (Z.of_nat (length (PotentialAuthors T)))). lia. }
  exists b. split; [done|]. intros a. unfold aura_can_author.
  rewrite bool_decide_false by done. by rewrite Hb.
Qed.

(** Slots have exactly one author: with a non-empty set of potential authors,
    the check never panics and exactly one account passes it, which is one of
    them; and an empty set makes every check panic. *)
Theorem aura_unique_author T sl :
  (PotentialAuthors T = [] -> forall a, aura_can_author T a sl = None) /\
  (PotentialAuthors T <> [] ->
   exists b, b ∈ PotentialAuthors T /\
     forall a, aura_can_author T a sl = Some (bool_decide (a = b))).
Proof.
  split; intros HT.
  - intros a. unfold aura_can_author. by rewrite HT.
  - destruct (aura_can_author_spec T sl HT) as (b & Hb & Ha).
    exists b. split; [by eapply list_elem_of_lookup_2|done].
Qed.

(** Round robin: in every window of as many consecutive slots as there are
    potential authors, the author at position [i] gets the turn at one of the
    slots, the one congruent to [i]; and without duplicates no author gets two
    turns in the window. *)
Theorem aura_round_robin T (first : Z) i a :
  0 <= first -> PotentialAuthors T !! i = Some a ->
  let n := Z.of_nat (length (PotentialAuthors T)) in
  (exists sl, first <= sl < first + n /\ sl mod n = Z.of_nat i /\ aura_can_author T a sl = Some true) /\
  (NoDup (PotentialAuthors T) -> forall s1 s2,
    first <= s1 < first + n -> first <= s2 < first + n ->
    aura_can_author T a s1 = Some true -> aura_can_author T a s2 = Some true -> s1 = s2).
Proof.
  intros Hf Hi n. assert (Hlt := lookup_lt_Some _ _ _ Hi).
  assert (HT : PotentialAuthors T <> []) by (intros HT; by rewrite HT in Hi).
  assert (Hturn : forall sl, aura_can_author T a sl = Some true ->
    PotentialAuthors T !! Z.to_nat (sl mod n) = Some a).
  { intros sl Ha. destruct (aura_can_author_spec T sl HT) as (b & Hb & Hc).
    rewrite Hc in Ha.
    injection Ha as Ha. bool_to_prop. by subst. }
  split.
  - set (sl := first + (Z.of_nat i - first) mod n).
    assert (Hmod : sl mod n = Z.of_nat i).
    { unfold sl. rewrite Zplus_mod_idemp_r.
      replace (first + (Z.of_nat i - first)) with (Z.of_nat i) by lia.
      apply Z.mod_small. lia. }
    exists sl. split; [|split; [done|]].
    + pose proof (Z.mod_pos_bound (Z.of_nat i - first) n). lia.
    + destruct (aura_can_author_spec T sl HT) as (b & Hb & Hc).
      rewrite Hc. fold n in Hb.
      rewrite Hmod, Nat2Z.id, Hi in Hb. injection Hb as ->. by rewrite bool_decide_true.
  - intros Hnd s1 s2 H1 H2 Ha1%Hturn Ha2%Hturn.
    pose proof (NoDup_lookup _ _ _ _ Hnd Ha1 Ha2) as Heq.
    pose proof (Z.mod_pos_bound s1 n). pose proof (Z.mod_pos_bound s2 n).
    pose proof (Z.div_mod s1 n). pose proof (Z.div_mod s2 n).
    assert (s1 / n = s2 / n); [|lia].
    destruct (Z.lt_trichotomy (s1 / n) (s2 / n)) as [|[|]]; nia.
Qed.
End Properties.

Lemma aura_unique_author_witness :
  exists b, b ∈ [10; 20; 30] /\
    forall a, aura_can_author (mkConfig [10; 20; 30]) a 7 = Some (bool_decide (a = b)).
Proof. apply (aura_unique_author (mkConfig [10; 20; 30]) 7). done. Defined.

Lemma aura_round_robin_witness :
  exists sl, 100 <= sl < 103 /\ sl mod 3 = 1 /\
    aura_can_author (mkConfig [10; 20; 30]) 20 sl = Some true.
Proof.
  apply (aura_round_robin (mkConfig [10; 20; 30]) 100 1 20); [lia|reflexivity].
Defined.
