(* ===== verification/AsyncBacking.v ===== *)
(** * The async-backing pallet and its consensus hook
    ([pallets/async-backing/src/{lib,consensus_hook}.rs])

    The hook runs on the relay chain state proof of every block: it bounds how
    many blocks are produced per relay chain slot and keeps parachain slots from
    running ahead.  [can_build_upon] tells a collator in advance whether it may
    build.  Slots are [u64], counters [u32].

    [Slot::from_timestamp], the timestamp pallet, the slot provider and the
    unincluded segment of parachain-system are code outside the repository. *)
From Stdlib Require Import ZArith Lia.
From stdpp Require Import prelude gmap fin_maps sorting.
From S2P Require Import Prelude.

Local Open Scope Z_scope.

Section Definitions.
Context {Origin Hash Error : Type}.

(** The runtime's configuration, with the const generics of the hook ([V], [C]
    and the relay chain slot duration) and the arithmetic mode [oc]. *)
Record Config := mkConfig {
  AllowMultipleBlocksPerSlot : bool;
  get_and_verify_slot : Z -> Error + Z;
  SlotDuration : Z;
  ensure_root : Origin -> bool;
  V : Z;
  C : Z;
  RELAY_CHAIN_SLOT_DURATION_MILLIS : Z;
  from_timestamp : Z -> Z -> option Z;
  unincluded_segment_size_after : Hash -> Z;
  overflow_checks : bool;
}.

(** [SlotInfo], [RelayParentOffset] (absent until first written). *)
Record State := mkState {
  SlotInfo : option (Z * Z);
  RelayParentOffset : option Z;
}.

Context (T : Config).

Abbreviation Mo := (M State (dispatch_error unit unit)).

(** [GetAndVerifySlot for RelaySlot] *)
Definition get_and_verify_relay_slot (relay_chain_slot : Z) : Error + Z :=
  inr relay_chain_slot.

(** [GetAndVerifySlot for ParaSlot]: [provider] is [SlotProvider::get()]; [None]
    is a panic inside [Slot::from_timestamp]. *)
Definition get_and_verify_para_slot (unexpected : Error) (relay_duration : Z)
    (provider : Z * Z) (relay_chain_slot : Z) : option (Error + Z) :=
  let relay_chain_timestamp := saturating_mul 64 relay_duration relay_chain_slot in
  let '(new_slot, para_slot_duration) := provider in
  para_slot_from_relay ← from_timestamp T relay_chain_timestamp para_slot_duration;
  Some (if new_slot =? para_slot_from_relay then inr new_slot else inl unexpected).

(** [set_relay_parent_offset] *)
Definition set_relay_parent_offset (origin : Origin) (n : Z) : Mo unit :=
  ensure (ensure_root T origin) BadOrigin ;;
  modify (fun s => mkState (SlotInfo s) (Some n)).

(** [Get<u32>] with [DefaultRelayParentOffset] *)
Definition get (s : State) : Z := default 1 (RelayParentOffset s).

(** [PostInherents::post_inherents]: [now] is the timestamp pallet's. *)
Definition post_inherents (now : Z) : Mo unit :=
  let slot_duration := SlotDuration T in
  assert (negb (slot_duration =? 0)) ;;
  let timestamp_slot := Z.min (now / slot_duration) (umax 64) in
  info ← gets SlotInfo;
  '(current_slot, _) ← expect info;
  assert (current_slot =? timestamp_slot).

(** The match at the head of [on_state_proof_inner]: the slot and the number of
    blocks authored in it so far. *)
Definition current_slot_info (relay_chain_slot : Z) : Mo (Z * Z) :=
  info ← gets SlotInfo;
  match info with
  | Some (slot, authored) =>
      if slot =? relay_chain_slot then
        assert (AllowMultipleBlocksPerSlot T) ;;
        mret (slot, authored)
      else if slot <? relay_chain_slot then mret (relay_chain_slot, 0)
      else panic
  | None => mret (relay_chain_slot, 0)
  end.

(** [FixedVelocityConsensusHook::on_state_proof_inner]: returns the capacity of
    the unincluded segment (the weight is not modelled). *)
Definition on_state_proof_inner (relay_chain_slot : Z) : Mo Z :=
  let velocity := Z.max (V T) 1 in
  '(slot, authored_in_relay) ← current_slot_info relay_chain_slot;
  assert (authored_in_relay <=? velocity) ;;
  authored ← expect (op_add (overflow_checks T) 32 authored_in_relay 1);
  modify (fun s => mkState (Some (slot, authored)) (RelayParentOffset s)) ;;
  para_slot ← expect (match get_and_verify_slot T slot with inr p => Some p | inl _ => None end);
  let relay_chain_timestamp := saturating_mul 64 (RELAY_CHAIN_SLOT_DURATION_MILLIS T) slot in
  para_slot_from_relay ← expect (from_timestamp T relay_chain_timestamp (SlotDuration T));
  assert (negb (para_slot_from_relay <? para_slot)) ;;
  mret (Z.max (C T) 1).

(** [ConsensusHook::on_state_proof]: [read_slot] is that of the state proof. *)
Definition on_state_proof (read_slot : option Z) : Mo Z :=
  relay_chain_slot ← expect read_slot;
  on_state_proof_inner relay_chain_slot.

(** [can_build_upon]; [None] is an overflow panic. *)
Definition can_build_upon (included_hash : Hash) (new_slot : Z) (s : State) : option bool :=
  let velocity := Z.max (V T) 1 in
  match SlotInfo s with
  | None => Some true
  | Some (last_slot, authored_so_far) =>
      let size_after_included := unincluded_segment_size_after T included_hash in
      if C T <=? size_after_included then Some false
      else if last_slot =? new_slot then
        limit ← op_add (overflow_checks T) 32 velocity 1;
        Some (authored_so_far <? limit)
      else Some (last_slot <? new_slot)
  end.

(** A block: the hook, the check after the inherents, the governance calls. *)
Definition run_block (read_slot : option Z) (now : Z) (calls : list (Origin * Z)) : Mo unit :=
  _ ← on_state_proof read_slot;
  post_inherents now ;;
  for_each (fun oc => _ ← attempt (transactional (set_relay_parent_offset oc.1 oc.2)); mret tt)
    calls.

Definition empty_state : State := mkState None None.
End Definitions.

Arguments Config Origin Hash Error : clear implicits.

(** ** Lemmas *)
Section Lemmas.
Context {Origin Hash Error : Type}.
Context (T : Config Origin Hash Error).
Implicit Types (s : State) (slot : Z).

(** The time part of the hook: the parachain slot for this relay slot exists and
    is not ahead of it. *)
Definition para_slot_ok slot : Prop :=
  exists p d, get_and_verify_slot T slot = inr p /\
    from_timestamp T (saturating_mul 64 (RELAY_CHAIN_SLOT_DURATION_MILLIS T) slot)
      (SlotDuration T) = Some d /\ p <= d.

(** The blocks already authored in the slot of the new block. *)
Definition authored_in slot s : Z :=
  match SlotInfo s with
  | Some (last, authored) => if last =? slot then authored else 0
  | None => 0
  end.

(** The slot part of the hook: the slot does not move backwards, and a repeated
    slot is allowed and below the velocity limit. *)
Definition slot_ok slot s : Prop :=
  match SlotInfo s with
  | Some (last, authored) =>
      last < slot \/
      (last = slot /\ AllowMultipleBlocksPerSlot T = true /\ authored <= Z.max (V T) 1)
  | None => True
  end.

(** The slot does not move backwards, nor repeat where that is not allowed. *)
Definition advance_ok slot s : bool :=
  match SlotInfo s with
  | Some (last, _) => (last <? slot) || ((last =? slot) && AllowMultipleBlocksPerSlot T)
  | None => true
  end.

(** The head of the hook: the counter of the slot, or a panic. *)
Lemma current_slot_info_spec slot s :
  current_slot_info T slot s =
    if advance_ok slot s then Ok (slot, authored_in slot s) s else Panic.
Proof.
  unfold current_slot_info, authored_in, advance_ok. unfold_M.
  destruct (SlotInfo s) as [[last authored]|]; [|done].
  destruct (Z.eqb_spec last slot) as [->|Hne].
  - rewrite Z.ltb_irrefl. by destruct (AllowMultipleBlocksPerSlot T).
  - rewrite orb_false_r. by destruct (Z.ltb_spec last slot).
Qed.

Lemma slot_ok_alt slot s :
  slot_ok slot s <-> advance_ok slot s = true /\ authored_in slot s <= Z.max (V T) 1.
Proof.
  unfold slot_ok, authored_in, advance_ok.
  destruct (SlotInfo s) as [[last authored]|]; [|split; [lia|done]].
  rewrite orb_true_iff, andb_true_iff, Z.ltb_lt, Z.eqb_eq.
  destruct (Z.eqb_spec last slot); split; intros; intuition lia.
Qed.

(** The hook on every input: it succeeds exactly when both parts hold, and then
    counts the block. *)
Lemma hook_spec slot s :
  Z.max (V T) 1 < umax 32 -> 0 <= authored_in slot s ->
  (slot_ok slot s /\ para_slot_ok slot /\
   on_state_proof_inner T slot s
     = Ok (Z.max (C T) 1) (mkState (Some (slot, authored_in slot s + 1)) (RelayParentOffset s)))
  \/ (~ (slot_ok slot s /\ para_slot_ok slot) /\ on_state_proof_inner T slot s = Panic).
Proof.
  intros HV Ha. unfold on_state_proof_inner. unfold_M.
  rewrite current_slot_info_spec, slot_ok_alt. destruct (advance_ok slot s);
    [|right; split; [by intros [[? _] _]|done]].
  destruct (Z.leb_spec (authored_in slot s) (Z.max (V T) 1));
    [|by right; split; [intros [[_ ?] _]; lia|]].
  rewrite op_add_exact by (unfold fits; lia). unfold para_slot_ok.
  destruct (get_and_verify_slot T slot) as [e|p] eqn:Hg;
    [by right; split; [intros [_ (? & ? & ? & _)]|]|].
  destruct (from_timestamp T _ _) as [d|] eqn:Hf; [|right; split; [|done]].
  2: { intros [_ (p' & d' & _ & ? & _)]. congruence. }
  destruct (Z.ltb_spec d p); [|left; split_and!; by eauto].
  right. split; [|done]. intros [_ (p' & d' & ? & ? & ?)]. simplify_eq. lia.
Qed.
End Lemmas.

(** ** Chains of accepted blocks *)
Section Chains.
Context {Origin Hash Error : Type}.
Context (T : Config Origin Hash Error).
(** The velocity is not the largest [u32]. *)
Context (velocity_fits : Z.max (V T) 1 < umax 32).
Implicit Types (s : State) (slot : Z).

(** A block: the relay slot of its proof, its timestamp, its calls. *)
Definition block : Type := option Z * Z * list (Origin * Z).

Definition execute_block (b : block) : M State (dispatch_error unit unit) unit :=
  run_block T b.1.1 b.1.2 b.2.

Lemma set_offset_Ok o n s s' u :
  attempt (E' := dispatch_error unit unit) (E := dispatch_error unit unit)
    (transactional (set_relay_parent_offset T o n)) s = Ok u s' ->
  SlotInfo s' = SlotInfo s.
Proof.
  unfold attempt, transactional, set_relay_parent_offset, ensure. unfold_M.
  destruct (ensure_root T o); intros; by simplify_eq.
Qed.

Lemma for_each_set_offset calls s s' :
  for_each (E := dispatch_error unit unit) (fun oc =>
    _ ← attempt (E' := dispatch_error unit unit)
          (transactional (set_relay_parent_offset T oc.1 oc.2)); mret tt) calls s = Ok tt s' ->
  SlotInfo s' = SlotInfo s.
Proof.
  revert s. induction calls as [|oc calls IH]; intros s; cbn [for_each].
  - intros Hr. unfold mret, M_ret in Hr. by simplify_eq.
  - intros ([] & s1 & (r & s2 & Ha & Hm)%bind_Ok & Hr%IH)%bind_Ok.
    apply set_offset_Ok in Ha. unfold mret, M_ret in Hm. simplify_eq. congruence.
Qed.

Lemma post_inherents_Ok now s s' :
  post_inherents T now s = Ok tt s' ->
  s' = s /\ SlotDuration T <> 0 /\
  exists slot a, SlotInfo s = Some (slot, a) /\ slot = Z.min (now / SlotDuration T) (umax 64).
Proof.
  unfold post_inherents. unfold_M. destruct (Z.eqb_spec (SlotDuration T) 0); simpl; [done|].
  destruct (SlotInfo s) as [[slot a]|]; [|done].
  destruct (Z.eqb_spec slot (Z.min (now / SlotDuration T) (umax 64))); [|done].
  intros; simplify_eq. eauto 10.
Qed.

(** How many of the chain's blocks were built in [slot]. *)
Definition blocks_in slot (slots : list Z) : Z := Z.of_nat (length (filter (.= slot) slots)).

Lemma blocks_in_snoc slot slots x :
  blocks_in slot (slots ++ [x]) = blocks_in slot slots + (if decide (x = slot) then 1 else 0).
Proof.
  unfold blocks_in. rewrite filter_app, length_app, filter_cons, filter_nil.
  case_decide; simpl; lia.
Qed.

Lemma blocks_in_zero slot slots : Forall (fun x => x < slot) slots -> blocks_in slot slots = 0.
Proof.
  intros Hall. unfold blocks_in. induction Hall as [|x l Hx _ IH]; [done|].
  simpl in Hx. rewrite filter_cons, decide_False by lia. done.
Qed.

Lemma blocks_in_strict slot slots : StronglySorted Z.lt slots -> blocks_in slot slots <= 1.
Proof.
  unfold blocks_in. induction 1 as [|x l _ IH Hall]; [done|].
  rewrite filter_cons. case_decide as Hx; [|done]. subst.
  assert (Hz : filter (.= slot) l = []); [|by rewrite Hz].
  clear IH. induction Hall as [|y l Hy _ IH]; [done|]. by rewrite filter_cons, decide_False by lia.
Qed.

(** The storage agrees with the relay slots of the chain so far. *)
Record chain_inv (slots : list Z) s : Prop := mkChainInv {
  ci_info : match SlotInfo s with
            | Some (l, a) => a = blocks_in l slots /\ Forall (fun x => x <= l) slots
            | None => slots = []
            end;
  ci_sorted : StronglySorted Z.le slots;
  ci_velocity slot : blocks_in slot slots <= Z.max (V T) 1 + 1;
  ci_single : AllowMultipleBlocksPerSlot T = false -> StronglySorted Z.lt slots;
}.

Lemma chain_inv_authored slots s slot :
  chain_inv slots s -> slot_ok T slot s -> authored_in slot s = blocks_in slot slots.
Proof.
  intros [Hi _ _ _]. unfold slot_ok, authored_in.
  destruct (SlotInfo s) as [[l a]|]; [|by subst].
  destruct Hi as [-> Hall]. destruct (Z.eqb_spec l slot) as [->|]; [done|].
  intros [|[]]; [|done]. rewrite blocks_in_zero; [done|].
  eapply Forall_impl; [done|]. simpl. lia.
Qed.

Lemma chain_inv_nonneg slots s slot : chain_inv slots s -> 0 <= authored_in slot s.
Proof.
  intros [Hi _ _ _]. unfold authored_in, blocks_in in *.
  destruct (SlotInfo s) as [[l a]|]; [|lia]. destruct (l =? slot); lia.
Qed.

Lemma execute_block_Ok slots b s s' :
  chain_inv slots s -> execute_block b s = Ok tt s' ->
  exists slot, b.1.1 = Some slot /\ slot_ok T slot s /\ para_slot_ok T slot /\
    SlotInfo s' = Some (slot, authored_in slot s + 1) /\
    SlotDuration T <> 0 /\ slot = Z.min (b.1.2 / SlotDuration T) (umax 64).
Proof.
  destruct b as [[rs now] calls]. unfold execute_block, run_block, on_state_proof. simpl.
  intros Hinv (c & s1 & (slot & s0 & Hrs & Hh)%bind_Ok & ([] & s2 & Hp & Hc)%bind_Ok)%bind_Ok.
  destruct rs as [r|]; [|done]. unfold expect in Hrs. simplify_eq. exists slot. split; [done|].
  destruct (hook_spec T slot s0 velocity_fits (chain_inv_nonneg _ _ _ Hinv))
    as [(Hs & Ht & Hr)|[_ Hr]]; rewrite Hr in Hh; simplify_eq.
  apply post_inherents_Ok in Hp as (-> & Hd & sl & a & Hi & Hsl).
  apply for_each_set_offset in Hc. simpl in *. simplify_eq. by rewrite Hc.
Qed.

Lemma chain_inv_step slots b s s' slot :
  chain_inv slots s -> execute_block b s = Ok tt s' -> b.1.1 = Some slot ->
  chain_inv (slots ++ [slot]) s'.
Proof.
  intros Hinv He Hb. destruct (execute_block_Ok _ _ _ _ Hinv He) as (sl & ? & Hs & _ & Hi & _).
  simplify_eq. pose proof (chain_inv_authored _ _ _ Hinv Hs) as Ha.
  pose proof (proj1 (slot_ok_alt T slot s) Hs) as [_ Hv].
  assert (Hle : forall x, x ∈ slots -> x <= slot /\ (AllowMultipleBlocksPerSlot T = false -> x < slot)).
  { intros x Hx. destruct Hinv as [Hinfo _ _ _]. unfold slot_ok in Hs.
    destruct (SlotInfo s) as [[l a]|]; [|by subst; apply elem_of_nil in Hx].
    destruct Hinfo as [_ Hall]. rewrite Forall_forall in Hall. specialize (Hall x Hx).
    destruct Hs as [|(? & ? & _)]; [lia|]. split; [lia|congruence]. }
  destruct Hinv as [_ Hsort Hvel Hsing]. split.
  - rewrite Hi. split; [rewrite blocks_in_snoc, decide_True by done; lia|].
    apply Forall_app. split; [|by apply Forall_singleton]. apply Forall_forall. intros x ?%Hle. lia.
  - apply StronglySorted_app. split; [|split; [done|repeat constructor]].
    intros x y Hx ->%list_elem_of_singleton. by apply Hle.
  - intros y. rewrite blocks_in_snoc. case_decide; [subst; lia|]. rewrite Z.add_0_r. apply Hvel.
  - intros HA. apply StronglySorted_app. split; [|split; [by apply Hsing|repeat constructor]].
    intros x y Hx ->%list_elem_of_singleton. by apply Hle.
Qed.

Lemma chain_inv_empty : chain_inv [] empty_state.
Proof. split; [done|constructor|unfold blocks_in; simpl; lia|constructor]. Qed.

Lemma chain_inv_blocks blocks slots s s' :
  chain_inv slots s -> for_each execute_block blocks s = Ok tt s' ->
  exists new, (fun b => b.1.1) <$> blocks = Some <$> new /\ chain_inv (slots ++ new) s'.
Proof.
  revert slots s. induction blocks as [|b blocks IH]; intros slots s Hinv; cbn [for_each].
  - intros Hr. unfold mret, M_ret in Hr. simplify_eq. exists []. by rewrite app_nil_r.
  - intros ([] & s1 & Hb & Hr)%bind_Ok.
    destruct (execute_block_Ok _ _ _ _ Hinv Hb) as (slot & Hsl & _).
    destruct (IH (slots ++ [slot]) s1) as (new & Hn & Hinv'); [by eapply chain_inv_step|done|].
    exists (slot :: new). rewrite !fmap_cons, Hn, Hsl. split; [done|].
    by rewrite <- app_assoc in Hinv'.
Qed.

(** C13: the velocity bound: along any chain of blocks accepted from genesis, the
    relay slots never decrease, no relay slot carries more than
    [max V 1 + 1] blocks, and where several blocks per slot are not allowed the
    slots strictly increase. *)
Theorem velocity_bound (blocks : list block) (s : State) :
  for_each execute_block blocks empty_state = Ok tt s ->
  exists slots, (fun b => b.1.1) <$> blocks = Some <$> slots /\
    StronglySorted Z.le slots /\
    (forall slot, blocks_in slot slots <= Z.max (V T) 1 + 1) /\
    (AllowMultipleBlocksPerSlot T = false -> StronglySorted Z.lt slots).
Proof.
  intros (slots & Hs & [_ ? ? ?])%(chain_inv_blocks _ [] _ _ chain_inv_empty).
  by exists slots.
Qed.

(** Time is consistent in an accepted block: after any accepted chain, an
    accepted block with timestamp [now] lies in its relay slot as the chain's slot
    duration counts it, and its parachain slot is not ahead of the slot derived
    from the relay chain. *)
Theorem accepted_block_time (blocks : list block) (s s' : State) rs now calls :
  for_each execute_block blocks empty_state = Ok tt s ->
  run_block T rs now calls s = Ok tt s' ->
  exists slot p d, rs = Some slot /\ SlotDuration T <> 0 /\
    slot = Z.min (now / SlotDuration T) (umax 64) /\
    get_and_verify_slot T slot = inr p /\
    from_timestamp T (saturating_mul 64 (RELAY_CHAIN_SLOT_DURATION_MILLIS T) slot)
      (SlotDuration T) = Some d /\ p <= d.
Proof.
  intros (slots & _ & Hinv)%(chain_inv_blocks _ [] _ _ chain_inv_empty) Hb.
  destruct (execute_block_Ok _ (rs, now, calls) _ _ Hinv Hb)
    as (slot & ? & _ & (p & d & ? & ? & ?) & _ & ? & ?).
  by exists slot, p, d.
Qed.

(** The hook accepts a block in the slot. *)
Definition hook_accepts slot s : Prop := exists c s', on_state_proof_inner T slot s = Ok c s'.

Lemma accepts_iff slot s :
  0 <= authored_in slot s -> hook_accepts slot s <-> slot_ok T slot s /\ para_slot_ok T slot.
Proof.
  intros Ha. unfold hook_accepts.
  destruct (hook_spec T slot s velocity_fits Ha) as [(Hs & Hp & ->)|[Hn ->]].
  - split; [done|]. intros _. by do 2 eexists.
  - split; [by intros (? & ? & ?)|]. intros ?. by destruct Hn.
Qed.

(** C37: the advice to collators against the hook, after any accepted chain (of a velocity
    that is not the largest [u32]).  [can_build_upon] looks at the relay slot only; the
    hook also wants the parachain slot not to be ahead of the one derived from it.  Below
    capacity, in every slot where several blocks are allowed and in every slot but the
    last block's otherwise, the hook accepts exactly if [can_build_upon] says yes and the
    parachain slot is acceptable; so too before the first block, where the answer is
    yes.  With a full segment the answer is no; and where several blocks per slot are not
    allowed it is still yes for the last slot, in which the hook panics. *)
Theorem can_build_upon_consistent (blocks : list block) (s : State) (h : Hash) slot :
  for_each execute_block blocks empty_state = Ok tt s ->
  match SlotInfo s with
  | None => blocks = [] /\ can_build_upon T h slot s = Some true /\ (hook_accepts slot s <-> para_slot_ok T slot)
  | Some (last, _) =>
      if C T <=? unincluded_segment_size_after T h then can_build_upon T h slot s = Some false
      else if bool_decide (AllowMultipleBlocksPerSlot T = false /\ slot = last) then
        can_build_upon T h slot s = Some true /\ on_state_proof_inner T slot s = Panic
      else exists b, can_build_upon T h slot s = Some b /\
        (hook_accepts slot s <-> b = true /\ para_slot_ok T slot)
  end.
Proof.
  intros (slots & Hs & Hinv)%(chain_inv_blocks _ [] _ _ chain_inv_empty). simpl in Hinv.
  pose proof (accepts_iff slot s (chain_inv_nonneg _ _ _ Hinv)) as Hacc.
  unfold slot_ok in Hacc. unfold can_build_upon. destruct (SlotInfo s) as [[l a]|] eqn:Hi.
  2: { destruct Hinv as [Hinfo _ _ _]. rewrite Hi in Hinfo. subst slots.
       split; [by destruct blocks|]. split; [done|]. rewrite Hacc. tauto. }
  assert (Hop : op_add (overflow_checks T) 32 (Z.max (V T) 1) 1 = Some (Z.max (V T) 1 + 1)).
  { apply op_add_exact. unfold fits. lia. }
  destruct (C T <=? unincluded_segment_size_after T h); [done|]. rewrite Hop.
  case_bool_decide as Hlast.
  - destruct Hlast as [HA ->]. rewrite Z.eqb_refl. simpl.
    destruct Hinv as [Hinfo _ _ Hsing]. rewrite Hi in Hinfo. destruct Hinfo as [-> _].
    pose proof (blocks_in_strict l _ (Hsing HA)).
    rewrite (proj2 (Z.ltb_lt _ _)) by lia. split; [done|].
    unfold on_state_proof_inner. unfold mbind at 1, M_bind at 1.
    rewrite current_slot_info_spec. unfold advance_ok. by rewrite Hi, Z.ltb_irrefl, Z.eqb_refl, HA.
  - destruct (Z.eqb_spec l slot) as [->|Hne]; simpl; (eexists; split; [done|]); rewrite Hacc, Z.ltb_lt;
      apply and_iff_compat_r.
    + assert (AllowMultipleBlocksPerSlot T = true) by (destruct (AllowMultipleBlocksPerSlot T); tauto).
      split; [intros [|(_ & _ & ?)]; lia|]. intros ?. right. split_and!; [done|done|lia].
    + split; [intros [|(? & _)]; [done|congruence]|auto].
Qed.
End Chains.

(** ** A concrete runtime: velocity 1, capacity 3, six-second slots *)
Definition sample_config (allow : bool) : Config bool unit unit := {|
  AllowMultipleBlocksPerSlot := allow;
  get_and_verify_slot := get_and_verify_relay_slot;
  SlotDuration := 6000;
  ensure_root o := o;
  V := 1;
  C := 3;
  RELAY_CHAIN_SLOT_DURATION_MILLIS := 6000;
  from_timestamp t d := if d =? 0 then None else Some (t / d);
  unincluded_segment_size_after _ := 1;
  overflow_checks := true;
|}.

Definition sample_blocks : list block :=
  [(Some 10, 60000, []); (Some 11, 66010, [(true, 2)])].

Definition sample_state : State := mkState (Some (11, 1)) (Some 2).

Lemma velocity_bound_witness :
  exists slots, (fun b => b.1.1) <$> sample_blocks = Some <$> slots /\ StronglySorted Z.le slots.
Proof.
  assert (Hv : Z.max (V (sample_config true)) 1 < umax 32) by reflexivity.
  destruct (velocity_bound (sample_config true) Hv sample_blocks sample_state)
    as (slots & Hs & Hsort & _); [reflexivity|].
  exists slots. split; [exact Hs|exact Hsort].
Defined.

Lemma accepted_block_time_witness :
  exists slot, Some 11 = Some slot /\ slot = Z.min (66020 / 6000) (umax 64).
Proof.
  assert (Hv : Z.max (V (sample_config true)) 1 < umax 32) by reflexivity.
  destruct (accepted_block_time (sample_config true) Hv sample_blocks sample_state
    (mkState (Some (11, 2)) (Some 2)) (Some 11) 66020 [] eq_refl eq_refl)
    as (slot & _ & _ & Hs & _ & Ht & _).
  exists slot. split; [exact Hs|exact Ht].
Defined.

Lemma can_build_upon_consistent_witness :
  (exists b, can_build_upon (sample_config true) tt 12 sample_state = Some b /\
    (hook_accepts (sample_config true) 12 sample_state <-> b = true /\ para_slot_ok (sample_config true) 12)) /\
  exists last, can_build_upon (sample_config false) tt last sample_state = Some true /\
    on_state_proof_inner (sample_config false) last sample_state = Panic.
Proof.
  assert (Hv : forall b, Z.max (V (sample_config b)) 1 < umax 32) by reflexivity.
  destruct (SlotInfo sample_state) as [[l a]|] eqn:Hi; [|vm_compute in Hi; discriminate Hi].
  split.
  - pose proof (can_build_upon_consistent (sample_config true) (Hv true) sample_blocks sample_state tt 12 eq_refl) as Hc.
    rewrite Hi in Hc. exact Hc.
  - exists l.
    pose proof (can_build_upon_consistent (sample_config false) (Hv false) sample_blocks sample_state tt l eq_refl) as Hc.
    rewrite Hi in Hc. rewrite bool_decide_true in Hc by done. exact Hc.
Defined.
