(* ===== verification/EmergencyXcm.v ===== *)
(** * The emergency-para-xcm pallet ([pallets/emergency-para-xcm/src/lib.rs])

    When the relay chain advanced by more than a threshold since the previous
    block, XCM is paused: all message queues stop and a configurable origin may
    authorise a runtime upgrade.  The wrapped relay number check, the wrapped queue
    query and [frame_system::authorize_upgrade] are code outside the repository. *)
From Stdlib Require Import ZArith Lia.
From stdpp Require Import prelude gmap fin_maps sorting.
From S2P Require Import Prelude.

Local Open Scope Z_scope.

Inductive XcmMode := Normal | Paused.

#[export] Instance XcmMode_eq_dec : EqDecision XcmMode.
Proof. solve_decision. Defined.

Inductive Event := EnteredPausedXcmMode | NormalXcmOperationResumed.

#[export] Instance Event_eq_dec : EqDecision Event.
Proof. solve_decision. Defined.

Inductive Error := NotInPausedMode.

Inductive Call (Hash : Type) :=
  | paused_to_normal_call
  | fast_authorize_upgrade_call (code_hash : Hash).
Arguments paused_to_normal_call {_}.
Arguments fast_authorize_upgrade_call {_} _.

Section Definitions.
Context {Origin QueueOrigin Hash Sys SysError : Type}.

(** The configuration: the wrapped implementations, the threshold, the origins,
    the system pallet's [authorize_upgrade] as root, the arithmetic mode. *)
Record Config := mkConfig {
  CheckAssociatedRelayNumber : Z -> Z -> bool;
  QueuePausedQuery : QueueOrigin -> bool;
  PausedThreshold : Z;
  FastAuthorizeUpgradeOrigin : Origin -> bool;
  PausedToNormalOrigin : Origin -> bool;
  authorize_upgrade : Hash -> M Sys SysError unit;
  overflow_checks : bool;
}.

(** [Mode], the system pallet's state, the events. *)
Record State := mkState {
  Mode : XcmMode;
  system : Sys;
  events : list Event;
}.

Context (T : Config).

Abbreviation Mo := (M State (dispatch_error Error SysError)).

Definition set_mode m : Mo unit := modify (fun s => mkState m (system s) (events s)).

Definition deposit_event e : Mo unit :=
  modify (fun s => mkState (Mode s) (system s) (events s ++ [e])).

(** [paused_to_normal] *)
Definition paused_to_normal (origin : Origin) : Mo unit :=
  ensure (PausedToNormalOrigin T origin) BadOrigin ;;
  mode ← gets Mode;
  ensure (bool_decide (mode = Paused)) (Module NotInPausedMode) ;;
  set_mode Normal ;;
  deposit_event NormalXcmOperationResumed.

(** [fast_authorize_upgrade] *)
Definition fast_authorize_upgrade (origin : Origin) (code_hash : Hash) : Mo unit :=
  ensure (FastAuthorizeUpgradeOrigin T origin) BadOrigin ;;
  mode ← gets Mode;
  ensure (bool_decide (mode = Paused)) (Module NotInPausedMode) ;;
  zoom system (fun x s => mkState (Mode s) x (events s)) Foreign (authorize_upgrade T code_hash).

Definition dispatch (origin : Origin) (c : Call Hash) : Mo unit :=
  match c with
  | paused_to_normal_call => paused_to_normal origin
  | fast_authorize_upgrade_call code_hash => fast_authorize_upgrade origin code_hash
  end.

(** [check_associated_relay_number]: block numbers are [u32]; [&&] does not
    evaluate the sum when [previous] is zero. *)
Definition check_associated_relay_number (current previous : Z) : Mo unit :=
  assert (CheckAssociatedRelayNumber T current previous) ;;
  if previous =? 0 then mret tt
  else
    limit ← expect (op_add (overflow_checks T) 32 previous (PausedThreshold T));
    when (limit <? current) (set_mode Paused ;; deposit_event EnteredPausedXcmMode).

(** [is_paused] *)
Definition is_paused (origin : QueueOrigin) (s : State) : bool :=
  if bool_decide (Mode s = Normal) then QueuePausedQuery T origin else true.

(** ** How the mode evolves *)
Inductive step : State -> State -> Prop :=
  | step_check current previous s s' :
      check_associated_relay_number current previous s = Ok tt s' -> step s s'
  | step_dispatch o c s : step s (final_state (transactional (dispatch o c)) s).

Definition initial (x : Sys) : State := mkState Normal x [].
End Definitions.

Arguments Config Origin QueueOrigin Hash Sys SysError : clear implicits.
Arguments State Sys : clear implicits.

(** ** Lemmas *)
Section Lemmas.
Context {Origin QueueOrigin Hash Sys SysError : Type}.
Context (T : Config Origin QueueOrigin Hash Sys SysError).
Implicit Types (s : State Sys).

(** The relay chain advanced by more than the threshold since [previous]. *)
Definition gap (current previous : Z) : Prop :=
  previous <> 0 /\ PausedThreshold T < current - previous.

#[export] Instance gap_dec current previous : Decision (gap current previous).
Proof. unfold gap. apply _. Defined.

Lemma check_spec current previous s :
  fits 32 (previous + PausedThreshold T) ->
  check_associated_relay_number T current previous s =
    if CheckAssociatedRelayNumber T current previous then
      Ok tt (if decide (gap current previous)
             then mkState Paused (system s) (events s ++ [EnteredPausedXcmMode]) else s)
    else Panic.
Proof.
  intros Hf. unfold check_associated_relay_number, gap. unfold_M.
  destruct (CheckAssociatedRelayNumber T current previous); [|done].
  destruct (Z.eqb_spec previous 0); [by rewrite decide_False by naive_solver|].
  rewrite op_add_exact by done.
  destruct (Z.ltb_spec (previous + PausedThreshold T) current).
  - rewrite decide_True by lia. done.
  - rewrite decide_False by lia. done.
Qed.

Lemma check_mode current previous s s' :
  check_associated_relay_number T current previous s = Ok tt s' ->
  s' = s \/ s' = mkState Paused (system s) (events s ++ [EnteredPausedXcmMode]).
Proof.
  unfold check_associated_relay_number. unfold_M. intros Hc.
  destruct (CheckAssociatedRelayNumber T current previous); [|done].
  destruct (previous =? 0); [by simplify_eq; left|].
  destruct (op_add _ _ _ _) as [limit|]; [|done].
  unfold set_mode, deposit_event, modify in Hc.
  destruct (limit <? current); simplify_eq; auto.
Qed.

Lemma paused_to_normal_spec o s :
  paused_to_normal T o s =
    if PausedToNormalOrigin T o then
      if bool_decide (Mode s = Paused)
      then Ok tt (mkState Normal (system s) (events s ++ [NormalXcmOperationResumed]))
      else Err (Module NotInPausedMode) s
    else Err BadOrigin s.
Proof.
  unfold paused_to_normal. unfold_M. destruct (PausedToNormalOrigin T o); [|done].
  by destruct (bool_decide (Mode s = Paused)).
Qed.

Lemma fast_authorize_spec o h s :
  fast_authorize_upgrade T o h s =
    if FastAuthorizeUpgradeOrigin T o then
      if bool_decide (Mode s = Paused)
      then match authorize_upgrade T h (system s) with
           | Ok _ x => Ok tt (mkState (Mode s) x (events s))
           | Err e x => Err (Foreign e) (mkState (Mode s) x (events s))
           | Panic => Panic
           end
      else Err (Module NotInPausedMode) s
    else Err BadOrigin s.
Proof.
  unfold fast_authorize_upgrade, zoom. unfold_M. destruct (FastAuthorizeUpgradeOrigin T o); [|done].
  destruct (bool_decide (Mode s = Paused)); [|done].
  by destruct (authorize_upgrade T h (system s)) as [[]| |].
Qed.

(** What a dispatched call may do to the mode, the events and the system. *)
Lemma step_dispatch_inv o c s :
  let s' := final_state (transactional (dispatch T o c)) s in
  s' = s \/
  (Mode s = Paused /\ PausedToNormalOrigin T o = true /\
    s' = mkState Normal (system s) (events s ++ [NormalXcmOperationResumed])) \/
  (Mode s = Paused /\ FastAuthorizeUpgradeOrigin T o = true /\
    exists h x, authorize_upgrade T h (system s) = Ok tt x /\
      s' = mkState (Mode s) x (events s)).
Proof.
  unfold final_state, transactional. destruct c as [|h]; simpl.
  - rewrite paused_to_normal_spec. destruct (PausedToNormalOrigin T o); [|by left].
    case_bool_decide; [by right; left|by left].
  - rewrite fast_authorize_spec. destruct (FastAuthorizeUpgradeOrigin T o); [|by left].
    case_bool_decide; [|by left].
    destruct (authorize_upgrade T h (system s)) as [[] x|e x|] eqn:Ha; [|by left|by left].
    right; right. split_and!; [done|done|]. by exists h, x.
Qed.
End Lemmas.

(** ** Properties *)
Section Properties.
Context {Origin QueueOrigin Hash Sys SysError : Type}.
Context (T : Config Origin QueueOrigin Hash Sys SysError).
Implicit Types (s : State Sys).

(** C33: the mode is what the event log says: along any sequence of relay number
    checks and calls from genesis, XCM is paused exactly when the last event paused
    it; while it is paused every queue is, otherwise the runtime's own query
    decides; and every resumption in the log directly follows a pause. *)
Theorem paused_iff_last_event (x : Sys) s :
  rtc (step T) (initial x) s ->
  (Mode s = Paused <-> last (events s) = Some EnteredPausedXcmMode) /\
  (forall q, is_paused T q s =
    if bool_decide (last (events s) = Some EnteredPausedXcmMode) then true
    else QueuePausedQuery T q) /\
  (forall l r, events s = l ++ NormalXcmOperationResumed :: r ->
    last l = Some EnteredPausedXcmMode).
Proof.
  intros Hr.
  assert (Hinv : (Mode s = Paused <-> last (events s) = Some EnteredPausedXcmMode) /\
    (forall l r, events s = l ++ NormalXcmOperationResumed :: r ->
      last l = Some EnteredPausedXcmMode)).
  { refine (rtc_invariant _ (fun s => (Mode s = Paused <-> last (events s) = Some EnteredPausedXcmMode)
      /\ forall l r, events s = l ++ NormalXcmOperationResumed :: r ->
           last l = Some EnteredPausedXcmMode) _ _ _ Hr _).
    2: { split; [done|]. intros [] r Hl; done. }
    clear Hr s. intros s1 s2 IH Hs.
    destruct Hs as [current previous s s' Hc|o c s]; destruct IH as [Hm Hl].
    - apply check_mode in Hc as [->| ->]; [by split|]. simpl. rewrite last_snoc.
      split; [done|]. intros l r Heq. destruct r as [|e r] using rev_ind.
      + by apply app_inj_tail in Heq as [_ ?].
      + rewrite app_comm_cons, app_assoc in Heq. apply app_inj_tail in Heq as [Heq _]. eauto.
    - destruct (step_dispatch_inv T o c s) as [->|[(Hp & _ & ->)|(Hp & _ & h & y & _ & ->)]];
        [by split| |by split]. simpl. rewrite last_snoc. split; [done|].
      intros l r Heq. destruct r as [|e r] using rev_ind.
      + apply app_inj_tail in Heq as [<- _]. by apply Hm.
      + rewrite app_comm_cons, app_assoc in Heq. apply app_inj_tail in Heq as [Heq _]. eauto. }
  destruct Hinv as [Hm Hl]. split; [done|]. split; [|done]. intros q. unfold is_paused.
  destruct (Mode s) eqn:Hmode.
  - rewrite bool_decide_true by done. rewrite bool_decide_false by naive_solver. done.
  - rewrite bool_decide_false by done. rewrite bool_decide_true by naive_solver. done.
Qed.

(** The trigger: as long as [previous + threshold] fits in a [u32], the
    check pauses XCM exactly when there is a previous block and the relay chain
    advanced by more than the threshold, and otherwise changes nothing, whatever the
    build's overflow checks; it panics exactly when the wrapped check does.  When the
    sum overflows no gap can exceed the threshold, yet a build without overflow
    checks always pauses and one with them panics. *)
Theorem gap_pauses current previous s :
  CheckAssociatedRelayNumber T current previous = true ->
  (fits 32 (previous + PausedThreshold T) ->
   check_associated_relay_number T current previous s =
     Ok tt (if decide (previous <> 0 /\ PausedThreshold T < current - previous)
            then mkState Paused (system s) (events s ++ [EnteredPausedXcmMode]) else s)) /\
  (fits 32 previous -> fits 32 current -> fits 32 (PausedThreshold T) ->
   previous <= current -> ~ fits 32 (previous + PausedThreshold T) ->
   ~ (PausedThreshold T < current - previous) /\
   check_associated_relay_number T current previous s =
     if overflow_checks T then Panic
     else Ok tt (mkState Paused (system s) (events s ++ [EnteredPausedXcmMode]))).
Proof.
  intros Hc. split.
  - intros Hf. rewrite check_spec by done. by rewrite Hc.
  - intros Hp Hcur Ht Hle Hover. unfold fits in *. split; [lia|].
    unfold check_associated_relay_number, op_add. unfold_M. rewrite Hc.
    destruct (Z.eqb_spec previous 0); [lia|].
    destruct (overflow_checks T).
    + unfold checked_add. by rewrite (proj2 (Z.leb_gt _ _)) by lia.
    + assert (Hw : wrapping 32 (previous + PausedThreshold T)
        = previous + PausedThreshold T - 2 ^ 32).
      { unfold wrapping, umax in *. symmetry. apply Z.mod_unique_pos with 1; lia. }
      rewrite Hw. unfold umax in *. by rewrite (proj2 (Z.ltb_lt _ _)) by lia.
Qed.

(** The emergency upgrade path: in every reachable state a call authorises
    an upgrade, that is changes the system's state, only while XCM is paused and
    only for the upgrade origin, and then exactly as the system does for root; and
    any other change by a call is the resumption, by the resume origin, out of the
    paused mode. *)
Theorem upgrade_only_when_paused o c s :
  let s' := final_state (transactional (dispatch T o c)) s in
  (system s' <> system s ->
    Mode s = Paused /\ FastAuthorizeUpgradeOrigin T o = true /\
    Mode s' = Paused /\ events s' = events s /\
    exists h, c = fast_authorize_upgrade_call h /\
      authorize_upgrade T h (system s) = Ok tt (system s')) /\
  (Mode s' <> Mode s ->
    Mode s = Paused /\ Mode s' = Normal /\ PausedToNormalOrigin T o = true /\
    system s' = system s) /\
  (Mode s = Normal -> s' = s).
Proof.
  unfold final_state, transactional. destruct c as [|h]; simpl.
  - rewrite paused_to_normal_spec. destruct (PausedToNormalOrigin T o); [|done].
    case_bool_decide as Hm; [|done]. simpl. rewrite Hm. naive_solver.
  - rewrite fast_authorize_spec. destruct (FastAuthorizeUpgradeOrigin T o); [|done].
    case_bool_decide as Hm; [|done].
    destruct (authorize_upgrade T h (system s)) as [[] x|e x|] eqn:Ha; [|done|done]. simpl.
    split_and!; [|done|congruence]. intros _. split_and!; try done. by exists h.
Qed.
End Properties.

(** ** A concrete runtime: threshold 10, the system stores the last hash *)
Definition sample_config : Config (bool * bool) unit Z Z unit := {|
  CheckAssociatedRelayNumber c p := p <=? c;
  QueuePausedQuery _ := false;
  PausedThreshold := 10;
  FastAuthorizeUpgradeOrigin o := o.1;
  PausedToNormalOrigin o := o.2;
  authorize_upgrade h := fun _ => Ok tt h;
  overflow_checks := true;
|}.

Definition sample_state : State Z :=
  final_state (check_associated_relay_number sample_config 120 100) (initial 0).

Lemma sample_mode_reachable : rtc (step sample_config) (initial 0) sample_state.
Proof. eapply rtc_l; [|apply rtc_refl]. by apply (step_check _ 120 100). Qed.

Lemma paused_iff_last_event_witness :
  Mode sample_state = Paused /\ is_paused sample_config tt sample_state = true.
Proof.
  destruct (paused_iff_last_event sample_config 0 sample_state sample_mode_reachable) as (Hm & Hq & _).
  split; [by apply Hm|]. by rewrite Hq.
Defined.

Lemma gap_pauses_witness :
  check_associated_relay_number sample_config 110 100 (initial 0) = Ok tt (initial 0).
Proof. by apply (gap_pauses sample_config 110 100 (initial 0) eq_refl). Defined.

Lemma upgrade_only_when_paused_witness :
  let s' := final_state (transactional
    (dispatch sample_config (true, false) (fast_authorize_upgrade_call 7))) sample_state in
  Mode sample_state = Paused /\ Mode s' = Paused.
Proof.
  destruct (upgrade_only_when_paused sample_config (true, false) (fast_authorize_upgrade_call 7)
    sample_state) as (Hs & _ & _).
  destruct (Hs ltac:(by vm_compute)) as (H1 & _ & H2 & _). split; [exact H1|exact H2].
Defined.
