(* ===== verification/Maintenance.v ===== *)
(** * The maintenance-mode pallet ([pallets/maintenance-mode/src/lib.rs])

    A privileged origin, or a failed migration, puts the chain into maintenance:
    the call filter is replaced by a restrictive one, message queues are paused and
    XCM execution is suspended.  The XCM execution manager is the interface
    [PauseXcmExecution]; the two filters and the origin check are configuration. *)
From Stdlib Require Import ZArith Lia.
From stdpp Require Import prelude gmap fin_maps sorting.
From S2P Require Import Prelude.
From S2P Require Import XcmPrimitives.

Inductive Error := AlreadyInMaintenanceMode | NotInMaintenanceMode.

Inductive Event (DispatchError : Type) :=
  | EnteredMaintenanceMode
  | NormalOperationResumed
  | FailedToSuspendIdleXcmExecution (e : DispatchError)
  | FailedToResumeIdleXcmExecution (e : DispatchError).
Arguments EnteredMaintenanceMode {_}.
Arguments NormalOperationResumed {_}.
Arguments FailedToSuspendIdleXcmExecution {_} _.
Arguments FailedToResumeIdleXcmExecution {_} _.

Inductive Call := enter_maintenance_mode_call | resume_normal_operation_call.

(** [FailedMigrationHandling]: the only answer the pallet gives. *)
Inductive FailedMigrationHandling := ForceUnstuck.

Section Definitions.
Context {Origin RuntimeCall QueueOrigin X E : Type} `{PauseXcmExecution X E}.

Record Config := mkConfig {
  NormalCallFilter : RuntimeCall -> bool;
  MaintenanceCallFilter : RuntimeCall -> bool;
  MaintenanceOrigin : Origin -> bool;
}.

(** [MaintenanceMode], the XCM execution manager's state, the events. *)
Record State := mkState {
  MaintenanceMode : bool;
  xcm : X;
  events : list (Event E);
}.

Context (T : Config).

Abbreviation Mo := (M State (dispatch_error Error E)).

Definition put_mode b : Mo unit := modify (fun s => mkState b (xcm s) (events s)).

Definition deposit_event e : Mo unit :=
  modify (fun s => mkState (MaintenanceMode s) (xcm s) (events s ++ [e])).

Definition XcmExecutionManager (m : M X E unit) : M State E unit :=
  zoom xcm (fun x s => mkState (MaintenanceMode s) x (events s)) id m.

(** [do_enter_maintenance_mode]: a failure to suspend is only an event. *)
Definition do_enter_maintenance_mode : Mo unit :=
  put_mode true ;;
  r ← attempt (XcmExecutionManager suspend_xcm_execution);
  match r with
  | inl error => deposit_event (FailedToSuspendIdleXcmExecution error)
  | inr _ => mret tt
  end ;;
  deposit_event EnteredMaintenanceMode.

(** [enter_maintenance_mode] *)
Definition enter_maintenance_mode (origin : Origin) : Mo unit :=
  ensure (MaintenanceOrigin T origin) BadOrigin ;;
  mode ← gets MaintenanceMode;
  ensure (negb mode) (Module AlreadyInMaintenanceMode) ;;
  do_enter_maintenance_mode.

(** [resume_normal_operation] *)
Definition resume_normal_operation (origin : Origin) : Mo unit :=
  ensure (MaintenanceOrigin T origin) BadOrigin ;;
  mode ← gets MaintenanceMode;
  ensure mode (Module NotInMaintenanceMode) ;;
  put_mode false ;;
  r ← attempt (XcmExecutionManager resume_xcm_execution);
  match r with
  | inl error => deposit_event (FailedToResumeIdleXcmExecution error)
  | inr _ => mret tt
  end ;;
  deposit_event NormalOperationResumed.

Definition dispatch (origin : Origin) (c : Call) : Mo unit :=
  match c with
  | enter_maintenance_mode_call => enter_maintenance_mode origin
  | resume_normal_operation_call => resume_normal_operation origin
  end.

(** [GenesisConfig::build] *)
Definition genesis_build (start_in_maintenance_mode : bool) : Mo unit :=
  when start_in_maintenance_mode (put_mode true).

(** [Contains::contains] *)
Definition contains (call : RuntimeCall) (s : State) : bool :=
  if MaintenanceMode s then MaintenanceCallFilter T call else NormalCallFilter T call.

(** [QueuePausedQuery::is_paused] *)
Definition is_paused (origin : QueueOrigin) (s : State) : bool := MaintenanceMode s.

(** [FailedMigrationHandler::failed] *)
Definition failed (migration : option Z) : Mo FailedMigrationHandling :=
  do_enter_maintenance_mode ;;
  mret ForceUnstuck.

(** ** How the mode evolves from genesis *)
Inductive step : State -> State -> Prop :=
  | step_dispatch o c s : step s (final_state (transactional (dispatch o c)) s)
  | step_failed migration s : step s (final_state (failed migration) s).

Definition initial (x : X) : State := mkState false x [].
End Definitions.

Arguments Config Origin RuntimeCall : clear implicits.
Arguments State X E : clear implicits.

(** Which calls of the manager failed, oldest first. *)
Definition is_failure {E} (e : Event E) : bool :=
  match e with
  | FailedToSuspendIdleXcmExecution _ | FailedToResumeIdleXcmExecution _ => true
  | _ => false
  end.

(** ** Lemmas *)
Section Lemmas.
Context {Origin RuntimeCall X E : Type} `{!PauseXcmExecution X E}.
Context (xcm_suspended : X -> bool) `{!PauseXcmLaws X E xcm_suspended}.
Context (T : Config Origin RuntimeCall).
Implicit Types (s : State X E).

(** The switch to [b]: what entering and resuming have in common. *)
Definition switched (b : bool) s s' : Prop :=
  MaintenanceMode s' = b /\
  ((xcm_suspended (xcm s') = b /\
    events s' = events s ++ [if b then EnteredMaintenanceMode else NormalOperationResumed]) \/
   (exists e, xcm_suspended (xcm s') = xcm_suspended (xcm s) /\
    events s' = events s ++ [if b then FailedToSuspendIdleXcmExecution e
                             else FailedToResumeIdleXcmExecution e;
                             if b then EnteredMaintenanceMode else NormalOperationResumed])).

Lemma do_enter_spec s : exists s', do_enter_maintenance_mode s = Ok tt s' /\ switched true s s'.
Proof.
  pose proof (suspend_spec (xcm s)) as Hs. unfold switched.
  unfold do_enter_maintenance_mode, XcmExecutionManager, put_mode, deposit_event, zoom.
  unfold_M. simpl. destruct (suspend_xcm_execution (xcm s)) as [[] x|e x|]; [| |done];
    eexists; (split; [done|]); simpl; rewrite <- ?app_assoc; eauto 10.
Qed.

Lemma enter_spec o s :
  MaintenanceOrigin T o = true ->
  if MaintenanceMode s then enter_maintenance_mode T o s = Err (Module AlreadyInMaintenanceMode) s
  else exists s', enter_maintenance_mode T o s = Ok tt s' /\ switched true s s'.
Proof.
  intros Ho. destruct (do_enter_spec s) as (s' & Hs & Hsw).
  unfold enter_maintenance_mode. unfold mbind, M_bind, ensure, gets. rewrite Ho.
  destruct (MaintenanceMode s); [done|]. simpl. eauto.
Qed.

Lemma resume_spec' o s :
  MaintenanceOrigin T o = true ->
  if MaintenanceMode s
  then exists s', resume_normal_operation T o s = Ok tt s' /\ switched false s s'
  else resume_normal_operation T o s = Err (Module NotInMaintenanceMode) s.
Proof.
  intros Ho. pose proof (resume_spec (xcm s)) as Hs. unfold switched.
  unfold resume_normal_operation, XcmExecutionManager, put_mode, deposit_event, zoom.
  unfold_M. rewrite Ho. destruct (MaintenanceMode s); [|done]. simpl.
  destruct (resume_xcm_execution (xcm s)) as [[] x|e x|]; [| |done];
    eexists; (split; [done|]); simpl; rewrite <- ?app_assoc; eauto 10.
Qed.

Lemma bad_origin o c s : MaintenanceOrigin T o = false -> dispatch T o c s = Err BadOrigin s.
Proof.
  intros Ho. destruct c; simpl; unfold enter_maintenance_mode, resume_normal_operation;
    unfold_M; by rewrite Ho.
Qed.

(** Every step keeps the mode, or switches it and logs the switch. *)
Lemma step_switched s s' : step T s s' -> s' = s \/ exists b, switched b s s'.
Proof.
  intros [o c s0|m s0].
  - destruct (MaintenanceOrigin T o) eqn:Ho.
    2: { left. unfold final_state, transactional. by rewrite bad_origin. }
    unfold final_state, transactional. destruct c; simpl.
    + pose proof (enter_spec o s0 Ho) as Hs. destruct (MaintenanceMode s0).
      * left. by rewrite Hs.
      * destruct Hs as (s1 & -> & ?). right. by exists true.
    + pose proof (resume_spec' o s0 Ho) as Hs. destruct (MaintenanceMode s0).
      * destruct Hs as (s1 & -> & ?). right. by exists false.
      * left. by rewrite Hs.
  - right. exists true. destruct (do_enter_spec s0) as (s1 & Hs & ?).
    unfold final_state, failed. unfold mbind, M_bind. by rewrite Hs.
Qed.
End Lemmas.

(** ** Properties *)
Section Properties.
Context {Origin RuntimeCall X E : Type} `{!PauseXcmExecution X E}.
Context (xcm_suspended : X -> bool) `{!PauseXcmLaws X E xcm_suspended}.
Context (T : Config Origin RuntimeCall).
Implicit Types (s : State X E).

(** The mode is what the event log says and XCM follows it: along any
    sequence of calls and failed migrations from a genesis in normal mode with XCM
    running, the chain is in maintenance exactly when the last switch event entered
    it; as long as no call of the XCM manager has failed, XCM execution is
    suspended exactly in maintenance; and in maintenance every message queue is
    paused and only the calls of the maintenance filter pass. *)
Theorem maintenance_consistent (x : X) s :
  xcm_suspended x = false -> rtc (step T) (initial x) s ->
  (MaintenanceMode s = true <-> last (events s) = Some EnteredMaintenanceMode) /\
  (existsb is_failure (events s) = false -> xcm_suspended (xcm s) = MaintenanceMode s) /\
  (MaintenanceMode s = true ->
   (forall Q (q : Q), is_paused q s = true) /\
   forall call, contains T call s = MaintenanceCallFilter T call).
Proof.
  intros Hx Hr. split; [|split].
  3: { intros Hm. split; [done|]. intros call. unfold contains. by rewrite Hm. }
  - refine (rtc_invariant _ (fun s => MaintenanceMode s = true <->
      last (events s) = Some EnteredMaintenanceMode) _ _ _ Hr _); [|done]. clear Hx Hr s. intros s1 s2 IH Hs.
    apply (step_switched xcm_suspended) in Hs as [->|(b & Hb & Hev)]; [done|].
    rewrite Hb. destruct Hev as [[_ ->]|(e & _ & ->)].
    + rewrite last_snoc. by destruct b.
    + rewrite last_app. simpl. by destruct b.
  - refine (rtc_invariant _ (fun s => existsb is_failure (events s) = false ->
      xcm_suspended (xcm s) = MaintenanceMode s) _ _ _ Hr _); [|done]. clear Hx Hr s. intros s1 s2 IH Hs.
    apply (step_switched xcm_suspended) in Hs as [->|(b & Hb & [[Hxs ->]|(e & _ & ->)])]; [done| |].
    + intros _. by rewrite Hxs, Hb.
    + rewrite existsb_app. simpl. destruct b; simpl; by rewrite orb_true_r.
Qed.

(** Entering and resuming: a call from another origin changes nothing and
    fails; an authorised origin enters exactly from normal mode and resumes exactly
    from maintenance, the other case being the documented error without effect; a
    failing XCM manager is recorded as an event but does not make the call fail;
    a failed migration always ends in maintenance and forces the chain on; but a
    genesis in maintenance neither suspends XCM nor logs an event. *)
Theorem maintenance_switching o c m b s :
  (MaintenanceOrigin T o = false -> dispatch T o c s = Err BadOrigin s) /\
  (MaintenanceOrigin T o = true ->
   match c with
   | enter_maintenance_mode_call =>
       if MaintenanceMode s then dispatch T o c s = Err (Module AlreadyInMaintenanceMode) s
       else exists s', dispatch T o c s = Ok tt s' /\ switched xcm_suspended true s s'
   | resume_normal_operation_call =>
       if MaintenanceMode s
       then exists s', dispatch T o c s = Ok tt s' /\ switched xcm_suspended false s s'
       else dispatch T o c s = Err (Module NotInMaintenanceMode) s
   end) /\
  (exists s', failed m s = Ok ForceUnstuck s' /\ switched xcm_suspended true s s') /\
  genesis_build b s = Ok tt (mkState (b || MaintenanceMode s) (xcm s) (events s)).
Proof.
  split; [apply bad_origin|]. split; [|split].
  - intros Ho. destruct c; simpl.
    + by apply enter_spec.
    + by apply resume_spec'.
  - destruct (do_enter_spec xcm_suspended s) as (s' & Hs & ?). exists s'. split; [|done].
    unfold failed, mbind, M_bind. by rewrite Hs.
  - unfold genesis_build, when, put_mode, modify. destruct b; [done|]. by destruct s.
Qed.
End Properties.

(** ** A concrete runtime: calls are numbers, maintenance allows only call 0 *)
Definition sample_config : Config bool nat := {|
  NormalCallFilter _ := true;
  MaintenanceCallFilter c := Nat.eqb c 0;
  MaintenanceOrigin o := o;
|}.

Definition sample_state : State switch unit :=
  final_state (transactional (dispatch sample_config true enter_maintenance_mode_call))
    (initial (false, false)).

Lemma maintenance_consistent_witness :
  fst (xcm sample_state) = true /\ contains sample_config 3%nat sample_state = false.
Proof.
  destruct (maintenance_consistent fst sample_config (false, false) sample_state eq_refl)
    as (_ & Hx & Hm).
  - eapply rtc_l; [|apply rtc_refl]. apply step_dispatch.
  - split; [by apply Hx|]. by apply Hm.
Defined.

Lemma maintenance_switching_witness :
  exists s', dispatch sample_config true resume_normal_operation_call sample_state = Ok tt s' /\
    MaintenanceMode s' = false.
Proof.
  destruct (maintenance_switching fst sample_config true resume_normal_operation_call None
    true sample_state) as (_ & Hok & _).
  destruct (Hok eq_refl) as (s' & Hs & Hm & _). exists s'. split; [exact Hs|exact Hm].
Defined.
