(* ===== verification/ForeignAssets.v ===== *)
(** * The foreign-asset-creator pallet ([pallets/foreign-asset-creator/src/lib.rs])

    Two maps relate the ids of fungible assets to the foreign assets they stand
    for; privileged origins create, retarget, remove and destroy the associations.
    The fungibles implementation and the two hooks are code outside the
    repository: the class [Fungibles] over a state [F]. *)
From Stdlib Require Import ZArith Lia.
From stdpp Require Import prelude gmap fin_maps sorting.
From S2P Require Import Prelude.

Local Open Scope Z_scope.

Inductive Error := AssetAlreadyExists | AssetDoesNotExist.

Inductive Event (AssetId ForeignAsset : Type) :=
  | ForeignAssetCreated (asset_id : AssetId) (foreign_asset : ForeignAsset)
  | ForeignAssetTypeChanged (asset_id : AssetId) (new_foreign_asset : ForeignAsset)
  | ForeignAssetRemoved (asset_id : AssetId) (foreign_asset : ForeignAsset)
  | ForeignAssetDestroyed (asset_id : AssetId) (foreign_asset : ForeignAsset).
Arguments ForeignAssetCreated {_ _} _ _.
Arguments ForeignAssetTypeChanged {_ _} _ _.
Arguments ForeignAssetRemoved {_ _} _ _.
Arguments ForeignAssetDestroyed {_ _} _ _.

Inductive Call (AccountId AssetId ForeignAsset : Type) :=
  | create_foreign_asset_call (foreign_asset : ForeignAsset) (asset_id : AssetId)
      (admin : AccountId) (is_sufficient : bool) (min_balance : Z)
  | change_existing_asset_type_call (asset_id : AssetId) (new_foreign_asset : ForeignAsset)
  | remove_existing_asset_type_call (asset_id : AssetId)
  | destroy_foreign_asset_call (asset_id : AssetId).
Arguments create_foreign_asset_call {_ _ _} _ _ _ _ _.
Arguments change_existing_asset_type_call {_ _ _} _ _.
Arguments remove_existing_asset_type_call {_ _ _} _.
Arguments destroy_foreign_asset_call {_ _ _} _.

(** [Create] and [Destroy] of the fungibles, and the two hooks of the pallet. *)
Class Fungibles (AccountId AssetId ForeignAsset F X : Type) := {
  create : AssetId -> AccountId -> bool -> Z -> M F X unit;
  start_destroy : AssetId -> M F X unit;
  on_asset_created : ForeignAsset -> AssetId -> Z -> F -> F;
  on_asset_destroyed : ForeignAsset -> AssetId -> F -> F;
}.

Section Definitions.
Context {Origin AccountId AssetId ForeignAsset F X : Type}.
Context `{Countable AssetId} `{Countable ForeignAsset}.
Context `{Fungibles AccountId AssetId ForeignAsset F X}.

Record Config := mkConfig {
  ForeignAssetCreatorOrigin : Origin -> bool;
  ForeignAssetModifierOrigin : Origin -> bool;
  ForeignAssetDestroyerOrigin : Origin -> bool;
}.

(** The two maps, the fungibles' state, the events. *)
Record State := mkState {
  AssetIdToForeignAsset : gmap AssetId ForeignAsset;
  ForeignAssetToAssetId : gmap ForeignAsset AssetId;
  fungibles : F;
  events : list (Event AssetId ForeignAsset);
}.

Context (T : Config).

Abbreviation Mo := (M State (dispatch_error Error X)).

Definition update_forward f : Mo unit := modify (fun s =>
  mkState (f (AssetIdToForeignAsset s)) (ForeignAssetToAssetId s) (fungibles s) (events s)).

Definition update_reverse f : Mo unit := modify (fun s =>
  mkState (AssetIdToForeignAsset s) (f (ForeignAssetToAssetId s)) (fungibles s) (events s)).

Definition set_fungibles x (s : State) : State :=
  mkState (AssetIdToForeignAsset s) (ForeignAssetToAssetId s) x (events s).

Definition call_fungibles (m : M F X unit) : Mo unit := zoom fungibles set_fungibles Foreign m.

Definition call_hook (f : F -> F) : Mo unit :=
  modify (fun s => set_fungibles (f (fungibles s)) s).

Definition deposit_event e : Mo unit := modify (fun s =>
  mkState (AssetIdToForeignAsset s) (ForeignAssetToAssetId s) (fungibles s) (events s ++ [e])).

(** [create_foreign_asset] *)
Definition create_foreign_asset (origin : Origin) (foreign_asset : ForeignAsset)
    (asset_id : AssetId) (admin : AccountId) (is_sufficient : bool) (min_balance : Z) : Mo unit :=
  ensure (ForeignAssetCreatorOrigin T origin) BadOrigin ;;
  m ← gets AssetIdToForeignAsset;
  ensure (bool_decide (m !! asset_id = None)) (Module AssetAlreadyExists) ;;
  call_fungibles (create asset_id admin is_sufficient min_balance) ;;
  update_forward <[asset_id := foreign_asset]> ;;
  update_reverse <[foreign_asset := asset_id]> ;;
  call_hook (on_asset_created foreign_asset asset_id min_balance) ;;
  deposit_event (ForeignAssetCreated asset_id foreign_asset).

(** [change_existing_asset_type] *)
Definition change_existing_asset_type (origin : Origin) (asset_id : AssetId)
    (new_foreign_asset : ForeignAsset) : Mo unit :=
  ensure (ForeignAssetModifierOrigin T origin) BadOrigin ;;
  m ← gets AssetIdToForeignAsset;
  previous_foreign_asset ← ok_or (m !! asset_id) (Module AssetDoesNotExist);
  update_forward <[asset_id := new_foreign_asset]> ;;
  update_reverse <[new_foreign_asset := asset_id]> ;;
  update_reverse (delete previous_foreign_asset) ;;
  deposit_event (ForeignAssetTypeChanged asset_id new_foreign_asset).

(** [remove_existing_asset_type] *)
Definition remove_existing_asset_type (origin : Origin) (asset_id : AssetId) : Mo unit :=
  ensure (ForeignAssetDestroyerOrigin T origin) BadOrigin ;;
  m ← gets AssetIdToForeignAsset;
  foreign_asset ← ok_or (m !! asset_id) (Module AssetDoesNotExist);
  update_forward (delete asset_id) ;;
  update_reverse (delete foreign_asset) ;;
  deposit_event (ForeignAssetRemoved asset_id foreign_asset).

(** [destroy_foreign_asset] *)
Definition destroy_foreign_asset (origin : Origin) (asset_id : AssetId) : Mo unit :=
  ensure (ForeignAssetDestroyerOrigin T origin) BadOrigin ;;
  m ← gets AssetIdToForeignAsset;
  foreign_asset ← ok_or (m !! asset_id) (Module AssetDoesNotExist);
  call_fungibles (start_destroy (AccountId := AccountId) (ForeignAsset := ForeignAsset) asset_id) ;;
  update_forward (delete asset_id) ;;
  update_reverse (delete foreign_asset) ;;
  call_hook (on_asset_destroyed (AccountId := AccountId) (X := X) foreign_asset asset_id) ;;
  deposit_event (ForeignAssetDestroyed asset_id foreign_asset).

Definition dispatch (origin : Origin) (c : Call AccountId AssetId ForeignAsset) : Mo unit :=
  match c with
  | create_foreign_asset_call fa id admin suff mb => create_foreign_asset origin fa id admin suff mb
  | change_existing_asset_type_call id fa => change_existing_asset_type origin id fa
  | remove_existing_asset_type_call id => remove_existing_asset_type origin id
  | destroy_foreign_asset_call id => destroy_foreign_asset origin id
  end.

(** [GenesisConfig::build]: a failure of the fungibles panics. *)
Definition genesis_build
    (assets : list (ForeignAsset * AssetId * AccountId * bool * Z)) : Mo unit :=
  for_each (fun '(foreign_asset, asset_id, admin, is_sufficient, min_balance) =>
    m ← gets AssetIdToForeignAsset;
    assert (bool_decide (m !! asset_id = None)) ;;
    r ← attempt (call_fungibles (create asset_id admin is_sufficient min_balance));
    expect (match r with inr u => Some u | inl _ => None end) ;;
    update_forward <[asset_id := foreign_asset]> ;;
    update_reverse <[foreign_asset := asset_id]> ;;
    call_hook (on_asset_created foreign_asset asset_id min_balance)) assets.

(** [MaybeEquivalence] *)
Definition convert (foreign_asset : ForeignAsset) (s : State) : option AssetId :=
  ForeignAssetToAssetId s !! foreign_asset.

Definition convert_back (id : AssetId) (s : State) : option ForeignAsset :=
  AssetIdToForeignAsset s !! id.

Definition empty_state (x : F) : State := mkState ∅ ∅ x [].

(** The origin, the id and the use of the fungibles of a call. *)
Definition allowed (c : Call AccountId AssetId ForeignAsset) : Origin -> bool :=
  match c with
  | create_foreign_asset_call _ _ _ _ _ => ForeignAssetCreatorOrigin T
  | change_existing_asset_type_call _ _ => ForeignAssetModifierOrigin T
  | _ => ForeignAssetDestroyerOrigin T
  end.

Definition asset_of (c : Call AccountId AssetId ForeignAsset) : AssetId :=
  match c with
  | create_foreign_asset_call _ id _ _ _ | change_existing_asset_type_call id _
  | remove_existing_asset_type_call id | destroy_foreign_asset_call id => id
  end.

Definition is_create (c : Call AccountId AssetId ForeignAsset) : bool :=
  match c with create_foreign_asset_call _ _ _ _ _ => true | _ => false end.

Definition calls_fungibles (c : Call AccountId AssetId ForeignAsset) : bool :=
  match c with
  | create_foreign_asset_call _ _ _ _ _ | destroy_foreign_asset_call _ => true
  | _ => false
  end.

(** Reachable states; [fresh] restricts the foreign assets that calls and genesis
    may name. *)
Inductive reachable (fresh : ForeignAsset -> State -> Prop) : State -> Prop :=
  | reachable_empty x : reachable fresh (empty_state x)
  | reachable_genesis fa id admin suff mb s s' :
      reachable fresh s -> fresh fa s ->
      genesis_build [(fa, id, admin, suff, mb)] s = Ok tt s' -> reachable fresh s'
  | reachable_dispatch o c s :
      reachable fresh s ->
      match c with
      | create_foreign_asset_call fa _ _ _ _ => fresh fa s
      | change_existing_asset_type_call _ fa => fresh fa s
      | _ => True
      end ->
      reachable fresh (final_state (transactional (dispatch o c)) s).
End Definitions.

Arguments Config Origin : clear implicits.
Arguments State AssetId ForeignAsset F {_ _ _ _}.

(** ** Lemmas *)
Section Lemmas.
Context {Origin AccountId AssetId ForeignAsset F X : Type}.
Context `{Countable AssetId} `{Countable ForeignAsset}.
Context `{!Fungibles AccountId AssetId ForeignAsset F X}.
Context (T : Config Origin).

Abbreviation State := (State AssetId ForeignAsset F).
Implicit Types (s : State) (fa : ForeignAsset) (id : AssetId).

(** The three ways in which a successful operation changes the maps; [P] holds of
    the foreign asset that gets an entry. *)
Inductive change (P : ForeignAsset -> Prop) s s' : Prop :=
  | change_insert id fa :
      P fa -> AssetIdToForeignAsset s !! id = None ->
      AssetIdToForeignAsset s' = <[id := fa]> (AssetIdToForeignAsset s) ->
      ForeignAssetToAssetId s' = <[fa := id]> (ForeignAssetToAssetId s) -> change P s s'
  | change_move id old fa :
      P fa -> AssetIdToForeignAsset s !! id = Some old ->
      AssetIdToForeignAsset s' = <[id := fa]> (AssetIdToForeignAsset s) ->
      ForeignAssetToAssetId s' = delete old (<[fa := id]> (ForeignAssetToAssetId s)) ->
      change P s s'
  | change_delete id fa :
      AssetIdToForeignAsset s !! id = Some fa ->
      AssetIdToForeignAsset s' = delete id (AssetIdToForeignAsset s) ->
      ForeignAssetToAssetId s' = delete fa (ForeignAssetToAssetId s) -> change P s s'.

Lemma create_Ok o fa id admin suff mb s s' :
  create_foreign_asset T o fa id admin suff mb s = Ok tt s' ->
  AssetIdToForeignAsset s !! id = None /\
  AssetIdToForeignAsset s' = <[id := fa]> (AssetIdToForeignAsset s) /\
  ForeignAssetToAssetId s' = <[fa := id]> (ForeignAssetToAssetId s).
Proof.
  unfold create_foreign_asset, call_fungibles, update_forward, update_reverse, call_hook,
    deposit_event, zoom. unfold_M. simpl. intros Hr.
  destruct (ForeignAssetCreatorOrigin T o); [|done].
  destruct (bool_decide _) eqn:Hb; [|done]. bool_to_prop.
  destruct (create id admin suff mb (fungibles s)) as [[] x| |]; by simplify_eq/=.
Qed.

Lemma change_Ok o id fa s s' :
  change_existing_asset_type (X := X) T o id fa s = Ok tt s' ->
  exists old, AssetIdToForeignAsset s !! id = Some old /\
    AssetIdToForeignAsset s' = <[id := fa]> (AssetIdToForeignAsset s) /\
    ForeignAssetToAssetId s' = delete old (<[fa := id]> (ForeignAssetToAssetId s)).
Proof.
  unfold change_existing_asset_type, update_forward, update_reverse, deposit_event.
  unfold_M. simpl. intros Hr. destruct (ForeignAssetModifierOrigin T o); [|done].
  destruct (AssetIdToForeignAsset s !! id) as [old|] eqn:Ho; [|done].
  simplify_eq/=. by exists old.
Qed.

Lemma delete_Ok o c id s s' :
  c = remove_existing_asset_type_call id \/ c = destroy_foreign_asset_call id ->
  dispatch (AccountId := AccountId) T o c s = Ok tt s' ->
  exists fa, AssetIdToForeignAsset s !! id = Some fa /\
    AssetIdToForeignAsset s' = delete id (AssetIdToForeignAsset s) /\
    ForeignAssetToAssetId s' = delete fa (ForeignAssetToAssetId s).
Proof.
  intros [-> | ->]; simpl;
    unfold remove_existing_asset_type, destroy_foreign_asset, call_fungibles, update_forward,
      update_reverse, call_hook, deposit_event, zoom; unfold_M; simpl; intros Hr;
    (destruct (ForeignAssetDestroyerOrigin T o); [|done]);
    (destruct (AssetIdToForeignAsset s !! id) as [fa|] eqn:Hid; [|done]).
  - simplify_eq/=. by exists fa.
  - destruct (start_destroy id (fungibles s)) as [[] x| |]; simplify_eq/=. by exists fa.
Qed.

Lemma genesis_Ok fa id admin suff mb s s' :
  genesis_build (X := X) [(fa, id, admin, suff, mb)] s = Ok tt s' ->
  AssetIdToForeignAsset s !! id = None /\
  AssetIdToForeignAsset s' = <[id := fa]> (AssetIdToForeignAsset s) /\
  ForeignAssetToAssetId s' = <[fa := id]> (ForeignAssetToAssetId s).
Proof.
  unfold genesis_build, call_fungibles, update_forward, update_reverse, call_hook, zoom.
  cbn [for_each]. unfold_M. simpl. intros Hr.
  destruct (bool_decide _) eqn:Hb; [|done]. bool_to_prop.
  destruct (create id admin suff mb (fungibles s)) as [[] x| |]; by simplify_eq/=.
Qed.

(** The reverse map only holds inverses of the forward map. *)
Definition sound s : Prop := forall fa id,
  ForeignAssetToAssetId s !! fa = Some id -> AssetIdToForeignAsset s !! id = Some fa.

(** The maps are inverse to each other. *)
Definition inverse s : Prop := forall fa id,
  ForeignAssetToAssetId s !! fa = Some id <-> AssetIdToForeignAsset s !! id = Some fa.

Lemma change_sound P s s' : change P s s' -> sound s -> sound s'.
Proof.
  unfold sound. intros [id fa _ Hid -> ->|id old fa _ Hid -> ->|id fa Hid -> ->] Hs fa' id'.
  - intros [[<- <-]|[? Hr%Hs]]%lookup_insert_Some; [by rewrite lookup_insert_eq|].
    rewrite lookup_insert_ne; [done|]. congruence.
  - intros [Hne [[<- <-]|[? Hr%Hs]]%lookup_insert_Some]%lookup_delete_Some;
      [by rewrite lookup_insert_eq|]. rewrite lookup_insert_ne; [done|]. congruence.
  - intros [Hne Hr%Hs]%lookup_delete_Some. rewrite lookup_delete_ne; [done|]. congruence.
Qed.

Lemma change_inverse s s' :
  change (fun fa => ForeignAssetToAssetId s !! fa = None) s s' -> inverse s -> inverse s'.
Proof.
  intros Hc Hs. assert (Hsound : sound s') by (apply (change_sound _ _ _ Hc); by intros ?? ?%Hs).
  intros fa' id'. split; [apply Hsound|]. revert Hc.
  intros [id fa Hfa Hid -> ->|id old fa Hfa Hid -> ->|id fa Hid -> ->].
  - intros [[<- <-]|[? Hr]]%lookup_insert_Some; [by rewrite lookup_insert_eq|].
    apply Hs in Hr. rewrite lookup_insert_ne; [done|]. congruence.
  - intros [[<- <-]|[? Hr]]%lookup_insert_Some.
    + apply Hs in Hid. rewrite lookup_delete_ne by congruence. by rewrite lookup_insert_eq.
    + apply Hs in Hr, Hid. rewrite lookup_delete_ne by congruence.
      rewrite lookup_insert_ne; [done|]. congruence.
  - intros [? Hr]%lookup_delete_Some. apply Hs in Hr, Hid.
    rewrite lookup_delete_ne; [done|]. congruence.
Qed.

Lemma dispatch_change (P : ForeignAsset -> Prop) o (c : Call AccountId AssetId ForeignAsset) s s' :
  match c with
  | create_foreign_asset_call fa _ _ _ _ => P fa
  | change_existing_asset_type_call _ fa => P fa
  | _ => True
  end ->
  dispatch T o c s = Ok tt s' -> change P s s'.
Proof.
  intros HP Hd. destruct c as [fa id admin suff mb|id fa|id|id].
  - apply create_Ok in Hd as (? & ? & ?). by eapply change_insert.
  - apply change_Ok in Hd as (old & ? & ? & ?). by eapply change_move.
  - apply (delete_Ok _ _ id) in Hd as (fa & ? & ? & ?); [by eapply change_delete|by left].
  - apply (delete_Ok _ _ id) in Hd as (fa & ? & ? & ?); [by eapply change_delete|by right].
Qed.

(** Rule induction on reachability, for what every change keeps. *)
Lemma reachable_ind' (fresh : ForeignAsset -> State -> Prop) (I : State -> Prop) s :
  (forall x, I (empty_state x)) ->
  (forall s s', change (fun fa => fresh fa s) s s' -> I s -> I s') ->
  reachable (AccountId := AccountId) (X := X) T fresh s -> I s.
Proof.
  intros He Hc. induction 1 as [x|fa id admin suff mb s s' _ IH Hf Hg|o c s _ IH Hf]; [done| |].
  - eapply Hc; [|exact IH]. apply genesis_Ok in Hg as (? & ? & ?). by eapply change_insert.
  - unfold final_state, transactional. destruct (dispatch T o c s) as [[] s'| |] eqn:Hd; [|done..].
    eapply Hc; [|exact IH]. by eapply dispatch_change.
Qed.
End Lemmas.

(** ** Properties *)
Section Properties.
Context {Origin AccountId AssetId ForeignAsset F X : Type}.
Context `{Countable AssetId} `{Countable ForeignAsset}.
Context `{!Fungibles AccountId AssetId ForeignAsset F X}.
Context (T : Config Origin).

Abbreviation State := (State AssetId ForeignAsset F).
Implicit Types (s : State) (fa : ForeignAsset) (id : AssetId).

(** C29: resolving a foreign asset never lies: in every state reached by genesis
    and any calls, a foreign asset that resolves to an id is the one the id maps
    back to, so no two foreign assets resolve to the same id. *)
Theorem convert_sound s fa id :
  reachable (AccountId := AccountId) (X := X) T (fun _ _ => True) s ->
  convert fa s = Some id ->
  convert_back id s = Some fa /\ forall fa', convert fa' s = Some id -> fa' = fa.
Proof.
  intros Hr Hc.
  assert (Hs : sound s).
  { revert Hr. apply reachable_ind'; [|by intros ?? Hch; apply (change_sound _ _ _ Hch)].
    intros x fa' id' Hx. simpl in Hx. by apply lookup_empty_Some in Hx. }
  apply Hs in Hc. split; [done|]. intros fa' Hc'%Hs. unfold sound in Hs. congruence.
Qed.

(** With fresh names the maps are inverse: when genesis and calls only ever
    name foreign assets that do not resolve yet, a foreign asset resolves to an id
    exactly when the id maps back to it, in every reachable state.  *)
Theorem fresh_names_inverse s fa id :
  reachable (AccountId := AccountId) (X := X) T (fun fa s => convert fa s = None) s ->
  convert fa s = Some id <-> convert_back id s = Some fa.
Proof.
  intros Hr. assert (Hs : inverse s); [|apply Hs].
  revert Hr. apply reachable_ind'; [|by intros ???; apply change_inverse].
  intros x fa' id'. simpl. by rewrite !lookup_empty.
Qed.

(** Without fresh names entries are lost: retargeting an id to the foreign
    asset it already has, or to one that resolves to another id, succeeds and
    leaves an id whose foreign asset does not resolve to it; so does creating an
    asset for a foreign asset that already resolves. *)
Theorem stale_names_lose o id fa s s' :
  inverse s ->
  (dispatch (AccountId := AccountId) T o (change_existing_asset_type_call id fa) s = Ok tt s' ->
   convert_back id s = Some fa ->
   convert_back id s' = Some fa /\ convert fa s' = None) /\
  (forall id' c, convert fa s = Some id' -> id' <> id ->
   c = change_existing_asset_type_call id fa \/
   (exists (admin : AccountId) suff mb, c = create_foreign_asset_call fa id admin suff mb) ->
   dispatch T o c s = Ok tt s' ->
   convert_back id' s' = Some fa /\ convert_back id s' = Some fa /\ convert fa s' = Some id).
Proof.
  intros Hinv. unfold convert, convert_back. split.
  - intros (old & Ho & -> & ->)%change_Ok Hid. simplify_eq.
    by rewrite lookup_insert_eq, lookup_delete_eq.
  - intros id' c Hc Hne [->|(admin & suff & mb & ->)]; apply Hinv in Hc.
    + intros (old & Ho & -> & ->)%change_Ok.
      rewrite lookup_insert_ne, lookup_insert_eq by done. split; [done|]. split; [done|].
      rewrite lookup_delete_ne, lookup_insert_eq; [done|]. intros ->. apply Hinv in Ho, Hc. congruence.
    + intros (Hid & -> & ->)%create_Ok. rewrite lookup_insert_ne, !lookup_insert_eq by done. done.
Qed.

(** Every call is decided by its origin, the presence of its id and, where it
    reaches them, the fungibles: success needs the origin of its kind and, for a
    creation, an unknown id, for the others a known one; each error names the first
    check that failed, and an error leaves both maps as they were. *)
Theorem dispatch_decided o (c : Call AccountId AssetId ForeignAsset) s :
  let known := match convert_back (asset_of c) s with Some _ => true | None => false end in
  match dispatch T o c s with
  | Ok _ _ => allowed T c o = true /\ known = negb (is_create c)
  | Err e s' =>
      AssetIdToForeignAsset s' = AssetIdToForeignAsset s /\
      ForeignAssetToAssetId s' = ForeignAssetToAssetId s /\
      match e with
      | BadOrigin => allowed T c o = false
      | Module AssetAlreadyExists =>
          allowed T c o = true /\ is_create c = true /\ known = true
      | Module AssetDoesNotExist =>
          allowed T c o = true /\ is_create c = false /\ known = false
      | Foreign _ =>
          allowed T c o = true /\ calls_fungibles c = true /\ known = negb (is_create c)
      end
  | Panic => allowed T c o = true /\ calls_fungibles c = true
  end.
Proof.
  unfold convert_back. destruct c as [fa id admin suff mb|id fa|id|id]; simpl;
    unfold create_foreign_asset, change_existing_asset_type, remove_existing_asset_type,
      destroy_foreign_asset, update_forward, update_reverse, call_hook, deposit_event,
      call_fungibles, zoom; unfold_M; 
    (destruct (ForeignAssetCreatorOrigin T o), (ForeignAssetModifierOrigin T o),
      (ForeignAssetDestroyerOrigin T o); try done);
    destruct (AssetIdToForeignAsset s !! id) as [old|]; simpl; try done;
    try destruct (start_destroy id (fungibles s));
    try destruct (create id admin suff mb (fungibles s)); simpl; by split_and?.
Qed.
End Properties.

(** ** A concrete runtime: the fungibles are the list of created ids *)
Section Witnesses.
#[local] Instance sample_fungibles : Fungibles Z Z Z (list Z) unit := {
  create id _ _ _ := fun l => if bool_decide (id ∈ l) then Err tt l else Ok tt (id :: l);
  start_destroy id := fun l => Ok tt (filter (fun x => x <> id) l);
  on_asset_created _ _ _ l := l;
  on_asset_destroyed _ _ l := l;
}.

Definition sample_config : Config bool := {|
  ForeignAssetCreatorOrigin o := o;
  ForeignAssetModifierOrigin o := o;
  ForeignAssetDestroyerOrigin o := o;
|}.

Definition sample_state : State Z Z (list Z) :=
  final_state (transactional (dispatch sample_config true (create_foreign_asset_call 100 1 5 true 10)))
    (empty_state []).

Lemma sample_assets_reachable (fresh : Z -> State Z Z (list Z) -> Prop) :
  fresh 100 (empty_state []) ->
  reachable (AccountId := Z) (X := unit) sample_config fresh sample_state.
Proof.
  intros Hf. apply (reachable_dispatch sample_config fresh true
    (create_foreign_asset_call 100 1 5 true 10)); [apply reachable_empty|done].
Qed.

Lemma convert_sound_witness : convert_back 1 sample_state = Some 100.
Proof.
  refine (proj1 (convert_sound (AccountId := Z) (X := unit) sample_config sample_state 100 1 _ _)).
  - by apply sample_assets_reachable.
  - reflexivity.
Defined.

Lemma fresh_names_inverse_witness : convert 100 sample_state = Some 1.
Proof.
  apply (fresh_names_inverse (AccountId := Z) (X := unit) sample_config sample_state 100 1).
  - by apply sample_assets_reachable.
  - reflexivity.
Defined.

Lemma sample_inverse : inverse sample_state.
Proof.
  assert (sample_state = mkState (<[1 := 100]> ∅) (<[100 := 1]> ∅) [1] [ForeignAssetCreated 1 100])
    as -> by reflexivity.
  intros fa id. simpl. rewrite !lookup_insert_Some, !lookup_empty. naive_solver.
Qed.

Lemma stale_names_lose_witness :
  let s' := final_state (dispatch sample_config true (change_existing_asset_type_call 1 100))
    sample_state in
  convert_back 1 s' = Some 100 /\ convert 100 s' = None.
Proof.
  refine (proj1 (stale_names_lose (AccountId := Z) sample_config true 1 100 sample_state _
    sample_inverse) _ _); reflexivity.
Defined.
End Witnesses.
