(* ===== verification/XcmLocations.v ===== *)
(** * XCM locations of accounts ([primitives/xcm/src/{location_matcher,generators}.rs])

    How the accounts that stand for assets are matched with XCM locations, and the
    locations of destinations and beneficiaries.  [Location] is a type of the XCM
    library; of its junctions, those that the code builds have a constructor. *)
From Stdlib Require Import ZArith Lia.
From stdpp Require Import prelude list gmap.
From S2P Require Import Prelude.
From S2P Require Import XcmPrimitives.
From S2P Require Import ForeignAssets.

Local Open Scope Z_scope.

(** [xcm::latest::BodyId], [Junction] and [Location]; what the code does not name is its
    encoding. *)
Inductive BodyId := Executive | OtherBody (encoded : list Z).

#[export] Instance BodyId_eq_dec : EqDecision BodyId.
Proof. solve_decision. Defined.

Inductive Junction :=
  | Parachain (id : Z)
  | AccountId32 (network : option Z) (id : list Z)
  | PalletInstance (index : Z)
  | AccountKey20 (network : option Z) (key : list Z)
  | Plurality (id : BodyId) (part : list Z)
  | OtherJunction (encoded : list Z).

Record Location := mkLocation {
  parents : Z;
  interior : list Junction;
}.

#[export] Instance Junction_eq_dec : EqDecision Junction.
Proof. solve_decision. Defined.

#[export] Instance Location_eq_dec : EqDecision Location.
Proof. solve_decision. Defined.

#[export] Instance Location_countable : Countable Location.
Proof.
  set (code j := match j with
    | Parachain n => inl (inl n) | AccountId32 n l => inl (inr (inl (n, l)))
    | PalletInstance n => inl (inr (inr n)) | AccountKey20 n l => inr (inl (n, l))
    | OtherJunction l => inr (inr (inl l))
    | Plurality b l => inr (inr (inr (match b with Executive => None | OtherBody e => Some e end, l)))
    end).
  set (uncode (x : (Z + ((option Z * list Z) + Z)) +
      ((option Z * list Z) + (list Z + (option (list Z) * list Z)))) := match x with
    | inl (inl n) => Parachain n | inl (inr (inl (n, l))) => AccountId32 n l
    | inl (inr (inr n)) => PalletInstance n | inr (inl (n, l)) => AccountKey20 n l
    | inr (inr (inl l)) => OtherJunction l
    | inr (inr (inr (b, l))) => Plurality (match b with None => Executive | Some e => OtherBody e end) l
    end).
  apply (inj_countable' (fun l => (parents l, map code (interior l)))
    (fun x => mkLocation x.1 (map uncode x.2))).
  intros [p js]. simpl. f_equal. induction js as [|j js IH]; [done|]. simpl.
  rewrite IH. by destruct j as [| | | |[] |].
Defined.

(** ** The generators *)
Definition XcmSiblingDestinationGenerator (para_id : Z) : Location := mkLocation 1 [Parachain para_id].

Definition XcmLocalBeneficiary20Generator (key : list Z) : Location :=
  mkLocation 0 [AccountKey20 None key].

Definition XcmLocalBeneficiary32Generator (id : list Z) : Location :=
  mkLocation 0 [AccountId32 None id].

(** [Location::parent()] *)
Definition location_parent : Location := mkLocation 1 [].

(** ** The matchers

    [AccountIdToLocationMatcher]: [S] is the storage that a matcher may read. *)
Definition AccountIdToLocationMatcher (S A : Type) : Type := S -> A -> option Location.

(** The tuple of matchers: the first that matches decides. *)
Fixpoint match_tuple {S A} (ms : list (AccountIdToLocationMatcher S A)) :
    AccountIdToLocationMatcher S A :=
  fun s account =>
    match ms with
    | [] => None
    | m :: ms =>
        match m s account with
        | Some l => Some l
        | None => match_tuple ms s account
        end
    end.

(** [H160::from_low_u64_be] *)
Definition from_low_u64_be (n : Z) : list Z := repeat 0 12 ++ to_be_bytes 8 n.

Section Matchers.
Context {S A AssetId : Type} `{EqDecision A}.
(** [AccountId: From<H160>] and [Into<H160>] *)
Context (from_h160 : list Z -> A) (into_h160 : A -> list Z).

(** [SingleAddressMatcher<_, ADDRESS, PalletInstance>]; [index] is the pallet's *)
Definition SingleAddressMatcher (ADDRESS index : Z) : AccountIdToLocationMatcher S A :=
  fun _ account =>
    if bool_decide (account = from_h160 (from_low_u64_be ADDRESS))
    then Some (mkLocation 0 [PalletInstance (wrapping 8 index)])
    else None.

(** [ForeignAssetMatcher]; [convert_back] is the manager's [MaybeEquivalence] *)
Definition ForeignAssetMatcher `{AccountIdAssetIdConversion A AssetId}
    (convert_back : AssetId -> S -> option Location) : AccountIdToLocationMatcher S A :=
  fun s account =>
    match account_to_asset_id account with
    | Some (_, asset_id) => convert_back asset_id s
    | None => None
    end.

(** [Erc20PalletMatcher] *)
Definition Erc20PalletMatcher (index : Z) : AccountIdToLocationMatcher S A :=
  fun _ account =>
    Some (mkLocation 0 [PalletInstance (wrapping 8 index); AccountKey20 None (into_h160 account)]).
End Matchers.

(** ** Properties *)

(** What the tuple answers is the answer of some matcher, and no earlier one matches. *)
Lemma match_tuple_Some {S A} (ms : list (AccountIdToLocationMatcher S A)) s a l :
  match_tuple ms s a = Some l <->
  exists i m, ms !! i = Some m /\ m s a = Some l /\
    forall j m', (j < i)%nat -> ms !! j = Some m' -> m' s a = None.
Proof.
  induction ms as [|m ms IH]; simpl.
  - split; [done|]. intros (i & m & Hi & _). by destruct i.
  - destruct (m s a) as [l'|] eqn:Hm.
    + split.
      * intros [= ->]. exists 0%nat, m. split; [done|]. split; [done|]. intros j m' Hj. lia.
      * intros ([|i] & m' & Hi & Hl & Hbefore); [simpl in Hi; congruence|].
        specialize (Hbefore 0%nat m ltac:(lia) eq_refl). congruence.
    + rewrite IH. split.
      * intros (i & m' & Hi & Hl & Hbefore). exists (Datatypes.S i), m'. split; [done|]. split; [done|].
        intros [|j] m'' Hj Hm''; [simpl in Hm''; congruence|]. eapply (Hbefore j); [lia|done].
      * intros ([|i] & m' & Hi & Hl & Hbefore); [simpl in Hi; congruence|].
        exists i, m'. split; [done|]. split; [done|]. intros j m'' Hj Hm''.
        eapply (Hbefore (Datatypes.S j)); [lia|done].
Qed.

(** A matcher followed by others that is asked first. *)
Lemma match_tuple_None {S A} (ms : list (AccountIdToLocationMatcher S A)) s a :
  match_tuple ms s a = None <-> Forall (fun m => m s a = None) ms.
Proof.
  induction ms as [|m ms IH]; simpl; [by split|].
  rewrite Forall_cons, <- IH. destruct (m s a) eqn:Hm; split; intuition congruence.
Qed.

Section Identification.
Context {A AssetId F : Type} `{EqDecision A} `{Countable AssetId}.
Context `{AccountIdAssetIdConversion A AssetId}.
Context (from_h160 : list Z -> A) (into_h160 : A -> list Z).

(** The matchers of a runtime with a native currency, foreign assets and ERC-20s. *)
Definition runtime_matchers (ADDRESS native erc20 : Z) :
    list (AccountIdToLocationMatcher (State AssetId Location F) A) :=
  [SingleAddressMatcher from_h160 ADDRESS native; ForeignAssetMatcher convert_back;
   Erc20PalletMatcher into_h160 erc20].

(** Locations identify assets: over foreign assets whose registrations are
    inverse to one another and none of which is local, two accounts that are matched
    with the same location are the same account; and with a matcher for ERC-20s every
    account has a location. *)
Theorem location_identifies_asset ADDRESS native erc20 (s : State AssetId Location F) a b l :
  Inj (=) (=) into_h160 ->
  (forall a b p q id, account_to_asset_id a = Some (p, id) -> account_to_asset_id b = Some (q, id) -> a = b) ->
  inverse s -> (forall id l, AssetIdToForeignAsset s !! id = Some l -> parents l <> 0) ->
  is_Some (match_tuple (runtime_matchers ADDRESS native erc20) s a) /\
  (match_tuple (runtime_matchers ADDRESS native erc20) s a = Some l ->
   match_tuple (runtime_matchers ADDRESS native erc20) s b = Some l -> a = b).
Proof.
  intros Hinj Hids Hinv Hlocal. unfold runtime_matchers, match_tuple. split.
  { destruct (SingleAddressMatcher _ _ _ _ _); [by eauto|]. destruct (ForeignAssetMatcher _ _ _); by eauto. }
  unfold SingleAddressMatcher, ForeignAssetMatcher, Erc20PalletMatcher, convert_back.
  assert (Hforeign : forall x, match account_to_asset_id x with
      | Some (_, id) => AssetIdToForeignAsset s !! id | None => None end = Some l ->
    parents l <> 0 /\ exists p id, account_to_asset_id x = Some (p, id) /\ ForeignAssetToAssetId s !! l = Some id).
  { intros x Hx. destruct (account_to_asset_id x) as [[p id]|]; [|done].
    split; [by eapply Hlocal|]. exists p, id. split; [done|]. by apply Hinv. }
  repeat case_bool_decide; subst; [done|..];
    repeat match goal with
    | |- context [match ?x with Some l0 => Some l0 | None => _ end] => destruct x eqn:?
    end; intros Ha Hb; simplify_eq/=; try done;
    repeat match goal with
    | Hx : match account_to_asset_id _ with _ => _ end = Some _ |- _ => apply Hforeign in Hx as [? (? & ? & ? & ?)]
    end; simplify_eq/=; try done; eauto.
Qed.
End Identification.

(** ** A concrete runtime: accounts are the bytes of addresses; those that start with
    1 and have two bytes are foreign assets *)
Section Witnesses.
#[local] Instance sample_conversion : AccountIdAssetIdConversion (list Z) Z := {|
  account_to_asset_id a := match a with [1; id] => Some ([1], id) | _ => None end;
  asset_id_to_account p id := p ++ [id];
|}.

Definition sample_assets : State Z Location unit :=
  mkState {[5 := location_parent]} {[location_parent := 5]} tt [].

Lemma location_identifies_asset_witness :
  match_tuple (runtime_matchers id id 2050 3 48) sample_assets [1; 5] = Some location_parent /\
  match_tuple (runtime_matchers id id 2050 3 48) sample_assets (from_low_u64_be 2050)
    = Some (mkLocation 0 [PalletInstance 3]) /\
  forall b, match_tuple (runtime_matchers id id 2050 3 48) sample_assets b = Some location_parent ->
    [1; 5] = b.
Proof.
  assert (Hids : forall (a b p q : list Z) (id : Z), account_to_asset_id a = Some (p, id) ->
    account_to_asset_id b = Some (q, id) -> a = b).
  { intros a b p q id. simpl. repeat case_match; naive_solver. }
  assert (Hinv : inverse sample_assets).
  { intros fa id. simpl. split; by intros [<- <-]%lookup_singleton_Some. }
  assert (Hlocal : forall id l, AssetIdToForeignAsset sample_assets !! id = Some l -> parents l <> 0).
  { intros id l Hl. simpl in Hl. by apply lookup_singleton_Some in Hl as [_ <-]. }
  split; [vm_compute; reflexivity|]. split; [vm_compute; reflexivity|]. intros b.
  apply (proj2 (location_identifies_asset id id 2050 3 48 sample_assets [1; 5] b location_parent
    _ Hids Hinv Hlocal)).
  vm_compute. reflexivity.
Defined.
End Witnesses.
