(* ===== verification/RelayRoots.v ===== *)
(** * The relay-storage-roots pallet ([pallets/relay-storage-roots/src/lib.rs])

    At the end of every block the storage root of the current relay block is kept,
    for the [MaxStorageRoots] most recent relay blocks.  The relay chain state is
    an argument of the hook. *)
From Stdlib Require Import ZArith Lia.
From stdpp Require Import prelude gmap fin_maps sorting.
From S2P Require Import Prelude.

Local Open Scope Z_scope.

Section Definitions.
Context {H256 : Type}.

(** [RelayStorageRoot], [RelayStorageRootKeys] ([None]: not in storage). *)
Record State := mkState {
  RelayStorageRoot : gmap Z H256;
  RelayStorageRootKeys : option (list Z);
}.

Context (MaxStorageRoots : Z).

(** [u32::try_from(len).unwrap_or(u32::MAX)] *)
Definition len_u32 (len : nat) : Z :=
  if Z.of_nat len <=? umax 32 then Z.of_nat len else umax 32.

(** [BoundedVec::truncate_from] *)
Definition truncate_from (keys : list Z) : list Z := take (Z.to_nat MaxStorageRoots) keys.

(** [set_relay_storage_root]: the relay block [number] and its [state_root]. *)
Definition set_relay_storage_root (number : Z) (state_root : H256) (s : State) : State :=
  match RelayStorageRoot s !! number with
  | Some _ => s
  | None =>
      let roots := <[number := state_root]> (RelayStorageRoot s) in
      let keys := default [] (RelayStorageRootKeys s) in
      let keys := keys ++ [number] in
      let '(roots, keys) :=
        if MaxStorageRoots <? len_u32 (length keys) then
          match keys with
          | first_key :: keys => (delete first_key roots, keys)
          | [] => (roots, keys)
          end
        else (roots, keys) in
      mkState roots (Some (truncate_from keys))
  end.

(** [Hooks::on_finalize] *)
Definition on_finalize (relay_state : Z * H256) (s : State) : State :=
  set_relay_storage_root relay_state.1 relay_state.2 s.

(** The blocks of a chain, given by the relay states they saw. *)
Definition run (blocks : list (Z * H256)) (s : State) : State :=
  foldl (fun s b => on_finalize b s) s blocks.

Definition empty_state : State := mkState ∅ None.

Definition stored_keys (s : State) : list Z := default [] (RelayStorageRootKeys s).

(** ** Specification

    The relay blocks seen, each with the first root seen for it, in order. *)
Definition first_seen (blocks : list (Z * H256)) : list (Z * H256) :=
  foldl (fun acc b => if bool_decide (b.1 ∈ acc.*1) then acc else acc ++ [b]) [] blocks.

(** The last [n] elements of a list. *)
Definition lastn {A} (n : nat) (l : list A) : list A := drop (length l - n) l.

(** The keys list the map's domain, in insertion order, within the bound. *)
Record wf (s : State) : Prop := mkWf {
  wf_nodup : NoDup (stored_keys s);
  wf_dom n : is_Some (RelayStorageRoot s !! n) <-> n ∈ stored_keys s;
  wf_bound : Z.of_nat (length (stored_keys s)) <= MaxStorageRoots;
}.
End Definitions.

Arguments State H256 : clear implicits.

(** ** Lemmas *)
Lemma lastn_all {A} n (l : list A) : (length l <= n)%nat -> lastn n l = l.
Proof. intros. unfold lastn. by replace (length l - n)%nat with 0%nat by lia. Qed.

Lemma length_lastn {A} n (l : list A) : length (lastn n l) = Nat.min n (length l).
Proof. unfold lastn. rewrite length_drop. lia. Qed.

Lemma fmap_lastn {A B} (f : A -> B) n (l : list A) : f <$> lastn n l = lastn n (f <$> l).
Proof. unfold lastn. by rewrite fmap_drop, length_fmap. Qed.

Lemma lastn_snoc {A} n (l : list A) x :
  lastn n (l ++ [x]) =
    if decide (n <= length (lastn n l))%nat then
      match lastn n l ++ [x] with _ :: l' => l' | [] => [] end
    else lastn n l ++ [x].
Proof.
  rewrite length_lastn. unfold lastn. rewrite length_app. simpl.
  case_decide.
  - replace (length l + 1 - n)%nat with (S (length l - n))%nat by lia.
    rewrite <- (drop_app_le l [x] (length l - n)) by lia.
    rewrite <- Nat.add_1_r, <- drop_drop. by destruct (drop (length l - n) (l ++ [x])).
  - replace (length l + 1 - n)%nat with 0%nat by lia.
    by replace (length l - n)%nat with 0%nat by lia.
Qed.

Lemma lastn_sublist {A} n (l : list A) x : x ∈ lastn n l -> x ∈ l.
Proof. unfold lastn. intros Hx. rewrite <- (take_drop (length l - n) l). set_solver. Qed.

Section Lemmas.
Context {H256 : Type} (MaxStorageRoots : Z).
Context (max_u32 : 0 <= MaxStorageRoots < umax 32).
Implicit Types (s : State H256) (l : list (Z * H256)) (keys : list Z).

Abbreviation Max := (Z.to_nat MaxStorageRoots).

(** The new keys and map when the relay block is not stored yet: the number is
    appended, and the oldest one leaves when the bound is exceeded. *)
Lemma insert_spec number root s :
  RelayStorageRoot s !! number = None ->
  (length (stored_keys s) <= Max)%nat ->
  set_relay_storage_root MaxStorageRoots number root s =
    (if decide (Max <= length (stored_keys s))%nat then
       match stored_keys s ++ [number] with
       | first :: keys =>
           mkState (delete first (<[number := root]> (RelayStorageRoot s))) (Some keys)
       | [] => s
       end
     else mkState (<[number := root]> (RelayStorageRoot s)) (Some (stored_keys s ++ [number]))).
Proof.
  intros Hn Hl. unfold set_relay_storage_root. rewrite Hn. fold (stored_keys s).
  assert (Hlen : len_u32 (length (stored_keys s ++ [number]))
    = Z.of_nat (length (stored_keys s)) + 1).
  { unfold len_u32. rewrite length_app. simpl. rewrite (proj2 (Z.leb_le _ _)); lia. }
  rewrite Hlen. unfold truncate_from. case_decide.
  - rewrite (proj2 (Z.ltb_lt _ _)) by lia.
    destruct (stored_keys s ++ [number]) as [|first keys] eqn:Hk.
    { by destruct (stored_keys s). }
    rewrite take_ge; [done|]. apply (f_equal length) in Hk. rewrite length_app in Hk.
    simpl in Hk. lia.
  - rewrite (proj2 (Z.ltb_ge _ _)) by lia. rewrite take_ge; [done|].
    rewrite length_app. simpl. lia.
Qed.

Lemma set_wf number root s :
  wf MaxStorageRoots s -> wf MaxStorageRoots (set_relay_storage_root MaxStorageRoots number root s).
Proof.
  intros Hwf. destruct (RelayStorageRoot s !! number) as [r|] eqn:Hn.
  { unfold set_relay_storage_root. by rewrite Hn. }
  destruct (Hwf) as [Hnd Hdom Hb]. rewrite insert_spec by (done || lia).
  assert (Hnew : number ∉ stored_keys s).
  { intros [r Hr]%Hdom. congruence. }
  assert (Hnd' : NoDup (stored_keys s ++ [number])).
  { apply NoDup_app. split; [done|]. split; [set_solver|apply NoDup_singleton]. }
  assert (Hdom' : forall n, is_Some (<[number := root]> (RelayStorageRoot s) !! n)
    <-> n ∈ stored_keys s ++ [number]).
  { intros n. rewrite lookup_insert_is_Some, Hdom. set_solver. }
  case_decide as Hfull.
  - destruct (stored_keys s ++ [number]) as [|first keys] eqn:Hk; [by destruct (stored_keys s)|].
    apply NoDup_cons in Hnd' as [Hfirst Hnd']. split; [done| |].
    + intros n. simpl. rewrite lookup_delete_is_Some, Hdom'. set_solver.
    + apply (f_equal length) in Hk. rewrite length_app in Hk. unfold stored_keys in *.
      simpl in *. lia.
  - split; [done|done|]. unfold stored_keys in *. simpl. rewrite length_app. simpl. lia.
Qed.

Lemma empty_roots_wf : wf MaxStorageRoots (empty_state (H256 := H256)).
Proof.
  split; simpl; [constructor| |lia].
  intros n. rewrite lookup_empty. split; [by intros []|]. intros Hn. by apply elem_of_nil in Hn.
Qed.

End Lemmas.

Section FirstSeen.
Context {H256 : Type}.
Implicit Types (l : list (Z * H256)).

Lemma first_seen_snoc l b :
  first_seen (l ++ [b]) =
    if bool_decide (b.1 ∈ (first_seen l).*1) then first_seen l else first_seen l ++ [b].
Proof. unfold first_seen. by rewrite foldl_app. Qed.

Lemma StronglySorted_NoDup_lt (keys : list Z) : StronglySorted Z.lt keys -> NoDup keys.
Proof.
  induction 1 as [|x l _ IH Hall]; constructor; [|done].
  intros Hx. rewrite Forall_forall in Hall. specialize (Hall _ Hx). lia.
Qed.

(** Relay numbers that never decrease are first seen in strictly rising order. *)
Lemma first_seen_sorted l :
  StronglySorted Z.le l.*1 ->
  StronglySorted Z.lt (first_seen l).*1 /\ forall n, n ∈ (first_seen l).*1 <-> n ∈ l.*1.
Proof.
  induction l as [|b l IH] using rev_ind; [intros _; split; [constructor|done]|].
  rewrite fmap_app. intros [Hle [Hs _]]%StronglySorted_app. destruct (IH Hs) as [IHs IHin].
  rewrite first_seen_snoc. case_bool_decide as Hb.
  - split; [done|]. intros n. rewrite IHin. apply IHin in Hb. set_solver.
  - rewrite fmap_app. split.
    + apply StronglySorted_app. split; [|split; [done|repeat constructor]].
      intros x y Hx ->%list_elem_of_singleton.
      assert (Hxb : x <= b.1) by (apply Hle; [by apply IHin|set_solver]).
      assert (x <> b.1) by congruence. lia.
    + intros n. set_solver.
Qed.
End FirstSeen.

(** ** Properties *)
Section Properties.
Context {H256 : Type} (MaxStorageRoots : Z).
Context (max_u32 : 0 <= MaxStorageRoots < umax 32).
Implicit Types (s : State H256) (l blocks : list (Z * H256)).

Abbreviation Max := (Z.to_nat MaxStorageRoots).

Lemma run_snoc blocks b s :
  run MaxStorageRoots (blocks ++ [b]) s = on_finalize MaxStorageRoots b (run MaxStorageRoots blocks s).
Proof. unfold run. by rewrite foldl_app. Qed.

Lemma run_wf blocks : wf MaxStorageRoots (run MaxStorageRoots blocks empty_state).
Proof.
  induction blocks as [|b blocks IH] using rev_ind; [by apply empty_roots_wf|].
  rewrite run_snoc. by apply set_wf.
Qed.

(** The storage is well formed after any blocks, whatever the relay numbers:
    the key list has no duplicates, is exactly the domain of the map and never
    exceeds the bound, so truncating it loses nothing; and a relay block seen by
    the latest block is stored when the bound is positive. *)
Theorem storage_wf blocks b :
  let s := run MaxStorageRoots (blocks ++ [b]) empty_state in
  NoDup (stored_keys s) /\
  (forall n, is_Some (RelayStorageRoot s !! n) <-> n ∈ stored_keys s) /\
  Z.of_nat (length (stored_keys s)) <= MaxStorageRoots /\
  (0 < MaxStorageRoots -> is_Some (RelayStorageRoot s !! b.1)).
Proof.
  intros s. destruct (run_wf (blocks ++ [b])) as [Hnd Hdom Hb].
  split; [done|]. split; [done|]. split; [done|]. intros Hpos. unfold s. rewrite run_snoc.
  destruct b as [n r]. unfold on_finalize. simpl.
  set (s0 := run MaxStorageRoots blocks empty_state). destruct (run_wf blocks) as [_ Hdom0 Hb0].
  fold s0 in Hdom0, Hb0. destruct (RelayStorageRoot s0 !! n) eqn:Hn.
  { unfold set_relay_storage_root. rewrite Hn. by rewrite Hn. }
  rewrite insert_spec by (done || lia). case_decide as Hfull; [|simpl; by rewrite lookup_insert_eq].
  destruct (stored_keys s0) as [|first keys] eqn:Hk; simpl in *; [lia|].
  rewrite lookup_delete_ne; [by rewrite lookup_insert_eq|]. intros <-.
  assert (Hs : is_Some (RelayStorageRoot s0 !! first)) by (apply Hdom0; set_solver).
  destruct Hs. congruence.
Qed.

(** Appending to the reference list. *)
Lemma lastn_map_snoc l n r :
  NoDup (l ++ [(n, r)]).*1 ->
  list_to_map (M := gmap Z H256) (lastn Max (l ++ [(n, r)])) =
    if decide (Max <= length (lastn Max l))%nat then
      match (lastn Max l).*1 ++ [n] with
      | first :: _ => delete first (<[n := r]> (list_to_map (lastn Max l)))
      | [] => ∅
      end
    else <[n := r]> (list_to_map (lastn Max l)).
Proof.
  intros Hnd. rewrite lastn_snoc.
  assert (Hnd' : NoDup (lastn Max l ++ [(n, r)]).*1).
  { rewrite fmap_app in *. apply NoDup_app in Hnd as (H1 & H2 & H3). apply NoDup_app.
    rewrite fmap_lastn. split_and!; [|intros x Hx; apply lastn_sublist in Hx; by apply H2|done].
    unfold lastn. eapply (sublist_NoDup _ _ H1). apply sublist_drop. }
  rewrite fmap_app in Hnd'. apply NoDup_app in Hnd' as (H1 & H2 & _).
  assert (Hn : n ∉ (lastn Max l).*1) by set_solver.
  assert (Hsn : list_to_map (M := gmap Z H256) (lastn Max l ++ [(n, r)])
    = <[n := r]> (list_to_map (lastn Max l))) by by apply list_to_map_snoc.
  case_decide; [|done]. rewrite <- Hsn.
  destruct (lastn Max l) as [|[n0 r0] l0]; simpl; [by rewrite delete_insert_id|].
  rewrite delete_insert_id; [done|]. apply not_elem_of_list_to_map.
  rewrite fmap_app. simpl in *. apply NoDup_cons in H1. set_solver.
Qed.

(** The largest element of a rising list is kept. *)
Lemma max_kept (keys : list Z) n :
  StronglySorted Z.lt keys -> (forall x, x ∈ keys -> x <= n) -> n ∈ keys -> (0 < Max)%nat ->
  n ∈ lastn Max keys.
Proof.
  intros Hs Hle Hn Hpos. destruct keys as [|x keys _] using rev_ind; [by apply elem_of_nil in Hn|].
  assert (x = n) as ->.
  { apply StronglySorted_app in Hs as [Hlt _]. assert (x <= n) by (apply Hle; set_solver).
    apply elem_of_app in Hn as [Hn|Hn]; [|set_solver].
    assert (n < x) by (apply Hlt; [done|set_solver]). lia. }
  rewrite lastn_snoc. case_decide; [|set_solver].
  destruct (lastn Max keys) as [|y l]; simpl in *; [lia|set_solver].
Qed.

(** C24: refinement of the specification: when the relay chain never goes back,
    after any blocks the key list is the list of the [MaxStorageRoots] most recent
    distinct relay blocks in order, and the map holds for each of them the root
    first seen for it, and nothing else. *)
Theorem stores_recent_roots blocks :
  StronglySorted Z.le blocks.*1 ->
  let s := run MaxStorageRoots blocks empty_state in
  stored_keys s = lastn Max (first_seen blocks).*1 /\
  RelayStorageRoot s = list_to_map (lastn Max (first_seen blocks)).
Proof.
  induction blocks as [|[n r] blocks IH] using rev_ind; [done|].
  rewrite fmap_app. intros Hsort. pose proof Hsort as [Hle [Hs _]]%StronglySorted_app.
  destruct (IH Hs) as [Hk Hm]. clear IH. rewrite run_snoc.
  set (s := run MaxStorageRoots blocks empty_state) in *.
  destruct (first_seen_sorted blocks Hs) as [Hlt Hin]. rewrite first_seen_snoc.
  assert (Hlook : forall x, is_Some (RelayStorageRoot s !! x) <-> x ∈ lastn Max (first_seen blocks).*1).
  { intros x. destruct (run_wf blocks) as [_ Hdom _]. fold s in Hdom. by rewrite Hdom, Hk. }
  assert (Hlen : (length (stored_keys s) <= Max)%nat) by (rewrite Hk, length_lastn; lia).
  unfold on_finalize. cbn [fst snd].
  assert (Hnone : forall k, RelayStorageRoot s !! k = None <-> k ∉ lastn Max (first_seen blocks).*1).
  { intros k. by rewrite <- Hlook, <- eq_None_not_Some. }
  case_bool_decide as Hb.
  - destruct (decide (0 < Max)%nat) as [Hpos|Hz].
    + assert (Hn : is_Some (RelayStorageRoot s !! n)).
      { apply Hlook, max_kept; [done| |done|done]. intros x Hx%Hin. apply Hle; set_solver. }
      destruct Hn as [r' Hr']. unfold set_relay_storage_root. by rewrite Hr'.
    + assert (Hl0 : stored_keys s = []) by (apply length_zero_iff_nil; lia).
      assert (Hn : n ∉ lastn Max (first_seen blocks).*1) by (rewrite <- Hk, Hl0; set_solver).
      rewrite insert_spec by (done || by apply Hnone). rewrite decide_True by lia. rewrite Hl0.
      simpl. rewrite delete_insert_id by by apply Hnone. rewrite Hm. by rewrite <- Hk, Hl0.
  - assert (Hn : n ∉ lastn Max (first_seen blocks).*1) by (intros Hx; by apply Hb, (lastn_sublist Max)).
    rewrite insert_spec by (done || by apply Hnone).
    assert (Hnd : NoDup (first_seen blocks ++ [(n, r)]).*1).
    { rewrite fmap_app. apply NoDup_app. split; [by eapply StronglySorted_NoDup_lt|].
      split; [set_solver|apply NoDup_singleton]. }
    rewrite lastn_map_snoc by done. clear Hnd.
    assert (Hf : (first_seen blocks ++ [(n, r)]).*1 = (first_seen blocks).*1 ++ [n])
      by by rewrite fmap_app.
    rewrite Hf, lastn_snoc, Hk, Hm. clear Hf.
    rewrite fmap_lastn, <- (length_fmap fst (lastn Max (first_seen blocks))), fmap_lastn.
    case_decide as Hfull; [|done].
    destruct (lastn Max (first_seen blocks).*1 ++ [n]) as [|first keys] eqn:Hkeys; [|done].
    by destruct (lastn Max (first_seen blocks).*1).
Qed.
End Properties.

Definition sample_blocks : list (Z * Z) := [(7, 70); (7, 71); (9, 90); (12, 120)].

Lemma storage_wf_witness :
  is_Some (RelayStorageRoot (run 2 ([(7, 70)] ++ [(3, 30)]) empty_state) !! 3).
Proof. by apply (storage_wf 2 ltac:(by split) [(7, 70)] (3, 30)). Defined.

Lemma stores_recent_roots_witness :
  stored_keys (run 2 sample_blocks empty_state) = [9; 12].
Proof.
  refine (proj1 (stores_recent_roots 2 ltac:(by split) sample_blocks _)).
  simpl. repeat first [apply SSorted_cons | apply SSorted_nil | apply Forall_cons; split
    | apply Forall_nil | lia].
Defined.
