(* ===== verification/Migrations.v ===== *)
(** * The migrations pallet ([pallets/migrations/src/lib.rs])

    At a runtime upgrade every listed migration that has not run yet is run once,
    in order, within the block's weight; XCM execution is suspended for the block.

    The migrations themselves, the weights and the XCM execution manager are
    interfaces; [W] is the storage the migrations work on. *)
From Stdlib Require Import ZArith Lia.
From stdpp Require Import prelude gmap fin_maps sorting.
From S2P Require Import Prelude.
From S2P Require Import Interfaces.
From S2P Require Import XcmPrimitives.

Local Open Scope Z_scope.

(** [Migration]: its name (bytes) and what it does; [None] is a panic. *)
Record Migration (W Weight : Type) := mkMigration {
  friendly_name : list Z;
  migrate : Weight -> W -> option (Weight * W);
}.
Arguments friendly_name {_ _} _.
Arguments migrate {_ _} _ _ _.

Inductive Event (Weight DispatchError : Type) :=
  | RuntimeUpgradeStarted
  | RuntimeUpgradeCompleted (weight : Weight)
  | MigrationStarted (migration_name : list Z)
  | MigrationCompleted (migration_name : list Z) (consumed_weight : Weight)
  | FailedToSuspendIdleXcmExecution (e : DispatchError)
  | FailedToResumeIdleXcmExecution (e : DispatchError).
Arguments RuntimeUpgradeStarted {_ _}.
Arguments RuntimeUpgradeCompleted {_ _} _.
Arguments MigrationStarted {_ _} _.
Arguments MigrationCompleted {_ _} _ _.
Arguments FailedToSuspendIdleXcmExecution {_ _} _.
Arguments FailedToResumeIdleXcmExecution {_ _} _.

Section Definitions.
Context {W Weight X E : Type} `{WeightOps Weight} `{PauseXcmExecution X E}.

(** The runtime's block limit, the weight of a storage write, the arithmetic mode. *)
Record Config := mkConfig {
  max_block : Weight;
  write_weight : Weight;
  overflow_checks : bool;
}.

(** [FullyUpgraded], [MigrationState], [ShouldPauseXcm], the XCM manager, the
    storage of the migrations, the events. *)
Record State := mkState {
  FullyUpgraded : bool;
  MigrationState : gmap (list Z) bool;
  ShouldPauseXcm : bool;
  xcm : X;
  world : W;
  events : list (Event Weight E);
}.

Abbreviation Mo := (M State E).

Definition put_fully_upgraded b : Mo unit := modify (fun s =>
  mkState b (MigrationState s) (ShouldPauseXcm s) (xcm s) (world s) (events s)).
Definition mark_done (name : list Z) : Mo unit := modify (fun s =>
  mkState (FullyUpgraded s) (<[name := true]> (MigrationState s)) (ShouldPauseXcm s) (xcm s)
    (world s) (events s)).
Definition put_should_pause b : Mo unit := modify (fun s =>
  mkState (FullyUpgraded s) (MigrationState s) b (xcm s) (world s) (events s)).
Definition put_world w : Mo unit := modify (fun s =>
  mkState (FullyUpgraded s) (MigrationState s) (ShouldPauseXcm s) (xcm s) w (events s)).
Definition deposit_event e : Mo unit := modify (fun s =>
  mkState (FullyUpgraded s) (MigrationState s) (ShouldPauseXcm s) (xcm s) (world s)
    (events s ++ [e])).
Definition XcmExecutionManager (m : M X E unit) : Mo unit :=
  zoom xcm (fun x s => mkState (FullyUpgraded s) (MigrationState s) (ShouldPauseXcm s) x
    (world s) (events s)) id m.

Context (T : Config).

(** [MigrationState::get] *)
Definition is_done (name : list Z) (ms : gmap (list Z) bool) : bool := default false (ms !! name).

(** The body of the loop: [weight] is what the earlier migrations consumed. *)
Definition migrate_one (available_weight weight : Weight) (m : Migration W Weight) : Mo Weight :=
  let name := friendly_name m in
  ms ← gets MigrationState;
  if is_done name ms then mret weight
  else
    deposit_event (MigrationStarted name) ;;
    available_for_step ←
      (if ref_time weight <? ref_time available_weight
       then expect (weight_sub (overflow_checks T) available_weight weight)
       else mret weight_zero);
    w ← gets world;
    '(consumed_weight, w') ← expect (migrate m available_for_step w);
    put_world w' ;;
    deposit_event (MigrationCompleted name consumed_weight) ;;
    mark_done name ;;
    mret (weight_saturating_add weight consumed_weight).

Fixpoint migrate_all (available_weight weight : Weight) (l : list (Migration W Weight)) : Mo Weight :=
  match l with
  | [] => mret weight
  | m :: l' => weight' ← migrate_one available_weight weight m; migrate_all available_weight weight' l'
  end.

(** [perform_runtime_upgrades]; the list is [T::MigrationsList::get_migrations()]. *)
Definition perform_runtime_upgrades (migrations : list (Migration W Weight))
    (available_weight : Weight) : Mo Weight :=
  weight ← migrate_all available_weight weight_zero migrations;
  put_fully_upgraded true ;;
  let weight := weight_saturating_add weight (write_weight T) in
  deposit_event (RuntimeUpgradeCompleted weight) ;;
  mret weight.

(** [Hooks::on_runtime_upgrade] *)
Definition on_runtime_upgrade (migrations : list (Migration W Weight)) : Mo Weight :=
  put_should_pause true ;;
  let available_weight := max_block T in
  put_fully_upgraded false ;;
  let weight := weight_saturating_add weight_zero (write_weight T) in
  deposit_event RuntimeUpgradeStarted ;;
  _ ← perform_runtime_upgrades migrations (weight_saturating_sub available_weight weight);
  mret (max_block T).

(** [Hooks::on_initialize] *)
Definition on_initialize : Mo unit :=
  pause ← gets ShouldPauseXcm;
  when pause (
    r ← attempt (XcmExecutionManager suspend_xcm_execution);
    match r with
    | inl error => deposit_event (FailedToSuspendIdleXcmExecution error)
    | inr _ => mret tt
    end).

(** [Hooks::on_finalize] *)
Definition on_finalize : Mo unit :=
  pause ← gets ShouldPauseXcm;
  when pause (
    r ← attempt (XcmExecutionManager resume_xcm_execution);
    match r with
    | inl error => deposit_event (FailedToResumeIdleXcmExecution error)
    | inr _ => mret tt
    end ;;
    put_should_pause false).

(** [GenesisConfig::build] *)
Definition genesis_build (migrations : list (Migration W Weight)) : Mo unit :=
  for_each (fun m => mark_done (friendly_name m)) migrations.

(** ** How the storage evolves

    Upgrades may come with different lists of migrations. *)
Inductive step : State -> State -> Prop :=
  | step_upgrade migrations w s s' :
      on_runtime_upgrade migrations s = Ok w s' -> step s s'
  | step_initialize s s' : on_initialize s = Ok tt s' -> step s s'
  | step_finalize s s' : on_finalize s = Ok tt s' -> step s s'.

Definition initial (x : X) (w : W) : State := mkState false ∅ false x w [].

(** ** Specification

    The migrations of a list that have not run: the first one of each name. *)
Fixpoint pending (ms : gmap (list Z) bool) (l : list (Migration W Weight)) :
    list (Migration W Weight) :=
  match l with
  | [] => []
  | m :: l' =>
      if is_done (friendly_name m) ms then pending ms l'
      else m :: pending (<[friendly_name m := true]> ms) l'
  end.

(** Running migrations one after the other, with some weight each. *)
Inductive runs : list (Migration W Weight) -> W -> W -> Prop :=
  | runs_nil w : runs [] w w
  | runs_cons m l available consumed w w' w'' :
      migrate m available w = Some (consumed, w') -> runs l w' w'' -> runs (m :: l) w w''.

(** The migrations that completed, in order. *)
Definition completed (evs : list (Event Weight E)) : list (list Z) :=
  omap (fun e => match e with MigrationCompleted n _ => Some n | _ => None end) evs.
End Definitions.

Arguments Config Weight : clear implicits.
Arguments State W Weight X E : clear implicits.

(** ** Lemmas *)
Section Lemmas.
Context {W Weight X E : Type} `{!WeightOps Weight} `{!PauseXcmExecution X E}.
Context (T : Config Weight).
Implicit Types (s : State W Weight X E) (m : Migration W Weight) (l : list (Migration W Weight)).

Lemma is_done_insert n n' ms :
  is_done n (<[n' := true]> ms) = bool_decide (n = n') || is_done n ms.
Proof.
  unfold is_done. destruct (decide (n = n')) as [->|].
  - by rewrite lookup_insert_eq, bool_decide_true.
  - by rewrite lookup_insert_ne, bool_decide_false.
Qed.

(** The names of the pending migrations: distinct, and those not done. *)
Lemma pending_names ms l :
  NoDup (friendly_name <$> pending ms l) /\
  forall n, n ∈ friendly_name <$> pending ms l <-> is_done n ms = false /\ n ∈ friendly_name <$> l.
Proof.
  revert ms. induction l as [|m l IH]; intros ms; simpl; [split; [constructor|set_solver]|].
  destruct (is_done (friendly_name m) ms) eqn:Hd.
  - destruct (IH ms) as [? Hn]. split; [done|]. intros n. rewrite Hn.
    rewrite elem_of_cons. split; [naive_solver|]. intros [? [->|]]; [congruence|done].
  - destruct (IH (<[friendly_name m := true]> ms)) as [? Hn]. simpl. split.
    + constructor; [|done]. rewrite Hn, is_done_insert, bool_decide_true by done. by intros [].
    + intros n. rewrite !elem_of_cons, Hn, is_done_insert.
      destruct (decide (n = friendly_name m)) as [->|].
      * rewrite bool_decide_true by done. naive_solver.
      * rewrite bool_decide_false by done. naive_solver.
Qed.

Lemma pending_nil ms l : (forall n, n ∈ friendly_name <$> l -> is_done n ms = true) -> pending ms l = [].
Proof.
  induction l as [|m l IH]; [done|]. intros Hd. simpl. rewrite Hd by set_solver.
  apply IH. intros n Hn. apply Hd. set_solver.
Qed.

Lemma completed_app (e1 e2 : list (Event Weight E)) :
  completed (e1 ++ e2) = completed e1 ++ completed e2.
Proof. apply omap_app. Qed.

(** What a loop leaves alone, and the migrations it ran. *)
Record loop_post l s s' : Prop := mkLoopPost {
  lp_pause : ShouldPauseXcm s' = ShouldPauseXcm s;
  lp_xcm : xcm s' = xcm s;
  lp_runs : runs (pending (MigrationState s) l) (world s) (world s');
  lp_done n : is_done n (MigrationState s') = is_done n (MigrationState s)
                || bool_decide (n ∈ friendly_name <$> l);
  lp_completed : completed (events s') =
    completed (events s) ++ (friendly_name <$> pending (MigrationState s) l);
}.

(** One migration: skipped, or run once and marked. *)
Lemma migrate_one_Ok available weight m s weight' s' :
  migrate_one T available weight m s = Ok weight' s' ->
  if is_done (friendly_name m) (MigrationState s) then s' = s /\ weight' = weight
  else exists step consumed w',
    migrate m step (world s) = Some (consumed, w') /\
    weight' = weight_saturating_add weight consumed /\
    (if ref_time weight <? ref_time available
     then weight_sub (overflow_checks T) available weight = Some step else step = weight_zero) /\
    s' = mkState (FullyUpgraded s) (<[friendly_name m := true]> (MigrationState s))
      (ShouldPauseXcm s) (xcm s) w' ((events s ++ [MigrationStarted (friendly_name m)])
        ++ [MigrationCompleted (friendly_name m) consumed]).
Proof.
  unfold migrate_one, deposit_event, put_world, mark_done. unfold_M. intros Hr.
  destruct (is_done _ _); [by simplify_eq|].
  destruct (ref_time weight <? ref_time available).
  - destruct (weight_sub _ available weight) as [st|]; [|done]. simpl in Hr.
    destruct (migrate m st (world s)) as [[c w']|] eqn:Hm; simplify_eq/=. by exists st, c, w'.
  - simpl in Hr. destruct (migrate m weight_zero (world s)) as [[c w']|] eqn:Hm; simplify_eq/=.
    by exists weight_zero, c, w'.
Qed.

Lemma migrate_all_Ok available weight l s weight' s' :
  migrate_all T available weight l s = Ok weight' s' -> loop_post l s s'.
Proof.
  revert weight s. induction l as [|m l IH]; intros weight s; cbn [migrate_all].
  - intros Hr. unfold mret, M_ret in Hr. simplify_eq. split; [done|done|constructor| |].
    + intros n. rewrite bool_decide_false by (apply not_elem_of_nil). by rewrite orb_false_r.
    + simpl. by rewrite app_nil_r.
  - intros (w1 & s1 & Hm%migrate_one_Ok & [? ? Hruns Hdone Hcomp]%IH)%bind_Ok.
    destruct (is_done (friendly_name m) (MigrationState s)) eqn:Hd.
    + destruct Hm as [-> ->]. split; [done|done| | |]; simpl; try by rewrite Hd.
      intros n. rewrite Hdone. destruct (is_done n (MigrationState s)) eqn:Hn; [done|].
      simpl. apply bool_decide_ext. simpl. rewrite elem_of_cons. split; [by right|].
      intros [->|]; [congruence|done].
    + destruct Hm as (st & c & w' & Hmig & _ & _ & ->). simpl in *.
      split; simpl; rewrite ?Hd; [done|done|by econstructor| |].
      * intros n. rewrite Hdone, is_done_insert.
        destruct (is_done n (MigrationState s)); [by rewrite orb_true_r|]. rewrite orb_false_r.
        destruct (decide (n = friendly_name m)) as [->|].
        -- rewrite bool_decide_true by done. simpl. by rewrite bool_decide_true by set_solver.
        -- rewrite (bool_decide_false (n = _)) by done. simpl. apply bool_decide_ext. set_solver.
      * rewrite Hcomp, !completed_app. simpl. rewrite app_nil_r.
        by rewrite <- app_assoc.
Qed.
End Lemmas.

(** ** Properties *)
Section Properties.
Context {W Weight X E : Type} `{!WeightOps Weight} `{!PauseXcmExecution X E}.
Context (T : Config Weight).
Implicit Types (s : State W Weight X E) (m : Migration W Weight) (l : list (Migration W Weight)).

Lemma on_runtime_upgrade_Ok l s w s' :
  on_runtime_upgrade T l s = Ok w s' ->
  w = max_block T /\ FullyUpgraded s' = true /\ ShouldPauseXcm s' = true /\ xcm s' = xcm s /\
  runs (pending (MigrationState s) l) (world s) (world s') /\
  (forall n, is_done n (MigrationState s') = is_done n (MigrationState s)
    || bool_decide (n ∈ friendly_name <$> l)) /\
  completed (events s') =
    completed (events s) ++ (friendly_name <$> pending (MigrationState s) l).
Proof.
  unfold on_runtime_upgrade, perform_runtime_upgrades, put_should_pause, put_fully_upgraded,
    deposit_event, modify. unfold mbind, M_bind, mret, M_ret. intros Hr.
  destruct (migrate_all _ _ _ _ _) as [w1 s1| |] eqn:Hm; simplify_eq/=.
  apply migrate_all_Ok in Hm as [Hp Hx Hruns Hdone Hcomp]. simpl in *.
  split_and!; try done. rewrite !completed_app. simpl. rewrite app_nil_r, Hcomp.
  rewrite completed_app. simpl. by rewrite app_nil_r.
Qed.

(** A runtime upgrade runs exactly what is pending: it consumes the whole
    block's weight, runs the migrations of the list that have not run, once per
    name and in order, marks all listed ones and nothing else, and declares the
    chain upgraded; and upgrading again with the same list runs nothing and leaves
    the migrated storage alone. *)
Theorem upgrade_runs_pending l s w s' :
  on_runtime_upgrade T l s = Ok w s' ->
  w = max_block T /\ FullyUpgraded s' = true /\
  runs (pending (MigrationState s) l) (world s) (world s') /\
  NoDup (friendly_name <$> pending (MigrationState s) l) /\
  completed (events s') = completed (events s) ++ (friendly_name <$> pending (MigrationState s) l) /\
  (forall n, is_done n (MigrationState s') = true <->
     is_done n (MigrationState s) = true \/ n ∈ friendly_name <$> l) /\
  forall w2 s2, on_runtime_upgrade T l s' = Ok w2 s2 ->
    world s2 = world s' /\ completed (events s2) = completed (events s').
Proof.
  intros (Hw & Hf & _ & _ & Hruns & Hdone & Hcomp)%on_runtime_upgrade_Ok.
  split_and!; try done; [apply pending_names| |].
  - intros n. rewrite Hdone, orb_true_iff, bool_decide_eq_true. done.
  - intros w2 s2 (_ & _ & _ & _ & Hruns2 & _ & Hcomp2)%on_runtime_upgrade_Ok.
    assert (Hnil : pending (MigrationState s') l = []).
    { apply pending_nil. intros n Hn. by rewrite Hdone, bool_decide_true, orb_true_r. }
    rewrite Hnil in Hruns2, Hcomp2. inversion Hruns2. by rewrite Hcomp2, app_nil_r.
Qed.

(** The hooks of a block leave the migrations' storage alone. *)
Lemma hook_frame (hook : M (State W Weight X E) E unit) s s' :
  hook = on_initialize \/ hook = on_finalize ->
  hook s = Ok tt s' ->
  MigrationState s' = MigrationState s /\ completed (events s') = completed (events s) /\
  world s' = world s.
Proof.
  intros [-> | ->]; unfold on_initialize, on_finalize, XcmExecutionManager, zoom, deposit_event,
    put_should_pause; unfold_M; intros Hr;
    (destruct (ShouldPauseXcm s); [|by simplify_eq]).
  - destruct (suspend_xcm_execution (xcm s)); simplify_eq/=; [done|].
    rewrite completed_app. simpl. by rewrite app_nil_r.
  - destruct (resume_xcm_execution (xcm s)); simplify_eq/=; [done|].
    rewrite completed_app. simpl. by rewrite app_nil_r.
Qed.

(** Every completed migration is marked, and none completed twice or was marked at
    genesis. *)
Definition once (genesis : list (list Z)) s : Prop :=
  NoDup (completed (events s)) /\
  (forall n, n ∈ completed (events s) -> is_done n (MigrationState s) = true /\ n ∉ genesis) /\
  (forall n, n ∈ genesis -> is_done n (MigrationState s) = true).

Lemma step_once genesis s s' : once genesis s -> step T s s' -> once genesis s'.
Proof.
  intros (Hnd & Hc & Hg) Hs. destruct Hs as [l w s s' Hu|s s' Hh|s s' Hh].
  - apply on_runtime_upgrade_Ok in Hu as (_ & _ & _ & _ & _ & Hdone & Hcomp).
    destruct (pending_names (MigrationState s) l) as [Hpn Hp].
    unfold once. rewrite Hcomp. split; [|split].
    + apply NoDup_app. split; [done|]. split; [|done]. intros n [Hn _]%Hc [Hf _]%Hp. congruence.
    + intros n [Hn|Hn]%elem_of_app.
      * destruct (Hc n Hn) as [Hd ?]. by rewrite Hdone, Hd.
      * apply Hp in Hn as [Hf Hn]. rewrite Hdone, bool_decide_true, orb_true_r by done.
        split; [done|]. intros Hgn%Hg. congruence.
    + intros n Hn. by rewrite Hdone, Hg.
  - apply hook_frame in Hh as (Hms & Hev & _); [|by left]. unfold once. by rewrite Hms, Hev.
  - apply hook_frame in Hh as (Hms & Hev & _); [|by right]. unfold once. by rewrite Hms, Hev.
Qed.

Lemma genesis_spec l s s' :
  genesis_build l s = Ok tt s' ->
  completed (events s') = completed (events s) /\
  forall n, is_done n (MigrationState s') = is_done n (MigrationState s)
    || bool_decide (n ∈ friendly_name <$> l).
Proof.
  unfold genesis_build. revert s. induction l as [|m l IH]; intros s; cbn [for_each].
  - intros Hr. unfold mret, M_ret in Hr. simplify_eq. split; [done|]. intros n.
    rewrite bool_decide_false by apply not_elem_of_nil. by rewrite orb_false_r.
  - intros ([] & s1 & Hm & [Hev Hd]%IH)%bind_Ok. unfold mark_done, modify in Hm. simplify_eq/=.
    split; [done|]. intros n. rewrite Hd, is_done_insert.
    destruct (decide (n = friendly_name m)) as [->|].
    + rewrite bool_decide_true by done. simpl. rewrite bool_decide_true, orb_true_r by set_solver. done.
    + rewrite (bool_decide_false (n = _)) by done. simpl. f_equal. apply bool_decide_ext. set_solver.
Qed.

(** C15: no migration ever runs twice: along any sequence of upgrades, each with
    its own list of migrations, and block hooks from genesis, every name completes
    at most once, what completed stays marked, and nothing listed at genesis ever
    runs. *)
Theorem migrations_at_most_once l (x : X) (w : W) s0 s :
  genesis_build l (initial x w) = Ok tt s0 -> rtc (step T) s0 s ->
  NoDup (completed (events s)) /\
  (forall n, n ∈ completed (events s) -> is_done n (MigrationState s) = true) /\
  (forall n, n ∈ friendly_name <$> l -> n ∉ completed (events s)).
Proof.
  intros [Hev Hd]%genesis_spec Hr.
  assert (Ho : once (friendly_name <$> l) s).
  { refine (rtc_invariant _ _ _ _ (step_once _) Hr _). unfold once. rewrite Hev. simpl.
    split; [constructor|]. split; [by intros n Hn%elem_of_nil|].
    intros n Hn. by rewrite Hd, bool_decide_true, orb_true_r. }
  destruct Ho as (? & Hc & _). split; [done|]. split; [naive_solver|].
  intros n Hn Hcn. by apply Hc in Hcn as [_ ?].
Qed.

(** XCM is paused for the upgrade block and only for it: the upgrade itself
    leaves the XCM manager alone; the following initialisation suspends XCM or logs
    why it could not; the finalisation resumes it, or logs why not, and clears the
    flag; and the hooks of a block without an upgrade change nothing. *)
Theorem xcm_paused_for_block (xcm_suspended : X -> bool) `{!PauseXcmLaws X E xcm_suspended} l s :
  (forall w s1, on_runtime_upgrade T l s = Ok w s1 ->
   xcm s1 = xcm s /\
   exists s2, on_initialize s1 = Ok tt s2 /\ ShouldPauseXcm s2 = true /\
     (xcm_suspended (xcm s2) = true \/
      exists e, last (events s2) = Some (FailedToSuspendIdleXcmExecution e))) /\
  (ShouldPauseXcm s = true ->
   exists s', on_finalize s = Ok tt s' /\ ShouldPauseXcm s' = false /\
     (xcm_suspended (xcm s') = false \/
      exists e, last (events s') = Some (FailedToResumeIdleXcmExecution e))) /\
  (ShouldPauseXcm s = false -> on_initialize s = Ok tt s /\ on_finalize s = Ok tt s).
Proof.
  split; [|split].
  - intros w s1 (_ & _ & Hp & Hx & _)%on_runtime_upgrade_Ok. split; [done|].
    pose proof (suspend_spec (xcm s1)) as Hs.
    unfold on_initialize, XcmExecutionManager, zoom, deposit_event. unfold_M. rewrite Hp.
    destruct (suspend_xcm_execution (xcm s1)) as [[] x|e x|]; [| |done];
      eexists; (split; [done|]); simpl; (split; [done|]); [by left|].
    right. exists e. by rewrite last_snoc.
  - intros Hp. pose proof (resume_spec (xcm s)) as Hs.
    unfold on_finalize, XcmExecutionManager, zoom, deposit_event, put_should_pause.
    unfold_M. rewrite Hp.
    destruct (resume_xcm_execution (xcm s)) as [[] x|e x|]; [| |done];
      eexists; (split; [done|]); simpl; (split; [done|]); [by left|].
    right. exists e. by rewrite last_snoc.
  - intros Hp. unfold on_initialize, on_finalize. unfold_M. by rewrite Hp.
Qed.
End Properties.

Section Budget.
Context {W Weight X E : Type} `{!WeightOps Weight} `{!WeightLaws Weight} `{!PauseXcmExecution X E}.
Context (T : Config Weight).
Implicit Types (s : State W Weight X E) (m : Migration W Weight) (l : list (Migration W Weight)).

(** [a] is at most [b] in both components. *)
Definition weight_le (a b : Weight) : Prop :=
  ref_time a <= ref_time b /\ proof_size a <= proof_size b.

(** A migration that finishes within the weight it is given. *)
Definition frugal m : Prop := forall available w, exists consumed w',
  migrate m available w = Some (consumed, w') /\ weight_le consumed available.

(** The weight given to a step, while the budget holds. *)
Lemma step_weight available weight :
  weight_le weight available ->
  exists st, weight_sub (overflow_checks T) available weight = Some st /\
    ref_time st = ref_time available - ref_time weight /\
    proof_size st = proof_size available - proof_size weight.
Proof.
  intros [Hr Hp]. pose proof (weight_sub_spec (overflow_checks T) available weight) as Hs.
  pose proof (ref_time_fits available). pose proof (ref_time_fits weight).
  pose proof (proof_size_fits available). pose proof (proof_size_fits weight).
  rewrite !op_sub_exact in Hs by (unfold fits in *; lia).
  destruct (weight_sub _ _ _) as [st|]; [|naive_solver]. exists st. split; [done|].
  destruct Hs as [Hs1 Hs2]. simplify_eq. split; congruence.
Qed.

Lemma add_within available weight st c :
  weight_le weight available ->
  ref_time st <= ref_time available - ref_time weight ->
  proof_size st <= proof_size available - proof_size weight ->
  weight_le c st -> weight_le (weight_saturating_add weight c) available.
Proof.
  intros [Hr Hp] H1 H2 [H3 H4]. unfold weight_le. rewrite ref_time_add, proof_size_add.
  unfold saturating_add. lia.
Qed.

Lemma migrate_one_frugal available weight m s :
  frugal m -> weight_le weight available ->
  exists weight' s', migrate_one T available weight m s = Ok weight' s' /\
    weight_le weight' available.
Proof.
  intros Hm Hw. unfold migrate_one, deposit_event, put_world, mark_done. unfold_M.
  destruct (is_done _ _); [eauto|].
  destruct (Z.ltb_spec (ref_time weight) (ref_time available)).
  - destruct (step_weight available weight Hw) as (st & -> & Hr & Hp). simpl.
    destruct (Hm st (world s)) as (c & w' & -> & Hc). simpl.
    eexists _, _. split; [done|]. eapply add_within; [done|by rewrite Hr|by rewrite Hp|done].
  - simpl. destruct (Hm weight_zero (world s)) as (c & w' & -> & Hc). simpl.
    eexists _, _. split; [done|]. destruct Hw.
    eapply (add_within _ _ weight_zero); [done| | |done];
      rewrite ?ref_time_zero, ?proof_size_zero; lia.
Qed.

Lemma migrate_all_frugal available weight l s :
  Forall frugal l -> weight_le weight available ->
  exists weight' s', migrate_all T available weight l s = Ok weight' s' /\
    weight_le weight' available.
Proof.
  intros Hl. revert weight s. induction Hl as [|m l Hm _ IH]; intros weight s Hw; cbn [migrate_all].
  - by exists weight, s.
  - destruct (migrate_one_frugal available weight m s Hm Hw) as (w1 & s1 & Hr & Hw1).
    unfold mbind, M_bind. rewrite Hr. by apply IH.
Qed.

(** The weight budget: when every listed migration finishes within the weight
    it is given, an upgrade never panics and the migrations together stay within
    the block; but the guard before the subtraction only compares the first
    component, so once the earlier migrations exceeded the proof size alone, the
    next pending one panics in a build with overflow checks and is otherwise given
    a wrapped, almost unlimited proof size. *)
Theorem upgrade_within_budget l s :
  (Forall frugal l ->
   exists s', on_runtime_upgrade T l s = Ok (max_block T) s' /\
     exists w, last (events s') = Some (RuntimeUpgradeCompleted (weight_saturating_add w (write_weight T))) /\
       weight_le w (max_block T)) /\
  (forall m available weight,
   is_done (friendly_name m) (MigrationState s) = false ->
   ref_time weight < ref_time available -> proof_size available < proof_size weight ->
   if overflow_checks T then migrate_one T available weight m s = Panic
   else exists st, weight_sub false available weight = Some st /\
     proof_size st = 2 ^ 64 - (proof_size weight - proof_size available)).
Proof.
  split.
  - intros Hl. unfold on_runtime_upgrade, perform_runtime_upgrades, put_should_pause,
      put_fully_upgraded, deposit_event, modify. unfold mbind, M_bind, mret, M_ret.
    set (available := weight_saturating_sub _ _). set (s0 := mkState _ _ _ _ _ _).
    assert (Ha : weight_le available (max_block T)).
    { unfold weight_le, available. rewrite ref_time_sub, proof_size_sub, ref_time_add,
        proof_size_add, ref_time_zero, proof_size_zero. unfold saturating_sub, saturating_add.
      pose proof (ref_time_fits (max_block T)). pose proof (proof_size_fits (max_block T)).
      pose proof (ref_time_fits (write_weight T)). pose proof (proof_size_fits (write_weight T)).
      unfold fits in *. lia. }
    destruct (migrate_all_frugal available weight_zero l s0 Hl) as (w & s1 & -> & Hw).
    { unfold weight_le. rewrite ref_time_zero, proof_size_zero.
      pose proof (ref_time_fits available). pose proof (proof_size_fits available).
      unfold fits in *. lia. }
    eexists. split; [done|]. exists w. simpl. rewrite last_snoc. split; [done|].
    unfold weight_le in *. lia.
  - intros m available weight Hd Hr Hp. pose proof (weight_sub_spec (overflow_checks T) available weight) as Hs.
    pose proof (proof_size_fits available) as F1. pose proof (proof_size_fits weight) as F2.
    destruct (overflow_checks T) eqn:Hoc.
    + unfold migrate_one, deposit_event. unfold_M. rewrite Hd, Hoc. simpl.
      rewrite (proj2 (Z.ltb_lt _ _)) by done.
      destruct (weight_sub true available weight) as [st|]; [|done].
      destruct Hs as [_ Hs]. apply checked_sub_Some in Hs. lia.
    + destruct (weight_sub false available weight) as [st|]; [|by destruct Hs].
      exists st. split; [done|]. destruct Hs as [_ [= <-]]. unfold wrapping, fits, umax in *.
      symmetry. apply Z.mod_unique_pos with (-1); lia.
Qed.
End Budget.

(** ** A concrete runtime: migrations add to a counter *)
Definition sample_config : Config PairWeight := {|
  max_block := (1000, 1000);
  write_weight := (10, 0);
  overflow_checks := true;
|}.

Definition sample_migration (name : Z) : Migration Z PairWeight := {|
  friendly_name := [name];
  migrate available w := Some ((Z.min 5 (ref_time available), Z.min 5 (proof_size available)), w + name);
|}.

Definition sample_list : list (Migration Z PairWeight) :=
  [sample_migration 1; sample_migration 2; sample_migration 1].

Definition sample_initial : State Z PairWeight switch unit := initial (false, false) 0.

Definition sample_state : State Z PairWeight switch unit :=
  final_state (on_runtime_upgrade sample_config sample_list) sample_initial.

Lemma sample_upgrade :
  on_runtime_upgrade sample_config sample_list sample_initial = Ok (1000, 1000) sample_state.
Proof. vm_compute; reflexivity. Qed.

Lemma upgrade_runs_pending_witness :
  runs (pending ∅ sample_list) 0 (world sample_state) /\
  completed (events sample_state) = [[1]; [2]].
Proof.
  destruct (upgrade_runs_pending sample_config sample_list sample_initial _ _ sample_upgrade)
    as (_ & _ & Hr & _ & Hc & _).
  split; [exact Hr|]. rewrite Hc. reflexivity.
Defined.

Lemma migrations_at_most_once_witness : NoDup (completed (events sample_state)).
Proof.
  apply (migrations_at_most_once sample_config [] (false, false) 0 sample_initial sample_state).
  - reflexivity.
  - eapply rtc_l; [|apply rtc_refl]. exact (step_upgrade _ _ _ _ _ sample_upgrade).
Defined.

Lemma xcm_paused_for_block_witness :
  exists s2, on_initialize sample_state = Ok tt s2 /\ ShouldPauseXcm s2 = true.
Proof.
  destruct (proj1 (xcm_paused_for_block sample_config fst sample_list sample_initial) _ _
    sample_upgrade) as (_ & s2 & Hi & Hp & _).
  exists s2. split; [exact Hi|exact Hp].
Defined.

Lemma sample_frugal : Forall frugal sample_list.
Proof.
  assert (Hf : forall n, frugal (sample_migration n)).
  { intros n available w. eexists _, _. split; [done|].
    assert (Hmin : forall v, fits 64 v -> u64_clamp (Z.min 5 v) <= v).
    { unfold fits, u64_clamp, umax. lia. }
    split; simpl; apply Hmin, u64_clamp_fits. }
  repeat (constructor; [apply Hf|]). constructor.
Qed.

Lemma upgrade_within_budget_witness :
  exists s', on_runtime_upgrade sample_config sample_list sample_initial = Ok (1000, 1000) s'.
Proof.
  destruct (proj1 (upgrade_within_budget sample_config sample_list sample_initial) sample_frugal)
    as (s' & Hs & _).
  exists s'. exact Hs.
Defined.
