(* ===== verification/XcmControl.v ===== *)
(** * Maintenance mode and migrations over one XCM execution manager

    [pallets/maintenance-mode] and [pallets/migrations] both suspend and resume the
    execution of XCM messages through [PauseXcmExecution].  A runtime with both hands
    them the same manager.  This file composes the two pallets over one manager, runs
    whole blocks (upgrade, initialisation, calls, finalisation) and relates them to a
    machine of two bits: whether the chain is in maintenance and whether XCM is
    suspended. *)
From Stdlib Require Import ZArith Lia.
From stdpp Require Import prelude gmap fin_maps sorting.
From S2P Require Import Prelude.
From S2P Require Import Interfaces.
From S2P Require Import XcmPrimitives.
From S2P Require Maintenance.
From S2P Require Migrations.

Section Definitions.
Context {Origin RuntimeCall W Weight X E : Type} `{WeightOps Weight} `{PauseXcmExecution X E}.

(** The storage of the two pallets and the manager they share; the copies of the
    manager in the pallets' own records are overwritten before each call. *)
Record Chain := mkChain {
  manager : X;
  maintenance : Maintenance.State X E;
  migrations : Migrations.State W Weight X E;
}.

Definition in_maintenance {E1 E2 A} (f : E1 -> E2) (m : M (Maintenance.State X E) E1 A) :
    M Chain E2 A :=
  zoom (fun c => Maintenance.mkState (Maintenance.MaintenanceMode (maintenance c)) (manager c)
                   (Maintenance.events (maintenance c)))
       (fun s c => mkChain (Maintenance.xcm s) s (migrations c)) f m.

Definition in_migrations {A} (m : M (Migrations.State W Weight X E) E A) : M Chain E A :=
  zoom (fun c => let s := migrations c in
                 Migrations.mkState (Migrations.FullyUpgraded s) (Migrations.MigrationState s)
                   (Migrations.ShouldPauseXcm s) (manager c) (Migrations.world s)
                   (Migrations.events s))
       (fun s c => mkChain (Migrations.xcm s) (maintenance c) s) id m.

Context (TM : Maintenance.Config Origin RuntimeCall) (TG : Migrations.Config Weight).

(** What can touch maintenance mode within a block. *)
Inductive Action :=
  | Dispatch (origin : Origin) (call : Maintenance.Call)
  | FailedMigration (migration : option Z).

Record Block := mkBlock {
  upgrade : option (list (Migrations.Migration W Weight));
  body : list Action;
}.

(** A call of a block is rolled back when it fails; the block goes on. *)
Definition run_action (a : Action) : M Chain E unit :=
  match a with
  | Dispatch origin call =>
      _ ← attempt (in_maintenance id (transactional (Maintenance.dispatch TM origin call)));
      mret tt
  | FailedMigration migration =>
      _ ← attempt (in_maintenance id (Maintenance.failed migration)); mret tt
  end.

Definition run_block (b : Block) : M Chain E unit :=
  match upgrade b with
  | Some l => _ ← in_migrations (Migrations.on_runtime_upgrade TG l); mret tt
  | None => mret tt
  end ;;
  in_migrations Migrations.on_initialize ;;
  for_each run_action (body b) ;;
  in_migrations Migrations.on_finalize.

Definition genesis (start_in_maintenance_mode : bool) (x : X) (w : W) : Chain :=
  mkChain x
    (final_state (Maintenance.genesis_build start_in_maintenance_mode) (Maintenance.initial x))
    (Migrations.initial x w).

(** ** The abstract machine *)
Record Mode := mkMode { restricted : bool; suspended : bool }.

Definition abs_action (m : Mode) (a : Action) : Mode :=
  match a with
  | Dispatch o Maintenance.enter_maintenance_mode_call =>
      if Maintenance.MaintenanceOrigin TM o && negb (restricted m) then mkMode true true else m
  | Dispatch o Maintenance.resume_normal_operation_call =>
      if Maintenance.MaintenanceOrigin TM o && restricted m then mkMode false false else m
  | FailedMigration _ => mkMode true true
  end.

Definition abs_block (m : Mode) (b : Block) : Mode :=
  match upgrade b with
  | Some _ => mkMode (restricted (foldl abs_action (mkMode (restricted m) true) (body b))) false
  | None => foldl abs_action m (body b)
  end.
End Definitions.

Arguments Chain W Weight X E : clear implicits.
Arguments Action Origin : clear implicits.
Arguments Block Origin W Weight : clear implicits.

(** ** Lemmas *)
Section Lemmas.
Context {Origin RuntimeCall W Weight X E : Type} `{!WeightOps Weight} `{!WeightLaws Weight}.
Context `{!PauseXcmExecution X E} (xcm_suspended : X -> bool) `{!PauseXcmLaws X E xcm_suspended}.
Context (TM : Maintenance.Config Origin RuntimeCall) (TG : Migrations.Config Weight).
Implicit Types (c : Chain W Weight X E).

(** The manager never fails: what it does is only a switch of [xcm_suspended]. *)
Definition reliable : Prop := forall x : X,
  (exists x', suspend_xcm_execution x = Ok tt x') /\ (exists x', resume_xcm_execution x = Ok tt x').

Context (Hrel : reliable).

Lemma reliable_suspend x :
  exists x', suspend_xcm_execution x = Ok tt x' /\ xcm_suspended x' = true.
Proof.
  destruct (Hrel x) as [[x' Hx] _]. exists x'. split; [done|].
  pose proof (suspend_spec x) as Hs. by rewrite Hx in Hs.
Qed.

Lemma reliable_resume x :
  exists x', resume_xcm_execution x = Ok tt x' /\ xcm_suspended x' = false.
Proof.
  destruct (Hrel x) as [_ [x' Hx]]. exists x'. split; [done|].
  pose proof (resume_spec x) as Hs. by rewrite Hx in Hs.
Qed.

(** What a chain shows of the machine. *)
Definition mode_of c : Mode :=
  mkMode (Maintenance.MaintenanceMode (maintenance c)) (xcm_suspended (manager c)).

(** Whether the migrations pallet holds XCM suspended for an upgrade. *)
Definition pauses c : bool := Migrations.ShouldPauseXcm (migrations c).

Lemma do_enter_reliable (s : Maintenance.State X E) :
  exists s', Maintenance.do_enter_maintenance_mode s = Ok tt s' /\
    Maintenance.MaintenanceMode s' = true /\ xcm_suspended (Maintenance.xcm s') = true.
Proof.
  destruct (reliable_suspend (Maintenance.xcm s)) as (x' & Hx & Hs).
  unfold Maintenance.do_enter_maintenance_mode, Maintenance.XcmExecutionManager,
    Maintenance.put_mode, Maintenance.deposit_event, zoom. unfold_M. simpl. rewrite Hx.
  eexists. split; [done|]. done.
Qed.

Lemma enter_reliable o (s : Maintenance.State X E) :
  if Maintenance.MaintenanceOrigin TM o && negb (Maintenance.MaintenanceMode s)
  then exists s', Maintenance.enter_maintenance_mode TM o s = Ok tt s' /\
    Maintenance.MaintenanceMode s' = true /\ xcm_suspended (Maintenance.xcm s') = true
  else exists e, Maintenance.enter_maintenance_mode TM o s = Err e s.
Proof.
  unfold Maintenance.enter_maintenance_mode. unfold_M.
  destruct (Maintenance.MaintenanceOrigin TM o); [|by eexists]. simpl.
  destruct (Maintenance.MaintenanceMode s); simpl; [by eexists|]. apply do_enter_reliable.
Qed.

Lemma resume_reliable o (s : Maintenance.State X E) :
  if Maintenance.MaintenanceOrigin TM o && Maintenance.MaintenanceMode s
  then exists s', Maintenance.resume_normal_operation TM o s = Ok tt s' /\
    Maintenance.MaintenanceMode s' = false /\ xcm_suspended (Maintenance.xcm s') = false
  else exists e, Maintenance.resume_normal_operation TM o s = Err e s.
Proof.
  unfold Maintenance.resume_normal_operation. unfold_M.
  destruct (Maintenance.MaintenanceOrigin TM o); [|by eexists]. simpl.
  destruct (Maintenance.MaintenanceMode s); simpl; [|by eexists].
  destruct (reliable_resume (Maintenance.xcm s)) as (x' & Hx & Hs).
  unfold Maintenance.XcmExecutionManager, Maintenance.put_mode, Maintenance.deposit_event, zoom.
  unfold_M. simpl. rewrite Hx. eexists. split; [done|]. done.
Qed.

Lemma run_action_spec a c : exists c',
  run_action TM a c = Ok tt c' /\ mode_of c' = abs_action TM (mode_of c) a /\
  migrations c' = migrations c.
Proof.
  unfold run_action, in_maintenance, zoom, transactional, mode_of, abs_action.
  destruct a as [o []|m]; unfold_M; simpl.
  - pose proof (enter_reliable o (Maintenance.mkState (Maintenance.MaintenanceMode (maintenance c))
      (manager c) (Maintenance.events (maintenance c)))) as Hs. simpl in Hs.
    destruct (Maintenance.MaintenanceOrigin TM o && negb _).
    + destruct Hs as (s' & -> & Hm & Hx). eexists. split; [done|]. simpl. by rewrite Hm, Hx.
    + destruct Hs as [e ->]. by eexists.
  - pose proof (resume_reliable o (Maintenance.mkState (Maintenance.MaintenanceMode (maintenance c))
      (manager c) (Maintenance.events (maintenance c)))) as Hs. simpl in Hs.
    destruct (Maintenance.MaintenanceOrigin TM o && _).
    + destruct Hs as (s' & -> & Hm & Hx). eexists. split; [done|]. simpl. by rewrite Hm, Hx.
    + destruct Hs as [e ->]. by eexists.
  - unfold Maintenance.failed. unfold_M.
    destruct (do_enter_reliable (Maintenance.mkState (Maintenance.MaintenanceMode (maintenance c))
      (manager c) (Maintenance.events (maintenance c)))) as (s' & -> & Hm & Hx).
    eexists. split; [done|]. simpl. by rewrite Hm, Hx.
Qed.

Lemma run_actions_spec l c : exists c',
  for_each (run_action TM) l c = Ok tt c' /\ mode_of c' = foldl (abs_action TM) (mode_of c) l /\
  migrations c' = migrations c.
Proof.
  revert c. induction l as [|a l IH]; intros c; cbn [for_each foldl]; [by exists c|].
  destruct (run_action_spec a c) as (c1 & Ha & Hm & Hg).
  destruct (IH c1) as (c2 & Hl & Hm2 & Hg2). exists c2. split; [|split].
  - apply bind_Ok. eauto.
  - by rewrite Hm2, Hm.
  - congruence.
Qed.

(** The two hooks of the migrations pallet switch XCM exactly when it holds it. *)
Lemma on_initialize_spec c : exists c',
  in_migrations Migrations.on_initialize c = Ok tt c' /\ pauses c' = pauses c /\
  mode_of c' = mkMode (restricted (mode_of c)) (pauses c || suspended (mode_of c)).
Proof.
  destruct (reliable_suspend (manager c)) as (x' & Hx & Hs).
  unfold in_migrations, Migrations.on_initialize, Migrations.XcmExecutionManager, zoom, pauses,
    mode_of. unfold_M. simpl.
  destruct (Migrations.ShouldPauseXcm (migrations c)) eqn:Hp; simpl;
    [rewrite Hx|]; (eexists; split; [done|]); simpl; rewrite ?Hp, ?Hs; done.
Qed.

Lemma on_finalize_spec c : exists c',
  in_migrations Migrations.on_finalize c = Ok tt c' /\ pauses c' = false /\
  mode_of c' = mkMode (restricted (mode_of c)) (negb (pauses c) && suspended (mode_of c)).
Proof.
  destruct (reliable_resume (manager c)) as (x' & Hx & Hs).
  unfold in_migrations, Migrations.on_finalize, Migrations.XcmExecutionManager, zoom, pauses,
    mode_of, Migrations.put_should_pause. unfold_M. simpl.
  destruct (Migrations.ShouldPauseXcm (migrations c)) eqn:Hp; simpl;
    [rewrite Hx|]; (eexists; split; [done|]); simpl; rewrite ?Hp, ?Hs; done.
Qed.

(** An upgrade leaves the manager to the initialisation that follows it. *)
Lemma upgrade_spec l c w c' :
  in_migrations (Migrations.on_runtime_upgrade TG l) c = Ok w c' ->
  pauses c' = true /\ mode_of c' = mode_of c.
Proof.
  unfold in_migrations. intros (s' & Hu & ->)%zoom_Ok.
  apply Migrations.on_runtime_upgrade_Ok in Hu as (_ & _ & Hp & Hx & _).
  unfold pauses, mode_of. simpl in *. by rewrite Hx.
Qed.

(** The part of a block after the upgrade. *)
Lemma block_rest_spec l c : exists c',
  (in_migrations Migrations.on_initialize ;; for_each (run_action TM) l ;;
   in_migrations Migrations.on_finalize) c = Ok tt c' /\ pauses c' = false /\
  let m := foldl (abs_action TM)
             (mkMode (restricted (mode_of c)) (pauses c || suspended (mode_of c))) l in
  mode_of c' = mkMode (restricted m) (negb (pauses c) && suspended m).
Proof.
  destruct (on_initialize_spec c) as (c1 & Hi & Hp1 & Hm1).
  destruct (run_actions_spec l c1) as (c2 & Ha & Hm2 & Hg2).
  destruct (on_finalize_spec c2) as (c3 & Hf & Hp3 & Hm3).
  exists c3. split; [|split; [done|]].
  - apply bind_Ok. exists tt, c1. split; [done|]. apply bind_Ok. eauto.
  - assert (Hp2 : pauses c2 = pauses c) by (unfold pauses in *; congruence).
    simpl. by rewrite Hm3, Hp2, Hm2, Hm1.
Qed.

Lemma mode_eta m : mkMode (restricted m) (suspended m) = m.
Proof. by destruct m. Qed.

Lemma run_block_spec b c c' :
  pauses c = false -> run_block TM TG b c = Ok tt c' ->
  pauses c' = false /\ mode_of c' = abs_block TM (mode_of c) b.
Proof.
  intros Hp (u & c1 & Hu & Hr)%bind_Ok. unfold abs_block.
  destruct (block_rest_spec (body b) c1) as (c2 & Hr2 & Hp2 & Hm2).
  rewrite Hr in Hr2. simplify_eq. split; [done|]. rewrite Hm2.
  destruct (upgrade b) as [l|].
  - apply bind_Ok in Hu as (w & c3 & Hu & Heq). unfold mret, M_ret in Heq. simplify_eq.
    apply upgrade_spec in Hu as [-> ->]. done.
  - unfold mret, M_ret in Hu. simplify_eq. rewrite Hp. simpl. by rewrite !mode_eta.
Qed.

(** A block whose upgrade stays within its budget. *)
Definition frugal_block (b : Block Origin W Weight) : Prop :=
  match upgrade b with Some l => Forall Migrations.frugal l | None => True end.

Lemma run_block_total b c : frugal_block b -> exists c', run_block TM TG b c = Ok tt c'.
Proof.
  unfold frugal_block, run_block. intros Hf.
  assert (Hu : exists c1, (match upgrade b with
    | Some l => _ ← in_migrations (Migrations.on_runtime_upgrade TG l); mret tt
    | None => mret tt end) c = Ok tt c1).
  { destruct (upgrade b) as [l|]; [|by eexists].
    unfold in_migrations, zoom. unfold_M. set (s := Migrations.mkState _ _ _ _ _ _).
    destruct (proj1 (Migrations.upgrade_within_budget TG l s) Hf) as (s' & -> & _).
    by eexists. }
  destruct Hu as [c1 Hu]. destruct (block_rest_spec (body b) c1) as (c2 & Hr & _).
  exists c2. apply bind_Ok. eauto.
Qed.

Lemma run_blocks_spec l c c' :
  pauses c = false -> for_each (run_block TM TG) l c = Ok tt c' ->
  pauses c' = false /\ mode_of c' = foldl (abs_block TM) (mode_of c) l.
Proof.
  revert c. induction l as [|b l IH]; intros c Hp; cbn [for_each foldl].
  - intros [= ->]. done.
  - intros (u & c1 & Hb & Hl)%bind_Ok. destruct u.
    apply run_block_spec in Hb as [Hp1 <-]; [|done]. by apply IH.
Qed.

Lemma run_blocks_total l c :
  Forall frugal_block l -> exists c', for_each (run_block TM TG) l c = Ok tt c'.
Proof.
  intros Hf. revert c. induction Hf as [|b l Hb _ IH]; intros c; cbn [for_each]; [by exists c|].
  destruct (run_block_total b c Hb) as [c1 H1]. destruct (IH c1) as [c2 H2].
  exists c2. apply bind_Ok. eauto.
Qed.

Lemma genesis_mode b x w :
  pauses (genesis b x w) = false /\ mode_of (genesis b x w) = mkMode b (xcm_suspended x).
Proof. by destruct b. Qed.

(** ** The abstract machine: what no block can do *)

(** XCM is never left suspended outside maintenance. *)
Lemma abs_action_sound m a :
  (suspended m = true -> restricted m = true) ->
  suspended (abs_action TM m a) = true -> restricted (abs_action TM m a) = true.
Proof. unfold abs_action. destruct a as [o []|]; try case_match; naive_solver. Qed.

(** What keeps XCM suspended exactly in maintenance. *)
Lemma abs_action_in_step m a :
  suspended m = restricted m -> suspended (abs_action TM m a) = restricted (abs_action TM m a).
Proof. unfold abs_action. destruct a as [o []|]; try case_match; naive_solver. Qed.

Lemma foldl_preserves {A B} (P : A -> Prop) (f : A -> B -> A) l a :
  (forall a b, b ∈ l -> P a -> P (f a b)) -> P a -> P (foldl f a l).
Proof.
  revert a. induction l as [|b l IH]; intros a Hf Ha; [done|]. simpl.
  apply IH; [|by apply Hf; [left|]]. intros a' b' Hb. apply Hf. by right.
Qed.

Lemma abs_blocks_sound m (l : list (Block Origin W Weight)) :
  (suspended m = true -> restricted m = true) ->
  suspended (foldl (abs_block TM) m l) = true -> restricted (foldl (abs_block TM) m l) = true.
Proof.
  apply (foldl_preserves (fun m => suspended m = true -> restricted m = true)).
  intros m' b _ Hm. unfold abs_block. destruct (upgrade b); [done|].
  apply foldl_preserves; [|done]. intros a b' _. apply abs_action_sound.
Qed.

Lemma abs_actions_in_step m l :
  suspended m = restricted m -> suspended (foldl (abs_action TM) m l) = restricted (foldl (abs_action TM) m l).
Proof.
  apply (foldl_preserves (fun m => suspended m = restricted m)). intros a b' _. apply abs_action_in_step.
Qed.

(** The action switches XCM although the chain is in maintenance already. *)
Definition switches (a : Action Origin) : bool :=
  match a with
  | Dispatch o Maintenance.resume_normal_operation_call => Maintenance.MaintenanceOrigin TM o
  | Dispatch _ Maintenance.enter_maintenance_mode_call => false
  | FailedMigration _ => true
  end.

(** A genesis in maintenance leaves XCM running until then. *)
Lemma abs_actions_from_maintenance l :
  suspended (foldl (abs_action TM) (mkMode true false) l) =
    restricted (foldl (abs_action TM) (mkMode true false) l) && existsb switches l.
Proof.
  induction l as [|a l IH]; [done|]. simpl. destruct (switches a) eqn:Ha; simpl.
  - rewrite andb_true_r. apply abs_actions_in_step. by destruct a as [o []|]; simpl in *; rewrite ?Ha.
  - replace (abs_action TM (mkMode true false) a) with (mkMode true false); [done|].
    destruct a as [o []|]; simpl in *; rewrite ?Ha, ?andb_false_r; done.
Qed.

(** Without upgrades blocks are their actions. *)
Lemma abs_blocks_actions m (l : list (Block Origin W Weight)) :
  Forall (fun b => upgrade b = None) l ->
  foldl (abs_block TM) m l = foldl (abs_action TM) m (concat (map body l)).
Proof.
  intros Hl. revert m. induction Hl as [|b l Hb _ IH]; intros m; [done|]. simpl.
  rewrite foldl_app, IH. unfold abs_block. by rewrite Hb.
Qed.
End Lemmas.

(** ** Properties *)
Section Properties.
Context {Origin RuntimeCall W Weight X E : Type} `{!WeightOps Weight} `{!WeightLaws Weight}.
Context `{!PauseXcmExecution X E} (xcm_suspended : X -> bool) `{!PauseXcmLaws X E xcm_suspended}.
Context (TM : Maintenance.Config Origin RuntimeCall) (TG : Migrations.Config Weight).
Implicit Types (c : Chain W Weight X E) (blocks : list (Block Origin W Weight)).

(** C10: the two pallets over one manager behave as the machine of two bits: with a
    manager that does not fail, a chain of blocks whose upgrades stay within their
    budget is always accepted, and after any accepted chain the maintenance mode and
    the suspension of XCM are what the machine computes, with no pause of an upgrade
    pending.  Hence a chain that started with XCM running never leaves it suspended
    outside maintenance; while no block upgrades it is suspended exactly in maintenance,
    except that a genesis in maintenance leaves it running until operation is resumed or
    a migration fails; and after a block with an upgrade XCM is always running, also when
    the chain was or is now in maintenance. *)
Theorem xcm_follows_modes b (x : X) (w : W) blocks :
  reliable -> xcm_suspended x = false ->
  (Forall frugal_block blocks ->
   exists c, for_each (run_block TM TG) blocks (genesis b x w) = Ok tt c) /\
  forall c, for_each (run_block TM TG) blocks (genesis b x w) = Ok tt c ->
    Migrations.ShouldPauseXcm (migrations c) = false /\
    mode_of xcm_suspended c = foldl (abs_block TM) (mkMode b false) blocks /\
    (xcm_suspended (manager c) = true -> Maintenance.MaintenanceMode (maintenance c) = true) /\
    (Forall (fun b => upgrade b = None) blocks ->
     xcm_suspended (manager c) =
       Maintenance.MaintenanceMode (maintenance c) && (negb b || existsb (switches TM) (concat (map body blocks)))) /\
    (forall bl, last blocks = Some bl -> upgrade bl <> None -> xcm_suspended (manager c) = false).
Proof.
  intros Hrel Hx. split; [by apply (run_blocks_total xcm_suspended)|]. intros c Hr.
  destruct (genesis_mode (Weight := Weight) (E := E) xcm_suspended b x w) as [Hp0 Hm0].
  apply (run_blocks_spec xcm_suspended TM TG Hrel) in Hr as [Hp Hm]; [|done].
  rewrite Hm0, Hx in Hm. split; [done|]. split; [done|].
  change (xcm_suspended (manager c)) with (suspended (mode_of xcm_suspended c)).
  change (Maintenance.MaintenanceMode (maintenance c)) with (restricted (mode_of xcm_suspended c)).
  rewrite Hm. split; [|split].
  - by apply abs_blocks_sound.
  - intros Hl. rewrite (abs_blocks_actions TM _ _ Hl). destruct b; simpl.
    + apply abs_actions_from_maintenance.
    + rewrite andb_true_r. by apply abs_actions_in_step.
  - intros bl (pre & ->)%last_Some Hu. rewrite foldl_app. simpl. unfold abs_block at 1.
    by destruct (upgrade bl).
Qed.
End Properties.

(** ** A concrete runtime: a flag as the manager, privileged origins are [true] *)
#[local] Instance flag_pause : PauseXcmExecution bool unit := {
  suspend_xcm_execution _ := Ok tt true;
  resume_xcm_execution _ := Ok tt false;
}.

#[local] Instance flag_pause_laws : PauseXcmLaws bool unit id.
Proof. by split. Qed.

Definition sample_enter : Action bool := Dispatch true Maintenance.enter_maintenance_mode_call.

(** Maintenance is entered, then the runtime is upgraded. *)
Definition sample_blocks : list (Block bool Z PairWeight) :=
  [mkBlock None [sample_enter]; mkBlock (Some Migrations.sample_list) []].

Definition sample_run : outcome (Chain Z PairWeight bool unit) unit unit :=
  for_each (run_block Maintenance.sample_config Migrations.sample_config) sample_blocks
    (genesis false false 0%Z).

Lemma xcm_follows_modes_witness : exists c : Chain Z PairWeight bool unit,
  sample_run = Ok tt c /\
  Maintenance.MaintenanceMode (maintenance c) = true /\ manager c = false.
Proof.
  destruct (xcm_follows_modes (W := Z) (E := unit) id Maintenance.sample_config
    Migrations.sample_config false false 0%Z sample_blocks) as [Ht Hc].
  - intros x. split; eexists; reflexivity.
  - reflexivity.
  - destruct Ht as [c Hr].
    { constructor; [exact I|]. constructor; [exact Migrations.sample_frugal|constructor]. }
    exists c. destruct (Hc c Hr) as (_ & Hm & _). split; [exact Hr|].
    vm_compute in Hm. destruct c as [x m g]. cbn in Hm |- *.
    injection Hm as Hm Hx. split; [exact Hm|exact Hx].
Defined.
