(* ===== verification/Randomness.v ===== *)
(** * The randomness pallet: requests ([pallets/randomness/src/{types,lib}.rs])

    Contracts request randomness of a relay chain epoch or of a future block,
    paying a deposit and a fee into the pallet's account; once the randomness is
    known anyone fulfils the request, and after expiration anyone purges it.

    The pallet's currency is the interface [Currency]; the hash function, the
    address mapping and the source of epoch randomness are configuration.  The hooks
    and the VRF check are in [RandomnessHooks.v]. *)
From Stdlib Require Import ZArith Lia.
From stdpp Require Import prelude gmap fin_maps sorting.
From S2P Require Import Prelude.
From S2P Require Import Interfaces.

Local Open Scope Z_scope.

(** [RequestType] *)
Inductive RequestType := BabeEpoch (epoch : Z) | Local (block : Z).

#[export] Instance RequestType_eq_dec : EqDecision RequestType.
Proof. solve_decision. Defined.

#[export] Instance RequestType_countable : Countable RequestType.
Proof.
  refine (inj_countable'
    (fun k => match k with BabeEpoch e => inl e | Local b => inr b end)
    (fun x => match x with inl e => BabeEpoch e | inr b => Local b end) _).
  by intros [].
Defined.

(** [RequestInfo]: the second component is the expiration. *)
Inductive RequestInfo :=
  | InfoBabeEpoch (epoch expires : Z)
  | InfoLocal (block expires : Z).

(** [From<RequestInfo> for RequestType] *)
Definition type_of_info (i : RequestInfo) : RequestType :=
  match i with InfoBabeEpoch e _ => BabeEpoch e | InfoLocal b _ => Local b end.

(** [RandomnessResult] *)
Record RandomnessResult (Hash : Type) := mkResult {
  randomness : option Hash;
  request_count : Z;
}.
Arguments mkResult {_} _ _.
Arguments randomness {_} _.
Arguments request_count {_} _.

Definition new_result {Hash} : RandomnessResult Hash := mkResult None 1.

Definition increment_request_count {Hash} (r : RandomnessResult Hash) : RandomnessResult Hash :=
  mkResult (randomness r) (saturating_add 64 (request_count r) 1).

(** [None]: the result should be removed. *)
Definition decrement_request_count {Hash} (r : RandomnessResult Hash) :
    option (RandomnessResult Hash) :=
  match checked_sub (request_count r) 1 with
  | Some new_request_count =>
      if new_request_count =? 0 then None else Some (mkResult (randomness r) new_request_count)
  | None => None
  end.

(** [Request]; balances are [Z], the salt is its 32 bytes. *)
Record Request (H160 Info : Type) := mkRequest {
  refund_address : H160;
  contract_address : H160;
  fee : Z;
  gas_limit : Z;
  num_words : Z;
  salt : list Z;
  info : Info;
}.
Arguments mkRequest {_ _} _ _ _ _ _ _ _.
Arguments refund_address {_ _} _.
Arguments contract_address {_ _} _.
Arguments fee {_ _} _.
Arguments gas_limit {_ _} _.
Arguments num_words {_ _} _.
Arguments salt {_ _} _.
Arguments info {_ _} _.

(** [RequestState] *)
Record RequestState (H160 : Type) := mkRequestState {
  request : Request H160 RequestInfo;
  deposit : Z;
}.
Arguments mkRequestState {_} _ _.
Arguments request {_} _.
Arguments deposit {_} _.

(** [FulfillArgs] *)
Record FulfillArgs (H160 : Type) := mkFulfillArgs {
  f_request : Request H160 RequestInfo;
  f_deposit : Z;
  f_randomness : list (list Z);
}.
Arguments mkFulfillArgs {_} _ _ _.
Arguments f_request {_} _.
Arguments f_deposit {_} _.
Arguments f_randomness {_} _.

Inductive Error :=
  | RequestCounterOverflowed
  | RequestFeeOverflowed
  | MustRequestAtLeastOneWord
  | CannotRequestMoreWordsThanMax
  | CannotRequestRandomnessAfterMaxDelay
  | CannotRequestRandomnessBeforeMinDelay
  | RequestDNE
  | RequestCannotYetBeFulfilled
  | OnlyRequesterCanIncreaseFee
  | RequestHasNotExpired
  | RandomnessResultDNE
  | RandomnessResultNotFilled.

Inductive Event (H160 : Type) :=
  | RandomnessRequestedBabeEpoch (id : Z) (refund_address contract_address : H160)
      (fee gas_limit num_words : Z) (salt : list Z) (earliest_epoch : Z)
  | RandomnessRequestedLocal (id : Z) (refund_address contract_address : H160)
      (fee gas_limit num_words : Z) (salt : list Z) (earliest_block : Z)
  | RequestFulfilled (id : Z)
  | RequestFeeIncreased (id new_fee : Z)
  | RequestExpirationExecuted (id : Z).
Arguments RandomnessRequestedBabeEpoch {_} _ _ _ _ _ _ _ _.
Arguments RandomnessRequestedLocal {_} _ _ _ _ _ _ _ _.
Arguments RequestFulfilled {_} _.
Arguments RequestFeeIncreased {_} _ _.
Arguments RequestExpirationExecuted {_} _.

(** [BlockNumberFor] is a [u32], balances have [BALANCE_BITS] bits. *)
Definition BLOCK_BITS : Z := 32.
Definition BALANCE_BITS : Z := 128.

(** The pallet's configuration.  [account_id] is the pallet's account. *)
Record Config (Origin AccountId H160 Hash : Type) := mkConfig {
  AddressMapping : H160 -> AccountId;
  account_id : AccountId;
  Deposit : Z;
  MaxRandomWords : Z;
  MinBlockDelay : Z;
  MaxBlockDelay : Z;
  BlockExpirationDelay : Z;
  EpochExpirationDelay : Z;
  ensure_none : Origin -> bool;
  hash_bytes : Hash -> list Z;
  default_hash : Hash;
  hash : list Z -> Hash;
  blake2_256 : list Z -> list Z;
}.
Arguments AddressMapping {_ _ _ _} _ _.
Arguments account_id {_ _ _ _} _.
Arguments Deposit {_ _ _ _} _.
Arguments MaxRandomWords {_ _ _ _} _.
Arguments MinBlockDelay {_ _ _ _} _.
Arguments MaxBlockDelay {_ _ _ _} _.
Arguments BlockExpirationDelay {_ _ _ _} _.
Arguments EpochExpirationDelay {_ _ _ _} _.
Arguments ensure_none {_ _ _ _} _ _.
Arguments hash_bytes {_ _ _ _} _ _.
Arguments default_hash {_ _ _ _} _.
Arguments hash {_ _ _ _} _ _.
Arguments blake2_256 {_ _ _ _} _ _.

Section Definitions.
Context {Origin AccountId H160 Hash L X : Type}.
Context `{EqDecision AccountId} `{EqDecision H160} `{Currency AccountId L X}.

(** The pallet's storage, the block number, the ledger, the events. *)
Record State := mkState {
  Requests : gmap Z (RequestState H160);
  RequestCount : Z;
  LocalVrfOutput : option Hash;
  RelayEpoch : Z;
  InherentIncluded : bool;
  NotFirstBlock : bool;
  RandomnessResults : gmap RequestType (RandomnessResult Hash);
  PreviousLocalVrfOutput : Hash;
  block_number : Z;
  currency : L;
  events : list (Event H160);
}.

Abbreviation Mo := (M State (dispatch_error Error X)).

Definition update_requests f (s : State) : State :=
  mkState (f (Requests s)) (RequestCount s) (LocalVrfOutput s) (RelayEpoch s) (InherentIncluded s)
    (NotFirstBlock s) (RandomnessResults s) (PreviousLocalVrfOutput s) (block_number s)
    (currency s) (events s).
Definition put_request_count n (s : State) : State :=
  mkState (Requests s) n (LocalVrfOutput s) (RelayEpoch s) (InherentIncluded s)
    (NotFirstBlock s) (RandomnessResults s) (PreviousLocalVrfOutput s) (block_number s)
    (currency s) (events s).
Definition update_results f (s : State) : State :=
  mkState (Requests s) (RequestCount s) (LocalVrfOutput s) (RelayEpoch s) (InherentIncluded s)
    (NotFirstBlock s) (f (RandomnessResults s)) (PreviousLocalVrfOutput s) (block_number s)
    (currency s) (events s).
Definition put_currency c (s : State) : State :=
  mkState (Requests s) (RequestCount s) (LocalVrfOutput s) (RelayEpoch s) (InherentIncluded s)
    (NotFirstBlock s) (RandomnessResults s) (PreviousLocalVrfOutput s) (block_number s)
    c (events s).
Definition deposit_event e (s : State) : State :=
  mkState (Requests s) (RequestCount s) (LocalVrfOutput s) (RelayEpoch s) (InherentIncluded s)
    (NotFirstBlock s) (RandomnessResults s) (PreviousLocalVrfOutput s) (block_number s)
    (currency s) (events s ++ [e]).

Context (T : Config Origin AccountId H160 Hash).

(** ** [types.rs] *)

(** [T::Currency::transfer(.., KeepAlive)?] *)
Definition transfer_keep_alive (from to : AccountId) (amount : Z) : Mo unit :=
  c ← gets currency;
  c' ← try_ (match transfer c from to amount with inl e => inl (Foreign e) | inr c' => inr c' end);
  modify (put_currency c').

(** [From<RequestType> for RequestInfo]: adds the expiration. *)
Definition info_of_type (t : RequestType) (s : State) : RequestInfo :=
  match t with
  | BabeEpoch epoch =>
      InfoBabeEpoch epoch (saturating_add 64 (RelayEpoch s) (EpochExpirationDelay T))
  | Local block =>
      InfoLocal block (saturating_add BLOCK_BITS (block_number s) (BlockExpirationDelay T))
  end.

(** [From<Request<_, RequestType>> for Request<_, RequestInfo>] *)
Definition request_with_info (r : Request H160 RequestType) (s : State) : Request H160 RequestInfo :=
  mkRequest (refund_address r) (contract_address r) (fee r) (gas_limit r) (num_words r) (salt r)
    (info_of_type (info r) s).

Definition is_expired (r : Request H160 RequestInfo) (s : State) : bool :=
  match info r with
  | InfoBabeEpoch _ expires => expires <=? RelayEpoch s
  | InfoLocal _ expires => expires <=? block_number s
  end.

Definition can_be_fulfilled (r : Request H160 RequestInfo) (s : State) : bool :=
  match info r with
  | InfoBabeEpoch epoch_due _ => epoch_due <=? RelayEpoch s
  | InfoLocal block_due _ => block_due <=? block_number s
  end.

Definition validate (r : Request H160 RequestInfo) : Mo unit :=
  ensure (num_words r <=? MaxRandomWords T) (Module CannotRequestMoreWordsThanMax) ;;
  ensure (1 <=? num_words r) (Module MustRequestAtLeastOneWord) ;;
  match info r with
  | InfoLocal block_due _ =>
      current_block ← gets block_number;
      latest ← ok_or (checked_add BLOCK_BITS current_block (MaxBlockDelay T))
        (Module CannotRequestRandomnessAfterMaxDelay);
      ensure (block_due <=? latest) (Module CannotRequestRandomnessAfterMaxDelay) ;;
      earliest ← ok_or (checked_add BLOCK_BITS current_block (MinBlockDelay T))
        (Module CannotRequestRandomnessBeforeMinDelay);
      ensure (earliest <=? block_due) (Module CannotRequestRandomnessBeforeMinDelay)
  | InfoBabeEpoch _ _ => mret tt
  end.

(** The closure [compute_random_words]: [num_words] rounds from [index]. *)
Fixpoint compute_random_words (rounds : nat) (index : Z) (random : Hash) (sa : list Z) :
    list (list Z) :=
  match rounds with
  | O => []
  | S rounds' =>
      blake2_256 T (hash_bytes T random ++ sa ++ [index])
        :: compute_random_words rounds' (index + 1) random sa
  end.

Definition get_random_words (r : Request H160 RequestInfo) : Mo (list (list Z)) :=
  due ← gets (can_be_fulfilled r);
  ensure due (Module RequestCannotYetBeFulfilled) ;;
  results ← gets RandomnessResults;
  result ← ok_or (results !! type_of_info (info r)) (Module RandomnessResultDNE);
  random ← ok_or (randomness result) (Module RandomnessResultNotFilled);
  mret (compute_random_words (Z.to_nat (num_words r)) 0 random (salt r)).

Definition emit_randomness_requested_event (r : Request H160 RequestInfo) (id : Z) : Mo unit :=
  modify (deposit_event (match info r with
    | InfoBabeEpoch index _ => RandomnessRequestedBabeEpoch id (refund_address r)
        (contract_address r) (fee r) (gas_limit r) (num_words r) (salt r) index
    | InfoLocal block _ => RandomnessRequestedLocal id (refund_address r)
        (contract_address r) (fee r) (gas_limit r) (num_words r) (salt r) block
    end)).

(** [try_transfer_or_log_error]: a failed transfer is only logged. *)
Definition try_transfer (from to : AccountId) (amount : Z) : Mo unit :=
  modify (fun s => match transfer (currency s) from to amount with
    | inl _ => s
    | inr c' => put_currency c' s
    end).

Definition finish_fulfill (r : Request H160 RequestInfo) (dep : Z) (caller : H160)
    (cost_of_execution : Z) : Mo unit :=
  let refundable_amount := saturating_add BALANCE_BITS dep (fee r) in
  match checked_sub refundable_amount cost_of_execution with
  | Some excess =>
      if bool_decide (refund_address r = caller) then
        try_transfer (account_id T) (AddressMapping T (refund_address r))
          (saturating_add BALANCE_BITS excess cost_of_execution)
      else
        try_transfer (account_id T) (AddressMapping T (refund_address r)) excess ;;
        try_transfer (account_id T) (AddressMapping T caller) cost_of_execution
  | None => try_transfer (account_id T) (AddressMapping T caller) cost_of_execution
  end.

(** [RequestState::new] *)
Definition new_request_state (r : Request H160 RequestInfo) : Mo (RequestState H160) :=
  validate r ;; mret (mkRequestState r (Deposit T)).

(** [RequestState::prepare_fulfill] *)
Definition prepare_fulfill (rs : RequestState H160) : Mo (FulfillArgs H160) :=
  words ← get_random_words (request rs);
  mret (mkFulfillArgs (request rs) (deposit rs) words).

Definition set_fee (r : Request H160 RequestInfo) (f : Z) : Request H160 RequestInfo :=
  mkRequest (refund_address r) (contract_address r) f (gas_limit r) (num_words r) (salt r) (info r).

(** [RequestState::increase_fee]: the updated request state and the new fee. *)
Definition increase_fee (rs : RequestState H160) (caller : H160) (fee_increase : Z) :
    Mo (RequestState H160 * Z) :=
  ensure (bool_decide (caller = contract_address (request rs))) (Module OnlyRequesterCanIncreaseFee) ;;
  new_fee ← ok_or (checked_add BALANCE_BITS (fee (request rs)) fee_increase)
    (Module RequestFeeOverflowed);
  transfer_keep_alive (AddressMapping T caller) (account_id T) fee_increase ;;
  mret (mkRequestState (set_fee (request rs) new_fee) (deposit rs), new_fee).

(** [RequestState::execute_expiration] *)
Definition execute_expiration (rs : RequestState H160) (caller : AccountId) : Mo unit :=
  expired ← gets (is_expired (request rs));
  ensure expired (Module RequestHasNotExpired) ;;
  let contract := AddressMapping T (contract_address (request rs)) in
  if bool_decide (caller = contract) then
    transfer_keep_alive (account_id T) contract
      (saturating_add BALANCE_BITS (deposit rs) (fee (request rs)))
  else
    transfer_keep_alive (account_id T) contract (deposit rs) ;;
    transfer_keep_alive (account_id T) caller (fee (request rs)).

(** ** [lib.rs] *)

(** [total_locked] *)
Definition total_locked (s : State) : Z := free_balance (currency s) (account_id T).

(** [request_randomness] *)
Definition request_randomness (req : Request H160 RequestType) : Mo Z :=
  with_info ← gets (request_with_info req);
  rs ← new_request_state with_info;
  let total_to_reserve := saturating_add BALANCE_BITS (Deposit T) (fee (request rs)) in
  let contract := AddressMapping T (contract_address (request rs)) in
  request_id ← gets RequestCount;
  next_id ← ok_or (checked_add 64 request_id 1) (Module RequestCounterOverflowed);
  transfer_keep_alive contract (account_id T) total_to_reserve ;;
  let info_key := type_of_info (info (request rs)) in
  results ← gets RandomnessResults;
  modify (update_results <[info_key :=
    match results !! info_key with
    | Some existing => increment_request_count existing
    | None => new_result
    end]>) ;;
  modify (put_request_count next_id) ;;
  emit_randomness_requested_event (request rs) request_id ;;
  modify (update_requests <[request_id := rs]>) ;;
  mret request_id.

(** [prepare_fulfillment] *)
Definition prepare_fulfillment (id : Z) : Mo (FulfillArgs H160) :=
  m ← gets Requests;
  rs ← ok_or (m !! id) (Module RequestDNE);
  prepare_fulfill rs.

(** The bookkeeping shared by fulfilment and expiration: one request less for the
    key, the result removed with the last one. *)
Definition release_result (info_key : RequestType) : Mo unit :=
  modify (update_results (fun results =>
    match results !! info_key with
    | Some result =>
        match decrement_request_count result with
        | Some new_result => <[info_key := new_result]> (delete info_key results)
        | None => delete info_key results
        end
    | None => results
    end)).

(** [finish_fulfillment] *)
Definition finish_fulfillment (id : Z) (r : Request H160 RequestInfo) (dep : Z) (caller : H160)
    (cost_of_execution : Z) : Mo unit :=
  finish_fulfill r dep caller cost_of_execution ;;
  release_result (type_of_info (info r)) ;;
  modify (update_requests (delete id)) ;;
  modify (deposit_event (RequestFulfilled id)).

(** [increase_request_fee] *)
Definition increase_request_fee (caller : H160) (id fee_increase : Z) : Mo unit :=
  m ← gets Requests;
  rs ← ok_or (m !! id) (Module RequestDNE);
  '(rs', new_fee) ← increase_fee rs caller fee_increase;
  modify (update_requests <[id := rs']>) ;;
  modify (deposit_event (RequestFeeIncreased id new_fee)).

(** [execute_request_expiration] *)
Definition execute_request_expiration (caller : H160) (id : Z) : Mo unit :=
  m ← gets Requests;
  rs ← ok_or (m !! id) (Module RequestDNE);
  execute_expiration rs (AddressMapping T caller) ;;
  release_result (type_of_info (info (request rs))) ;;
  modify (update_requests (delete id)) ;;
  modify (deposit_event (RequestExpirationExecuted id)).
(** The storage before the first request. *)
Definition genesis (h : Hash) (c : L) : State :=
  mkState ∅ 0 None 0 false false ∅ h 0 c [].
End Definitions.

Arguments State H160 Hash L : clear implicits.

(** ** What the storage promises *)
Section Spec.
Context {Origin AccountId H160 Hash L X : Type}.
Context `{EqDecision AccountId} `{EqDecision H160} `{!Currency AccountId L X}.
Context (T : Config Origin AccountId H160 Hash).

(** The key of the raw randomness a request waits for, and its funds. *)
Definition key_of (rs : RequestState H160) : RequestType := type_of_info (info (request rs)).

Definition locked (rs : RequestState H160) : Z := deposit rs + fee (request rs).

(** How many outstanding requests wait for [k]. *)
Definition outstanding (k : RequestType) (s : State H160 Hash L) : Z :=
  map_sum (fun _ rs => if decide (key_of rs = k) then 1 else 0) (Requests s).

(** What a cost is beyond the deposit and fee of its request. *)
Definition excess (rs : RequestState H160) (cost : Z) : Z :=
  Z.max 0 (cost - saturating_add BALANCE_BITS (deposit rs) (fee (request rs))).

(** Request ids are fresh, results count their requests, and the pallet's account
    holds the deposits and fees of all outstanding requests but for what was [lost]. *)
Record inv (lost : Z) (s : State H160 Hash L) : Prop := mkInv {
  inv_ids id rs : Requests s !! id = Some rs -> 0 <= id < RequestCount s;
  inv_counter : 0 <= RequestCount s <= umax 64;
  inv_amounts id rs : Requests s !! id = Some rs -> 0 <= deposit rs /\ 0 <= fee (request rs);
  inv_results k :
    match RandomnessResults s !! k with
    | Some r => request_count r = outstanding k s /\ 0 < request_count r
    | None => outstanding k s = 0
    end;
  inv_solvent :
    map_sum (fun _ => locked) (Requests s) <= free_balance (X := X) (currency s) (account_id T) + lost;
}.
End Spec.

(** ** Lemmas *)
Section Lemmas.
Context {Origin AccountId H160 Hash L X : Type}.
Context `{!EqDecision AccountId} `{!EqDecision H160}.
Context `{!Currency AccountId L X} `{!CurrencyLaws AccountId L X}.
Context (T : Config Origin AccountId H160 Hash).
Context (deposit_nonneg : 0 <= Deposit T).
(** Nobody controls the pallet's account. *)
Context (account_id_apart : forall h, AddressMapping T h <> account_id T).

Abbreviation State := (State H160 Hash L).
Implicit Types (s : State) (rs : RequestState H160).

Lemma keys_below (A : Type) (m : gmap Z A) (n : Z) :
  0 <= n -> (forall i a, m !! i = Some a -> 0 <= i < n) -> Z.of_nat (size m) <= n.
Proof.
  intros Hn Hm. rewrite <- size_dom.
  assert (Hs : dom m ⊆ list_to_set (C := gset Z) (seqZ 0 n)).
  { intros i [a Ha]%elem_of_dom. apply elem_of_list_to_set, elem_of_seqZ. apply Hm in Ha. lia. }
  apply subseteq_size in Hs. rewrite size_list_to_set, length_seqZ in Hs by apply NoDup_seqZ. lia.
Qed.

Lemma outstanding_bound k lost s : inv (X := X) T lost s -> 0 <= outstanding k s <= RequestCount s.
Proof.
  intros [Hids Hc _ _ _]. unfold outstanding. split.
  - apply map_sum_nonneg. intros. case_decide; lia.
  - transitivity (Z.of_nat (size (Requests s))).
    + apply map_sum_le_size. intros. case_decide; lia.
    + apply keys_below; [lia|]. intros i rs Hi. by apply Hids in Hi.
Qed.

(** Payments into and out of the pallet's account. *)
Lemma pay_in c h v c' :
  0 <= v -> transfer c (AddressMapping T h) (account_id T) v = inr c' ->
  free_balance (X := X) c' (account_id T) = free_balance (X := X) c (account_id T) + v.
Proof.
  intros Hv Ht. rewrite (transfer_spec (X := X) _ _ _ _ _ (account_id T) Hv Ht).
  rewrite decide_False by apply account_id_apart. rewrite decide_True by done. lia.
Qed.

Lemma pay_out c h v c' :
  0 <= v -> transfer c (account_id T) (AddressMapping T h) v = inr c' ->
  free_balance (X := X) c' (account_id T) = free_balance (X := X) c (account_id T) - v.
Proof.
  intros Hv Ht. rewrite (transfer_spec (X := X) _ _ _ _ _ (account_id T) Hv Ht).
  rewrite decide_True by done. rewrite decide_False by apply account_id_apart. lia.
Qed.

Lemma try_pay_out h v s :
  0 <= v ->
  exists c, try_transfer (X := X) (account_id T) (AddressMapping T h) v s = Ok tt (put_currency c s) /\
    free_balance (X := X) (currency s) (account_id T) - v <= free_balance (X := X) c (account_id T).
Proof.
  intros Hv. unfold try_transfer, modify.
  destruct (transfer (currency s) (account_id T) (AddressMapping T h) v) as [e|c'] eqn:Ht.
  - exists (currency s). split; [|lia]. by destruct s.
  - exists c'. split; [done|]. rewrite (pay_out _ _ _ _ Hv Ht). lia.
Qed.

Lemma transfer_keep_alive_Ok from to v s u s' :
  transfer_keep_alive (X := X) from to v s = Ok u s' <->
  exists c, transfer (currency s) from to v = inr c /\ s' = put_currency c s.
Proof.
  unfold transfer_keep_alive. unfold_M. destruct u. destruct (transfer _ from to v); naive_solver.
Qed.

Lemma transfer_keep_alive_atomic from to v :
  err_atomic (transfer_keep_alive (Hash := Hash) (X := X) from to v : M State _ _).
Proof. unfold transfer_keep_alive. auto 10 with handler. Qed.

Lemma validate_read_only r : read_only (validate (X := X) T r : M State _ _).
Proof.
  unfold validate. intros s. unfold_M. repeat (case_match; simplify_eq; try done).
Qed.

Lemma validate_Ok r s u s' :
  validate (X := X) T r s = Ok u s' ->
  s' = s /\ 1 <= num_words r <= MaxRandomWords T /\
  match info r with
  | InfoLocal block_due _ =>
      block_number s + MinBlockDelay T <= block_due <= block_number s + MaxBlockDelay T
  | InfoBabeEpoch _ _ => True
  end.
Proof.
  unfold validate. unfold_M. destruct (Z.leb_spec (num_words r) (MaxRandomWords T)); [|done].
  destruct (Z.leb_spec 1 (num_words r)); [|done]. destruct (info r) as [|block_due].
  { intros; by simplify_eq. }
  destruct (checked_add _ _ (MaxBlockDelay T)) as [latest|] eqn:Hlatest; [|done].
  destruct (Z.leb_spec block_due latest); [|done].
  destruct (checked_add _ _ (MinBlockDelay T)) as [earliest|] eqn:Hearliest; [|done].
  destruct (Z.leb_spec earliest block_due); [|done]. intros; simplify_eq.
  apply checked_add_Some in Hlatest as [-> _], Hearliest as [-> _]. split; [done|]. lia.
Qed.

(** A successful request: validated, paid for, counted, and stored under a fresh
    id. *)
Lemma request_randomness_Ok req s id s' :
  request_randomness (X := X) T req s = Ok id s' ->
  let r := request_with_info T req s in
  let rs := mkRequestState r (Deposit T) in
  exists c,
    transfer (currency s) (AddressMapping T (contract_address req)) (account_id T)
      (saturating_add BALANCE_BITS (Deposit T) (fee req)) = inr c /\
    id = RequestCount s /\ RequestCount s + 1 <= umax 64 /\
    1 <= num_words req <= MaxRandomWords T /\
    Requests s' = <[id := rs]> (Requests s) /\ RequestCount s' = RequestCount s + 1 /\
    RandomnessResults s' = <[info req := match RandomnessResults s !! info req with
        | Some existing => increment_request_count existing
        | None => new_result end]> (RandomnessResults s) /\
    currency s' = c /\ block_number s' = block_number s /\ RelayEpoch s' = RelayEpoch s /\
    InherentIncluded s' = InherentIncluded s.
Proof.
  unfold request_randomness. intros (r & s0 & Hr & H1)%bind_Ok. unfold gets in Hr. simplify_eq.
  apply bind_Ok in H1 as (rs & s1 & Hn & H1). unfold new_request_state in Hn.
  apply bind_Ok in Hn as ([] & s2 & Hv & Hn). unfold mret, M_ret in Hn. simplify_eq.
  apply validate_Ok in Hv as (-> & Hw & _).
  unfold mbind at 1, M_bind at 1, gets at 1 in H1.
  unfold mbind at 1, M_bind at 1, ok_or at 1 in H1.
  destruct (checked_add 64 (RequestCount s0) 1) as [next|] eqn:Hnext; [|done].
  apply checked_add_Some in Hnext as [-> Hb].
  apply bind_Ok in H1 as (u & s3 & (c & Ht & ->)%transfer_keep_alive_Ok & H1).
  unfold emit_randomness_requested_event in H1. unfold_M. simplify_eq/=.
  assert (Hk : type_of_info (info_of_type T (info req) s0) = info req) by by destruct (info req).
  exists c. rewrite Hk. split_and!; (done || lia).
Qed.

Lemma increase_request_fee_Ok caller id inc s u s' :
  increase_request_fee (X := X) T caller id inc s = Ok u s' ->
  exists rs c, Requests s !! id = Some rs /\ caller = contract_address (request rs) /\
    transfer (currency s) (AddressMapping T caller) (account_id T) inc = inr c /\
    s' = deposit_event (RequestFeeIncreased id (fee (request rs) + inc))
           (update_requests
             <[id := mkRequestState (set_fee (request rs) (fee (request rs) + inc)) (deposit rs)]>
             (put_currency c s)).
Proof.
  unfold increase_request_fee, increase_fee.
  intros (m & s0 & Hm & H1)%bind_Ok. unfold gets in Hm. simplify_eq.
  apply bind_Ok in H1 as (rs & s1 & Hrs & H1).
  destruct (Requests s0 !! id) as [rs'|] eqn:Hid; unfold ok_or in Hrs; simplify_eq.
  apply bind_Ok in H1 as ([rs' f] & s2 & Hi & H1).
  unfold mbind at 1, M_bind at 1, ensure in Hi.
  destruct (bool_decide (caller = _)) eqn:Hc; [|done]. bool_to_prop.
  unfold mbind at 1, M_bind at 1, ok_or in Hi.
  destruct (checked_add _ _ inc) as [nf|] eqn:Hnf; [|done]. apply checked_add_Some in Hnf as [-> _].
  apply bind_Ok in Hi as (u' & s3 & (c & Ht & ->)%transfer_keep_alive_Ok & Hi).
  unfold_M. simplify_eq/=. by exists rs, c.
Qed.

(** Expiration pays the whole deposit and fee out, in one or two transfers. *)
Lemma execute_expiration_Ok rs caller s u s' :
  0 <= deposit rs -> 0 <= fee (request rs) ->
  execute_expiration (X := X) T rs (AddressMapping T caller) s = Ok u s' ->
  is_expired (request rs) s = true /\
  exists c, s' = put_currency c s /\
    free_balance (X := X) (currency s) (account_id T) - locked rs
      <= free_balance (X := X) c (account_id T).
Proof.
  intros Hd Hf. unfold execute_expiration.
  intros (ex & s0 & He & H1)%bind_Ok. unfold gets in He. simplify_eq.
  unfold mbind at 1, M_bind at 1, ensure in H1.
  destruct (is_expired (request rs) s0); [|done]. split; [done|].
  assert (Hsat : 0 <= saturating_add BALANCE_BITS (deposit rs) (fee (request rs)) <= locked rs).
  { unfold saturating_add, locked, umax, BALANCE_BITS. lia. }
  destruct (bool_decide _).
  - apply transfer_keep_alive_Ok in H1 as (c & Ht & ->). exists c. split; [done|].
    rewrite (pay_out _ _ _ _ (proj1 Hsat) Ht). lia.
  - apply bind_Ok in H1 as (u' & s1 & (c & Ht & ->)%transfer_keep_alive_Ok & H1).
    apply transfer_keep_alive_Ok in H1 as (c' & Ht' & ->). exists c'. split; [done|].
    rewrite (pay_out _ _ _ _ Hf Ht'). simpl. rewrite (pay_out _ _ _ _ Hd Ht). unfold locked. lia.
Qed.

(** Fulfilment pays at most what the request holds and the excess of the cost. *)
Lemma finish_fulfill_Ok rs caller cost s :
  0 <= deposit rs -> 0 <= fee (request rs) -> 0 <= cost ->
  exists c, finish_fulfill (X := X) T (request rs) (deposit rs) caller cost s
      = Ok tt (put_currency c s) /\
    free_balance (X := X) (currency s) (account_id T) - locked rs - excess rs cost
      <= free_balance (X := X) c (account_id T).
Proof.
  intros Hd Hf Hcost. unfold finish_fulfill, excess.
  set (refund := saturating_add BALANCE_BITS (deposit rs) (fee (request rs))) in *.
  assert (Href : refund <= locked rs) by (unfold refund, saturating_add, locked; lia).
  assert (Hmax : refund <= umax BALANCE_BITS) by apply saturating_add_bound.
  unfold checked_sub. destruct (Z.leb_spec cost refund) as [Hle|Hgt].
  - case_bool_decide as Heq.
    + rewrite saturating_add_exact by lia.
      destruct (try_pay_out (refund_address (request rs)) (refund - cost + cost) s) as (c & Hc & Hp);
        [lia|]. exists c. split; [done|]. lia.
    + destruct (try_pay_out (refund_address (request rs)) (refund - cost) s) as (c & Hc & Hp); [lia|].
      unfold mbind, M_bind. rewrite Hc.
      destruct (try_pay_out caller cost (put_currency c s)) as (c' & Hc' & Hp'); [lia|].
      exists c'. rewrite Hc'. split; [done|]. simpl in Hp'. lia.
  - destruct (try_pay_out caller cost s) as (c & Hc & Hp); [lia|]. exists c. split; [done|]. lia.
Qed.

(** Releasing one of [n] requests of a key. *)
Lemma release_result_spec k s :
  exists s', release_result (X := X) k s = Ok tt s' /\
    s' = update_results (fun _ => RandomnessResults s') s /\
    forall k', RandomnessResults s' !! k' =
      if decide (k' = k) then RandomnessResults s !! k ≫= decrement_request_count
      else RandomnessResults s !! k'.
Proof.
  unfold release_result, modify. eexists. split; [done|]. split; [done|]. intros k'. simpl.
  destruct (RandomnessResults s !! k) as [r|] eqn:Hk; simpl.
  - destruct (decrement_request_count r) as [r'|]; case_decide; subst.
    + by rewrite lookup_insert_eq.
    + by rewrite lookup_insert_ne, lookup_delete_ne.
    + by rewrite lookup_delete_eq.
    + by rewrite lookup_delete_ne.
  - by case_decide; subst.
Qed.

(** ** The four operations keep the invariant *)

Lemma outstanding_insert k id rs s s' :
  Requests s' = <[id := rs]> (Requests s) -> Requests s !! id = None ->
  outstanding k s' = outstanding k s + (if decide (key_of rs = k) then 1 else 0).
Proof. intros Hs Hid. unfold outstanding. rewrite Hs, map_sum_insert by done. lia. Qed.

Lemma outstanding_delete k id rs s s' :
  Requests s' = delete id (Requests s) -> Requests s !! id = Some rs ->
  outstanding k s' = outstanding k s - (if decide (key_of rs = k) then 1 else 0).
Proof. intros Hs Hid. unfold outstanding. by rewrite Hs, (map_sum_delete _ _ _ rs). Qed.

Lemma request_inv lost req s id s' :
  inv (X := X) T lost s -> 0 <= fee req -> Deposit T + fee req <= umax BALANCE_BITS ->
  request_randomness (X := X) T req s = Ok id s' -> inv (X := X) T lost s'.
Proof.
  intros Hinv Hfee Hsum Hr. destruct (request_randomness_Ok _ _ _ _ Hr)
    as (c & Ht & -> & Hc & _ & HR & HC & HRes & Hcur & _). clear Hr.
  rewrite saturating_add_exact in Ht by done.
  destruct (Hinv) as [Hids Hcnt Ham Hres Hsol].
  set (rs := mkRequestState (request_with_info T req s) (Deposit T)) in *.
  assert (Hkey : key_of rs = info req) by (unfold key_of; simpl; by destruct (info req)).
  assert (Hnone : Requests s !! RequestCount s = None).
  { destruct (Requests s !! RequestCount s) eqn:Hx; [|done]. apply Hids in Hx. lia. }
  split.
  - intros i r. rewrite HR, HC. intros [[<- <-]|[_ Hi%Hids]]%lookup_insert_Some; lia.
  - lia.
  - intros i r. rewrite HR. intros [[<- <-]|[_ Hi%Ham]]%lookup_insert_Some; [|done]. simpl. lia.
  - intros k. rewrite (outstanding_insert k _ _ _ _ HR Hnone), HRes, Hkey.
    pose proof (outstanding_bound k lost s Hinv) as Hb. specialize (Hres k).
    destruct (decide (info req = k)) as [<-|Hne].
    + rewrite lookup_insert_eq. destruct (RandomnessResults s !! info req) as [r|]; simpl; [|lia].
      rewrite saturating_add_exact by lia. lia.
    + rewrite lookup_insert_ne by done. by rewrite Z.add_0_r.
  - rewrite HR, map_sum_insert, Hcur by done.
    rewrite (pay_in _ _ _ _ (Z.add_nonneg_nonneg _ _ deposit_nonneg Hfee) Ht).
    unfold locked at 1. simpl. lia.
Qed.

Lemma increase_inv lost caller id inc s u s' :
  inv (X := X) T lost s -> 0 <= inc -> increase_request_fee (X := X) T caller id inc s = Ok u s' ->
  inv (X := X) T lost s'.
Proof.
  intros [Hids Hcnt Ham Hres Hsol] Hinc Hr.
  destruct (increase_request_fee_Ok _ _ _ _ _ _ Hr) as (rs & c & Hid & _ & Ht & ->). clear Hr.
  split; simpl.
  - intros i r [[<- <-]|[_ Hi]]%lookup_insert_Some; by eapply Hids.
  - done.
  - intros i r [[<- <-]|[_ Hi]]%lookup_insert_Some; [|by eapply Ham]. simpl.
    destruct (Ham _ _ Hid). lia.
  - intros k. specialize (Hres k). unfold outstanding in *. simpl.
    rewrite map_sum_insert_any, Hid. simpl.
    change (key_of (mkRequestState (set_fee _ _) _)) with (key_of rs).
    destruct (RandomnessResults s !! k), (decide (key_of rs = k)); lia.
  - rewrite map_sum_insert_any, Hid, (pay_in _ _ _ _ Hinc Ht). simpl. unfold locked at 1 3. simpl. lia.
Qed.

(** Fulfilment and expiration: the request goes, its result is released, and its own
    funds and [more] leave the account. *)
Lemma settle_inv lost more id rs s s1 s' :
  inv (X := X) T lost s -> Requests s !! id = Some rs ->
  Requests s1 = Requests s -> RequestCount s1 = RequestCount s ->
  RandomnessResults s1 = RandomnessResults s ->
  free_balance (X := X) (currency s) (account_id T) - locked rs - more
    <= free_balance (X := X) (currency s1) (account_id T) ->
  (release_result (X := X) (key_of rs) ;; modify (update_requests (delete id))) s1 = Ok tt s' ->
  inv (X := X) T (lost + more) s'.
Proof.
  intros [Hids Hcnt Ham Hres Hsol] Hid HR HC HRes Hpay.
  destruct (release_result_spec (key_of rs) s1) as (s2 & Hrel & Hs2 & Hlook).
  unfold mbind, M_bind. rewrite Hrel. unfold modify. intros Hs. injection Hs as <-.
  assert (HR2 : Requests s2 = Requests s) by (rewrite Hs2; simpl; done).
  assert (HC2 : RequestCount s2 = RequestCount s) by (rewrite Hs2; simpl; done).
  assert (Hcur2 : currency s2 = currency s1) by (rewrite Hs2; simpl; done).
  split; simpl; rewrite ?HR2, ?HC2, ?Hcur2.
  - intros i r [_ Hi]%lookup_delete_Some. by eapply Hids.
  - done.
  - intros i r [_ Hi]%lookup_delete_Some. by eapply Ham.
  - intros k. rewrite Hlook, HRes, (outstanding_delete k id rs s _) by (simpl; by rewrite ?HR2).
    pose proof (Hres k) as Hk. case_decide as Hkk; [subst k|rewrite decide_False by done].
    + rewrite decide_True by done. unfold decrement_request_count, checked_sub.
      destruct (RandomnessResults s !! key_of rs) as [r|] eqn:Hr; simpl.
      * rewrite (proj2 (Z.leb_le _ _)) by lia.
        destruct (Z.eqb_spec (request_count r - 1) 0); simpl; lia.
      * pose proof (map_sum_lookup_le (fun _ rs' => if decide (key_of rs' = key_of rs) then 1 else 0)
          (Requests s) id rs) as Hle. unfold outstanding in Hk. cbn beta in Hle.
        rewrite decide_True in Hle by done.
        assert (1 <= 0); [|lia]. rewrite <- Hk. apply Hle; [|done]. intros. case_decide; lia.
    + destruct (RandomnessResults s !! k); lia.
  - rewrite (map_sum_delete _ _ _ rs) by done. lia.
Qed.
(** The bookkeeping of a fulfilment, after the payment. *)
Lemma finish_fulfillment_run id rs caller cost c s :
  finish_fulfill (X := X) T (request rs) (deposit rs) caller cost s = Ok tt (put_currency c s) ->
  exists s1, (release_result (X := X) (key_of rs) ;; modify (update_requests (delete id)))
      (put_currency c s) = Ok tt s1 /\
    finish_fulfillment (X := X) T id (request rs) (deposit rs) caller cost s
      = Ok tt (deposit_event (RequestFulfilled id) s1).
Proof.
  intros Hf.
  destruct (release_result_spec (key_of rs) (put_currency c s)) as (s2 & Hr & _).
  exists (update_requests (delete id) s2). unfold finish_fulfillment. fold (key_of rs).
  unfold mbind, M_bind. by rewrite Hf, Hr.
Qed.

(** The cost of a fulfilment: fulfilling an outstanding request always removes
    it and pays at most its own deposit and fee as long as these cover the cost; but
    a higher cost is paid to the caller in full, out of what the pallet holds for
    the other requests. *)
Theorem fulfilment_cost s id rs caller cost :
  let refund := saturating_add BALANCE_BITS (deposit rs) (fee (request rs)) in
  Requests s !! id = Some rs -> 0 <= deposit rs -> 0 <= fee (request rs) -> 0 <= cost ->
  exists s', finish_fulfillment (X := X) T id (request rs) (deposit rs) caller cost s = Ok tt s' /\
    Requests s' = delete id (Requests s) /\
    (cost <= refund -> total_locked (X := X) T s - locked rs <= total_locked (X := X) T s') /\
    (refund < cost ->
     match transfer (currency s) (account_id T) (AddressMapping T caller) cost with
     | inr c => currency s' = c /\
         total_locked (X := X) T s' = total_locked (X := X) T s - cost
     | inl _ => currency s' = currency s
     end).
Proof.
  intros refund Hid Hd Hf Hcost. destruct (Z.le_gt_cases cost refund) as [Hle|Hgt].
  - destruct (finish_fulfill_Ok rs caller cost s Hd Hf Hcost) as (c & Hff & Hpay).
    assert (Hex : excess rs cost = 0) by (unfold excess; fold refund; lia). rewrite Hex in Hpay.
    destruct (finish_fulfillment_run id rs caller cost c s Hff) as (s1 & Hrel & Hr).
    eexists. split; [exact Hr|].
    destruct (release_result_spec (key_of rs) (put_currency c s)) as (s2 & Hr2 & Hs2 & _).
    unfold mbind, M_bind, modify in Hrel. rewrite Hr2 in Hrel. injection Hrel as <-.
    rewrite Hs2. simpl. split; [done|]. unfold total_locked. simpl. split; lia.
  - assert (Hff : exists c, finish_fulfill (X := X) T (request rs) (deposit rs) caller cost s
        = Ok tt (put_currency c s) /\
        match transfer (currency s) (account_id T) (AddressMapping T caller) cost with
        | inr c' => c = c' | inl _ => c = currency s end).
    { unfold finish_fulfill, checked_sub. fold refund. rewrite (proj2 (Z.leb_gt cost refund)) by lia.
      unfold try_transfer, modify. destruct (transfer _ _ _ cost) as [e|c']; [|by exists c'].
      exists (currency s). by destruct s. }
    destruct Hff as (c & Hff & Hc).
    destruct (finish_fulfillment_run id rs caller cost c s Hff) as (s1 & Hrel & Hr).
    eexists. split; [exact Hr|].
    destruct (release_result_spec (key_of rs) (put_currency c s)) as (s2 & Hr2 & Hs2 & _).
    unfold mbind, M_bind, modify in Hrel. rewrite Hr2 in Hrel. injection Hrel as <-.
    rewrite Hs2. simpl. split; [done|]. split; [lia|]. intros _.
    destruct (transfer _ _ _ cost) as [e|c'] eqn:Ht; [done|]. subst c'. split; [done|].
    unfold total_locked. simpl. by rewrite (pay_out _ _ _ _ Hcost Ht).
Qed.

(** Expiration: it happens exactly for an outstanding request that has
    expired and whose payouts succeed; it removes the request, returns the deposit
    to the contract and the fee to the caller and moves no other account's balance;
    the errors name the missing request, the one that has not expired and the
    failed payout. *)
Theorem expiration_settles s caller id :
  (forall rs, Requests s !! id = Some rs -> 0 <= deposit rs /\ 0 <= fee (request rs) /\
     deposit rs + fee (request rs) <= umax BALANCE_BITS) ->
  match execute_request_expiration (X := X) T caller id s with
  | Ok _ s' => exists rs, Requests s !! id = Some rs /\ is_expired (request rs) s = true /\
      Requests s' = delete id (Requests s) /\
      forall x, x <> account_id T ->
        free_balance (X := X) (currency s') x = free_balance (X := X) (currency s) x
          + (if decide (AddressMapping T (contract_address (request rs)) = x) then deposit rs else 0)
          + (if decide (AddressMapping T caller = x) then fee (request rs) else 0)
  | Err e _ =>
      match Requests s !! id with
      | None => e = Module RequestDNE
      | Some rs => if is_expired (request rs) s then exists x, e = Foreign x
                   else e = Module RequestHasNotExpired
      end
  | Panic => False
  end.
Proof.
  intros Hrs. unfold execute_request_expiration, execute_expiration, transfer_keep_alive.
  unfold_M. destruct (Requests s !! id) as [rs|] eqn:Hid; [|done].
  destruct (Hrs rs eq_refl) as (Hd & Hf & Hsum).
  destruct (is_expired (request rs) s) eqn:Hexp; [|done].
  set (contract := AddressMapping T (contract_address (request rs))).
  case_bool_decide as Hcc.
  - destruct (transfer _ _ contract _) as [e|c] eqn:Ht; simpl; [by eauto|].
    exists rs. split_and!; try done. intros x Hx. rewrite saturating_add_exact in Ht by lia.
    rewrite (transfer_spec (X := X) _ _ _ _ _ x (Z.add_nonneg_nonneg _ _ Hd Hf) Ht), Hcc.
    rewrite (decide_False (P := account_id T = x)) by done. unfold contract. case_decide; lia.
  - destruct (transfer _ _ contract _) as [e|c] eqn:Ht; simpl; [by eauto|].
    destruct (transfer c _ _ _) as [e|c'] eqn:Ht'; simpl; [by eauto|].
    exists rs. split_and!; try done. intros x Hx.
    rewrite (transfer_spec (X := X) _ _ _ _ _ x Hf Ht'), (transfer_spec (X := X) _ _ _ _ _ x Hd Ht).
    rewrite !(decide_False (P := account_id T = x)) by done. fold contract. lia.
Qed.

End Lemmas.

(** ** A concrete runtime *)
Definition sample_config : Config bool Z Z Z := {|
  AddressMapping := Z.abs;
  account_id := -1;
  Deposit := 10;
  MaxRandomWords := 100;
  MinBlockDelay := 2;
  MaxBlockDelay := 2000;
  BlockExpirationDelay := 10000;
  EpochExpirationDelay := 10000;
  ensure_none o := o;
  hash_bytes v := [v];
  default_hash := 0;
  hash l := from_le_bytes l;
  blake2_256 l := l;
|}.

Lemma sample_deposit : 0 <= Deposit sample_config.
Proof. done. Qed.

Lemma sample_apart h : AddressMapping sample_config h <> account_id sample_config.
Proof. simpl. lia. Qed.

Definition sample_ledger : Ledger := mkLedger (<[5 := 1000]> (<[-1 := 1]> ∅)) ∅.

Definition sample_genesis : State Z Z Ledger := genesis 0 sample_ledger.

(** A request for block 3. *)
Definition sample_request : Request Z RequestType := mkRequest 5 5 40 0 2 [9] (Local 3).

Definition sample_requested : State Z Z Ledger :=
  final_state (transactional (request_randomness sample_config sample_request)) sample_genesis.

Lemma fulfilment_cost_witness :
  exists s', finish_fulfillment (X := unit) sample_config 0
      (request_with_info sample_config sample_request sample_genesis) 10 6 30 sample_requested = Ok tt s' /\
    total_locked sample_config sample_requested - 50 <= total_locked sample_config s'.
Proof.
  destruct (fulfilment_cost sample_config sample_apart sample_requested 0
    (mkRequestState (request_with_info sample_config sample_request sample_genesis) 10) 6 30)
    as (s' & Hs & _ & Hle & _); [reflexivity|by vm_compute..|].
  exists s'. split; [exact Hs|]. by apply Hle.
Defined.

Definition sample_expired : State Z Z Ledger := 
  mkState (Requests sample_requested) 1 None 0 false false (RandomnessResults sample_requested) 0
    20000 (currency sample_requested) [].

Lemma expiration_settles_witness :
  match execute_request_expiration (X := unit) sample_config 6 0 sample_expired with
  | Ok _ s' => Requests s' = delete 0 (Requests sample_expired)
  | _ => False
  end.
Proof.
  assert (Ham : forall rs, Requests sample_expired !! 0 = Some rs ->
    0 <= deposit rs /\ 0 <= fee (request rs) /\ deposit rs + fee (request rs) <= umax BALANCE_BITS).
  { intros rs Hrs. vm_compute in Hrs. injection Hrs as <-. by vm_compute. }
  pose proof (expiration_settles (X := unit) sample_config sample_expired 6 0 Ham) as Hs.
  destruct (execute_request_expiration sample_config 6 0 sample_expired) as [u s'| |] eqn:He.
  - destruct Hs as (rs & _ & _ & Hr & _). exact Hr.
  - vm_compute in He. discriminate He.
  - exact Hs.
Defined.
