(* ===== verification/RandomnessHooks.v ===== *)
(** * The randomness pallet: hooks, VRF and the whole life cycle
    ([pallets/randomness/src/{lib,vrf}.rs])

    Every block verifies the VRF output its author put in the digest and stores it;
    a mandatory inherent takes over the randomness of a new relay epoch.  The
    theorems on requests range over all interleavings of the operations of
    [Randomness.v] with these hooks.

    The VRF signature scheme, the codecs and the key lookup are interfaces. *)
From Stdlib Require Import ZArith Lia.
From Stdlib Require Import String Ascii.
From stdpp Require Import prelude gmap fin_maps sorting.
From S2P Require Import Prelude.
From S2P Require Import Interfaces.
From S2P Require Import NimbusPrimitives.
From S2P Require Import Randomness.

Local Open Scope Z_scope.

(** The signature scheme: [make_bytes] stands for attaching the input and
    squeezing the randomness bytes; inputs are previous outputs. *)
Class VrfScheme (VrfId PublicKey Hash Output Proof : Type) := {
  from_bytes : VrfId -> option PublicKey;
  vrf_verify : PublicKey -> Hash -> Output -> Proof -> bool;
  make_bytes : PublicKey -> Hash -> Output -> option (list Z);
}.

Section Definitions.
Context {Origin AccountId H160 Hash L X : Type}.
Context {W NimbusId VrfId PublicKey Output Proof D : Type}.
Context `{EqDecision AccountId} `{EqDecision H160} `{Currency AccountId L X}.
Context `{Codec NimbusId} `{Codec (Output * Proof)} `{Codec Hash} `{DigestItemOps D}.
Context `{KeysLookup W NimbusId VrfId} `{VrfScheme VrfId PublicKey Hash Output Proof}.

Abbreviation State := (State H160 Hash L).
Abbreviation Mo := (M State (dispatch_error Error X)).

Definition put_local_vrf_output v (s : State) : State :=
  mkState (Requests s) (RequestCount s) v (RelayEpoch s) (InherentIncluded s)
    (NotFirstBlock s) (RandomnessResults s) (PreviousLocalVrfOutput s) (block_number s)
    (currency s) (events s).
Definition put_relay_epoch e (s : State) : State :=
  mkState (Requests s) (RequestCount s) (LocalVrfOutput s) e (InherentIncluded s)
    (NotFirstBlock s) (RandomnessResults s) (PreviousLocalVrfOutput s) (block_number s)
    (currency s) (events s).
Definition put_inherent_included b (s : State) : State :=
  mkState (Requests s) (RequestCount s) (LocalVrfOutput s) (RelayEpoch s) b
    (NotFirstBlock s) (RandomnessResults s) (PreviousLocalVrfOutput s) (block_number s)
    (currency s) (events s).
Definition put_not_first_block (s : State) : State :=
  mkState (Requests s) (RequestCount s) (LocalVrfOutput s) (RelayEpoch s) (InherentIncluded s)
    true (RandomnessResults s) (PreviousLocalVrfOutput s) (block_number s)
    (currency s) (events s).
Definition put_previous v (s : State) : State :=
  mkState (Requests s) (RequestCount s) (LocalVrfOutput s) (RelayEpoch s) (InherentIncluded s)
    (NotFirstBlock s) (RandomnessResults s) v (block_number s) (currency s) (events s).

(** The system pallet moves on to the next block. *)
Definition put_block_number n (s : State) : State :=
  mkState (Requests s) (RequestCount s) (LocalVrfOutput s) (RelayEpoch s) (InherentIncluded s)
    (NotFirstBlock s) (RandomnessResults s) (PreviousLocalVrfOutput s) n (currency s) (events s).

Context (T : Config Origin AccountId H160 Hash).

(** Fill the result of [key], if somebody waits for it. *)
Definition fill_result (key : RequestType) (v : Hash) (s : State) : State :=
  match RandomnessResults s !! key with
  | Some r => update_results <[key := mkResult (Some v) (request_count r)]> s
  | None => s
  end.

(** ** [vrf.rs] *)

(** The lazy scan of the pre-runtime digests up to the first VRF digest: [author]
    is the VRF key of the last nimbus digest before it.  [None] is a panic. *)
Fixpoint scan_digests (w : W) (digests : list (list Z * list Z)) (author : option VrfId) :
    option ((Output * Proof) * option VrfId) :=
  match digests with
  | [] => None
  | (id, data) :: rest =>
      if bool_decide (id = VRF_ENGINE_ID) then
        vrf_digest ← fst <$> decode data;
        Some (vrf_digest, author)
      else if bool_decide (id = NIMBUS_ENGINE_ID) then
        nimbus_id ← fst <$> decode data;
        key ← lookup_keys w nimbus_id;
        scan_digests w rest (Some key)
      else scan_digests w rest author
  end.

(** [get_and_verify_randomness] *)
Definition get_and_verify_randomness (w : W) (logs : list D) (s : State) : option Hash :=
  '((vrf_output, vrf_proof), author) ← scan_digests w (omap as_pre_runtime logs) None;
  block_author_vrf_id ← author;
  public_key ← from_bytes block_author_vrf_id;
  let input := default (default_hash T) (LocalVrfOutput s) in
  if vrf_verify public_key input vrf_output vrf_proof then
    bytes ← make_bytes (Proof := Proof) public_key input vrf_output;
    fst <$> decode bytes
  else None.

(** [verify_and_set_output]; [fake] is [FAKE_VRF]. *)
Definition verify_and_set_output (fake : bool) (w : W) (logs : list D) : Mo unit :=
  s ← gets (fun s : State => s);
  random ← expect (if fake then Some (default_hash T) else get_and_verify_randomness w logs s);
  modify (put_local_vrf_output (Some random)) ;;
  b ← gets block_number;
  modify (fill_result (Local b) random).

(** ** Hooks and the inherent ([lib.rs]) *)

(** [Hooks::on_initialize] *)
Definition on_initialize (fake : bool) (w : W) (logs : list D) : Mo unit :=
  not_first ← gets NotFirstBlock;
  if (not_first : bool) then verify_and_set_output fake w logs
  else
    modify put_not_first_block ;;
    modify (put_local_vrf_output (Some (default_hash T))).

(** [Hooks::on_finalize] *)
Definition on_finalize : Mo unit :=
  included ← gets InherentIncluded;
  modify (put_inherent_included false) ;;
  assert included ;;
  out ← gets LocalVrfOutput;
  out ← expect out;
  modify (put_previous out).

(** [set_babe_randomness_results]: [epoch_index] and [epoch_randomness] are what
    [BabeDataGetter] reads from the relay chain state. *)
Definition set_babe_randomness_results (origin : Origin) (epoch_index : Z)
    (epoch_randomness : option Hash) : Mo unit :=
  ensure (ensure_none T origin) BadOrigin ;;
  last_relay_epoch_index ← gets RelayEpoch;
  when (last_relay_epoch_index <? epoch_index)
    (match epoch_randomness with
     | Some random => modify (fill_result (BabeEpoch epoch_index) random)
     | None => mret tt
     end) ;;
  modify (put_relay_epoch epoch_index) ;;
  modify (put_inherent_included true).

(** [ProvideInherent]: the inherent is required in every block. *)
Inductive Call := set_babe_randomness_results_call.

Definition is_inherent_required : option InherentError :=
  Some (Other ((fun a => Z.of_N (Ascii.N_of_ascii a)) <$>
    String.list_ascii_of_string "Inherent required to set babe randomness results"%string)).

Definition create_inherent : option Call := Some set_babe_randomness_results_call.

Definition is_inherent (c : Call) : bool :=
  match c with set_babe_randomness_results_call => true end.

(** [Randomness::random] *)
Definition random (subject : list Z) (s : State) : Hash * Z :=
  (hash T (hash_bytes T (PreviousLocalVrfOutput s) ++ subject), block_number s).

(** ** How the storage evolves

    The public functions are called by the precompile, which reverts on an error.
    A fulfilment is for an outstanding request and its stored deposit, as the code
    demands of its caller; [covered] restricts its cost. *)
Inductive step (covered : RequestState H160 -> Z -> Prop) : State -> State -> Prop :=
  | step_request req s :
      0 <= fee req -> Deposit T + fee req <= umax BALANCE_BITS ->
      step covered s (final_state (transactional (request_randomness T req)) s)
  | step_increase caller id inc s :
      0 <= inc ->
      step covered s (final_state (transactional (increase_request_fee T caller id inc)) s)
  | step_expire caller id s :
      step covered s (final_state (transactional (execute_request_expiration T caller id)) s)
  | step_fulfill id rs caller cost s :
      Requests s !! id = Some rs -> covered rs cost ->
      step covered s
        (final_state (finish_fulfillment T id (request rs) (deposit rs) caller cost) s)
  | step_inherent o e r s :
      step covered s (final_state (transactional (set_babe_randomness_results o e r)) s)
  | step_next_block n s : step covered s (put_block_number n s)
  | step_initialize fake w logs s s' : on_initialize fake w logs s = Ok tt s' -> step covered s s'
  | step_finalize s s' : on_finalize s = Ok tt s' -> step covered s s'.

(** Every fulfilment, with what was spent so far beyond what the fulfilled requests held. *)
Inductive spending : State * Z -> State * Z -> Prop :=
  | spend_other lost s s' : step (fun _ _ => False) s s' -> spending (s, lost) (s', lost)
  | spend_fulfill lost id rs caller cost s :
      Requests s !! id = Some rs -> 0 <= cost ->
      spending (s, lost)
        (final_state (finish_fulfillment T id (request rs) (deposit rs) caller cost) s, lost + excess rs cost).

(** The cost is not more than the request holds. *)
Definition within_funds (rs : RequestState H160) (cost : Z) : Prop :=
  0 <= cost <= saturating_add BALANCE_BITS (deposit rs) (fee (request rs)).

End Definitions.

(** ** Lemmas *)
Section Lemmas.
Context {Origin AccountId H160 Hash L X : Type}.
Context {W NimbusId VrfId PublicKey Output Proof D : Type}.
Context `{!EqDecision AccountId} `{!EqDecision H160}.
Context `{!Currency AccountId L X} `{!CurrencyLaws AccountId L X}.
Context `{!Codec NimbusId} `{!Codec (Output * Proof)} `{!Codec Hash} `{!DigestItemOps D}.
Context `{!KeysLookup W NimbusId VrfId} `{!VrfScheme VrfId PublicKey Hash Output Proof}.
Context (T : Config Origin AccountId H160 Hash).
Context (deposit_nonneg : 0 <= Deposit T).
Context (account_id_apart : forall h, AddressMapping T h <> account_id T).

Abbreviation State := (State H160 Hash L).
Implicit Types (s : State) (rs : RequestState H160).

(** The hooks keep everything the invariant speaks about but the random values. *)
Definition same_requests s s' : Prop :=
  Requests s' = Requests s /\ RequestCount s' = RequestCount s /\ currency s' = currency s /\
  forall k, request_count <$> RandomnessResults s' !! k = request_count <$> RandomnessResults s !! k.

Lemma same_requests_inv lost s s' : same_requests s s' -> inv (X := X) T lost s -> inv (X := X) T lost s'.
Proof.
  intros (HR & HC & Hcur & Hres) [Hids Hcnt Ham Hr Hsol].
  split; rewrite ?HR, ?HC, ?Hcur; try done.
  intros k. specialize (Hr k). specialize (Hres k). unfold outstanding in *. rewrite HR.
  destruct (RandomnessResults s !! k), (RandomnessResults s' !! k); simplify_eq/=; try done.
  by rewrite Hres.
Qed.

Lemma same_requests_refl s : same_requests s s.
Proof. done. Qed.

Lemma fill_result_same key v s : same_requests s (fill_result key v s).
Proof.
  unfold fill_result. destruct (RandomnessResults s !! key) as [r|] eqn:Hk; [|done].
  repeat split; try done. intros k. simpl.
  destruct (decide (k = key)) as [->|]; [by rewrite lookup_insert_eq, Hk|].
  by rewrite lookup_insert_ne.
Qed.

Lemma fill_result_frame key v s :
  LocalVrfOutput (fill_result key v s) = LocalVrfOutput s /\
  RelayEpoch (fill_result key v s) = RelayEpoch s /\
  block_number (fill_result key v s) = block_number s.
Proof. unfold fill_result. by destruct (RandomnessResults s !! key). Qed.

Lemma verify_and_set_output_Ok fake w (logs : list D) s s' :
  verify_and_set_output (X := X) T fake w logs s = Ok tt s' ->
  exists v, (if fake then Some (default_hash T) else get_and_verify_randomness T w logs s) = Some v /\
    s' = fill_result (Local (block_number s)) v (put_local_vrf_output (Some v) s).
Proof.
  unfold verify_and_set_output. unfold_M.
  destruct (if fake then _ else _) as [v|]; [|done]. intros. simplify_eq. by exists v.
Qed.

Lemma set_babe_same o e r s :
  same_requests s (final_state (transactional (set_babe_randomness_results (X := X) T o e r)) s).
Proof.
  unfold final_state, transactional, set_babe_randomness_results. unfold_M.
  destruct (ensure_none T o); [|done]. destruct (RelayEpoch s <? e); [|done].
  destruct r as [v|]; [|done]. exact (fill_result_same (BabeEpoch e) v s).
Qed.

Lemma on_initialize_same fake w (logs : list D) s s' :
  on_initialize (X := X) T fake w logs s = Ok tt s' -> same_requests s s'.
Proof.
  unfold on_initialize. unfold mbind at 1, M_bind at 1, gets at 1.
  destruct (NotFirstBlock s).
  - intros (v & _ & ->)%verify_and_set_output_Ok.
    exact (fill_result_same (Local (block_number s)) v (put_local_vrf_output (Some v) s)).
  - unfold_M. intros. by simplify_eq.
Qed.

Lemma finalize_Ok s s' :
  on_finalize (X := X) s = Ok tt s' ->
  InherentIncluded s = true /\ exists v, LocalVrfOutput s = Some v /\
    s' = put_previous v (put_inherent_included false s).
Proof.
  unfold on_finalize. unfold_M. destruct (InherentIncluded s); [|done].
  simpl. destruct (LocalVrfOutput s) as [v|] eqn:Hv; [|done]. intros. simplify_eq. eauto.
Qed.

Lemma expire_Ok caller id s u s' :
  execute_request_expiration (X := X) T caller id s = Ok u s' ->
  exists rs s0 s1, Requests s !! id = Some rs /\
    execute_expiration (X := X) T rs (AddressMapping T caller) s = Ok tt s0 /\
    (release_result (X := X) (key_of rs) ;; modify (update_requests (delete id))) s0 = Ok tt s1 /\
    s' = deposit_event (RequestExpirationExecuted id) s1.
Proof.
  unfold execute_request_expiration. intros (m & s2 & Hm & H1)%bind_Ok.
  unfold gets in Hm. simplify_eq. apply bind_Ok in H1 as (rs & s3 & Hrs & H1).
  destruct (Requests s2 !! id) as [rs'|] eqn:Hid; unfold ok_or in Hrs; simplify_eq.
  apply bind_Ok in H1 as ([] & s0 & He & H1). fold (key_of rs) in H1.
  destruct (release_result_spec (X := X) (key_of rs) s0) as (s4 & Hr & _).
  unfold mbind, M_bind in H1. rewrite Hr in H1. unfold modify in H1. simplify_eq.
  exists rs, s0, (update_requests (delete id) s4). split_and!; try done.
  unfold mbind, M_bind. by rewrite Hr.
Qed.

Lemma event_inv lost e s : inv (X := X) T lost s -> inv (X := X) T lost (deposit_event e s).
Proof. by intros [????]. Qed.

Abbreviation step := (step (X := X) (W := W) (NimbusId := NimbusId) (VrfId := VrfId) (PublicKey := PublicKey)
  (Output := Output) (Proof := Proof) (D := D) T).

Lemma fulfill_inv lost id rs caller cost s :
  inv (X := X) T lost s -> Requests s !! id = Some rs -> 0 <= cost ->
  inv (X := X) T (lost + excess rs cost)
    (final_state (finish_fulfillment (X := X) T id (request rs) (deposit rs) caller cost) s).
Proof.
  intros Hinv Hid Hc. destruct (inv_amounts _ _ _ Hinv _ _ Hid) as [Hd Hfee].
  destruct (finish_fulfill_Ok T account_id_apart rs caller cost s Hd Hfee Hc) as (c & Hff & Hpay).
  destruct (finish_fulfillment_run T id rs caller cost c s Hff) as (s1 & Hrel & Hr).
  unfold final_state. rewrite Hr. apply event_inv.
  by eapply (settle_inv T lost (excess rs cost) id rs s (put_currency c s) s1).
Qed.

(** Nothing but a fulfilment can lose funds. *)
Lemma step_inv covered lost s s' :
  (forall rs cost, covered rs cost -> 0 <= cost /\ excess rs cost = 0) ->
  inv (X := X) T lost s -> step covered s s' -> inv (X := X) T lost s'.
Proof.
  intros Hcov Hinv Hs. destruct Hs as [req s Hf Hsum|caller id inc s Hi|caller id s|id rs caller cost s Hid Hc
    |o e r s|n s|fake w logs s s' Hh|s s' Hh].
  - unfold final_state, transactional.
    destruct (request_randomness T req s) as [id s'| |] eqn:Hr; [|done..].
    by eapply request_inv.
  - unfold final_state, transactional.
    destruct (increase_request_fee T caller id inc s) as [u s'| |] eqn:Hr; [|done..].
    by eapply increase_inv.
  - unfold final_state, transactional.
    destruct (execute_request_expiration T caller id s) as [u s'| |] eqn:Hr; [|done..].
    apply expire_Ok in Hr as (rs & s0 & s1 & Hid & He & Hrel & ->).
    destruct (inv_amounts _ _ _ Hinv _ _ Hid) as [Hd Hfee].
    apply execute_expiration_Ok in He as (_ & c & -> & Hpay); [|done..].
    apply event_inv. rewrite <- (Z.add_0_r lost).
    eapply (settle_inv T lost 0 id rs s (put_currency c s) s1); [done..|simpl; lia|done].
  - destruct (Hcov _ _ Hc) as [Hc0 Hex]. rewrite <- (Z.add_0_r lost), <- Hex. by apply fulfill_inv.
  - eapply same_requests_inv; [apply set_babe_same|done].
  - eapply same_requests_inv; [|done]. done.
  - eapply same_requests_inv; [by eapply on_initialize_same|done].
  - apply finalize_Ok in Hh as (_ & v & _ & ->). eapply same_requests_inv; [|done]. done.
Qed.

Lemma spending_inv p q :
  inv (X := X) T p.2 p.1 ->
  spending (X := X) (W := W) (NimbusId := NimbusId) (VrfId := VrfId) (PublicKey := PublicKey)
    (Output := Output) (Proof := Proof) (D := D) T p q ->
  inv (X := X) T q.2 q.1.
Proof.
  intros Hinv Hs. destruct Hs as [lost s s' Hs|lost id rs caller cost s Hid Hc]; simpl in *.
  - eapply step_inv; [|exact Hinv|exact Hs]. done.
  - by apply fulfill_inv.
Qed.

Lemma within_no_excess (rs : RequestState H160) cost :
  within_funds rs cost -> 0 <= cost /\ excess rs cost = 0.
Proof. unfold within_funds, excess. lia. Qed.

Lemma genesis_inv h c :
  0 <= free_balance (X := X) c (account_id T) -> inv (X := X) T 0 (genesis h c : State).
Proof.
  intros Hc. split; simpl.
  - intros id rs Hi. by apply lookup_empty_Some in Hi.
  - unfold umax. lia.
  - intros id rs Hi. by apply lookup_empty_Some in Hi.
  - intros k. by rewrite lookup_empty.
  - rewrite map_sum_empty. lia.
Qed.
End Lemmas.

(** ** Properties *)
Section Properties.
Context {Origin AccountId H160 Hash L X : Type}.
Context {W NimbusId VrfId PublicKey Output Proof D : Type}.
Context `{!EqDecision AccountId} `{!EqDecision H160}.
Context `{!Currency AccountId L X} `{!CurrencyLaws AccountId L X}.
Context `{!Codec NimbusId} `{!Codec (Output * Proof)} `{!Codec Hash} `{!DigestItemOps D}.
Context `{!KeysLookup W NimbusId VrfId} `{!VrfScheme VrfId PublicKey Hash Output Proof}.
Context (T : Config Origin AccountId H160 Hash).
Context (deposit_nonneg : 0 <= Deposit T).
(** Nobody controls the pallet's account. *)
Context (account_id_apart : forall h, AddressMapping T h <> account_id T).

Abbreviation State := (State H160 Hash L).
Abbreviation steps := (step (X := X) (W := W) (NimbusId := NimbusId) (VrfId := VrfId)
  (PublicKey := PublicKey) (Output := Output) (Proof := Proof) (D := D) T).
Abbreviation spends := (spending (X := X) (W := W) (NimbusId := NimbusId) (VrfId := VrfId)
  (PublicKey := PublicKey) (Output := Output) (Proof := Proof) (D := D) T).
Implicit Types (s : State) (rs : RequestState H160).

Lemma reachable_inv h c s :
  0 <= free_balance (X := X) c (account_id T) -> rtc (steps within_funds) (genesis h c) s ->
  inv (X := X) T 0 s.
Proof.
  intros Hc Hr. refine (rtc_invariant _ (inv (X := X) T 0) _ _ _ Hr _).
  - intros a b Ha Hs. eapply step_inv; [done|done| |exact Ha|exact Hs]. apply within_no_excess.
  - by apply genesis_inv.
Qed.


(** An outstanding request has a result to wait for. *)
Lemma result_exists lost s id rs :
  inv (X := X) T lost s -> Requests s !! id = Some rs ->
  exists r, RandomnessResults s !! key_of rs = Some r.
Proof.
  intros [_ _ _ Hres _] Hid. specialize (Hres (key_of rs)).
  destruct (RandomnessResults s !! key_of rs) as [r|]; [by exists r|].
  pose proof (map_sum_lookup_le (fun _ rs' => if decide (key_of rs' = key_of rs) then 1 else 0)
    (Requests s) id rs) as Hle. cbn beta in Hle. rewrite decide_True in Hle by done.
  unfold outstanding in Hres. rewrite Hres in Hle.
  assert (1 <= 0); [|lia]. apply Hle; [|done]. intros. case_decide; lia.
Qed.

Lemma length_random_words n i v sa : length (compute_random_words T n i v sa) = n.
Proof. revert i. induction n; intros; simpl; auto. Qed.

Lemma lookup_random_words n i v sa k :
  (k < n)%nat ->
  compute_random_words T n i v sa !! k =
    Some (blake2_256 T (hash_bytes T v ++ sa ++ [i + Z.of_nat k])).
Proof.
  revert i k. induction n as [|n IH]; intros i [|k] Hk; [lia|lia| |]; simpl.
  - by rewrite Z.add_0_r.
  - rewrite IH by lia. do 4 f_equal. f_equal. lia.
Qed.

(** Preparing a fulfilment: in every reachable state an unknown id and a
    request that is not due are refused as such; a due request yields its stored
    arguments and exactly [num_words] words, word [k] being the hash of the raw
    randomness, the salt and [k], as soon as the randomness is filled, and the only
    other answer is that it is not; the error that its result does not exist never
    happens; and nothing is written. *)
Theorem prepare_outcomes h c s id :
  0 <= free_balance (X := X) c (account_id T) -> rtc (steps within_funds) (genesis h c) s ->
  prepare_fulfillment (X := X) T id s =
    match Requests s !! id with
    | None => Err (Module RequestDNE) s
    | Some rs =>
        if can_be_fulfilled (request rs) s then
          match RandomnessResults s !! key_of rs ≫= randomness with
          | Some v => Ok (mkFulfillArgs (request rs) (deposit rs)
              (compute_random_words T (Z.to_nat (num_words (request rs))) 0 v (salt (request rs)))) s
          | None => Err (Module RandomnessResultNotFilled) s
          end
        else Err (Module RequestCannotYetBeFulfilled) s
    end /\
  forall n v sa, length (compute_random_words T n 0 v sa) = n /\
    forall k, (k < n)%nat -> compute_random_words T n 0 v sa !! k =
      Some (blake2_256 T (hash_bytes T v ++ sa ++ [Z.of_nat k])).
Proof.
  intros Hc Hr. split.
  - unfold prepare_fulfillment, prepare_fulfill, get_random_words. unfold_M.
    destruct (Requests s !! id) as [rs|] eqn:Hid; [|done].
    destruct (can_be_fulfilled (request rs) s); [|done].
    destruct (result_exists _ _ _ _ (reachable_inv _ _ _ Hc Hr) Hid) as [r Hres].
    fold (key_of rs). rewrite Hres. simpl. by destruct (randomness r).
  - intros n v sa. split; [apply length_random_words|]. intros k Hk.
    by rewrite lookup_random_words.
Qed.

(** Local randomness is on time: in every reachable state, a request for the
    current block can be prepared for fulfilment right after the block's
    initialisation, with the VRF output of this block. *)
Theorem local_randomness_on_time h c fake w (logs : list D) s s' id rs :
  0 <= free_balance (X := X) c (account_id T) -> rtc (steps within_funds) (genesis h c) s ->
  NotFirstBlock s = true -> on_initialize (X := X) T fake w logs s = Ok tt s' ->
  Requests s !! id = Some rs -> key_of rs = Local (block_number s) ->
  exists v, LocalVrfOutput s' = Some v /\
    prepare_fulfillment (X := X) T id s' = Ok (mkFulfillArgs (request rs) (deposit rs)
      (compute_random_words T (Z.to_nat (num_words (request rs))) 0 v (salt (request rs)))) s'.
Proof.
  intros Hc Hr Hnf Hi Hid Hk.
  destruct (result_exists _ _ _ _ (reachable_inv _ _ _ Hc Hr) Hid) as [r Hres].
  unfold on_initialize in Hi. unfold mbind at 1, M_bind at 1, gets at 1 in Hi. rewrite Hnf in Hi.
  apply verify_and_set_output_Ok in Hi as (v & _ & ->). exists v. rewrite Hk in Hres.
  unfold fill_result. simpl. rewrite Hres. split; [done|].
  unfold prepare_fulfillment, prepare_fulfill, get_random_words. unfold_M. simpl. rewrite Hid.
  unfold can_be_fulfilled, key_of in *. simpl.
  destruct (info (request rs)) as [|b x]; simpl in *; simplify_eq.
  rewrite Z.leb_refl. simpl. rewrite lookup_insert_eq. done.
Qed.

(** The random value of [BabeEpoch e] is missing and the relay chain is past it. *)
Definition missed (e : Z) s : Prop :=
  e <= RelayEpoch s /\
  forall r, RandomnessResults s !! BabeEpoch e = Some r -> randomness r = None.

Lemma release_missed e k s s' :
  missed e s -> release_result (X := X) k s = Ok tt s' -> missed e s'.
Proof.
  intros [He Hm] Hr. destruct (release_result_spec (X := X) k s) as (s2 & Hr2 & Hs2 & Hlook).
  rewrite Hr in Hr2. injection Hr2 as <-.
  split; [rewrite Hs2; exact He|]. intros r. rewrite Hlook. case_decide as Hk; [|apply Hm].
  subst k. destruct (RandomnessResults s !! BabeEpoch e) as [r0|]; [|done].
  simpl. unfold decrement_request_count. intros Hd.
  destruct (checked_sub _ _) as [n|]; [|done]. destruct (n =? 0); simplify_eq/=. by apply Hm.
Qed.

Lemma fill_missed e k v s : k <> BabeEpoch e -> missed e s -> missed e (fill_result k v s).
Proof.
  intros Hk [He Hm]. unfold fill_result.
  destruct (RandomnessResults s !! k) as [r0|] eqn:Hr; [|done]. split; [done|]. intros r. simpl.
  rewrite lookup_insert_ne by done. apply Hm.
Qed.

Lemma step_missed covered e s s' :
  steps covered s s' -> RelayEpoch s <= RelayEpoch s' -> missed e s -> missed e s'.
Proof.
  intros Hs Hmono Hm. destruct Hs as [req s Hf Hsum|caller id inc s Hi|caller id s
    |id rs caller cost s Hid Hc|o ep r s|n s|fake w logs s s' Hh|s s' Hh].
  - unfold final_state, transactional.
    destruct (request_randomness T req s) as [id s'| |] eqn:Hr; [|done..].
    apply request_randomness_Ok in Hr as (c & _ & _ & _ & _ & _ & _ & HRes & _ & _ & Hre & _); [|done..].
    destruct Hm as [He Hm]. split; [by rewrite Hre|]. intros r. rewrite HRes.
    intros [[Hk <-]|[_ ?]]%lookup_insert_Some; [|by apply Hm].
    rewrite Hk. destruct (RandomnessResults s !! BabeEpoch e) as [r0|]; [simpl; by apply Hm|done].
  - unfold final_state, transactional.
    destruct (increase_request_fee T caller id inc s) as [u s'| |] eqn:Hr; [|done..].
    by apply increase_request_fee_Ok in Hr as (rs & c & _ & _ & _ & ->).
  - unfold final_state, transactional.
    destruct (execute_request_expiration T caller id s) as [u s'| |] eqn:Hr; [|done..].
    apply expire_Ok in Hr as (rs & s0 & s1 & _ & He & Hrel & ->).
    assert (H0 : missed e s0).
    { unfold execute_expiration in He. unfold_M. destruct (is_expired _ s); [|done].
      destruct (bool_decide _).
      - by apply transfer_keep_alive_Ok in He as (c & _ & ->).
      - destruct (transfer_keep_alive _ _ (deposit rs) s) as [u1 s2| |] eqn:H1; [|done..].
        apply transfer_keep_alive_Ok in H1 as (c & _ & ->).
        by apply transfer_keep_alive_Ok in He as (c' & _ & ->). }
    apply bind_Ok in Hrel as ([] & s2 & Hrel & Hmod). unfold modify in Hmod. simplify_eq.
    exact (release_missed _ _ _ _ H0 Hrel).
  - unfold final_state. destruct (finish_fulfillment _ _ _ _ _ _ s) as [u s'| |] eqn:Hr; [| |done].
    2: { unfold finish_fulfillment, release_result, finish_fulfill, try_transfer in Hr. unfold_M.
         repeat (exec_step; simplify_eq). }
    unfold finish_fulfillment in Hr. apply bind_Ok in Hr as ([] & s0 & Hf & Hr).
    assert (H0 : missed e s0).
    { unfold finish_fulfill, try_transfer in Hf. unfold_M.
      repeat (exec_step; simplify_eq; try done). }
    apply bind_Ok in Hr as ([] & s2 & Hrel & Hmod). unfold mbind, M_bind, modify in Hmod.
    simplify_eq. exact (release_missed _ _ _ _ H0 Hrel).
  - revert Hmono. unfold final_state, transactional, set_babe_randomness_results. unfold_M.
    destruct (ensure_none T o); [|done].
    destruct (Z.ltb_spec (RelayEpoch s) ep); simpl.
    + intros _. destruct Hm as [He Hm]. destruct r as [v|]; [|split; [simpl; lia|exact Hm]].
      pose proof (fill_missed e (BabeEpoch ep) v s) as [_ H0]; [congruence + (intros [=]; lia)|by split|].
      split; [simpl; lia|exact H0].
    + intros Hmono. destruct Hm as [He Hm]. split; [simpl; lia|exact Hm].
  - done.
  - unfold on_initialize in Hh. unfold mbind at 1, M_bind at 1, gets at 1 in Hh.
    destruct (NotFirstBlock s).
    + apply verify_and_set_output_Ok in Hh as (v & _ & ->). by apply fill_missed.
    + unfold_M. by simplify_eq.
  - by apply finalize_Ok in Hh as (_ & v & _ & ->).
Qed.

(** Epochs are filled only at their first block: once the stored relay epoch
    has reached [e] without the value of [e] being filled, because the relay chain
    skipped it, its randomness was not available, or the request came late, the
    value stays missing as long as the stored relay epoch never decreases, and
    every request waiting for it, although due, can only expire. *)
Theorem missed_epoch_never_filled covered e s s' id rs :
  missed e s ->
  rtc (fun a b => steps covered a b /\ RelayEpoch a <= RelayEpoch b) s s' ->
  Requests s' !! id = Some rs -> key_of rs = BabeEpoch e ->
  can_be_fulfilled (request rs) s' = true /\
  exists err, prepare_fulfillment (X := X) T id s' = Err err s' /\
    (err = Module RandomnessResultNotFilled \/ err = Module RandomnessResultDNE).
Proof.
  intros Hm Hr Hid Hk.
  assert (Hm' : missed e s').
  { refine (rtc_invariant _ (missed e) _ _ _ Hr Hm). intros a b Ha [Hs Hmono].
    by eapply step_missed. }
  destruct Hm' as [He Hn].
  assert (Hdue : can_be_fulfilled (request rs) s' = true).
  { unfold can_be_fulfilled, key_of in *.
    destruct (info (request rs)); simpl in Hk; simplify_eq. by apply Z.leb_le. }
  split; [done|]. unfold prepare_fulfillment, prepare_fulfill, get_random_words. unfold_M.
  rewrite Hid, Hdue. fold (key_of rs). rewrite Hk.
  destruct (RandomnessResults s' !! BabeEpoch e) as [r|] eqn:Hres; simpl; [|by eauto].
  rewrite (Hn r) by done. eauto.
Qed.

(** The scan reaches the first VRF digest; the author is the last nimbus digest
    before it. *)
Lemma scan_digests_Some (w : W) l (author : option VrfId) dig a :
  scan_digests (NimbusId := NimbusId) (VrfId := VrfId) (Output := Output) (Proof := Proof) w l author = Some (dig, a) ->
  exists pre data post, l = pre ++ (VRF_ENGINE_ID, data) :: post /\
    Forall (fun p => p.1 <> VRF_ENGINE_ID) pre /\ fst <$> decode data = Some dig /\
    a = match last (filter (fun p => p.1 = NIMBUS_ENGINE_ID) pre) with
        | Some (_, ndata) => (fst <$> decode (A := NimbusId) ndata) ≫= lookup_keys w
        | None => author
        end.
Proof.
  revert author. induction l as [|[i x] l IH]; intros author; [done|]. cbn [scan_digests].
  case_bool_decide as Hv.
  - destruct (fst <$> decode x) as [d|] eqn:Hd; [|done]. intros [= <- <-].
    exists [], x, l. subst i. by split_and!.
  - case_bool_decide as Hn.
    + destruct (decode x) as [[n r]|] eqn:Hd; [|done]. simpl.
      destruct (lookup_keys w n) as [key|] eqn:Hk; [|done]. simpl.
      intros (pre & data & post & -> & Hall & Hdec & ->)%IH.
      exists ((i, x) :: pre), data, post. split_and!; [done|by constructor|done|].
      rewrite filter_cons, decide_True by done. rewrite last_cons.
      destruct (last (filter _ pre)) as [[i' nd]|]; [done|]. by rewrite Hd.
    + intros (pre & data & post & -> & Hall & Hdec & ->)%IH.
      exists ((i, x) :: pre), data, post. split_and!; [done|by constructor|done|].
      by rewrite filter_cons, decide_False.
Qed.

(** The VRF output is authentic: after the initialisation of any block but
    the first, the stored output is the one of the first VRF digest, whose proof
    verifies against the previous output under the VRF key of the author named by
    the last nimbus digest before it; without such a nimbus digest the block
    panics; and at finalisation the block panics unless the randomness inherent
    ran, and hands the output on as the seed of the next block. *)
Theorem vrf_output_authentic (w : W) (logs : list D) s s' :
  NotFirstBlock s = true -> on_initialize (X := X) T false w logs s = Ok tt s' ->
  exists pre data post ndata n key pk out proof bytes v r i,
    omap as_pre_runtime logs = pre ++ (VRF_ENGINE_ID, data) :: post /\
    Forall (fun p => p.1 <> VRF_ENGINE_ID) pre /\
    last (filter (fun p => p.1 = NIMBUS_ENGINE_ID) pre) = Some (i, ndata) /\
    fst <$> decode data = Some (out, proof) /\
    fst <$> decode (A := NimbusId) ndata = Some n /\ lookup_keys w n = Some key /\ from_bytes key = Some pk /\
    vrf_verify pk (default (default_hash T) (LocalVrfOutput s)) out proof = true /\
    make_bytes (Proof := Proof) pk (default (default_hash T) (LocalVrfOutput s)) out = Some bytes /\
    decode bytes = Some (v, r) /\ LocalVrfOutput s' = Some v /\
    forall s2, LocalVrfOutput s2 = LocalVrfOutput s' ->
      on_finalize (X := X) s2 =
        if InherentIncluded s2 then Ok tt (put_previous v (put_inherent_included false s2)) else Panic.
Proof.
  intros Hnf Hi. unfold on_initialize in Hi. unfold mbind at 1, M_bind at 1, gets at 1 in Hi.
  rewrite Hnf in Hi. apply verify_and_set_output_Ok in Hi as (v & Hv & ->).
  unfold get_and_verify_randomness in Hv.
  destruct (scan_digests w _ None) as [[[out proof] a]|] eqn:Hscan; [|done]. simpl in Hv.
  apply scan_digests_Some in Hscan as (pre & data & post & Hlogs & Hall & Hdec & Ha).
  destruct a as [key|]; [|done]. simpl in Hv.
  destruct (from_bytes key) as [pk|] eqn:Hpk; [|done]. simpl in Hv.
  destruct (vrf_verify pk _ out proof) eqn:Hver; [|done].
  destruct (make_bytes pk _ out) as [bytes|] eqn:Hb; [|done]. simpl in Hv.
  destruct (decode bytes) as [[v' r]|] eqn:Hdv; simplify_eq/=.
  destruct (last (filter _ pre)) as [[i ndata]|] eqn:Hl; [|done].
  destruct (fst <$> decode ndata) as [n|] eqn:Hn; [|done]. simpl in Ha.
  destruct (fill_result_frame (Local (block_number s)) v (put_local_vrf_output (Some v) s)) as (Hlv & _).
  exists pre, data, post, ndata, n, key, pk, out, proof, bytes, v, r, i.
  split_and!; try done. intros s2. rewrite Hlv. simpl. intros Hs2.
  unfold on_finalize. unfold_M. destruct (InherentIncluded s2); [|done]. simpl. by rewrite Hs2.
Qed.
End Properties.

(** ** A concrete runtime *)
Section Witnesses.
#[local] Existing Instance fixed_codec.
#[local] Instance pair_codec : Codec (Z * Z) := {|
  encode p := [p.1; p.2];
  decode l := match l with a :: b :: l' => Some ((a, b), l') | _ => None end;
|}.
#[local] Instance sample_keys : KeysLookup unit Z Z := fun _ n => Some (n + 1).
#[local] Instance sample_vrf : VrfScheme Z Z Z Z Z := {|
  from_bytes k := Some k;
  vrf_verify pk input out proof := proof =? pk + input + out;
  make_bytes _ _ out := Some [out];
|}.

Definition sample_state : State Z Z Ledger :=
  put_block_number 3 (put_local_vrf_output (Some 0) (put_not_first_block sample_requested)).

Abbreviation sample_steps := (step (W := unit) (NimbusId := Z) (VrfId := Z) (PublicKey := Z)
  (Output := Z) (Proof := Z) (D := Item) sample_config within_funds).

Lemma sample_hooks_reachable : rtc sample_steps (genesis 0 sample_ledger) sample_state.
Proof.
  apply (rtc_l _ _ sample_requested); [by apply step_request|].
  apply (rtc_l _ _ (put_local_vrf_output (Some 0) (put_not_first_block sample_requested))).
  - by apply (step_initialize sample_config within_funds true tt []).
  - apply (rtc_l _ _ sample_state); [apply step_next_block|apply rtc_refl].
Qed.

Lemma sample_balance : 0 <= free_balance sample_ledger (account_id sample_config).
Proof. vm_compute. congruence. Qed.

(** Two requests that hold 50 each; the first is fulfilled at a cost of 70. *)
Definition sample_twice : State Z Z Ledger :=
  final_state (transactional (request_randomness (X := unit) sample_config sample_request)) sample_requested.
Definition sample_first : RequestState Z :=
  mkRequestState (request_with_info sample_config sample_request sample_genesis) 10.
Definition overspent_state : State Z Z Ledger :=
  final_state (finish_fulfillment (X := unit) sample_config 0 (request sample_first) (deposit sample_first) 6 70) sample_twice.

Abbreviation sample_spends := (spending (W := unit) (NimbusId := Z) (VrfId := Z) (PublicKey := Z)
  (Output := Z) (Proof := Z) (D := Item) sample_config).

Lemma sample_overspent : rtc sample_spends (genesis 0 sample_ledger, 0) (overspent_state, 20).
Proof.
  apply (rtc_l _ _ (sample_requested, 0)); [apply spend_other; by apply step_request|].
  apply (rtc_l _ _ (sample_twice, 0)); [apply spend_other; by apply step_request|].
  apply rtc_once. exact (spend_fulfill sample_config 0 0 sample_first 6 70 sample_twice eq_refl ltac:(done)).
Qed.


Lemma prepare_outcomes_witness :
  prepare_fulfillment (X := unit) sample_config 7 sample_state = Err (Module RequestDNE) sample_state.
Proof.
  exact (proj1 (prepare_outcomes (W := unit) (NimbusId := Z) (VrfId := Z) (PublicKey := Z)
    (Output := Z) (Proof := Z) (D := Item) sample_config sample_deposit sample_apart 0 sample_ledger
    sample_state 7 sample_balance sample_hooks_reachable)).
Defined.

Definition sample_logs : list Item :=
  [PreRuntime NIMBUS_ENGINE_ID [4]; PreRuntime VRF_ENGINE_ID [7; 12]].

Definition sample_after : State Z Z Ledger :=
  final_state (on_initialize (X := unit) (NimbusId := Z) (VrfId := Z) (PublicKey := Z)
    (Output := Z) (Proof := Z) sample_config false tt sample_logs) sample_state.

Lemma sample_initialize :
  on_initialize (X := unit) (NimbusId := Z) (VrfId := Z) (PublicKey := Z) (Output := Z) (Proof := Z)
    sample_config false tt sample_logs sample_state = Ok tt sample_after.
Proof. reflexivity. Qed.

Lemma local_randomness_on_time_witness :
  exists v args, LocalVrfOutput sample_after = Some v /\
    prepare_fulfillment (X := unit) sample_config 0 sample_after = Ok args sample_after.
Proof.
  destruct (local_randomness_on_time (NimbusId := Z) (VrfId := Z) (PublicKey := Z) (Output := Z)
    (Proof := Z) sample_config sample_deposit sample_apart 0 sample_ledger false tt sample_logs
    sample_state sample_after 0
    (mkRequestState (request_with_info sample_config sample_request sample_genesis) 10)
    sample_balance sample_hooks_reachable eq_refl sample_initialize)
    as (v & Hv & Hp); [reflexivity|reflexivity|].
  exists v. eexists. split; [exact Hv|exact Hp].
Defined.

(** A request for an epoch that the relay chain has already reached. *)
Definition sample_late : Request Z RequestType := mkRequest 5 5 40 0 2 [9] (BabeEpoch 0).

Definition sample_missed : State Z Z Ledger :=
  final_state (transactional (request_randomness sample_config sample_late)) sample_genesis.

Lemma missed_epoch_never_filled_witness :
  exists err, prepare_fulfillment (X := unit) sample_config 0 sample_missed = Err err sample_missed.
Proof.
  assert (Hm : missed 0 sample_genesis).
  { split; [done|]. intros r. simpl. by rewrite lookup_empty. }
  destruct (missed_epoch_never_filled (W := unit) (NimbusId := Z) (VrfId := Z) (PublicKey := Z)
    (Output := Z) (Proof := Z) (D := Item) sample_config within_funds 0
    sample_genesis sample_missed 0
    (mkRequestState (request_with_info sample_config sample_late sample_genesis) 10) Hm)
    as (_ & err & He & _); [|reflexivity|reflexivity|].
  - apply rtc_once. split; [by apply step_request|done].
  - exists err. exact He.
Defined.

Lemma vrf_output_authentic_witness : exists v, LocalVrfOutput sample_after = Some v.
Proof.
  destruct (vrf_output_authentic (X := unit) (NimbusId := Z) (VrfId := Z) (PublicKey := Z)
    (Output := Z) (Proof := Z) sample_config tt sample_logs sample_state sample_after eq_refl
    sample_initialize) as (pre & data & post & nd & n & key & pk & out & pf & bs & v & r & i & Hall).
  exists v. apply Hall.
Defined.
End Witnesses.
