(* ===== verification/SlotTimer.v ===== *)
(** * The slot timer of the slot-based collator
      ([client/consensus/nimbus-consensus/src/collators/slot_based/slot_timer.rs])

    When the collator wakes up to author, for which parachain slot, and for how long
    it may author.  A [Duration] is its number of nanoseconds, a [SlotDuration] and a
    [Timestamp] their number of milliseconds, a [Slot] its number.  The conversions
    between slots and timestamps belong to [sp_consensus_slots]: they are the
    interface [SlotOps].  The system clock is an argument, [None] is a panic. *)
From Stdlib Require Import ZArith Lia.
From stdpp Require Import prelude sorting.
From S2P Require Import Prelude.

Local Open Scope Z_scope.

(** [Slot::from_timestamp] (a panic without a slot duration) and
    [Slot::timestamp] *)
Class SlotOps := {
  from_timestamp : Z -> Z -> option Z;
  timestamp : Z -> Z -> option Z;
}.

(** The documented behaviour: the slot of a timestamp, and the start of a slot
    unless it overflows. *)
Class SlotLaws `{SlotOps} : Prop := {
  from_timestamp_spec t d : 0 < d -> from_timestamp t d = Some (t / d);
  timestamp_spec s d : timestamp s d = if s * d <=? umax 64 then Some (s * d) else None;
}.

(** [Duration::as_millis] and [Duration::from_millis] *)
Definition NANOS_PER_MILLI : Z := 1000000.
Definition as_millis (d : Z) : Z := d / NANOS_PER_MILLI.
Definition from_millis (m : Z) : Z := m * NANOS_PER_MILLI.

Definition BLOCK_PRODUCTION_MINIMUM_INTERVAL_MS : Z := from_millis 500.
Definition BLOCK_PRODUCTION_THRESHOLD_MS : Z := from_millis 100.
Definition BLOCK_PRODUCTION_ADJUSTMENT_MS : Z := from_millis 1000.

(** [SlotTimer] *)
Record SlotTimer := mkSlotTimer {
  time_offset : Z;
  last_reported_core_num : option Z;
  relay_slot_duration : Z;
  para_slot_duration : option Z;
  last_reported_slot : option Z;
}.

(** The time until the next attempt and the time of that attempt. *)
Definition time_until_next_attempt (now block_production_interval offset : Z) : option (Z * Z) :=
  let now := saturating_sub (as_millis now) (as_millis offset) in
  let interval := as_millis block_production_interval in
  if interval =? 0 then None
  else
    let next_slot_time := ((now + interval) / interval) * interval in
    let remaining_millis := next_slot_time - now in
    Some (from_millis (wrapping 64 remaining_millis), wrapping 64 next_slot_time).

(** The interval between attempts: the shorter slot, or the relay slot divided among
    the cores. *)
Definition block_production_interval (para relay : Z) (core_count : option Z) : Z :=
  let para_slots_per_relay_block := wrapping 32 (as_millis relay / para) in
  let assigned_core_num := default 1 core_count in
  if (para_slots_per_relay_block <? assigned_core_num) && (relay <=? from_millis para)
  then Z.max (relay / assigned_core_num) BLOCK_PRODUCTION_MINIMUM_INTERVAL_MS
  else Z.min (from_millis para) relay.

Section Definitions.
Context `{SlotOps}.
(** overflow checks *)
Context (oc : bool).

Definition compute_next_wake_up_time (para relay : Z) (core_count : option Z)
    (time_now time_offset : Z) : option (Z * Z) :=
  if para =? 0 then None
  else
    '(duration, timestamp) ← time_until_next_attempt time_now
      (block_production_interval para relay core_count) time_offset;
    para_slot ← from_timestamp timestamp para;
    Some (duration, para_slot).

(** The outer option is the panic of the addition, the inner one the code's. *)
Definition compute_time_until_next_slot_change (para time_now time_offset last_reported_slot : Z) :
    option (option (Z * Z)) :=
  let now := saturating_sub time_now time_offset in
  next_slot ← op_add oc 64 last_reported_slot 1;
  Some (match timestamp next_slot para with
        | None => None
        | Some next_slot_timestamp =>
            Some (saturating_sub (from_millis next_slot_timestamp) now, next_slot)
        end).

(** [SystemTime::now()] before the Unix epoch is a panic. *)
Definition duration_now (clock : Z) : option Z :=
  if clock <? 0 then None else Some clock.

Definition adjust_authoring_duration (authoring_duration : Z) (next_block next_slot_change : Z * Z)
    (different_authors : bool) : option Z :=
  let duration := next_block.1 in
  let duration_until_next_slot := next_slot_change.1 in
  let duration_until_deadline :=
    saturating_sub duration_until_next_slot BLOCK_PRODUCTION_ADJUSTMENT_MS in
  if duration_until_deadline =? 0 then
    if different_authors then None else Some (Z.min authoring_duration duration)
  else if different_authors && (duration_until_deadline <=? authoring_duration) then
    let authoring_duration := duration_until_deadline in
    if authoring_duration <?
       saturating_sub BLOCK_PRODUCTION_MINIMUM_INTERVAL_MS BLOCK_PRODUCTION_THRESHOLD_MS
    then None
    else Some (Z.min authoring_duration duration)
  else Some (Z.min authoring_duration duration).

(** ** The methods *)
Definition new_with_offset (time_offset relay_slot_duration : Z) (para_slot_duration : option Z) :
    SlotTimer :=
  mkSlotTimer time_offset None relay_slot_duration para_slot_duration None.

Definition slot_duration (t : SlotTimer) : Z :=
  default (relay_slot_duration t) (para_slot_duration t).

Definition update_scheduling (num_cores_next_block : Z) (t : SlotTimer) : SlotTimer :=
  mkSlotTimer (time_offset t) (Some num_cores_next_block) (relay_slot_duration t)
    (para_slot_duration t) (last_reported_slot t).

Definition put_last_reported_slot s (t : SlotTimer) : SlotTimer :=
  mkSlotTimer (time_offset t) (last_reported_core_num t) (relay_slot_duration t)
    (para_slot_duration t) s.

Definition time_until_next_block (slot_duration clock : Z) (t : SlotTimer) : option (Z * Z) :=
  now ← duration_now clock;
  compute_next_wake_up_time slot_duration (relay_slot_duration t) (last_reported_core_num t) now
    (time_offset t).

Definition time_until_next_slot_change (slot_duration clock : Z) (t : SlotTimer) :
    option (option (Z * Z)) :=
  now ← duration_now clock;
  compute_time_until_next_slot_change slot_duration now (time_offset t)
    (default 0 (last_reported_slot t)).

(** The slot duration in milliseconds, [as_millis() as u64]. *)
Definition slot_duration_millis (t : SlotTimer) : Z := wrapping 64 (as_millis (slot_duration t)).

(** The method of the same name; the clock is read twice. *)
Definition SlotTimer_adjust_authoring_duration (clock clock' authoring_duration : Z)
    (t : SlotTimer) : option (option Z) :=
  next_block ← time_until_next_block (slot_duration_millis t) clock t;
  next_slot_change ← time_until_next_slot_change (slot_duration_millis t) clock' t;
  Some (match next_slot_change with
        | None => Some authoring_duration
        | Some next_slot_change =>
            adjust_authoring_duration authoring_duration next_block next_slot_change true
        end).

(** The slot to report: the one right after the last, if that was missed by at most
    two slots.  The boolean says whether to sleep. *)
Definition catch_up (last : option Z) (next_para_slot : Z) : option (Z * bool) :=
  match last with
  | None => Some (next_para_slot, true)
  | Some ls =>
      ls1 ← op_add oc 64 ls 1;
      if ls1 <? next_para_slot then
        ls3 ← op_add oc 64 ls 3;
        if next_para_slot <=? ls3 then Some (ls1, false) else Some (next_para_slot, true)
      else Some (next_para_slot, true)
  end.

(** Returns how long it sleeps, and the timer afterwards. *)
Definition wait_until_next_slot (clock : Z) (t : SlotTimer) : option (Z * SlotTimer) :=
  '(time_until_next_attempt, next_para_slot) ← time_until_next_block (slot_duration_millis t) clock t;
  '(next_para_slot, sleep) ← catch_up (last_reported_slot t) next_para_slot;
  Some (if sleep : bool then time_until_next_attempt else 0,
        put_last_reported_slot (Some next_para_slot) t).
End Definitions.

(** ** Runs *)

(** The milliseconds a timer sees. *)
Definition seen (clock offset : Z) : Z := saturating_sub (as_millis clock) (as_millis offset).

(** Durations between half a second and 2^32 milliseconds, a core count that fits. *)
Record timer_ok (t : SlotTimer) : Prop := {
  offset_ok : 0 <= time_offset t;
  relay_ok : from_millis 500 <= relay_slot_duration t <= from_millis (2 ^ 32);
  para_ok : from_millis 500 <= slot_duration t <= from_millis (2 ^ 32);
  cores_ok : forall n, last_reported_core_num t = Some n -> fits 32 n;
}.

Section Runs.
Context `{SlotOps} (oc : bool).

(** The collator's loop: it waits for the next slot, sleeping at least as long as
    the timer says, and reports scheduling changes. *)
Inductive step : Z * SlotTimer -> Z * SlotTimer -> Prop :=
  | step_wait clock t d t' clock' :
      wait_until_next_slot oc clock t = Some (d, t') ->
      clock + d <= clock' < from_millis (2 ^ 63) -> step (clock, t) (clock', t')
  | step_update clock t n clock' :
      fits 32 n -> clock <= clock' < from_millis (2 ^ 63) ->
      step (clock, t) (clock', update_scheduling n t).

(** The attempts from a time on, when every sleep is exact: their times and slots. *)
Fixpoint attempts (n : nat) (para relay : Z) (core_count : option Z) (clock offset : Z) :
    option (list (Z * Z)) :=
  match n with
  | O => Some []
  | S n =>
      '(d, slot) ← compute_next_wake_up_time para relay core_count clock offset;
      l ← attempts n para relay core_count (clock + d) offset;
      Some ((clock + d, slot) :: l)
  end.
End Runs.

(** ** Lemmas *)

(** Waiting keeps the slot duration. *)
Lemma wait_slot_duration `{SlotOps} oc clock (t t' : SlotTimer) d :
  wait_until_next_slot oc clock t = Some (d, t') -> slot_duration t' = slot_duration t.
Proof.
  unfold wait_until_next_slot. intros Hw.
  destruct (time_until_next_block _ _ _) as [[d1 next]|]; [|done]. simpl in Hw.
  destruct (catch_up _ _ _) as [[next' b]|]; [|done]. simpl in Hw. by injection Hw as <- <-.
Qed.

Lemma as_millis_add d m : as_millis (d + from_millis m) = as_millis d + m.
Proof. unfold as_millis, from_millis, NANOS_PER_MILLI. by rewrite Z.div_add. Qed.

Lemma as_from_millis m : as_millis (from_millis m) = m.
Proof. unfold as_millis, from_millis, NANOS_PER_MILLI. by rewrite Z.div_mul. Qed.

Lemma as_millis_le a b : a <= b -> as_millis a <= as_millis b.
Proof. intros. unfold as_millis, NANOS_PER_MILLI. by apply Z.div_le_mono. Qed.

Lemma from_millis_le a b : a <= b -> from_millis a <= from_millis b.
Proof. unfold from_millis, NANOS_PER_MILLI. lia. Qed.

Lemma from_as_millis d : from_millis (as_millis d) <= d.
Proof. unfold as_millis, from_millis, NANOS_PER_MILLI. rewrite Z.mul_comm. by apply Z.mul_div_le. Qed.

(** The next attempt is the first multiple of the interval in the future. *)
Lemma next_attempt_spec now interval offset :
  from_millis 1 <= interval -> seen now offset + as_millis interval <= umax 64 ->
  exists ts, time_until_next_attempt now interval offset
      = Some (from_millis (ts - seen now offset), ts) /\
    seen now offset < ts <= seen now offset + as_millis interval /\
    ts = (seen now offset / as_millis interval + 1) * as_millis interval.
Proof.
  intros Hi Hmax. unfold time_until_next_attempt. fold (seen now offset).
  apply as_millis_le in Hi. rewrite as_from_millis in Hi.
  set (n := seen now offset) in *. set (i := as_millis interval) in *.
  assert (Hn : 0 <= n) by (unfold n, seen, saturating_sub; lia).
  assert (Heq : (n + i) / i * i = (n / i + 1) * i).
  { rewrite <- (Z.mul_1_l i) at 1. by rewrite Z.div_add by lia. }
  pose proof (Z.div_mod n i ltac:(lia)). pose proof (Z.mod_pos_bound n i ltac:(lia)).
  exists ((n / i + 1) * i). rewrite (proj2 (Z.eqb_neq i 0)) by lia. rewrite Heq.
  rewrite !wrapping_small by (unfold fits; lia). split; [done|]. split; [lia|done].
Qed.

(** The interval is at least half a second and at most either slot. *)
Lemma interval_bounds para relay cores :
  500 <= para -> from_millis 500 <= relay -> (forall n, cores = Some n -> fits 32 n) ->
  from_millis 500 <= block_production_interval para relay cores
    <= Z.min (from_millis para) relay.
Proof.
  intros Hp%from_millis_le Hr Hc. unfold block_production_interval.
  destruct (_ <? _) eqn:Hlt; [destruct (Z.leb_spec relay (from_millis para))|]; simpl; [|lia..].
  apply Z.ltb_lt in Hlt.
  pose proof (wrapping_fits 32 (as_millis relay / para) ltac:(lia)) as [Hw _].
  set (n := default 1 cores) in *.
  assert (Hdiv : relay / n <= relay).
  { apply Z.div_le_upper_bound; [lia|]. unfold from_millis, NANOS_PER_MILLI in Hr. nia. }
  unfold BLOCK_PRODUCTION_MINIMUM_INTERVAL_MS. lia.
Qed.

Lemma seen_offset offset m : 0 <= m -> seen (offset + from_millis m) offset = m.
Proof. intros. unfold seen, saturating_sub. rewrite as_millis_add. lia. Qed.

(** A sleep of whole milliseconds is seen exactly once the offset has passed. *)
Lemma seen_sleep clock offset m :
  offset <= clock -> 0 <= m -> seen (clock + from_millis m) offset = seen clock offset + m.
Proof.
  intros Hle%as_millis_le Hm. unfold seen, saturating_sub. rewrite as_millis_add. lia.
Qed.

Lemma seen_le clock clock' offset : clock <= clock' -> seen clock offset <= seen clock' offset.
Proof. intros Hle%as_millis_le. unfold seen, saturating_sub. lia. Qed.

Section Lemmas.
Context `{!SlotOps} `{!SlotLaws}.

Lemma wake_up_spec para relay cores clock offset :
  let i := as_millis (block_production_interval para relay cores) in
  0 < para -> from_millis 1 <= block_production_interval para relay cores ->
  seen clock offset + i <= umax 64 ->
  exists ts, compute_next_wake_up_time para relay cores clock offset
      = Some (from_millis (ts - seen clock offset), ts / para) /\
    seen clock offset < ts <= seen clock offset + i /\
    ts = (seen clock offset / i + 1) * i.
Proof.
  intros i Hp Hi Hmax. destruct (next_attempt_spec _ _ _ Hi Hmax) as (ts & Ht & Hts).
  exists ts. split; [|done]. unfold compute_next_wake_up_time.
  rewrite (proj2 (Z.eqb_neq para 0)), Ht by lia. simpl. by rewrite from_timestamp_spec.
Qed.

Lemma attempts_multiples para relay cores offset m b :
  let i := as_millis (block_production_interval para relay cores) in
  0 < para -> from_millis 1 <= block_production_interval para relay cores ->
  0 <= b -> (b + Z.of_nat m) * i <= umax 64 ->
  attempts m para relay cores (offset + from_millis (b * i)) offset
    = Some (map (fun j => (offset + from_millis (j * i), j * i / para)) (seqZ (b + 1) (Z.of_nat m))).
Proof.
  intros i Hp Hi. revert b. induction m as [|m IH]; intros b Hb Hmax; [done|].
  assert (Hipos : 1 <= i) by (unfold i; rewrite <- (as_from_millis 1); by apply as_millis_le).
  assert (Hsee : seen (offset + from_millis (b * i)) offset = b * i) by (apply seen_offset; lia).
  destruct (wake_up_spec para relay cores (offset + from_millis (b * i)) offset Hp Hi)
    as (ts & Hw & _ & Hts).
  { rewrite Hsee. fold i. lia. }
  rewrite Hsee in Hw, Hts. fold i in Hts. rewrite Z.div_mul in Hts by lia. subst ts.
  cbn [attempts]. rewrite Hw. simpl.
  replace (offset + from_millis (b * i) + from_millis ((b + 1) * i - b * i))
    with (offset + from_millis ((b + 1) * i)) by (unfold from_millis; lia).
  rewrite IH by lia. rewrite (seqZ_cons (b + 1)) by lia. simpl.
  by rewrite Nat2Z.inj_succ, Z.pred_succ, Z.add_1_r.
Qed.

Lemma catch_up_spec oc last next :
  (forall ls, last = Some ls -> 0 <= ls /\ ls + 3 <= umax 64 /\ ls <= next) ->
  exists s b, catch_up oc last next = Some (s, b) /\
    (if b : bool then s = next else exists ls, last = Some ls /\ s = ls + 1 /\ s < next) /\
    (forall ls, last = Some ls -> ls <= s /\ (s <= ls + 1 \/ ls + 3 < s)).
Proof.
  intros Hl. unfold catch_up. destruct last as [ls|].
  2: { exists next, true. split; [done|]. split; [done|]. by intros ls. }
  destruct (Hl _ eq_refl) as (Hz & H3 & Hn).
  rewrite !op_add_exact by (unfold fits; lia). simpl.
  destruct (Z.ltb_spec (ls + 1) next); [destruct (Z.leb_spec next (ls + 3))|].
  - exists (ls + 1), false. split_and!; [done|by exists ls|]. intros ? [= <-]. lia.
  - exists next, true. split_and!; [done..|]. intros ? [= <-]. lia.
  - exists next, true. split_and!; [done..|]. intros ? [= <-]. lia.
Qed.

(** ** The invariant of a run: a reported slot has begun. *)
Definition begun (p : Z * SlotTimer) : Prop :=
  timer_ok p.2 /\ time_offset p.2 <= p.1 /\
  forall s, last_reported_slot p.2 = Some s ->
    0 <= s <= seen p.1 (time_offset p.2) / slot_duration_millis p.2.

Lemma slot_millis_ok t : timer_ok t ->
  slot_duration_millis t = as_millis (slot_duration t) /\ (500 <= slot_duration_millis t)%Z.
Proof.
  intros [_ _ [Hl Hu] _]. unfold slot_duration_millis.
  apply as_millis_le in Hl, Hu. rewrite as_from_millis in *.
  rewrite wrapping_small; [done|]. unfold fits, umax. lia.
Qed.

(** The next attempt in a run: in the current slot or the one after. *)
Lemma next_block_spec clock t :
  begun (clock, t) -> clock < from_millis (2 ^ 63) ->
  let p := slot_duration_millis t in
  let n := seen clock (time_offset t) in
  exists ts, time_until_next_block p clock t = Some (from_millis (ts - n), ts / p) /\
    n < ts /\ 0 <= n / p <= 2 ^ 63 /\ n / p <= ts / p <= n / p + 1.
Proof.
  intros (Hok & Hoff & _) Hmax p n. simpl in *.
  destruct (slot_millis_ok t Hok) as [_ Hp]. pose proof Hok as [Hz [Hr Hr'] _ Hc].
  fold p in Hp. destruct (interval_bounds p _ _ Hp Hr Hc) as [Hi1 Hi2].
  assert (Hn : 0 <= n <= 2 ^ 63).
  { unfold n, seen, saturating_sub. apply Z.lt_le_incl, as_millis_le in Hmax.
    rewrite as_from_millis in Hmax. apply as_millis_le in Hz. change (as_millis 0) with 0 in Hz. lia. }
  set (i := as_millis (block_production_interval p (relay_slot_duration t) (last_reported_core_num t))).
  assert (Hi : i <= p /\ i <= 2 ^ 32).
  { split; [rewrite <- (as_from_millis p)|rewrite <- (as_from_millis (2 ^ 32))];
      apply as_millis_le; lia. }
  destruct (wake_up_spec p (relay_slot_duration t) (last_reported_core_num t) clock (time_offset t))
    as (ts & Hw & Hts & _); [lia|unfold from_millis in *; lia|fold n i; unfold umax; lia|].
  fold n i in Hw, Hts. exists ts. split.
  - unfold time_until_next_block, duration_now. by rewrite (proj2 (Z.ltb_ge clock 0)) by lia.
  - split; [lia|]. split.
    + split; [apply Z.div_pos; lia|]. apply Z.div_le_upper_bound; nia.
    + split; [apply Z.div_le_mono; lia|]. rewrite <- (Z.div_add n 1 p) by lia.
      apply Z.div_le_mono; lia.
Qed.

(** A wait from a state of a run: it does not panic, and the slot it reports. *)
Lemma wait_spec oc clock t :
  begun (clock, t) -> clock < from_millis (2 ^ 63) ->
  exists r s t', wait_until_next_slot oc clock t = Some (from_millis r, t') /\
    t' = put_last_reported_slot (Some s) t /\ 0 <= r /\ 0 <= s /\
    s <= (seen clock (time_offset t) + r) / slot_duration_millis t /\
    (forall ls, last_reported_slot t = Some ls -> ls <= s /\ (s <= ls + 1 \/ ls + 3 < s)) /\
    (r = 0 \/ seen clock (time_offset t) / slot_duration_millis t <= s).
Proof.
  intros Hb Hmax. destruct (next_block_spec clock t Hb Hmax) as (ts & Hw & Hts & Hnp & Hdiv).
  destruct Hb as (_ & _ & Hlast). simpl in Hlast.
  set (p := slot_duration_millis t) in *. set (n := seen clock (time_offset t)) in *.
  destruct (catch_up_spec oc (last_reported_slot t) (ts / p)) as (s & b & Hcu & Hb & Hord).
  { intros ls Hls. specialize (Hlast _ Hls). unfold umax. lia. }
  unfold wait_until_next_slot. fold p. rewrite Hw. simpl. rewrite Hcu. simpl. destruct b.
  - exists (ts - n), s. eexists. split; [done|]. split; [done|].
    replace (n + (ts - n)) with ts by lia. subst s. split_and!; try lia; done.
  - destruct Hb as (ls & Hls & -> & Hlt). exists 0, (ls + 1). eexists.
    specialize (Hlast _ Hls). rewrite Z.add_0_r.
    split; [done|]. split; [done|]. split_and!; try lia; done.
Qed.

Lemma step_begun oc p q : step oc p q -> begun p -> p.1 < from_millis (2 ^ 63) ->
  begun q /\ q.1 < from_millis (2 ^ 63).
Proof.
  intros [clock t d t' clock' Hw [Hc Hm] | clock t n clock' Hn [Hc Hm]] Hb Hmax; simpl in *.
  - destruct (wait_spec oc clock t Hb Hmax) as (r & s & t1 & Hw' & -> & Hr & Hs & Hle & _).
    rewrite Hw' in Hw. simplify_eq. destruct Hb as ([] & Hoff & _). simpl in *.
    split; [|done]. split; [by split|]. simpl.
    split; [unfold from_millis, NANOS_PER_MILLI in Hc; lia|]. intros s' [= <-]. split; [done|].
    etransitivity; [exact Hle|]. rewrite <- (seen_sleep clock) by done.
    apply Z.div_le_mono; [|by apply seen_le].
    destruct (slot_millis_ok t) as [_ Hp]; [by split|].
    change (slot_duration_millis (put_last_reported_slot _ t)) with (slot_duration_millis t). lia.
  - destruct Hb as ([Hz Hr Hp Hcore] & Hoff & Hl). simpl in *. split; [|done].
    assert (Hok : timer_ok (update_scheduling n t)) by (split; simpl; [done..|by intros ? [= <-]]).
    split; [done|]. simpl. split; [lia|]. intros s Hs. specialize (Hl s Hs).
    destruct (slot_millis_ok t) as [_ Hp']; [by split|].
    change (slot_duration_millis (update_scheduling n t)) with (slot_duration_millis t).
    split; [lia|]. etransitivity; [apply Hl|]. apply Z.div_le_mono; [lia|by apply seen_le].
Qed.
End Lemmas.

Section Properties.
Context `{!SlotOps} `{!SlotLaws}.

(** C31: the slots the collator authors for are in order: in every run of a fresh
    timer, with scheduling changes and sleeps that last at least as long as asked,
    the next wait does not panic; it reports a slot that has begun by the time the
    wait is over, never an earlier one than before, and only skips slots when at
    least three are missed; a wait that sleeps reports at least the current slot. *)
Theorem slots_in_order oc t0 c0 c t :
  timer_ok t0 -> last_reported_slot t0 = None -> time_offset t0 <= c0 < from_millis (2 ^ 63) ->
  rtc (step oc) (c0, t0) (c, t) ->
  exists d s t', wait_until_next_slot oc c t = Some (d, t') /\ last_reported_slot t' = Some s /\
    0 <= d /\
    s <= seen (c + d) (time_offset t) / slot_duration_millis t /\
    (forall ls, last_reported_slot t = Some ls -> ls <= s /\ (s <= ls + 1 \/ ls + 3 < s)) /\
    (d = 0 \/ seen c (time_offset t) / slot_duration_millis t <= s).
Proof.
  intros Hok Hnone [Hoff Hmax] Hr.
  assert (H1 : begun (c, t) /\ c < from_millis (2 ^ 63)).
  { refine (rtc_invariant (step oc) (fun p => begun p /\ p.1 < from_millis (2 ^ 63)) _ _ _ Hr _).
    - intros p q [Hb Hc] Hs. by eapply step_begun.
    - split; [|done]. split; [done|]. split; [done|]. simpl. by rewrite Hnone. }
  destruct H1 as [Hb Hc].
  destruct (wait_spec oc c t Hb Hc) as (r & s & t' & Hw & -> & Hr0 & Hs0 & Hle & Hord & Hcur).
  exists (from_millis r), s, (put_last_reported_slot (Some s) t).
  split_and!; [done|done|unfold from_millis, NANOS_PER_MILLI; lia| |done|].
  - rewrite seen_sleep; [done|apply Hb|done].
  - destruct Hcur as [->|]; [by left|by right].
Qed.

(** One attempt per core and relay slot: with parachain slots at least as long
    as a relay slot of [n * q] milliseconds and [n] assigned cores (one, when the
    number is unknown or zero), exact sleeps from the start of relay slot [k] lead to
    [n] attempts [q] milliseconds apart, the last at the start of the next relay
    slot, each for the parachain slot its time lies in. *)
Theorem attempts_per_relay_slot para n q k cores offset :
  500 <= q -> Z.max 1 (default 1 cores) = n -> n * q <= para -> 0 <= k ->
  (k + 1) * (n * q) <= umax 64 ->
  attempts (Z.to_nat n) para (from_millis (n * q)) cores
      (offset + from_millis (k * (n * q))) offset
    = Some (map (fun j => (offset + from_millis (j * q), j * q / para)) (seqZ (k * n + 1) n)).
Proof.
  intros Hq Hn Hp Hk Hmax.
  assert (Hi : block_production_interval para (from_millis (n * q)) cores = from_millis q).
  { unfold block_production_interval. rewrite as_from_millis.
    assert (Hd : n * q / para = if decide (n * q = para) then 1 else 0).
    { case_decide as He; [rewrite He; apply Z.div_same; lia|apply Z.div_small; lia]. }
    rewrite wrapping_small by (unfold fits, umax; rewrite Hd; case_decide; lia).
    rewrite (proj2 (Z.leb_le (from_millis (n * q)) _)) by by apply from_millis_le.
    rewrite Hd. unfold BLOCK_PRODUCTION_MINIMUM_INTERVAL_MS.
    destruct (Z.ltb_spec (if decide (n * q = para) then 1 else 0) (default 1 cores)) as [Hlt|Hge];
      cbn [andb].
    - assert (default 1 cores = n) as -> by (destruct (decide (n * q = para)); lia).
      replace (from_millis (n * q)) with (from_millis q * n) by (unfold from_millis; lia).
      rewrite Z.div_mul by lia. pose proof (from_millis_le 500 q). lia.
    - assert (n = 1) as -> by (destruct (decide (n * q = para)); lia).
      pose proof (from_millis_le (1 * q) para). rewrite Z.mul_1_l in *. lia. }
  pose proof (attempts_multiples para (from_millis (n * q)) cores offset (Z.to_nat n) (k * n)) as Ha.
  cbv zeta in Ha. rewrite Hi, as_from_millis in Ha.
  replace (k * (n * q)) with (k * n * q) by lia. rewrite Ha; clear Ha.
  - by rewrite Z2Nat.id by lia.
  - lia.
  - pose proof (from_millis_le 1 q). lia.
  - nia.
  - rewrite Z2Nat.id by lia. nia.
Qed.

(** Authoring ends a second before the slot: when slot [s] was reported and the
    clock is read, the authoring duration the timer grants is the requested one
    shortened to the time of the next attempt and to one second before the end of
    the slot, so authoring from now on ends in time; it grants none exactly when that
    deadline has passed, or cuts the requested time below 400 milliseconds. *)
Theorem authoring_within_slot oc clock clock' authoring t s :
  begun (clock, t) -> clock < from_millis (2 ^ 63) -> 0 <= clock' ->
  last_reported_slot t = Some s -> (s + 1) * slot_duration_millis t <= umax 64 ->
  let slot_end := from_millis ((s + 1) * slot_duration_millis t) in
  let now := saturating_sub clock' (time_offset t) in
  let deadline := slot_end - from_millis 1000 - now in
  exists wait next, time_until_next_block (slot_duration_millis t) clock t = Some (wait, next) /\
    match SlotTimer_adjust_authoring_duration oc clock clock' authoring t with
    | None => False
    | Some None => deadline <= 0 \/ deadline < from_millis 400 /\ deadline <= authoring
    | Some (Some d) =>
        0 < deadline /\ (deadline <= authoring -> from_millis 400 <= deadline) /\
        d = Z.min (Z.min authoring deadline) wait /\ now + d + from_millis 1000 <= slot_end
    end.
Proof.
  intros Hb Hmax Hc' Hs Hfit slot_end now deadline.
  destruct (next_block_spec clock t Hb Hmax) as (ts & Hw & _).
  eexists _, _. split; [exact Hw|]. unfold SlotTimer_adjust_authoring_duration. rewrite Hw.
  unfold time_until_next_slot_change, duration_now, compute_time_until_next_slot_change.
  rewrite (proj2 (Z.ltb_ge clock' 0)), Hs by lia. simpl.
  destruct Hb as (Hok & _ & Hl). specialize (Hl s Hs). simpl in Hl.
  destruct (slot_millis_ok t Hok) as [_ Hp].
  rewrite op_add_exact by (unfold fits; nia). simpl.
  rewrite timestamp_spec, (proj2 (Z.leb_le _ _) Hfit). fold slot_end now.
  unfold adjust_authoring_duration, BLOCK_PRODUCTION_ADJUSTMENT_MS. cbn [fst snd andb].
  assert (Hd : saturating_sub (saturating_sub slot_end now) (from_millis 1000) = Z.max 0 deadline).
  { unfold saturating_sub, deadline, from_millis, NANOS_PER_MILLI. lia. }
  rewrite Hd. change (saturating_sub BLOCK_PRODUCTION_MINIMUM_INTERVAL_MS _) with (from_millis 400).
  destruct (Z.eqb_spec (Z.max 0 deadline) 0); [left; lia|].
  rewrite Z.max_r by lia. unfold deadline in *.
  destruct (Z.leb_spec (slot_end - from_millis 1000 - now) authoring).
  - destruct (Z.ltb_spec (slot_end - from_millis 1000 - now) (from_millis 400)); [by right|].
    split_and!; lia.
  - split_and!; lia.
Qed.
End Properties.

(** ** A concrete clock: six-second relay and parachain slots *)
Section Witnesses.
#[local] Instance sample_slots : SlotOps := {|
  from_timestamp t d := if d =? 0 then None else Some (t / d);
  timestamp s d := if s * d <=? umax 64 then Some (s * d) else None;
|}.

#[local] Instance sample_slots_laws : SlotLaws.
Proof.
  split; [|done]. intros t d Hd. simpl. by rewrite (proj2 (Z.eqb_neq d 0)) by lia.
Qed.

Definition sample_timer : SlotTimer :=
  new_with_offset (from_millis 1000) (from_millis 6000) (Some (from_millis 6000)).

Lemma sample_timer_ok : timer_ok sample_timer.
Proof. split; [by vm_compute|by vm_compute|by vm_compute|]. done. Qed.

(** Three cores, and a first wait that sleeps two seconds. *)
Definition sample_waited : SlotTimer := put_last_reported_slot (Some 2) (update_scheduling 3 sample_timer).

Lemma sample_run :
  rtc (step true) (from_millis 13000, sample_timer) (from_millis 15000, sample_waited).
Proof.
  apply (rtc_l _ _ (from_millis 13000, update_scheduling 3 sample_timer)).
  - apply step_update; [by vm_compute|by vm_compute].
  - apply rtc_once. eapply step_wait; [vm_compute; reflexivity|by vm_compute].
Qed.

Lemma slots_in_order_witness :
  exists d s t', wait_until_next_slot true (from_millis 15000) sample_waited = Some (d, t') /\
    last_reported_slot t' = Some s /\ 2 <= s.
Proof.
  destruct (slots_in_order true sample_timer (from_millis 13000) (from_millis 15000) sample_waited
    sample_timer_ok eq_refl) as (d & s & t' & Hw & Hs & _ & _ & Hle & _);
    [by vm_compute|exact sample_run|].
  exists d, s, t'. split; [exact Hw|]. split; [exact Hs|]. exact (proj1 (Hle 2 eq_refl)).
Defined.

Lemma attempts_per_relay_slot_witness :
  attempts (Z.to_nat 3) 6000 (from_millis (3 * 2000)) (Some 3) (from_millis (2 * (3 * 2000))) 0
    = Some [(from_millis 14000, 2); (from_millis 16000, 2); (from_millis 18000, 3)].
Proof.
  exact (attempts_per_relay_slot 6000 3 2000 2 (Some 3) 0 ltac:(lia) eq_refl ltac:(lia) ltac:(lia)
    ltac:(unfold umax; lia)).
Defined.

Lemma authoring_within_slot_witness :
  match SlotTimer_adjust_authoring_duration true (from_millis 15000) (from_millis 15100)
      (from_millis 2000) sample_waited with
  | Some (Some d) => from_millis 14100 + d + from_millis 1000 <= from_millis 18000
  | _ => False
  end.
Proof.
  assert (Hb : begun (from_millis 15000, sample_waited)).
  { split; [|split; [by vm_compute|]].
    - split; [by vm_compute|by vm_compute|by vm_compute|]. intros n [= <-]. by vm_compute.
    - intros s [= <-]. by vm_compute. }
  destruct (authoring_within_slot true (from_millis 15000) (from_millis 15100) (from_millis 2000)
    sample_waited 2 Hb) as (wait & next & _ & Hd); [by vm_compute|by vm_compute|done|by vm_compute|].
  destruct (SlotTimer_adjust_authoring_duration _ _ _ _ _) as [[d|]|] eqn:Hr.
  - exact (proj2 (proj2 (proj2 Hd))).
  - vm_compute in Hr. discriminate Hr.
  - exact Hd.
Defined.

(** Cases of the code's own tests: slot duration, cores, clock, offset and wait. *)
Example test_get_next_slot :
  map (fun '(para, cores, now, offset) =>
      as_millis <$> (fst <$> compute_next_wake_up_time para (from_millis 6000) cores
        (from_millis now) (from_millis offset)))
    [(6000, Some 1, 1000, 0); (6000, Some 0, 6000, 0); (6000, None, 1000, 0);
     (6000, Some 1, 12000, 7000); (6000, Some 3, 11999, 0); (6000, Some 100, 0, 0);
     (2000, Some 3, 3000, 0); (12000, None, 6100, 0); (12000, Some 3, 8100, 0)]
  = [Some 5000; Some 6000; Some 5000; Some 1000; Some 1; Some 500; Some 1000; Some 5900; Some 1900].
Proof. reflexivity. Qed.
End Witnesses.
