(* ===== verification/Runtime.v ===== *)
(** * The authorship pipeline of a runtime
    ([template/runtime/src/{lib,pallet_account_set}.rs])

    The pallets of the other files composed: the template runtime takes the account
    lookup and the potential authors from its account set, filters them with the
    author slot filter and checks authorship with author-inherent, in the slot that
    is the relay chain's block number.  The interfaces between the pallets are
    instantiated by their implementations, and the theorems span all of them.

    The last part composes author-inherent with the randomness pallet over the
    author-mapping pallet, which is how a runtime gives every author a VRF key. *)
From Stdlib Require Import ZArith Lia.
From stdpp Require Import prelude gmap fin_maps sorting.
From S2P Require Import Prelude.
From S2P Require Import Interfaces.
From S2P Require Import NimbusPrimitives.
From S2P Require Import AuthorMapping.
From S2P Require Import SlotFilter.
From S2P Require Import AuthorInherent.
From S2P Require Import Randomness.
From S2P Require Import RandomnessHooks.

Local Open Scope Z_scope.

(** ** The account set *)
Section AccountSets.
Context {AccountId NimbusId : Type} `{EqDecision AccountId} `{Countable NimbusId}.

(** [StoredAccounts], [Mapping] *)
Record AccountSet := mkAccountSet {
  StoredAccounts : list AccountId;
  Mapping : gmap NimbusId AccountId;
}.

Definition insert_mapping (account_id : AccountId) (author_id : NimbusId) (s : AccountSet) : AccountSet :=
  mkAccountSet (StoredAccounts s ++ [account_id]) (<[author_id := account_id]> (Mapping s)).

(** [GenesisConfig::build] on an empty storage *)
Definition set_genesis_build (mapping : list (AccountId * NimbusId)) : AccountSet :=
  foldl (fun s '(account_id, author_id) => insert_mapping account_id author_id s)
    (mkAccountSet [] ∅) mapping.

(** [impl CanAuthor for Pallet], [impl AccountLookup for Pallet] *)
#[export] Instance account_set_can_author : CanAuthor AccountSet AccountId :=
  fun s author _ => Some (bool_decide (author ∈ StoredAccounts s)).

#[export] Instance account_set_lookup : AccountLookup AccountSet NimbusId AccountId :=
  fun s author => Mapping s !! author.
End AccountSets.
Arguments AccountSet AccountId NimbusId {_ _}.

(** ** The runtime *)
Section Runtime.
Context {Origin AccountId NimbusId Percent D : Type}.
Context `{EqDecision AccountId} `{Countable NimbusId}.
Context `{Codec NimbusId} `{DigestItemOps D}.

(** The storage that authorship depends on: the account set, the slot filter, the
    randomness of the block, the relay chain's block number. *)
Record World := mkWorld {
  PotentialAuthorSet : AccountSet AccountId NimbusId;
  AuthorFilter : SlotFilter.State Percent;
  RandomnessCollectiveFlip : list Z -> list Z;
  relay_chain_block_number : Z;
}.

Context (root : Origin -> bool) (ceil : Percent -> Z -> Z) (percent : Z -> Percent).
Context (TI : AuthorInherent.Config Origin).

(** [impl pallet_author_slot_filter::Config for Runtime] *)
Definition filter_config (w : World) : SlotFilter.Config Origin AccountId Percent := {|
  RandomnessSource := RandomnessCollectiveFlip w;
  PotentialAuthors := StoredAccounts (PotentialAuthorSet w);
  ensure_root := root;
  mul_ceil := ceil;
  from_percent := percent;
|}.

(** [impl pallet_author_inherent::Config for Runtime]: [CanAuthor], [AccountLookup]
    and [SlotBeacon] *)
#[local] Instance runtime_can_author : CanAuthor World AccountId :=
  fun w author sl => can_author (filter_config w, AuthorFilter w) author sl.

#[local] Instance runtime_account_lookup : AccountLookup World NimbusId AccountId :=
  fun w author => lookup_account (PotentialAuthorSet w) author.

#[local] Instance runtime_slot_beacon : SlotBeacon World :=
  slot_of_block_number relay_chain_block_number.

(** A block as author-inherent executes it in this runtime. *)
Definition execute_logs (logs : list D) (calls : list (Origin * AuthorInherent.Call)) (w : World)
    (s : AuthorInherent.State AccountId) : outcome _ _ unit :=
  run_block (NimbusId := NimbusId) (D := D) TI w logs calls s.

(** Importing the block that [author] builds: its pre-digest and the inherent. *)
Definition import_block (author : NimbusId) (none : Origin) (w : World)
    (s : AuthorInherent.State AccountId) : outcome _ _ unit :=
  execute_logs [nimbus_pre_digest author] [(none, kick_off_authorship_validation_call)] w s.

(** Initialising a block: its number and the hash of its parent determine the randomness
    that [RandomnessSource::on_initialize] leaves; the code outside the repository that
    does is [flip]. *)
Context {Hdr Hash : Type} (header_number : Hdr -> Z) (header_hash : Hdr -> Hash).
Context (flip : Z -> Hash -> (list Z -> list Z) -> list Z -> list Z) (oc : bool).

Definition initialize (number : Z) (parent_hash : Hash) (w : World) : World :=
  mkWorld (PotentialAuthorSet w) (AuthorFilter w)
    (flip number parent_hash (RandomnessCollectiveFlip w)) (relay_chain_block_number w).

(** [NimbusApi::can_author]: the prediction for the block on top of [parent_header], in
    the state it will be executed in; [None] is a panic. *)
Definition api_can_author (author : NimbusId) (slot : Z) (parent_header : Hdr) (w : World) : option bool :=
  next ← op_add oc 32 (header_number parent_header) 1;
  can_author_nimbus (W := World) (AuthorId := AccountId)
    (initialize next (header_hash parent_header) w) author slot.

(** Importing that block when the relay chain's block number is [slot] in it. *)
Definition world_on (parent_header : Hdr) (slot : Z) (w : World) : World :=
  let w := initialize (header_number parent_header + 1) (header_hash parent_header) w in
  mkWorld (PotentialAuthorSet w) (AuthorFilter w) (RandomnessCollectiveFlip w) slot.

Definition import_on (parent_header : Hdr) (author : NimbusId) (none : Origin) (slot : Z) (w : World)
    (s : AuthorInherent.State AccountId) : outcome _ _ unit :=
  import_block author none (world_on parent_header slot w) s.
End Runtime.
Arguments World AccountId NimbusId Percent {_ _}.

(** ** Lemmas *)
Section Lemmas.
Context {Origin AccountId NimbusId Percent D : Type}.
Context `{!EqDecision AccountId} `{Countable NimbusId}.
Context `{!Codec NimbusId} `{!CodecLaws NimbusId} `{!DigestItemOps D} `{!DigestItemLaws D}.
Context (root : Origin -> bool) (ceil : Percent -> Z -> Z) (percent : Z -> Percent).
Context (TI : AuthorInherent.Config Origin).
Implicit Types (mapping : list (AccountId * NimbusId)) (w : World AccountId NimbusId Percent).

Lemma set_genesis_snoc mapping a (n : NimbusId) :
  set_genesis_build (mapping ++ [(a, n)]) = insert_mapping a n (set_genesis_build mapping).
Proof. unfold set_genesis_build. by rewrite foldl_app. Qed.

(** At genesis every account of the list is stored; with distinct ids the lookup is
    the list. *)
Lemma genesis_accounts mapping :
  StoredAccounts (set_genesis_build mapping) = mapping.*1 /\
  (NoDup mapping.*2 -> forall a n, Mapping (set_genesis_build mapping) !! n = Some a <-> (a, n) ∈ mapping).
Proof.
  induction mapping as [|[b m] mapping [IHs IHm]] using rev_ind.
  - split; [done|]. intros _ a n. simpl. rewrite lookup_empty. set_solver.
  - rewrite set_genesis_snoc, !fmap_app. simpl. split; [by rewrite IHs|].
    rewrite NoDup_app. intros (Hnd & Hm & _) a n. specialize (IHm Hnd a n).
    rewrite elem_of_app, list_elem_of_singleton, lookup_insert_Some. split.
    + intros [[<- <-]|[Hne Hl]]; [by right|left; by apply IHm].
    + intros [Hin|[= -> ->]]; [right|by left]. split; [|by apply IHm].
      intros <-. apply (Hm m); [|set_solver]. apply list_elem_of_fmap. by exists (a, m).
Qed.

(** A block is accepted exactly if the account of its author may author. *)
Lemma import_spec (n : NimbusId) o w s :
  AuthorInherent.ensure_none TI o = true ->
  import_block (D := D) root ceil percent TI n o w s =
    match lookup_account (PotentialAuthorSet w) n with
    | Some a => match can_author (filter_config root ceil percent w, AuthorFilter w) a
                        (relay_chain_block_number w) with
                | Some true => Ok tt (AuthorInherent.mkState (Some a) false)
                | _ => Panic
                end
    | None => Panic
    end.
Proof.
  intros Ho. unfold import_block, execute_logs, run_block, AuthorInherent.on_initialize, nimbus_pre_digest.
  cbn [omap list_omap]. rewrite as_pre_runtime_PreRuntime. cbn [find_author].
  rewrite bool_decide_true by done. unfold_M. rewrite decode_encode_nil. simpl.
  unfold lookup_account at 1, runtime_account_lookup.
  destruct (lookup_account (PotentialAuthorSet w) n) as [a|]; [|done]. simpl.
  unfold apply_extrinsic, transactional, AuthorInherent.dispatch, kick_off_authorship_validation,
    AuthorInherent.get, AuthorInherent.on_finalize, take_included. unfold_M. simpl. rewrite Ho. simpl.
  unfold can_author at 1, runtime_can_author, slot, runtime_slot_beacon, slot_of_block_number.
  by destruct (can_author _ a _) as [[]|].
Qed.

(** The block of an author that may author, with further digests and rejected calls. *)
Lemma execute_accepted (n : NimbusId) more o calls w s a :
  AuthorInherent.ensure_none TI o = true ->
  Forall (fun oc => AuthorInherent.ensure_none TI oc.1 = false) calls ->
  lookup_account (PotentialAuthorSet w) n = Some a ->
  can_author (filter_config root ceil percent w, AuthorFilter w) a (relay_chain_block_number w) = Some true ->
  execute_logs (D := D) root ceil percent TI (nimbus_pre_digest n :: more)
    ((o, kick_off_authorship_validation_call) :: calls) w s
    = Ok tt (AuthorInherent.mkState (Some a) false).
Proof.
  intros Ho Hcalls Hl Hc. unfold execute_logs.
  eapply (inherent_block TI w _ o calls s NIMBUS_ENGINE_ID (encode n) _ n [] a true); try done.
  - cbn [omap list_omap]. unfold nimbus_pre_digest.
    rewrite as_pre_runtime_PreRuntime, filter_cons_True by done. done.
  - by rewrite <- (app_nil_r (encode n)), decode_encode.
Qed.

(** A block that runs to its end was of an author that may author. *)
Lemma execute_logs_Ok lg calls w s s' :
  AuthorInherent.InherentIncluded s = false ->
  execute_logs (D := D) root ceil percent TI lg calls w s = Ok tt s' ->
  AuthorInherent.InherentIncluded s' = false /\
  exists a, AuthorInherent.Author s' = Some a /\
    can_author (filter_config root ceil percent w, AuthorFilter w) a (relay_chain_block_number w) = Some true /\
    match filter (fun p : list Z * list Z => p.1 = NIMBUS_ENGINE_ID) (omap as_pre_runtime lg) with
    | (_, data) :: _ => exists n r, decode data = Some (n, r) /\ lookup_account (PotentialAuthorSet w) n = Some a
    | [] => AuthorInherent.Author s = Some a
    end.
Proof.
  intros Hf (o & a & Ho & Ha & Hca & Hi & Hs')%run_block_Ok; [|done]. split; [done|].
  exists a. split; [done|]. split; [exact Hca|].
  apply find_author_Ok in Ho. destruct (filter _ _) as [|[i data] l]; [by subst o|].
  destruct Ho as (n & r & a' & Hd & Hl & ->). simplify_eq. eauto.
Qed.

(** The answer of the API, taken apart. *)
Lemma api_can_author_true {Hdr Hash} (header_number : Hdr -> Z) (header_hash : Hdr -> Hash) flip oc
    (parent : Hdr) (n : NimbusId) sl w :
  fits 32 (header_number parent + 1) ->
  api_can_author root ceil percent header_number header_hash flip oc n sl parent w = Some true ->
  let w' := world_on header_number header_hash flip parent sl w in
  exists a, lookup_account (PotentialAuthorSet w') n = Some a /\
    can_author (filter_config root ceil percent w', AuthorFilter w') a (relay_chain_block_number w') = Some true.
Proof.
  intros Hp. unfold api_can_author. rewrite op_add_exact by done. simpl. unfold can_author_nimbus.
  unfold lookup_account at 1, runtime_account_lookup. simpl.
  destruct (lookup_account (PotentialAuthorSet w) n) as [a|]; [|done]. intros Hc. by exists a.
Qed.

Lemma api_can_author_intro {Hdr Hash} (header_number : Hdr -> Z) (header_hash : Hdr -> Hash) flip oc
    (parent : Hdr) (n : NimbusId) sl w a :
  fits 32 (header_number parent + 1) ->
  let w' := world_on header_number header_hash flip parent sl w in
  lookup_account (PotentialAuthorSet w') n = Some a ->
  can_author (filter_config root ceil percent w', AuthorFilter w') a (relay_chain_block_number w') = Some true ->
  api_can_author root ceil percent header_number header_hash flip oc n sl parent w = Some true.
Proof.
  intros Hp w' Hl Hc. unfold api_can_author. rewrite op_add_exact by done. simpl. unfold can_author_nimbus.
  unfold lookup_account at 1, runtime_account_lookup. simpl in *. rewrite Hl. exact Hc.
Qed.
End Lemmas.

(** ** Properties *)
Section Properties.
Context {Origin AccountId NimbusId Percent D : Type}.
Context `{!EqDecision AccountId} `{Countable NimbusId}.
Context `{!Codec NimbusId} `{!CodecLaws NimbusId} `{!DigestItemOps D} `{!DigestItemLaws D}.
Context `{!Codec Z}.
Context (root : Origin -> bool) (ceil : Percent -> Z -> Z) (percent : Z -> Percent).
Context (TI : AuthorInherent.Config Origin).
Implicit Types (mapping : list (AccountId * NimbusId)) (w : World AccountId NimbusId Percent).

(** The runtime API predicts block import: on top of any parent below the last block
    number, a block of an author, consisting of its pre-digest and the inherent, is
    accepted exactly when the API, asked in the parent's state, answers that the author
    may author in its slot, and then stores the author's account; in every other case,
    the author being unknown, not drawn or the draw failing, the block panics. *)
Theorem api_predicts_import {Hdr Hash} (header_number : Hdr -> Z) (header_hash : Hdr -> Hash) flip oc
    (parent : Hdr) (n : NimbusId) o sl w s :
  AuthorInherent.ensure_none TI o = true -> fits 32 (header_number parent + 1) ->
  import_on (D := D) root ceil percent TI header_number header_hash flip parent n o sl w s =
    match api_can_author root ceil percent header_number header_hash flip oc n sl parent w with
    | Some true => Ok tt (AuthorInherent.mkState (lookup_account (PotentialAuthorSet w) n) false)
    | _ => Panic
    end.
Proof.
  intros Ho Hp. unfold import_on, world_on. rewrite import_spec by done. unfold api_can_author.
  rewrite op_add_exact by done. simpl. unfold can_author_nimbus.
  unfold lookup_account at 2, runtime_account_lookup. simpl.
  destruct (lookup_account (PotentialAuthorSet w) n) as [a|]; [|done].
  unfold can_author at 2, runtime_can_author. done.
Qed.

(** The chain stays live and in the hands of its genesis authors: with a
    non-empty genesis set of accounts with distinct ids and the filter in any state
    it can reach, in every slot some author of the set gets its block accepted, and
    every accepted block is by an author of the set and stores its account. *)
Theorem genesis_authors_author mapping o w s :
  (forall l n rest, decode l = Some (n, rest) -> fits 32 n) ->
  (forall p n, fits 32 (ceil p n)) ->
  AuthorInherent.ensure_none TI o = true ->
  mapping <> [] -> NoDup mapping.*2 -> PotentialAuthorSet w = set_genesis_build mapping ->
  SlotFilter.reachable (filter_config root ceil percent w) (AuthorFilter w) ->
  (exists a n, (a, n) ∈ mapping /\
    import_block (D := D) root ceil percent TI n o w s = Ok tt (AuthorInherent.mkState (Some a) false)) /\
  (forall n u s', import_block (D := D) root ceil percent TI n o w s = Ok u s' ->
    exists a, (a, n) ∈ mapping /\ AuthorInherent.Author s' = Some a).
Proof.
  intros Hdec Hceil Ho Hne Hnd Hset Hreach.
  destruct (genesis_accounts mapping) as [Hacc Hmap]. specialize (Hmap Hnd).
  rewrite <- Hset in Hacc, Hmap.
  assert (Hlook : forall n a, lookup_account (PotentialAuthorSet w) n = Some a <-> (a, n) ∈ mapping)
    by (intros; apply Hmap).
  split.
  - set (T := filter_config root ceil percent w) in *.
    assert (Hauth : exists a, a ∈ PotentialAuthors T /\
      can_author (T, AuthorFilter w) a (relay_chain_block_number w) = Some true).
    { apply (author_exists T Hdec Hceil); [done|]. simpl. rewrite Hacc. by destruct mapping. }
    destruct Hauth as (a & Ha & Hca). simpl in Ha. rewrite Hacc in Ha.
    apply list_elem_of_fmap in Ha as ([a' n] & -> & Hin). exists a', n. split; [done|].
    rewrite import_spec by done. apply Hlook in Hin. rewrite Hin. fold T. simpl in Hca. by rewrite Hca.
  - intros n u s'. rewrite import_spec by done.
    destruct (lookup_account (PotentialAuthorSet w) n) as [a|] eqn:Hl; [|done].
    destruct (can_author _ a _) as [[]|]; [|done..]. intros [= _ <-]. exists a. simpl.
    split; [by apply Hlook|done].
Qed.
End Properties.

(** ** Authors and their VRF keys

    A runtime whose account lookup and VRF keys both come from author-mapping; [R] is
    the rest of its storage. *)
Section VrfAuthors.
Context {Origin O AccountId NimbusId VrfId LB R : Type}.
Context {A H160 Hash L X PublicKey Output Proof D : Type}.
Context `{Countable AccountId} `{Countable NimbusId} `{!EqDecision A} `{!EqDecision H160}.
Context `{!Codec NimbusId} `{!Codec (Output * Proof)} `{!Codec Hash} `{!DigestItemOps D}.
Context `{!Currency A L X} `{!VrfScheme VrfId PublicKey Hash Output Proof}.

Abbreviation W := (AuthorMapping.State AccountId NimbusId VrfId LB * R)%type.

#[local] Instance mapped_accounts : AccountLookup W NimbusId AccountId :=
  fun w author => lookup_account w.1 author.
#[local] Instance mapped_keys : KeysLookup W NimbusId VrfId :=
  fun w author => lookup_keys w.1 author.
Context `{!CanAuthor W AccountId} `{!SlotBeacon W}.
Context (TI : AuthorInherent.Config Origin) (TR : Randomness.Config O A H160 Hash).

(** [v] is the output of a VRF proof over [input] that verifies under [key]. *)
Definition output_of_key (key : VrfId) (input v : Hash) : Prop :=
  exists pk out proof, from_bytes key = Some pk /\ vrf_verify pk input out proof = true /\
    fst <$> (make_bytes (Proof := Proof) pk input out ≫= decode) = Some v.

(** The author of a block owns the VRF key: when a block with exactly one
    nimbus pre-digest is initialised by the randomness pallet and runs to the end for
    author-inherent, its eligible author and the key under which its VRF output
    verified come from one and the same registration of author-mapping. *)
Theorem author_owns_vrf_key (w : W) (logs : list D) calls s s' (rs rs' : Randomness.State H160 Hash L) :
  AuthorInherent.InherentIncluded s = false ->
  run_block (AuthorId := AccountId) (NimbusId := NimbusId) TI w logs calls s = Ok tt s' ->
  NotFirstBlock rs = true ->
  RandomnessHooks.on_initialize (X := X) (NimbusId := NimbusId) TR false w logs rs = Ok tt rs' ->
  length (filter (fun p : list Z * list Z => p.1 = NIMBUS_ENGINE_ID) (omap as_pre_runtime logs)) = 1%nat ->
  exists n info v,
    MappingWithDeposit w.1 !! n = Some info /\
    AuthorInherent.Author s' = Some (account info) /\
    can_author w (account info) (slot w) = Some true /\
    LocalVrfOutput rs' = Some v /\
    output_of_key (keys info) (default (default_hash TR) (LocalVrfOutput rs)) v.
Proof.
  intros Hf Hrun Hnf Hi Hone.
  destruct (run_block_Ok TI w _ _ _ _ Hf Hrun) as (o & a & Ho & Ha & Hca & _ & Hoa).
  apply find_author_Ok in Ho.
  unfold RandomnessHooks.on_initialize in Hi. unfold mbind at 1, M_bind at 1, gets at 1 in Hi.
  rewrite Hnf in Hi. apply verify_and_set_output_Ok in Hi as (v & Hv & ->).
  unfold get_and_verify_randomness in Hv.
  destruct (scan_digests w _ None) as [[[out proof] k]|] eqn:Hscan; [|done]. simpl in Hv.
  apply scan_digests_Some in Hscan as (pre & data & post & Hlogs & _ & _ & Hk).
  destruct k as [key|]; [|done]. simpl in Hv.
  destruct (from_bytes key) as [pk|] eqn:Hpk; [|done]. simpl in Hv.
  destruct (vrf_verify pk _ out proof) eqn:Hver; [|done].
  destruct (last (filter _ pre)) as [[i nd]|] eqn:Hl; [|done]. apply last_Some in Hl as [l0 Hpre].
  rewrite Hlogs, filter_app, Hpre in Hone, Ho.
  destruct l0 as [|? l0]; [|rewrite !length_app in Hone; simpl in Hone; lia].
  simpl in Ho. destruct Ho as (n & r & a' & Hd & Hacc & ->). rewrite Hd in Hk. simpl in Hk.
  unfold lookup_account, mapped_accounts, mapping_account_lookup, lookup_account, account_id_of in Hacc.
  unfold lookup_keys, mapped_keys, mapping_keys_lookup, lookup_keys, keys_of in Hk.
  destruct (MappingWithDeposit w.1 !! n) as [info|] eqn:Hinfo; simplify_eq/=.
  exists n, info, v. split_and!; [done..|by rewrite (proj1 (fill_result_frame _ _ _))|].
  exists pk, out, proof. split_and!; [done..|]. by destruct (make_bytes pk _ out).
Qed.
End VrfAuthors.

(** ** A concrete runtime: two authors with one-byte ids *)
Section Witnesses.
#[local] Instance u32_codec : Codec Z := {|
  encode n := to_le_bytes 4 n;
  decode l := if bool_decide (length l < 4)%nat then None
              else Some (wrapping 32 (from_le_bytes (take 4 l)), drop 4 l);
|}.
#[local] Instance id_codec : Codec bool := {|
  encode b := [Z.b2z b];
  decode l := match l with [] => None | b :: l' => Some (b =? 1, l') end;
|}.
#[local] Instance id_codec_laws : CodecLaws bool.
Proof. split. by intros [] rest. Qed.

Definition sample_ceil (p n : Z) : Z := Z.min (umax 32) (Z.max 0 ((p * n + 99) / 100)).

Lemma sample_ceil_fits p n : fits 32 (sample_ceil p n).
Proof. unfold fits, sample_ceil, umax. lia. Qed.

Lemma sample_decode_fits (l : list Z) (n : Z) rest : decode l = Some (n, rest) -> fits 32 n.
Proof. simpl. case_bool_decide; intros; simplify_eq. by apply wrapping_fits. Qed.

Definition sample_mapping : list (Z * bool) := [(10, false); (20, true)].

(** One author is drawn per slot. *)
Definition sample_world : World Z bool Z := {|
  PotentialAuthorSet := set_genesis_build sample_mapping;
  AuthorFilter := final_state (SlotFilter.genesis_build (NonZero 1)) empty_state;
  RandomnessCollectiveFlip := fun sub => [nth 11 sub 0; 0; 0; 0];
  relay_chain_block_number := 7;
|}.

Definition sample_inherent : AuthorInherent.Config bool := {| AuthorInherent.ensure_none o := o |}.

Abbreviation sample_import n := (import_block (Origin := bool) (D := Item) (fun o => o) sample_ceil
  (fun p => p) sample_inherent n true sample_world (AuthorInherent.mkState None false)).

(** Headers are block numbers and hashes, and the hash of the parent is added to the
    randomness. *)
Definition sample_flip (number hash : Z) (old : list Z -> list Z) (sub : list Z) : list Z :=
  match old sub with [] => [] | r :: rest => r + hash :: rest end.

Abbreviation sample_import_on h n := (import_on (Origin := bool) (D := Item) (fun o => o) sample_ceil
  (fun p => p) sample_inherent fst snd sample_flip h n true 7 sample_world (AuthorInherent.mkState None false)).

Lemma api_predicts_import_witness :
  sample_import_on (5, 0) true = Ok tt (AuthorInherent.mkState (Some 20) false) /\
  sample_import_on (5, 0) false = Panic /\
  sample_import_on (5, 1) false = Ok tt (AuthorInherent.mkState (Some 10) false).
Proof.
  assert (Hf : forall h, fits 32 (fst (5, h : Z) + 1)) by (intros h; by vm_compute).
  split; [|split].
  - exact (api_predicts_import (D := Item) (fun o => o) sample_ceil (fun p => p) sample_inherent fst snd
      sample_flip true (5, 0) true true 7 sample_world (AuthorInherent.mkState None false) eq_refl (Hf 0)).
  - exact (api_predicts_import (D := Item) (fun o => o) sample_ceil (fun p => p) sample_inherent fst snd
      sample_flip true (5, 0) false true 7 sample_world (AuthorInherent.mkState None false) eq_refl (Hf 0)).
  - exact (api_predicts_import (D := Item) (fun o => o) sample_ceil (fun p => p) sample_inherent fst snd
      sample_flip true (5, 1) false true 7 sample_world (AuthorInherent.mkState None false) eq_refl (Hf 1)).
Defined.

Lemma genesis_authors_author_witness :
  exists a n, (a, n) ∈ sample_mapping /\
    sample_import n = Ok tt (AuthorInherent.mkState (Some a) false).
Proof.
  refine (proj1 (genesis_authors_author (D := Item) (fun o => o) sample_ceil (fun p => p)
    sample_inherent sample_mapping true sample_world (AuthorInherent.mkState None false)
    sample_decode_fits sample_ceil_fits eq_refl _ _ eq_refl _)).
  - discriminate.
  - by apply (bool_decide_unpack _).
  - by eapply (reachable_genesis _ 1 (NonZero 1)).
Defined.

End Witnesses.

(** ** One registration in author-mapping; VRF keys, outputs and proofs are numbers *)
Section VrfWitnesses.
#[local] Existing Instance fixed_codec.
#[local] Existing Instance id_codec.
#[local] Existing Instance pair_codec.
#[local] Existing Instance sample_vrf.
#[local] Existing Instance mapped_accounts.
#[local] Existing Instance mapped_keys.

Definition sample_mapped : AuthorMapping.State Z bool Z unit * unit :=
  (AuthorMapping.mkState {[true := mkInfo 10 0 5]} {[10 := true]} tt [], tt).

#[local] Instance sample_eligible : CanAuthor (AuthorMapping.State Z bool Z unit * unit) Z :=
  fun _ a _ => Some (bool_decide (a = 10)).
#[local] Instance sample_slot : SlotBeacon (AuthorMapping.State Z bool Z unit * unit) := fun _ => 7.

Definition sample_logs : list Item :=
  [nimbus_pre_digest true; PreRuntime VRF_ENGINE_ID [7; 12]].

Definition sample_randomness : Randomness.State Z Z Ledger :=
  put_not_first_block (Randomness.genesis 0 Randomness.sample_ledger).

Lemma author_owns_vrf_key_witness :
  exists n info, MappingWithDeposit sample_mapped.1 !! n = Some info /\ account info = 10.
Proof.
  assert (Hrun : run_block (AuthorId := Z) (NimbusId := bool) sample_inherent sample_mapped sample_logs
    [(true, kick_off_authorship_validation_call)] (AuthorInherent.mkState None false)
    = Ok tt (AuthorInherent.mkState (Some 10) false)) by reflexivity.
  assert (Hi : exists rs', RandomnessHooks.on_initialize (X := unit) (NimbusId := bool)
    Randomness.sample_config false sample_mapped sample_logs sample_randomness = Ok tt rs')
    by (eexists; reflexivity).
  destruct Hi as [rs' Hi].
  destruct (author_owns_vrf_key sample_inherent Randomness.sample_config sample_mapped sample_logs _
    (AuthorInherent.mkState None false) _ sample_randomness rs' eq_refl Hrun eq_refl Hi eq_refl)
    as (n & info & v & Hn & Ha & _).
  exists n, info. split; [exact Hn|]. simpl in Ha. by injection Ha.
Defined.
End VrfWitnesses.
