(* ===== verification/TemplateRuntime.v ===== *)
(** * The template chain
    ([template/runtime/src/lib.rs], [template/node/src/chain_spec.rs])

    The constants of the template runtime, its fees, its instance of the async-backing
    pallet and hook, and the genesis of its development chains; the theorems compose
    them with the pallets of the other files. *)
From Stdlib Require Import ZArith Lia String.
From stdpp Require Import prelude gmap fin_maps sorting.
From S2P Require Import Prelude.
From S2P Require Import Interfaces.
From S2P Require Import NimbusPrimitives.
From S2P Require Import SlotFilter.
From S2P Require Import AuthorInherent.
From S2P Require AsyncBacking.
From S2P Require XcmLocations.
From S2P Require Import Runtime.

Local Open Scope Z_scope.

(** ** Constants *)
Definition MILLISECS_PER_BLOCK : Z := 6000.

Definition SLOT_DURATION : Z := MILLISECS_PER_BLOCK.

Definition MINUTES : Z := 60000 / MILLISECS_PER_BLOCK.

Definition HOURS : Z := MINUTES * 60.

Definition DAYS : Z := HOURS * 24.

Definition UNIT : Z := 1000000000000.

Definition MILLIUNIT : Z := 1000000000.

Definition MICROUNIT : Z := 1000000.

Definition EXISTENTIAL_DEPOSIT : Z := MILLIUNIT.

Definition TransactionByteFee : Z := 10 * MICROUNIT.

Definition RELAY_CHAIN_SLOT_DURATION_MILLIS : Z := 6000.

Definition UNINCLUDED_SEGMENT_CAPACITY : Z := 1.

Definition BLOCK_PROCESSING_VELOCITY : Z := 1.

(** [impl pallet_async_backing::Config for Runtime] *)
Definition SlotDuration : Z := MILLISECS_PER_BLOCK.

Definition AllowMultipleBlocksPerSlot : bool := false.

Definition GetAndVerifySlot {Error} : Z -> Error + Z := AsyncBacking.get_and_verify_relay_slot.

(** [pallet_timestamp::Config]: a timestamp is at least this much after the one before. *)
Definition MinimumPeriod : Z := SLOT_DURATION / 2.

Definition Period : Z := 6 * HOURS.

Definition Offset : Z := 0.

(** [RelayParentOffset] and [RelayParentOffsetApi::relay_parent_offset] *)
Definition relay_parent_offset : Z := 0.

(** [ParentOrParentsExecutivePlurality::contains] *)
Definition parent_or_executive (location : XcmLocations.Location) : bool :=
  match XcmLocations.parents location, XcmLocations.interior location with
  | 1, [] => true
  | 1, [XcmLocations.Plurality XcmLocations.Executive _] => true
  | _, _ => false
  end.

(** ** Block weights

    A weight is its reference time and its proof size; [percent_of] is the multiplication
    with a [Perbill] made from a percentage, which is code outside the repository, as are
    the two constants. *)
Section BlockWeights.
Context (WEIGHT_REF_TIME_PER_SECOND MAX_POV_SIZE : Z) (percent_of : Z -> Z -> Z).

Definition MAXIMUM_BLOCK_WEIGHT : Z * Z := (WEIGHT_REF_TIME_PER_SECOND / 2, MAX_POV_SIZE).

Definition NORMAL_DISPATCH_RATIO : Z := 75.

Definition AVERAGE_ON_INITIALIZE_RATIO : Z := 5.

Definition part_of (percent : Z) (w : Z * Z) : Z * Z := (percent_of percent w.1, percent_of percent w.2).

(** The part of a block that normal extrinsics may use, and what is reserved for operational
    ones; the subtraction of weights is checked in the constants' evaluation. *)
Definition normal_max_total : Z * Z := part_of NORMAL_DISPATCH_RATIO MAXIMUM_BLOCK_WEIGHT.

Definition operational_reserved : option (Z * Z) :=
  r ← checked_sub MAXIMUM_BLOCK_WEIGHT.1 normal_max_total.1;
  p ← checked_sub MAXIMUM_BLOCK_WEIGHT.2 normal_max_total.2;
  Some (r, p).

Definition ReservedXcmpWeight : Z * Z := (MAXIMUM_BLOCK_WEIGHT.1 / 4, MAXIMUM_BLOCK_WEIGHT.2 / 4).

Definition ReservedDmpWeight : Z * Z := (MAXIMUM_BLOCK_WEIGHT.1 / 4, MAXIMUM_BLOCK_WEIGHT.2 / 4).

Definition max_block_length : Z := 5 * 1024 * 1024.

Definition normal_max_length : Z := percent_of NORMAL_DISPATCH_RATIO max_block_length.

(** A percentage of at most 100 takes at most the whole. *)
Context (percent_of_bound : forall p n, 0 <= p <= 100 -> 0 <= n -> 0 <= percent_of p n <= n).
Context (second_pos : 0 <= WEIGHT_REF_TIME_PER_SECOND) (pov_pos : 0 <= MAX_POV_SIZE).

(** The classes share the block: what is reserved for operational extrinsics is the rest of
    the block after the normal ones, and the two message queues together reserve at most
    half of it. *)
Lemma classes_share_block :
  exists r, operational_reserved = Some r /\
    (normal_max_total.1 + r.1, normal_max_total.2 + r.2) = MAXIMUM_BLOCK_WEIGHT /\
    2 * (ReservedXcmpWeight.1 + ReservedDmpWeight.1) <= MAXIMUM_BLOCK_WEIGHT.1 /\
    2 * (ReservedXcmpWeight.2 + ReservedDmpWeight.2) <= MAXIMUM_BLOCK_WEIGHT.2 /\
    0 <= normal_max_length <= max_block_length.
Proof.
  assert (H2 : 0 <= WEIGHT_REF_TIME_PER_SECOND / 2) by (apply Z.div_pos; lia).
  pose proof (percent_of_bound NORMAL_DISPATCH_RATIO (WEIGHT_REF_TIME_PER_SECOND / 2) ltac:(done) H2) as Hr.
  pose proof (percent_of_bound NORMAL_DISPATCH_RATIO MAX_POV_SIZE ltac:(done) pov_pos) as Hp.
  pose proof (percent_of_bound NORMAL_DISPATCH_RATIO max_block_length ltac:(done) ltac:(done)) as Hl.
  unfold operational_reserved, checked_sub. simpl.
  rewrite !(proj2 (Z.leb_le _ _)) by lia. simpl. eexists. split; [done|]. simpl.
  pose proof (Z.mul_div_le (WEIGHT_REF_TIME_PER_SECOND / 2) 4). pose proof (Z.mul_div_le MAX_POV_SIZE 4).
  split_and!; [unfold MAXIMUM_BLOCK_WEIGHT; f_equal; lia|lia|lia|apply Hl|apply Hl].
Qed.
End BlockWeights.

(** ** Fees

    [Perbill::from_rational] is code outside the repository. *)
Record WeightToFeeCoefficient (Perbill : Type) := mkCoefficient {
  degree : Z;
  negative : bool;
  coeff_frac : Perbill;
  coeff_integer : Z;
}.
Arguments mkCoefficient {_} _ _ _ _.
Arguments degree {_} _.
Arguments negative {_} _.
Arguments coeff_frac {_} _.
Arguments coeff_integer {_} _.

(** [WeightToFee::polynomial], given [ExtrinsicBaseWeight]'s reference time; [None] is a
    division by zero. *)
Definition polynomial {Perbill} (from_rational : Z -> Z -> Perbill) (extrinsic_base_weight : Z) :
    option (list (WeightToFeeCoefficient Perbill)) :=
  let p := MILLIUNIT / 10 in
  let q := 100 * extrinsic_base_weight in
  if q =? 0 then None
  else Some [mkCoefficient 1 false (from_rational (p mod q) q) (p / q)].

(** ** The pallets' configuration *)
Section Configuration.
Context {Origin Hash Error : Type}.
(** the origin check and [Slot::from_timestamp] of the libraries, the size of
    parachain-system's unincluded segment after a block, the build's overflow checks *)
Context (root : Origin -> bool) (slot_from_timestamp : Z -> Z -> option Z).
Context (size_after : Hash -> Z) (oc : bool).

(** [ConsensusHook] *)
Definition template_hook : AsyncBacking.Config Origin Hash Error := {|
  AsyncBacking.AllowMultipleBlocksPerSlot := AllowMultipleBlocksPerSlot;
  AsyncBacking.get_and_verify_slot := GetAndVerifySlot;
  AsyncBacking.SlotDuration := SlotDuration;
  AsyncBacking.ensure_root := root;
  AsyncBacking.V := BLOCK_PROCESSING_VELOCITY;
  AsyncBacking.C := UNINCLUDED_SEGMENT_CAPACITY;
  AsyncBacking.RELAY_CHAIN_SLOT_DURATION_MILLIS := RELAY_CHAIN_SLOT_DURATION_MILLIS;
  AsyncBacking.from_timestamp := slot_from_timestamp;
  AsyncBacking.unincluded_segment_size_after := size_after;
  AsyncBacking.overflow_checks := oc;
|}.
End Configuration.

(** ** The pallets of the runtime ([construct_runtime!]) *)
Inductive PalletPart := PartPallet | PartCall | PartConfig | PartStorage | PartEvent | PartInherent | PartOrigin.

#[export] Instance PalletPart_eq_dec : EqDecision PalletPart.
Proof. solve_decision. Defined.

(** Name, index and parts; a pallet without a list of parts has all that it defines. *)
Definition construct_runtime : list (string * Z * option (list PalletPart)) :=
  [("System", 0, Some [PartPallet; PartCall; PartConfig; PartStorage; PartEvent]);
   ("ParachainSystem", 1, None);
   ("RandomnessCollectiveFlip", 2, Some [PartPallet; PartStorage]);
   ("Timestamp", 3, Some [PartPallet; PartCall; PartStorage; PartInherent]);
   ("ParachainInfo", 4, Some [PartPallet; PartStorage; PartConfig]);
   ("Balances", 10, Some [PartPallet; PartCall; PartStorage; PartConfig; PartEvent]);
   ("TransactionPayment", 11, Some [PartPallet; PartStorage; PartEvent]);
   ("AuthorInherent", 20, Some [PartPallet; PartCall; PartStorage; PartInherent]);
   ("AuthorFilter", 21, Some [PartPallet; PartStorage; PartEvent; PartConfig]);
   ("PotentialAuthorSet", 22, Some [PartPallet; PartStorage; PartConfig]);
   ("NimbusAsyncBacking", 23, Some [PartPallet; PartStorage]);
   ("XcmpQueue", 30, Some [PartPallet; PartCall; PartStorage; PartEvent]);
   ("PolkadotXcm", 31, Some [PartPallet; PartCall; PartEvent; PartOrigin]);
   ("CumulusXcm", 32, Some [PartPallet; PartEvent; PartOrigin]);
   ("MessageQueue", 33, Some [PartPallet; PartCall; PartStorage; PartEvent])]%string.

(** Whether a pallet has a part; [defines] tells what the pallets themselves define. *)
Definition has_part (defines : PalletPart -> bool) (part : PalletPart) (parts : option (list PalletPart)) : bool :=
  match parts with
  | Some parts => bool_decide (part ∈ parts)
  | None => defines part
  end.

(** The pallets that [RuntimeCall] has a variant for, with the variant's index. *)
Definition RuntimeCall (defines : PalletPart -> bool) : list (string * Z) :=
  omap (fun '(name, index, parts) => if has_part defines PartCall parts then Some (name, index) else None)
    construct_runtime.

(** The pallets are listed by index, and of those of the repository only author-inherent
    has calls: the calls of the slot filter and of the async-backing pallet cannot be
    dispatched. *)
Lemma runtime_calls defines :
  StronglySorted Z.lt (map (fun p => p.1.2) construct_runtime) /\
  filter (fun c => 20 <= c.2 < 30) (RuntimeCall defines) = [("AuthorInherent"%string, 20)].
Proof.
  split; [repeat (constructor; [|repeat (constructor; [done|]); constructor]); constructor|].
  unfold RuntimeCall. simpl. by destruct (defines PartCall).
Qed.

(** ** The genesis of the development chains

    [get_account_id_from_seed] and [get_collator_keys_from_seed] derive keys, which is
    code outside the repository. *)
Section Genesis.
Context {AccountId NimbusId Percent : Type} `{EqDecision AccountId} `{Countable NimbusId}.

(** The part of [RuntimeGenesisConfig] that [testnet_genesis] sets. *)
Record RuntimeGenesisConfig := mkGenesis {
  balances : list (AccountId * Z);
  parachain_id : Z;
  eligible_count : NonZeroU32;
  mapping : list (AccountId * NimbusId);
}.

Definition testnet_genesis (authorities : list (AccountId * NimbusId)) (endowed_accounts : list AccountId)
    (id : Z) : RuntimeGenesisConfig :=
  mkGenesis (map (fun k => (k, Z.shiftl 1 60)) endowed_accounts) id default_eligibility authorities.

Context (get_account_id_from_seed : string -> AccountId) (get_collator_keys_from_seed : string -> NimbusId).

Definition endowed_seeds : list string :=
  ["Alice"; "Bob"; "Charlie"; "Dave"; "Eve"; "Ferdie"; "Alice//stash"; "Bob//stash"; "Charlie//stash";
   "Dave//stash"; "Eve//stash"; "Ferdie//stash"]%string.

Definition development_genesis : RuntimeGenesisConfig :=
  testnet_genesis [(get_account_id_from_seed "Alice", get_collator_keys_from_seed "Alice")]
    (map get_account_id_from_seed endowed_seeds) 1000.

Definition local_testnet_genesis : RuntimeGenesisConfig :=
  testnet_genesis [(get_account_id_from_seed "Alice", get_collator_keys_from_seed "Alice");
                   (get_account_id_from_seed "Bob", get_collator_keys_from_seed "Bob")]
    (map get_account_id_from_seed endowed_seeds) 1000.

(** The storage of the account set and of the slot filter at genesis. *)
Definition genesis_authors (g : RuntimeGenesisConfig) : AccountSet AccountId NimbusId :=
  set_genesis_build (mapping g).

Definition genesis_filter (g : RuntimeGenesisConfig) : SlotFilter.State Percent :=
  final_state (genesis_build (eligible_count g)) empty_state.
End Genesis.
Arguments RuntimeGenesisConfig : clear implicits.

(** ** Lemmas on the template's blocks *)
Section Blocks.
Context {Origin Hash Error : Type}.
Context (root : Origin -> bool) (slot_from_timestamp : Z -> Z -> option Z).
Context (size_after : Hash -> Z) (oc : bool).
(** [Slot::from_timestamp] divides by the slot duration. *)
Context (from_timestamp_spec : forall t d, 0 < d -> slot_from_timestamp t d = Some (t / d)).
Abbreviation T := (template_hook (Error := Error) root slot_from_timestamp size_after oc).
Abbreviation execute_block := (AsyncBacking.execute_block T).
Implicit Types (s : AsyncBacking.State) (b : AsyncBacking.block (Origin := Origin)).

(** A block: the relay slot of its proof and its timestamp. *)
Definition relay_slot b : option Z := b.1.1.
Definition now b : Z := b.1.2.

(** Every slot so far had one block; the last one. *)
Definition one_each s : Prop :=
  match AsyncBacking.SlotInfo s with Some (_, authored) => authored = 1 | None => True end.

Definition later slot s : Prop :=
  match AsyncBacking.SlotInfo s with Some (last, _) => last < slot | None => True end.

Lemma later_authored slot s : later slot s -> AsyncBacking.authored_in slot s = 0.
Proof.
  unfold later, AsyncBacking.authored_in. destruct (AsyncBacking.SlotInfo s) as [[l a]|]; [|done].
  intros. by rewrite (proj2 (Z.eqb_neq l slot)) by lia.
Qed.

(** The hook accepts exactly later slots, while the slot's timestamp exists. *)
Lemma template_hook_spec slot s :
  one_each s -> slot * 6000 <= umax 64 ->
  (later slot s /\ AsyncBacking.on_state_proof_inner T slot s
     = Ok 1 (AsyncBacking.mkState (Some (slot, 1)) (AsyncBacking.RelayParentOffset s)))
  \/ (~ later slot s /\ AsyncBacking.on_state_proof_inner T slot s = Panic).
Proof.
  intros Ho Hb. assert (Hs : AsyncBacking.slot_ok T slot s <-> later slot s).
  { unfold AsyncBacking.slot_ok, later. destruct (AsyncBacking.SlotInfo s) as [[l a]|]; [|done].
    simpl. split; [intros [|(_ & ? & _)]; done|by left]. }
  assert (Hp : AsyncBacking.para_slot_ok T slot).
  { exists slot, slot. split; [done|]. simpl. rewrite from_timestamp_spec by done. split; [|done].
    unfold saturating_mul, RELAY_CHAIN_SLOT_DURATION_MILLIS, SlotDuration, MILLISECS_PER_BLOCK.
    rewrite Z.min_l by lia. by rewrite Z.mul_comm, Z.div_mul. }
  destruct (AsyncBacking.hook_spec T slot s) as [(Hok & _ & Hr)|[Hn Hr]]; [done| |left|right].
  - unfold one_each, AsyncBacking.authored_in in *.
    destruct (AsyncBacking.SlotInfo s) as [[l a]|]; [|done]. destruct (_ =? _); lia.
  - apply Hs in Hok. split; [done|]. by rewrite Hr, later_authored.
  - split; [|done]. intros Hl. apply Hn. by rewrite Hs.
Qed.

Lemma calls_total calls s :
  exists s', for_each (E := dispatch_error unit unit) (fun oc =>
    _ ← attempt (E' := dispatch_error unit unit)
          (transactional (AsyncBacking.set_relay_parent_offset T oc.1 oc.2)); mret tt) calls s = Ok tt s'.
Proof.
  revert s. induction calls as [|c calls IH]; intros s; cbn [for_each]; [by exists s|].
  unfold mbind at 1 2, M_bind at 1 2, attempt, transactional, AsyncBacking.set_relay_parent_offset.
  unfold_M. destruct (AsyncBacking.ensure_root T c.1); apply IH.
Qed.

(** One block on top of another: its relay slot is later and contains its timestamp. *)
Definition follows s b : Prop :=
  exists slot, relay_slot b = Some slot /\ later slot s /\ slot = now b / 6000.

Lemma slot_of_timestamp t : fits 64 t -> Z.min (t / 6000) (umax 64) = t / 6000.
Proof. intros Ht. unfold fits in Ht. pose proof (Z.div_le_upper_bound t 6000 (umax 64)). lia. Qed.

Lemma execute_block_accepts b s :
  one_each s -> fits 64 (now b) -> follows s b ->
  exists s', execute_block b s = Ok tt s' /\
    AsyncBacking.SlotInfo s' = Some (now b / 6000, 1).
Proof.
  intros Ho Hb (slot & Hs & Hl & Hnow). destruct b as [[rs t] calls]. unfold relay_slot, now in *. simpl in *.
  subst rs. assert (Hm : slot * 6000 <= umax 64) by (unfold fits in Hb; subst; pose proof (Z.mul_div_le t 6000); lia).
  destruct (template_hook_spec slot s Ho Hm) as [[_ Hh]|[Hn _]]; [|done].
  set (s1 := AsyncBacking.mkState (Some (slot, 1)) (AsyncBacking.RelayParentOffset s)) in *.
  assert (Hp : AsyncBacking.post_inherents T t s1 = Ok tt s1).
  { unfold AsyncBacking.post_inherents. unfold_M. simpl. change SlotDuration with 6000.
    by rewrite slot_of_timestamp, <- Hnow, Z.eqb_refl. }
  destruct (calls_total calls s1) as [s' Hc]. exists s'. split.
  - apply bind_Ok. exists 1, s1. split; [apply bind_Ok; by exists slot, s|].
    apply bind_Ok. by exists tt, s1.
  - apply AsyncBacking.for_each_set_offset in Hc as ->. by subst.
Qed.

Lemma execute_block_follows b s s' :
  one_each s -> fits 64 (now b) -> execute_block b s = Ok tt s' -> follows s b.
Proof.
  intros Ho Hb He. destruct b as [[rs t] calls]. unfold follows, relay_slot, now in *. simpl in *.
  unfold AsyncBacking.execute_block, AsyncBacking.run_block, AsyncBacking.on_state_proof in He.
  apply bind_Ok in He as (c & s1 & Hh & He). apply bind_Ok in Hh as (slot & s0 & Hrs & Hh).
  apply bind_Ok in He as ([] & s2 & Hp & _). cbn [fst snd] in *.
  destruct rs as [r|]; [|done]. unfold expect in Hrs. simplify_eq. exists slot. split; [done|].
  assert (Hinfo : exists a, AsyncBacking.SlotInfo s1 = Some (slot, a)).
  { unfold AsyncBacking.on_state_proof_inner in Hh. apply bind_Ok in Hh as (x & s3 & Hx & Hh).
    rewrite AsyncBacking.current_slot_info_spec in Hx.
    destruct (AsyncBacking.advance_ok _ _ _); [|done]. injection Hx as <- <-.
    inv_ok. simpl. eauto. }
  apply AsyncBacking.post_inherents_Ok in Hp as (-> & _ & sl & a & Hi & Hsl).
  destruct Hinfo as [a' Hinfo]. rewrite Hinfo in Hi. injection Hi as -> ->.
  change (AsyncBacking.SlotDuration T) with 6000 in Hsl. rewrite slot_of_timestamp in Hsl by done. split; [|done]. destruct (template_hook_spec sl s0 Ho) as [[? _]|[_ Hr]]; [|done|congruence].
  unfold fits in Hb. subst. pose proof (Z.mul_div_le t 6000). lia.
Qed.

(** When there is room for a block. *)
Lemma template_room h slot s last_ :
  AsyncBacking.SlotInfo s = Some (last_, 1) ->
  AsyncBacking.can_build_upon T h slot s = Some ((size_after h <? 1) && (last_ <=? slot)).
Proof.
  intros Hi. unfold AsyncBacking.can_build_upon. rewrite Hi. simpl.
  unfold UNINCLUDED_SEGMENT_CAPACITY. rewrite (Z.ltb_antisym 1).
  destruct (1 <=? size_after h); [done|]. simpl.
  change (Z.max BLOCK_PROCESSING_VELOCITY 1) with 1. rewrite op_add_exact by done. simpl.
  destruct (Z.eqb_spec last_ slot) as [->|]; [by rewrite Z.leb_refl|].
  f_equal. apply Bool.eq_true_iff_eq. rewrite Z.ltb_lt, Z.leb_le. lia.
Qed.

(** The parachain slot of a block's timestamp; the last slot of a state. *)
Definition block_slot b : Z := now b / 6000.

Definition last_slot s : list Z := option_list (fst <$> AsyncBacking.SlotInfo s).

Lemma later_sorted slot slots s : Sorted Z.lt (slot :: slots) ->
  later slot s <-> Sorted Z.lt (last_slot s ++ slot :: slots).
Proof.
  intros Hs. unfold later, last_slot. destruct (AsyncBacking.SlotInfo s) as [[l a]|]; simpl; [|done].
  split; [intros; constructor; [done|by constructor]|].
  intros Hl. apply Sorted_inv in Hl as [_ Hh]. by apply HdRel_inv in Hh.
Qed.

Lemma execute_block_slot b s s' :
  one_each s -> fits 64 (now b) -> execute_block b s = Ok tt s' ->
  AsyncBacking.SlotInfo s' = Some (block_slot b, 1).
Proof.
  intros Ho Hb He. destruct (execute_block_accepts b s Ho Hb) as (s1 & He1 & Hi).
  - by eapply execute_block_follows.
  - rewrite He in He1. by injection He1 as <-.
Qed.

Lemma slot_info_one b s : AsyncBacking.SlotInfo s = Some (block_slot b, 1) -> one_each s /\ last_slot s = [block_slot b].
Proof. intros Hi. unfold one_each, last_slot. by rewrite Hi. Qed.

Lemma chain_slot_info blocks s s' :
  one_each s -> Forall (fun b => fits 64 (now b)) blocks ->
  for_each execute_block blocks s = Ok tt s' ->
  AsyncBacking.SlotInfo s' =
    match last blocks with Some b => Some (block_slot b, 1) | None => AsyncBacking.SlotInfo s end.
Proof.
  intros Ho Hb. revert s Ho. induction Hb as [|b blocks Hb _ IH]; intros s Ho; cbn [for_each].
  - by intros [= <-].
  - intros ([] & s1 & He & Hr)%bind_Ok. apply execute_block_slot in He as Hi; [|done..].
    rewrite (IH s1); [|by apply (slot_info_one b)|done]. rewrite last_cons. by destruct (last blocks).
Qed.

Lemma chain_accepted blocks s :
  one_each s -> Forall (fun b => fits 64 (now b)) blocks ->
  (exists s', for_each execute_block blocks s = Ok tt s') <->
  Forall (fun b => relay_slot b = Some (block_slot b)) blocks /\
  Sorted Z.lt (last_slot s ++ map block_slot blocks).
Proof.
  intros Ho Hb. revert s Ho. induction Hb as [|b blocks Hb _ IH]; intros s Ho; cbn [for_each map].
  { rewrite app_nil_r. unfold last_slot. split; [|by exists s].
    intros _. split; [done|]. destruct (AsyncBacking.SlotInfo s); repeat constructor. }
  split.
  - intros (s' & ([] & s1 & He & Hr)%bind_Ok). apply execute_block_slot in He as Hi; [|done..].
    apply slot_info_one in Hi as [Ho1 Hl1].
    destruct (proj1 (IH s1 Ho1) (ex_intro _ s' Hr)) as [Hrs Hs]. rewrite Hl1 in Hs.
    apply execute_block_follows in He as (slot & Hslot & Hlater & ->); [|done..].
    split; [by constructor|]. by apply (later_sorted (block_slot b)).
  - intros [Hrs Hs]. inversion Hrs as [|? ? Hrb Hrr]; subst.
    assert (Hs' : Sorted Z.lt (block_slot b :: map block_slot blocks)).
    { unfold last_slot in Hs. destruct (AsyncBacking.SlotInfo s); [|done]. by apply Sorted_inv in Hs as [? _]. }
    destruct (execute_block_accepts b s Ho Hb) as (s1 & He & Hi).
    { exists (block_slot b). split; [done|]. split; [by apply (later_sorted _ (map block_slot blocks))|done]. }
    apply slot_info_one in Hi as [Ho1 Hl1].
    destruct (proj2 (IH s1 Ho1)) as [s' Hr]; [split; [done|by rewrite Hl1]|].
    exists s'. apply bind_Ok. eauto.
Qed.
End Blocks.

(** ** Properties *)
Section Properties.
Context {Origin Hash Error : Type}.
Context (root : Origin -> bool) (slot_from_timestamp : Z -> Z -> option Z).
Context (size_after : Hash -> Z) (oc : bool).
Context (from_timestamp_spec : forall t d, 0 < d -> slot_from_timestamp t d = Some (t / d)).
Abbreviation T := (template_hook (Error := Error) root slot_from_timestamp size_after oc).

(** C12: the template's consensus hook admits one block per relay slot, in time. Of a chain
    of blocks with any calls and timestamps of 64 bits, starting from genesis, the hook and
    its check after the inherents (the part of a block's execution modelled in AsyncBacking;
    the author inherent, the timestamp pallet and the executor decide besides) refuse none
    exactly if every block's timestamp lies in the relay slot of its proof and the slots
    strictly increase; and after such a chain [can_build_upon] answers yes exactly when nothing is
    unincluded and the slot is not before that of the last block (in the last block's own
    slot the hook then panics). *)
Theorem template_slots blocks :
  Forall (fun b => fits 64 (now b)) blocks ->
  ((exists s, for_each (AsyncBacking.execute_block T) blocks AsyncBacking.empty_state = Ok tt s) <->
   Forall (fun b => relay_slot b = Some (block_slot b)) blocks /\
   StronglySorted Z.lt (map block_slot blocks)) /\
  (forall s b, for_each (AsyncBacking.execute_block T) blocks AsyncBacking.empty_state = Ok tt s ->
   last blocks = Some b ->
   (forall h slot, AsyncBacking.can_build_upon T h slot s
      = Some ((size_after h <? 1) && (block_slot b <=? slot))) /\
   AsyncBacking.on_state_proof_inner T (block_slot b) s = Panic).
Proof.
  intros Hb. split.
  - rewrite (chain_accepted root slot_from_timestamp size_after oc) by done.
    split; intros [Hr Hs]; (split; [done|]); [|by apply StronglySorted_Sorted].
    apply Sorted_StronglySorted; [intros ???; lia|done].
  - intros s b Hr Hl. apply chain_slot_info in Hr; [|done..]. rewrite Hl in Hr. split.
    + intros h slot. by apply (template_room (Error := Error)).
    + destruct (template_hook_spec (Error := Error) root slot_from_timestamp size_after oc
        from_timestamp_spec (block_slot b) s) as [[Hlat _]|[_ ?]]; [..|done].
      * unfold one_each. by rewrite Hr.
      * assert (Hbl : b ∈ blocks) by (apply last_Some in Hl as [l ->]; set_solver).
        rewrite Forall_forall in Hb. specialize (Hb b Hbl). unfold fits in Hb.
        unfold block_slot. pose proof (Z.mul_div_le (now b) 6000). lia.
      * unfold later in Hlat. rewrite Hr in Hlat. lia.
Qed.
End Properties.

Section Authors.
Context {Origin AccountId NimbusId Percent D Hdr Hash : Type}.
Context `{!EqDecision AccountId} `{Countable NimbusId}.
Context `{!Codec NimbusId} `{!CodecLaws NimbusId} `{!DigestItemOps D} `{!DigestItemLaws D} `{!Codec Z}.
Context (root : Origin -> bool) (ceil : Percent -> Z -> Z) (percent : Z -> Percent).
Context (TI : AuthorInherent.Config Origin).
Context (header_number : Hdr -> Z) (header_hash : Hdr -> Hash).
Context (flip : Z -> Hash -> (list Z -> list Z) -> list Z -> list Z).
Implicit Types (w : World AccountId NimbusId Percent).
Abbreviation import := (import_on (D := D) root ceil percent TI header_number header_hash flip).

(** Of the authorities with accounts in [ch], which make up part of them. *)
Lemma filter_accounts (authorities : list (AccountId * NimbusId)) ch rest :
  NoDup authorities.*1 -> ch ++ rest ≡ₚ authorities.*1 ->
  length (filter (fun p => p.1 ∈ ch) authorities) = length ch.
Proof.
  intros Hnd Hp. rewrite <- (length_fmap fst). apply Permutation_length, NoDup_Permutation.
  - eapply sublist_NoDup; [exact Hnd|]. apply fmap_sublist, sublist_filter.
  - rewrite <- Hp in Hnd. by apply NoDup_app in Hnd as [? _].
  - intros a. rewrite list_elem_of_fmap. split.
    + intros (p & -> & [? _]%list_elem_of_filter). done.
    + intros Ha. assert (Ha' : a ∈ authorities.*1) by (rewrite <- Hp; set_solver).
      apply list_elem_of_fmap in Ha' as (p & -> & Hin). exists p. by rewrite list_elem_of_filter.
Qed.

(** C20: the development chains are live: from the genesis of [testnet_genesis], with
    authorities of distinct accounts and ids, on top of every parent and in every slot,
    exactly the smaller of 50 and the number of authorities are drawn; a block of a drawn
    authority is accepted and stores its account, every other block panics; so with up to
    50 authorities all of them may author always.  Every endowed account is above the
    existential deposit. *)
Theorem testnet_authors (authorities : list (AccountId * NimbusId)) endowed id w parent sl o s :
  let g := testnet_genesis authorities endowed id in
  AuthorInherent.ensure_none TI o = true ->
  NoDup authorities.*1 -> NoDup authorities.*2 ->
  PotentialAuthorSet w = genesis_authors g -> AuthorFilter w = genesis_filter g ->
  (exists drawn rest, drawn ++ rest ≡ₚ authorities /\
    Z.of_nat (length drawn) = Z.min 50 (Z.of_nat (length authorities)) /\
    (length authorities <= 50 -> rest = [])%nat /\
    (forall a n, (a, n) ∈ drawn -> import parent n o sl w s = Ok tt (AuthorInherent.mkState (Some a) false)) /\
    (forall n, n ∉ drawn.*2 -> import parent n o sl w s = Panic)) /\
  Forall (fun b => EXISTENTIAL_DEPOSIT <= b.2) (balances g).
Proof.
  intros g Ho Hacc Hid Hset Hfil. split.
  2: { apply Forall_forall. intros b Hb. apply list_elem_of_fmap in Hb as (k & -> & _). by vm_compute. }
  destruct (genesis_accounts authorities) as [Hst Hmap]. specialize (Hmap Hid).
  unfold import_on. set (w' := world_on _ _ _ _ _ _).
  assert (Hw : PotentialAuthorSet w' = set_genesis_build authorities) by exact Hset.
  assert (Hf : AuthorFilter w' = genesis_filter g) by exact Hfil.
  destruct (can_author_spec (filter_config root ceil percent w') (AuthorFilter w') sl)
    as (ch & rest & Hp & Hlen & Hca); [by rewrite Hf; unfold count_ok, umax; simpl; lia|by rewrite Hf|].
  change (PotentialAuthors (filter_config root ceil percent w'))
    with (StoredAccounts (PotentialAuthorSet w')) in Hp, Hlen. rewrite Hw, Hst in Hp, Hlen. rewrite Hf, length_fmap in Hlen.
  change (SlotFilter.get _) with 50 in Hlen.
  exists (filter (fun p => p.1 ∈ ch) authorities), (filter (fun p => p.1 ∉ ch) authorities).
  assert (Hd : length (filter (fun p => p.1 ∈ ch) authorities) = length ch) by (by eapply filter_accounts).
  assert (Hperm : filter (fun p => p.1 ∈ ch) authorities ++ filter (fun p => p.1 ∉ ch) authorities ≡ₚ authorities)
    by (by rewrite filter_app_complement).
  split; [done|]. split; [by rewrite Hd|]. split.
  { intros Hle. apply Permutation_length in Hperm. rewrite length_app in Hperm.
    apply length_zero_iff_nil. lia. }
  split.
  - intros a n [Hch Hin]%list_elem_of_filter. simpl in Hch. rewrite import_spec, Hw by done.
    unfold lookup_account, account_set_lookup. rewrite (proj2 (Hmap a n) Hin).
    change (relay_chain_block_number w') with sl. rewrite Hca. by rewrite bool_decide_true.
  - intros n Hn. rewrite import_spec, Hw by done. unfold lookup_account, account_set_lookup.
    destruct (Mapping (set_genesis_build authorities) !! n) as [a|] eqn:Hl; [|done].
    change (relay_chain_block_number w') with sl. rewrite Hca, bool_decide_false; [done|].
    intros Ha. apply Hn, list_elem_of_fmap. exists (a, n). split; [done|].
    apply list_elem_of_filter. split; [done|]. by apply Hmap.
Qed.
End Authors.

(** ** The fee of the smallest extrinsic *)
Section Fees.
Context {Perbill : Type} (from_rational : Z -> Z -> Perbill).
Context (weight_to_fee : list (WeightToFeeCoefficient Perbill) -> Z -> Z).
(** [WeightToFeePolynomial::weight_to_fee] of a line through zero: a [Perbill] has nine
    digits and the product is rounded. *)
Context (weight_to_fee_line : forall r q i w, 0 <= r < q -> 0 <= w ->
  exists f, weight_to_fee [mkCoefficient 1 false (from_rational r q) i] w = i * w + f /\
    Z.abs (f * q - r * w) <= q * (w / 10 ^ 9 + 1)).

(** The base weight of an extrinsic is mapped to a thousandth of [MILLIUNIT], up to the
    rounding, and not to a tenth of it as the comment of [polynomial] says. *)
Lemma base_extrinsic_fee base c :
  0 < base <= 10 ^ 12 -> polynomial from_rational base = Some c ->
  Z.abs (weight_to_fee c base - MILLIUNIT / 1000) <= 1001 /\ weight_to_fee c base < MILLIUNIT / 10.
Proof.
  intros Hb. unfold polynomial. set (p := MILLIUNIT / 10). set (q := 100 * base).
  rewrite (proj2 (Z.eqb_neq q 0)) by lia. intros [= <-].
  destruct (weight_to_fee_line (p mod q) q (p / q) base) as (f & -> & Hf); [apply Z.mod_pos_bound; lia|lia|].
  assert (Hdiv : base / 10 ^ 9 <= 1000) by (apply Z.div_le_upper_bound; lia).
  assert (Hp : p * base = 1000000 * q) by (unfold q, p; change (MILLIUNIT / 10) with 100000000; lia).
  pose proof (Z.div_mod p q ltac:(lia)) as Hdm.
  assert (Ht : Z.abs ((p / q * base + f) * q - 1000000 * q) <= q * 1001).
  { replace ((p / q * base + f) * q - 1000000 * q) with (f * q - (p mod q) * base) by nia. nia. }
  change (MILLIUNIT / 1000) with 1000000. change p with 100000000 in *. split; nia.
Qed.
End Fees.

(** ** Concrete chains *)
Section Witnesses.
#[local] Existing Instance Runtime.u32_codec.
#[local] Existing Instance Runtime.id_codec.
#[local] Existing Instance Runtime.id_codec_laws.

Definition sample_slot_from_timestamp (t d : Z) : option Z := if d =? 0 then None else Some (t / d).

Lemma sample_slot_from_timestamp_spec t d : 0 < d -> sample_slot_from_timestamp t d = Some (t / d).
Proof. intros. unfold sample_slot_from_timestamp. by rewrite (proj2 (Z.eqb_neq d 0)) by lia. Qed.

Definition sample_chain : list (AsyncBacking.block (Origin := bool)) :=
  [(Some 10, 60000, []); (Some 12, 72500, [(true, 3); (false, 9)])].

Abbreviation sample_hook := (template_hook (Origin := bool) (Hash := Z) (Error := unit) (fun o => o)
  sample_slot_from_timestamp (fun h => h) true).

Lemma template_slots_witness :
  (exists s, for_each (AsyncBacking.execute_block sample_hook) sample_chain AsyncBacking.empty_state = Ok tt s) /\
  StronglySorted Z.lt [10; 12].
Proof.
  destruct (template_slots (Error := unit) (fun o : bool => o) sample_slot_from_timestamp (fun h : Z => h) true
    sample_slot_from_timestamp_spec sample_chain) as [Hc _].
  { by repeat constructor; vm_compute. }
  assert (Hs : exists s, for_each (AsyncBacking.execute_block sample_hook) sample_chain
    AsyncBacking.empty_state = Ok tt s) by (eexists; vm_compute; reflexivity).
  split; [exact Hs|]. exact (proj2 (proj1 Hc Hs)).
Defined.

(** Two authorities. *)
Definition sample_genesis : RuntimeGenesisConfig Z bool := testnet_genesis sample_mapping [10; 20] 1000.

Definition genesis_world : World Z bool Z :=
  mkWorld (genesis_authors sample_genesis) (genesis_filter sample_genesis)
    (fun sub => [nth 11 sub 0; 0; 0; 0]) 0.

Lemma testnet_authors_witness :
  Forall (fun p : Z * bool =>
    import_on (D := Item) (fun o : bool => o) sample_ceil (fun p => p) sample_inherent fst snd sample_flip
      (5, 1) p.2 true 9 genesis_world (AuthorInherent.mkState None false)
    = Ok tt (AuthorInherent.mkState (Some p.1) false)) sample_mapping.
Proof.
  destruct (testnet_authors (D := Item) (fun o : bool => o) sample_ceil (fun p => p) sample_inherent fst snd
    sample_flip sample_mapping [10; 20] 1000 genesis_world (5, 1) 9 true (AuthorInherent.mkState None false))
    as [(drawn & rest & Hp & _ & Hr & Hd & _) _].
  - reflexivity.
  - by apply (bool_decide_unpack _).
  - by apply (bool_decide_unpack _).
  - reflexivity.
  - reflexivity.
  - rewrite Hr, app_nil_r in Hp by (simpl; lia). apply Forall_forall. intros [a n] Hin. apply Hd. by rewrite Hp.
Defined.
End Witnesses.
