(* ===== verification/Evm.v ===== *)
(** * What the precompiles see of the EVM

    The precompiles of [precompiles/] run against the handle of the EVM
    ([fp_evm::PrecompileHandle]) and the helpers of [precompile-utils], both outside
    the repository: gas is charged, logs are recorded and other contracts are called
    through it.  The handle's state [S] is the whole state of the EVM as a precompile
    can reach it; an error leaves a state behind that the EVM discards. *)
From Stdlib Require Import ZArith Lia String.
From stdpp Require Import prelude.
From S2P Require Import Prelude.

Local Open Scope Z_scope.

(** [ExitReason], [PrecompileFailure] *)
Inductive ExitReason (Ex Fa : Type) :=
  | Succeed
  | Error (e : Ex)
  | Revert
  | Fatal (f : Fa).
Arguments Succeed {Ex Fa}.
Arguments Error {Ex Fa} e.
Arguments Revert {Ex Fa}.
Arguments Fatal {Ex Fa} f.

Inductive PrecompileFailure (Ex Fa : Type) :=
  | FailError (exit_status : Ex)
  | FailRevert (output : list Z)
  | FailFatal (exit_status : Fa).
Arguments FailError {Ex Fa} exit_status.
Arguments FailRevert {Ex Fa} output.
Arguments FailFatal {Ex Fa} exit_status.

(** [Context], [Transfer] *)
Record Context (Addr : Type) := mkContext {
  caller : Addr;
  address : Addr;
  apparent_value : Z;
}.
Arguments mkContext {Addr} _ _ _.
Arguments caller {Addr} _.
Arguments address {Addr} _.
Arguments apparent_value {Addr} _.

Record Transfer (Addr : Type) := mkTransfer {
  source : Addr;
  target : Addr;
  amount : Z;
}.
Arguments mkTransfer {Addr} _ _ _.

(** What is charged: [record_db_read], [record_cost], [record_log_costs_manual] *)
Inductive Charge :=
  | DbRead (size : Z)
  | Cost (gas : Z)
  | LogCosts (topics data : Z).

(** A log: its address, topics and data. *)
Record Log (Addr : Type) := mkLog {
  log_address : Addr;
  topics : list (list Z);
  log_data : list Z;
}.
Arguments mkLog {Addr} _ _ _.
Arguments log_address {Addr} _.
Arguments topics {Addr} _.
Arguments log_data {Addr} _.

(** An argument of [solidity::encode_arguments]. *)
Inductive Argument (Addr : Type) :=
  | ArgBytes32 (b : list Z)
  | ArgAddress (a : Addr)
  | ArgUint (n : Z).
Arguments ArgBytes32 {Addr} b.
Arguments ArgAddress {Addr} a.
Arguments ArgUint {Addr} n.

(** The gas meter and the log of the handle. *)
Class GasMeter (S Addr Ex : Type) := {
  OutOfGas : Ex;
  remaining_gas : S -> Z;
  record : Charge -> S -> Ex + S;
  compute_cost : Log Addr -> option Z;
  record_log_costs : Log Addr -> S -> Ex + S;
  record_log : Log Addr -> S -> Ex + S;
}.

(** [PrecompileHandle::call]: target, transfer, input, gas limit, staticness and
    context of the subcall; how it exits, its output, the state afterwards. *)
Class Caller (S Addr Ex Fa : Type) :=
  call : Addr -> option (Transfer Addr) -> list Z -> option Z -> bool -> Context Addr -> S ->
    ExitReason Ex Fa * list Z * S.

(** [ensure!] and [?] with a revert message, whose encoding is [revert]'s. *)
Section Reverts.
Context {S Ex Fa : Type} (revert : string -> list Z).

Definition revert_with {A} (msg : string) : M S (PrecompileFailure Ex Fa) A :=
  fail (FailRevert (revert msg)).

Definition ensure_or_revert (b : bool) (msg : string) : M S (PrecompileFailure Ex Fa) unit :=
  ensure b (FailRevert (revert msg)).
End Reverts.

(** [RuntimeHelper::try_dispatch]: origin, call and storage growth limit of a call
    dispatched to the runtime, which charges its weight as gas. *)
Class Dispatcher (S Origin Call Ex Fa : Type) :=
  dispatch_with_growth : Origin -> Call -> Z -> S -> PrecompileFailure Ex Fa + S.

Definition try_dispatch {S Origin Call Ex Fa} `{Dispatcher S Origin Call Ex Fa} (origin : Origin)
    (c : Call) (storage_growth : Z) : M S (PrecompileFailure Ex Fa) unit := fun s =>
  match dispatch_with_growth origin c storage_growth s with
  | inl e => Err e s
  | inr s' => Ok tt s'
  end.

(** The EVM runs a precompile in a substate of its own: an error discards it. *)
Definition committed {S E A} (m : M S E A) (s : S) : S :=
  match m s with Ok _ s' => s' | _ => s end.

(** An operation of the handle; its error is an [ExitError]. *)
Definition charge {S Ex Fa} (op : S -> Ex + S) : M S (PrecompileFailure Ex Fa) unit := fun s =>
  match op s with
  | inl e => Err (FailError e) s
  | inr s' => Ok tt s'
  end.

(** ** Successful runs *)
Lemma charge_Ok {S Ex Fa} (op : S -> Ex + S) s u s' :
  charge (Fa := Fa) op s = Ok u s' -> op s = inr s'.
Proof. unfold charge. destruct (op s); [done|]. by intros [= _ <-]. Qed.

Lemma try_dispatch_inr {S Origin Call Ex Fa} `{Dispatcher S Origin Call Ex Fa} o c n s u s' :
  try_dispatch (Ex := Ex) (Fa := Fa) o c n s = Ok u s' -> dispatch_with_growth o c n s = inr s'.
Proof. unfold try_dispatch. case_match; [done|]. by intros [= _ <-]. Qed.

(** Take a successful run of a precompile apart. *)
Ltac inv_evm :=
  repeat first
    [ inv_ok_step
    | match goal with
      | Hr : charge _ _ = Ok _ _ |- _ => apply charge_Ok in Hr
      | Hr : try_dispatch _ _ _ _ = Ok _ _ |- _ => apply try_dispatch_inr in Hr
      | Hr : ensure_or_revert _ _ _ _ = Ok _ _ |- _ => unfold ensure_or_revert in Hr
      | Hr : revert_with _ _ _ = Ok _ _ |- _ => discriminate Hr
      end ].

(** ** The documented behaviour of gas

    The cost of a log depends on the numbers of its topics and bytes, and one whose
    cost is covered is recorded for exactly that cost; a subcall uses at most its cost
    and its gas limit. *)
Class GasLaws (S Addr Ex Fa : Type) `{GasMeter S Addr Ex} `{Caller S Addr Ex Fa}
    (call_cost : Z -> Z) : Prop := {
  record_log_costs_spec l s c :
    compute_cost l = Some c -> c <= remaining_gas s ->
    exists s', record_log_costs l s = inr s' /\ remaining_gas s' = remaining_gas s - c;
  compute_cost_nonneg l c : compute_cost l = Some c -> 0 <= c;
  compute_cost_spec l l' :
    length (topics l) = length (topics l') -> length (log_data l) = length (log_data l') ->
    compute_cost l = compute_cost l';
  record_log_spec l s : exists s', record_log l s = inr s' /\ remaining_gas s' = remaining_gas s;
  call_gas to t data g static ctx s :
    let value := match t with Some t => amount _ t | None => 0 end in
    0 <= g -> call_cost value + g <= remaining_gas s ->
    remaining_gas s - call_cost value - g
      <= remaining_gas (call to t data (Some g) static ctx s).2;
}.
