(* ===== verification/Batch.v ===== *)
(** * The batch precompile ([precompiles/batch/src/lib.rs])

    Several subcalls in one EVM call, on behalf of the caller, in three modes: all or
    nothing, until the first failure, or as many as possible.  For each subcall the
    gas of the log that reports it is reserved first. *)
From Stdlib Require Import ZArith Lia String.
From stdpp Require Import prelude.
From S2P Require Import Prelude.
From S2P Require Import Evm.

Local Open Scope Z_scope.

(** [Mode] *)
Inductive Mode := BatchSome | BatchSomeUntilFailure | BatchAll.

Definition CALL_DATA_LIMIT : Z := 2 ^ 16.
Definition ARRAY_LIMIT : Z := 2 ^ 9.

Section Definitions.
Context {S Addr Ex Fa : Type} `{GasMeter S Addr Ex} `{Caller S Addr Ex Fa}.

(** [keccak256!] of the two event signatures, [solidity::encode_event_data] of a
    [U256], the cost of a call with a value, the message encoding of [revert]. *)
Record Config := mkConfig {
  LOG_SUBCALL_SUCCEEDED : list Z;
  LOG_SUBCALL_FAILED : list Z;
  encode_event_data : Z -> list Z;
  call_cost : Z -> Z;
  revert : string -> list Z;
}.

Context (T : Config).
(** The code address and context of the precompile's own call. *)
Context (code_address : Addr) (context : Context Addr).

Abbreviation Mo := (M S (PrecompileFailure Ex Fa)).

Definition log_subcall_succeeded (address : Addr) (index : nat) : Log Addr :=
  mkLog address [LOG_SUBCALL_SUCCEEDED T] (encode_event_data T (Z.of_nat index)).

Definition log_subcall_failed (address : Addr) (index : nat) : Log Addr :=
  mkLog address [LOG_SUBCALL_FAILED T] (encode_event_data T (Z.of_nat index)).

(** [handle.record_log_costs(&[&log])?; log.record(handle)?] *)
Definition emit (log : Log Addr) : Mo unit :=
  charge (record_log_costs log) ;;
  charge (record_log log).

(** A subcall's target, value, input and gas limit, after the defaults for lists
    that are too short. *)
Record Subcall := mkSubcall {
  to : Addr;
  value : Z;
  call_data : list Z;
  gas_limit : option Z;
}.

(** [zip] with the lists extended by [repeat(None)]; a limit of 0 is none. *)
Fixpoint subcalls (tos : list Addr) (values : list Z) (calls_data : list (list Z))
    (gas_limits : list Z) : list Subcall :=
  match tos with
  | [] => []
  | address :: tos =>
      mkSubcall address (default 0 (head values)) (default [] (head calls_data))
        (x ← head gas_limits; if x =? 0 then None else Some x)
      :: subcalls tos (tail values) (tail calls_data) (tail gas_limits)
  end.

(** How the loop goes on: [continue] or [return Ok(())]. *)
Inductive Flow := Continue | Return.

(** There is not enough gas for the call: the failure is logged. *)
Definition not_enough_gas (mode : Mode) (i : nat) : Mo Flow :=
  emit (log_subcall_failed code_address i) ;;
  match mode with
  | BatchAll => fail (FailError OutOfGas)
  | BatchSomeUntilFailure => mret Return
  | BatchSome => mret Continue
  end.

(** The call and what follows it. *)
Definition perform (mode : Mode) (i : nat) (c : Subcall) (forwarded_gas : Z) : Mo Flow :=
  let sub_context := mkContext (caller context) (to c) (value c) in
  let transfer :=
    if value c =? 0 then None else Some (mkTransfer (caller context) (to c) (value c)) in
  '(reason, output) ← (fun s =>
     let '(reason, output, s') :=
       call (to c) transfer (call_data c) (Some forwarded_gas) false sub_context s in
     Ok (reason, output) s');
  match reason with
  | Revert | Error _ => emit (log_subcall_failed code_address i)
  | Succeed => emit (log_subcall_succeeded code_address i)
  | Fatal _ => mret tt
  end ;;
  match mode, reason with
  | _, Fatal exit_status => fail (FailFatal exit_status)
  | BatchAll, Revert => fail (FailRevert output)
  | BatchAll, Error exit_status => fail (FailError exit_status)
  | BatchSomeUntilFailure, (Revert | Error _) => mret Return
  | _, _ => mret Continue
  end.

(** The body of the loop. *)
Definition batch_step (mode : Mode) (log_cost : Z) (i : nat) (c : Subcall) : Mo Flow :=
  remaining ← gets remaining_gas;
  match checked_sub remaining log_cost, mode with
  | None, BatchAll => fail (FailError OutOfGas)
  | None, _ => mret Return
  | Some forwarded_gas, _ =>
      match checked_sub forwarded_gas (call_cost T (value c)) with
      | None => not_enough_gas mode i
      | Some forwarded_gas =>
          match gas_limit c with
          | None => perform mode i c forwarded_gas
          | Some limit =>
              if forwarded_gas <? limit then not_enough_gas mode i else perform mode i c limit
          end
      end
  end.

Fixpoint batch_loop (mode : Mode) (log_cost : Z) (i : nat) (cs : list Subcall) : Mo unit :=
  match cs with
  | [] => mret tt
  | c :: cs =>
      flow ← batch_step mode log_cost i c;
      match flow with
      | Continue => batch_loop mode log_cost (Datatypes.S i) cs
      | Return => mret tt
      end
  end.

(** [inner_batch] *)
Definition inner_batch (mode : Mode) (tos : list Addr) (values : list Z)
    (calls_data : list (list Z)) (gas_limits : list Z) : Mo unit :=
  match compute_cost (log_subcall_failed code_address 0) with
  | None => revert_with (revert T) "Failed to compute log cost"
  | Some log_cost => batch_loop mode log_cost 0 (subcalls tos values calls_data gas_limits)
  end.

(** The three entry points. *)
Definition batch_some := inner_batch BatchSome.
Definition batch_some_until_failure := inner_batch BatchSomeUntilFailure.
Definition batch_all := inner_batch BatchAll.

(** ** What a batch promises *)

(** The gas forwarded to a subcall, if enough is left for it and its log. *)
Definition forwarded (log_cost : Z) (c : Subcall) (s : S) : option Z :=
  available ← checked_sub (remaining_gas s) log_cost;
  available ← checked_sub available (call_cost T (value c));
  match gas_limit c with
  | None => Some available
  | Some limit => if available <? limit then None else Some limit
  end.

(** How subcall [i] ends, from [s], with [failed] or success logged, in [s']. *)
Definition executed (log_cost : Z) (i : nat) (c : Subcall) (s : S) (ok : bool) (s' : S) : Prop :=
  exists g reason output s1,
    forwarded log_cost c s = Some g /\
    call (to c) (if value c =? 0 then None else Some (mkTransfer (caller context) (to c) (value c)))
      (call_data c) (Some g) false (mkContext (caller context) (to c) (value c)) s
      = (reason, output, s1) /\
    match reason with Succeed => ok = true | Fatal _ => False | _ => ok = false end /\
    emit ((if ok : bool then log_subcall_succeeded else log_subcall_failed) code_address i) s1
      = Ok tt s'.

(** The results of the first subcalls, from number [i] on: each is executed, or
    failed for lack of gas. *)
Inductive ran (log_cost : Z) : nat -> list Subcall -> list bool -> S -> S -> Prop :=
  | ran_nil i s : ran log_cost i [] [] s s
  | ran_call i c cs ok oks s s1 s' :
      executed log_cost i c s ok s1 -> ran log_cost (Datatypes.S i) cs oks s1 s' ->
      ran log_cost i (c :: cs) (ok :: oks) s s'
  | ran_starved i c cs oks s s1 s' :
      log_cost <= remaining_gas s -> forwarded log_cost c s = None ->
      emit (log_subcall_failed code_address i) s = Ok tt s1 ->
      ran log_cost (Datatypes.S i) cs oks s1 s' ->
      ran log_cost i (c :: cs) (false :: oks) s s'.

(** Which results a mode accepts for [n] subcalls, when [out_of_gas] tells whether
    the gas left at the end does not pay for another log. *)
Definition accepts (mode : Mode) (n : nat) (oks : list bool) (out_of_gas : Prop) : Prop :=
  match mode with
  | BatchAll => oks = replicate n true
  | BatchSomeUntilFailure =>
      exists k, oks = replicate k true ++ [false] \/
                oks = replicate k true /\ (k = n \/ out_of_gas)
  | BatchSome => length oks = n \/ out_of_gas
  end.
End Definitions.
Arguments Subcall Addr : clear implicits.

(** ** Lemmas *)
Section Lemmas.
Context {S Addr Ex Fa : Type} `{!GasMeter S Addr Ex} `{!Caller S Addr Ex Fa}.
Context (T : Config) `{!GasLaws S Addr Ex Fa (call_cost T)}.
Context (code_address : Addr) (context : Context Addr).
(** An event carries one word. *)
Context (event_word : forall n, length (encode_event_data T n) = 32%nat).
Context (log_cost : Z).
Context (log_cost_known : compute_cost (S := S) (log_subcall_failed T code_address 0) = Some log_cost).

Abbreviation emit := (emit (Ex := Ex) (Fa := Fa)).
Abbreviation executed := (executed (Fa := Fa) T code_address context log_cost).
Abbreviation ran := (ran (Fa := Fa) T code_address context log_cost).
Abbreviation log_of ok i :=
  ((if ok : bool then log_subcall_succeeded T else log_subcall_failed T) code_address i).

(** The reserved gas pays for the log. *)
Lemma emit_paid ok i (s : S) :
  log_cost <= remaining_gas s -> exists s', emit (log_of ok i) s = Ok tt s'.
Proof.
  intros Hs. assert (Hc : compute_cost (S := S) (log_of ok i) = Some log_cost).
  { rewrite <- log_cost_known. destruct ok; apply compute_cost_spec; simpl; by rewrite ?event_word. }
  destruct (record_log_costs_spec _ _ _ Hc Hs) as (s1 & H1 & _).
  destruct (record_log_spec (log_of ok i) s1) as (s2 & H2 & _).
  exists s2. unfold Batch.emit, charge, mbind, M_bind. by rewrite H1, H2.
Qed.

Lemma not_enough_gas_spec mode i (s : S) :
  log_cost <= remaining_gas s ->
  exists s', emit (log_subcall_failed T code_address i) s = Ok tt s' /\
    not_enough_gas (Fa := Fa) T code_address mode i s =
      match mode with
      | BatchAll => Err (FailError OutOfGas) s'
      | BatchSomeUntilFailure => Ok Return s'
      | BatchSome => Ok Continue s'
      end.
Proof.
  intros Hs. destruct (emit_paid false i s Hs) as [s' He]. exists s'. split; [done|].
  unfold not_enough_gas. unfold mbind, M_bind. rewrite He. by destruct mode.
Qed.

(** Gas forwarded to a subcall leaves enough for its log. *)
Lemma forwarded_gas c (s : S) g :
  forwarded T log_cost c s = Some g -> (forall l, gas_limit c = Some l -> 0 <= l) ->
  0 <= g /\ log_cost + call_cost T (value c) + g <= remaining_gas s.
Proof.
  unfold forwarded. intros Hf Hl.
  destruct (checked_sub (remaining_gas s) log_cost) as [a|] eqn:Ha; [|done]. simpl in Hf.
  destruct (checked_sub a (call_cost T (value c))) as [b|] eqn:Hb; [|done]. simpl in Hf.
  apply checked_sub_Some in Ha as [-> ?], Hb as [-> ?].
  destruct (gas_limit c) as [l|]; [|injection Hf as <-; lia]. specialize (Hl l eq_refl).
  destruct (Z.ltb_spec (remaining_gas s - log_cost - call_cost T (value c)) l); simplify_eq. lia.
Qed.

(** The call and its log. *)
Lemma perform_spec mode i c (s : S) g :
  forwarded T log_cost c s = Some g -> (forall l, gas_limit c = Some l -> 0 <= l) ->
  match perform T code_address context mode i c g s with
  | Ok flow s' => exists ok, executed i c s ok s' /\
      flow = match mode, ok with BatchSomeUntilFailure, false => Return | _, _ => Continue end /\
      (mode = BatchAll -> ok = true)
  | Err e _ => (mode = BatchAll \/ exists f, e = FailFatal f) /\ forall s', ~ executed i c s true s'
  | Panic => False
  end.
Proof.
  intros Hf Hl. destruct (forwarded_gas c s g Hf Hl) as [Hg Hleft].
  set (t := if value c =? 0 then None else Some (mkTransfer (caller context) (to c) (value c))).
  set (ctx := mkContext (caller context) (to c) (value c)).
  destruct (call (to c) t (call_data c) (Some g) false ctx s) as [[reason output] s1] eqn:Hcall.
  assert (Hrem : log_cost <= remaining_gas s1).
  { pose proof (call_gas (to c) t (call_data c) g false ctx s) as Hgas. rewrite Hcall in Hgas.
    assert (Hv : match t with Some t => amount _ t | None => 0 end = value c).
    { unfold t. by destruct (Z.eqb_spec (value c) 0). }
    cbn zeta in Hgas. rewrite Hv in Hgas. simpl in Hgas.
    pose proof (compute_cost_nonneg _ _ log_cost_known). lia. }
  assert (Hex : forall ok s', executed i c s ok s' <->
    match reason with Succeed => ok = true | Fatal _ => False | _ => ok = false end /\
    emit (log_of ok i) s1 = Ok tt s').
  { intros ok s'. unfold Batch.executed. fold t ctx. rewrite Hf. split.
    - intros (g' & r & o & s2 & [= <-] & Hc & Hr & He). rewrite Hcall in Hc. injection Hc as <- <- <-. by split.
    - intros [Hr He]. by exists g, reason, output, s1. }
  destruct (emit_paid true i s1 Hrem) as [st Ht]. destruct (emit_paid false i s1 Hrem) as [sf Hfl].
  unfold perform. unfold mbind, M_bind. fold t ctx. rewrite Hcall.
  destruct reason as [|e| |f].
  - rewrite Ht. destruct mode; (exists true; split; [by apply Hex|by split]).
  - rewrite Hfl. destruct mode; simpl; [exists false; split; [by apply Hex|by split]..|].
    split; [by left|]. intros s' [? _]%Hex. done.
  - rewrite Hfl. destruct mode; simpl; [exists false; split; [by apply Hex|by split]..|].
    split; [by left|]. intros s' [? _]%Hex. done.
  - destruct mode; simpl; (split; [right; by exists f|]); intros s' [? _]%Hex; done.
Qed.

(** What one round of the loop does. *)
Lemma step_spec mode i c (s : S) :
  (forall l, gas_limit c = Some l -> 0 <= l) ->
  match batch_step T code_address context mode log_cost i c s with
  | Ok flow s' =>
      remaining_gas s < log_cost /\ flow = Return /\ s' = s /\ mode <> BatchAll \/
      exists ok, (forall cs oks s2, ran (Datatypes.S i) cs oks s' s2 ->
                    ran i (c :: cs) (ok :: oks) s s2) /\
        flow = match mode, ok with BatchSomeUntilFailure, false => Return | _, _ => Continue end /\
        (mode = BatchAll -> ok = true /\ executed i c s true s')
  | Err e _ => (mode = BatchAll \/ exists f, e = FailFatal f) /\ forall s', ~ executed i c s true s'
  | Panic => False
  end.
Proof.
  intros Hl. assert (Hno : forwarded T log_cost c s = None -> forall s', ~ executed i c s true s').
  { intros Hn s' (g & ? & ? & ? & Hg & _). congruence. }
  unfold batch_step. unfold mbind at 1, M_bind at 1, gets.
  destruct (checked_sub (remaining_gas s) log_cost) as [avail|] eqn:Hav.
  2: { assert (Hlt : remaining_gas s < log_cost).
       { unfold checked_sub in Hav. by destruct (Z.leb_spec log_cost (remaining_gas s)). }
       assert (Hn : forwarded T log_cost c s = None) by (unfold forwarded; by rewrite Hav).
       destruct mode; simpl; [left..|]; try by split_and!. split; [by left|by apply Hno]. }
  assert (Hle : log_cost <= remaining_gas s) by by apply checked_sub_Some in Hav as [_ ?].
  assert (Hstarved : forwarded T log_cost c s = None ->
    match not_enough_gas (Fa := Fa) T code_address mode i s with
    | Ok flow s' => exists ok, (forall cs oks s2, ran (Datatypes.S i) cs oks s' s2 ->
                      ran i (c :: cs) (ok :: oks) s s2) /\
        flow = match mode, ok with BatchSomeUntilFailure, false => Return | _, _ => Continue end /\
        (mode = BatchAll -> ok = true /\ executed i c s true s')
    | Err e _ => (mode = BatchAll \/ exists f, e = FailFatal f) /\ forall s', ~ executed i c s true s'
    | Panic => False
    end).
  { intros Hn. destruct (not_enough_gas_spec mode i s Hle) as (s' & He & ->).
    destruct mode; [exists false..|split; [by left|by apply Hno]];
      (split; [intros; by eapply ran_starved|by split]). }
  assert (Hfw : forwarded T log_cost c s = (b ← checked_sub avail (call_cost T (value c));
    match gas_limit c with None => Some b | Some l => if b <? l then None else Some l end))
    by (unfold forwarded; by rewrite Hav).
  assert (Hperf : forall g, forwarded T log_cost c s = Some g ->
    match perform T code_address context mode i c g s with
    | Ok flow s' => exists ok, (forall cs oks s2, ran (Datatypes.S i) cs oks s' s2 ->
                      ran i (c :: cs) (ok :: oks) s s2) /\
        flow = match mode, ok with BatchSomeUntilFailure, false => Return | _, _ => Continue end /\
        (mode = BatchAll -> ok = true /\ executed i c s true s')
    | Err e _ => (mode = BatchAll \/ exists f, e = FailFatal f) /\ forall s', ~ executed i c s true s'
    | Panic => False
    end).
  { intros g Hg. pose proof (perform_spec mode i c s g Hg Hl) as Hp.
    destruct (perform _ _ _ _ _ _ _ _) as [flow s'|e s'|]; [|done..].
    destruct Hp as (ok & Hex & Hflow & Hall). exists ok.
    split; [intros; by eapply ran_call|]. split; [done|]. intros Hm. rewrite (Hall Hm) in Hex.
    by split; [apply Hall|]. }
  destruct (checked_sub avail _) as [b|]; simpl in Hfw.
  - destruct (gas_limit c) as [l|]; [destruct (b <? l)|].
    + specialize (Hstarved Hfw). destruct (not_enough_gas _ _ _ _ _); eauto.
    + specialize (Hperf _ Hfw). destruct (perform _ _ _ _ _ _ _ _); eauto.
    + specialize (Hperf _ Hfw). destruct (perform _ _ _ _ _ _ _ _); eauto.
  - specialize (Hstarved Hfw). destruct (not_enough_gas _ _ _ _ _); eauto.
Qed.

(** A subcall has one result. *)
Lemma executed_unique i c (s : S) ok ok' s1 s2 :
  executed i c s ok s1 -> executed i c s ok' s2 -> ok = ok' -> s1 = s2.
Proof.
  intros (g & r & o & t & Hf & Hc & Hr & He) (g' & r' & o' & t' & Hf' & Hc' & Hr' & He') <-.
  rewrite Hf in Hf'. injection Hf' as <-. rewrite Hc in Hc'. injection Hc' as <- <- <-.
  rewrite He in He'. by injection He'.
Qed.

Lemma subcalls_limits tos values datas limits :
  Forall (fun l => 0 <= l) limits ->
  Forall (fun c => forall l, gas_limit c = Some l -> 0 <= l) (subcalls (Addr := Addr) tos values datas limits).
Proof.
  revert values datas limits. induction tos as [|a tos IH]; intros values datas limits Hl; [done|].
  cbn [subcalls]. constructor.
  - simpl. intros l. destruct Hl as [|x limits Hx Hl]; simpl; [done|].
    destruct (x =? 0); [done|]. by intros [= <-].
  - apply IH. destruct Hl; [constructor|done].
Qed.

Lemma length_subcalls tos values datas limits :
  length (subcalls (Addr := Addr) tos values datas limits) = length tos.
Proof.
  revert values datas limits. induction tos as [|a tos IH]; intros; [done|]. cbn [subcalls length].
  by rewrite IH.
Qed.

(** The loop from subcall [i] on. *)
Lemma loop_spec mode i cs (s : S) :
  Forall (fun c => forall l, gas_limit c = Some l -> 0 <= l) cs ->
  match batch_loop T code_address context mode log_cost i cs s with
  | Ok _ s' => exists oks, (length oks <= length cs)%nat /\
      ran i (take (length oks) cs) oks s s' /\
      accepts mode (length cs) oks (remaining_gas s' < log_cost)
  | Err e _ => mode = BatchAll \/ exists f, e = FailFatal f
  | Panic => False
  end.
Proof.
  intros Hcs. revert i s. induction Hcs as [|c cs Hl Hcs IH]; intros i s.
  { exists []. split; [done|]. split; [constructor|]. destruct mode; simpl; [by left| |done].
    exists 0%nat. right. split; [done|by left]. }
  cbn [batch_loop]. unfold mbind, M_bind. pose proof (step_spec mode i c s Hl) as Hs.
  destruct (batch_step _ _ _ _ _ _ _ _) as [flow s1|e s1|]; [|apply Hs|done].
  destruct Hs as [(Hgas & -> & -> & Hm)|(ok & Hran & -> & Hall)].
  { exists []. split; [simpl; lia|]. split; [constructor|]. destruct mode; simpl; [by right| |done].
    exists 0%nat. right. split; [done|by right]. }
  assert (Hgo : match batch_loop T code_address context mode log_cost (Datatypes.S i) cs s1 with
    | Ok _ s' => ok = true \/ mode = BatchSome -> exists oks, (length oks <= length (c :: cs))%nat /\
        ran i (take (length oks) (c :: cs)) oks s s' /\
        accepts mode (length (c :: cs)) oks (remaining_gas s' < log_cost)
    | Err e _ => mode = BatchAll \/ exists f, e = FailFatal f
    | Panic => False
    end).
  { specialize (IH (Datatypes.S i) s1). destruct (batch_loop _ _ _ _ _ _ _ _) as [u s'| |]; [|done..].
    intros Hok. destruct IH as (oks & Hlen & Hr & Hacc). exists (ok :: oks). simpl. split; [lia|].
    split; [by apply Hran|]. destruct mode; simpl in *.
    - destruct Hacc; [left; lia|by right].
    - destruct Hok as [->|]; [|done]. destruct Hacc as (k & [->|[-> Hk]]); exists (Datatypes.S k).
      + by left.
      + right. split; [done|]. destruct Hk; [left; lia|by right].
    - by rewrite (proj1 (Hall eq_refl)), Hacc. }
  destruct mode, ok; try (destruct (batch_loop _ _ _ _ _ _ _ _); auto; fail).
  - exists [false]. simpl. split; [lia|]. split; [|exists 0%nat; by left].
    rewrite take_0. by apply Hran, ran_nil.
  - by destruct (Hall eq_refl).
Qed.

(** A state from which the remaining subcalls all succeed leads there. *)
Lemma all_loop_complete i cs (s s' : S) :
  Forall (fun c => forall l, gas_limit c = Some l -> 0 <= l) cs ->
  ran i cs (replicate (length cs) true) s s' ->
  batch_loop T code_address context BatchAll log_cost i cs s = Ok tt s'.
Proof.
  intros Hcs. revert i s. induction Hcs as [|c cs Hl Hcs IH]; intros i s Hr; inversion Hr as
    [|? ? ? ? ? ? s1 ? Hex Hr'|]; subst; [done|].
  cbn [batch_loop]. unfold mbind, M_bind. pose proof (step_spec BatchAll i c s Hl) as Hs.
  destruct (batch_step _ _ _ _ _ _ _ _) as [flow s2|e s2|]; [|by apply Hs in Hex|done].
  destruct Hs as [(_ & _ & _ & Hm)|(ok & _ & -> & Hall)]; [done|].
  destruct (Hall eq_refl) as [-> Hex']. rewrite (executed_unique i c s true true s1 s2 Hex Hex' eq_refl) in Hr'.
  by apply IH.
Qed.
End Lemmas.

(** ** What a batch keeps

    A property that charging, logging and calls in the caller's name keep is kept by a
    batch. *)
Section Keeps.
Context {S Addr Ex Fa : Type} `{!GasMeter S Addr Ex} `{!Caller S Addr Ex Fa}.
Context (T : Config) (code_address : Addr) (context : Context Addr) (I : S -> Prop).
Context (keeps_costs : forall l s s', I s -> record_log_costs l s = inr s' -> I s').
Context (keeps_log : forall l s s', I s -> record_log l s = inr s' -> I s').
Context (keeps_call : forall a v d g s r o s', I s ->
  call a (if v =? 0 then None else Some (mkTransfer (caller context) a v)) d (Some g) false
    (mkContext (caller context) a v) s = (r, o, s') -> I s').

Lemma emit_keeps l : keeps I (emit (Ex := Ex) (Fa := Fa) l).
Proof.
  intros s u s' Hs Hr. unfold emit in Hr. inv_evm. eauto.
Qed.

Lemma not_enough_gas_keeps mode i : keeps I (not_enough_gas (Fa := Fa) T code_address mode i).
Proof.
  apply keeps_bind; [apply emit_keeps|]. intros _. apply read_only_keeps. destruct mode; auto with handler.
Qed.

Lemma perform_keeps mode i c g : keeps I (perform T code_address context mode i c g).
Proof.
  apply keeps_bind.
  - intros s [r o] s' Hs Hr. destruct (call _ _ _ _ _ _ s) as [[r' o'] s1] eqn:Hc. simplify_eq.
    by eapply keeps_call.
  - intros [r o]. apply keeps_bind.
    + destruct r; try apply emit_keeps. apply read_only_keeps; auto with handler.
    + intros _. apply read_only_keeps. destruct mode, r; auto with handler.
Qed.

Lemma batch_loop_keeps mode log_cost cs i :
  keeps I (batch_loop T code_address context mode log_cost i cs).
Proof.
  revert i. induction cs as [|c cs IH]; intros i; cbn [batch_loop]; [apply read_only_keeps; auto with handler|].
  apply keeps_bind.
  - apply keeps_bind; [apply read_only_keeps; auto with handler|]. intros rem.
    destruct (checked_sub rem log_cost) as [f|]; [|apply read_only_keeps; destruct mode; auto with handler].
    destruct (checked_sub f _); [|apply not_enough_gas_keeps].
    destruct (gas_limit c); [case_match; [apply not_enough_gas_keeps|]|]; apply perform_keeps.
  - intros [|]; [apply IH|apply read_only_keeps; auto with handler].
Qed.

Lemma inner_batch_keeps mode tos values datas limits :
  keeps I (inner_batch T code_address context mode tos values datas limits).
Proof.
  unfold inner_batch. destruct (compute_cost _).
  - apply batch_loop_keeps.
  - apply read_only_keeps. unfold revert_with. auto with handler.
Qed.
End Keeps.

(** ** Properties *)
Section Properties.
Context {S Addr Ex Fa : Type} `{!GasMeter S Addr Ex} `{!Caller S Addr Ex Fa}.
Context (T : Config) `{!GasLaws S Addr Ex Fa (call_cost T)}.
Context (code_address : Addr) (context : Context Addr).
Context (event_word : forall n, length (encode_event_data T n) = 32%nat).

(** C25: each mode keeps its promise and the reserved gas suffices: the subcalls made
    are the first ones, in order, with the defaults of lists that are too short, each
    followed by its log; a batch that must run all succeeds only if every subcall
    did; the one that stops does so at the first failure or when the gas is used up;
    the one that runs what it can attempts every subcall while there is gas for a
    log, and neither of the last two ever fails except with a fatal subcall. *)
Theorem batch_outcomes mode log_cost tos values datas limits (s : S) :
  compute_cost (S := S) (log_subcall_failed T code_address 0) = Some log_cost ->
  Forall (fun l => 0 <= l) limits ->
  let cs := subcalls tos values datas limits in
  match inner_batch (Ex := Ex) (Fa := Fa) T code_address context mode tos values datas limits s with
  | Ok _ s' => exists oks, (length oks <= length tos)%nat /\
      ran (Ex := Ex) (Fa := Fa) T code_address context log_cost 0 (take (length oks) cs) oks s s' /\
      accepts mode (length tos) oks (remaining_gas s' < log_cost)
  | Err e _ => mode = BatchAll \/ exists f, e = FailFatal f
  | Panic => False
  end.
Proof.
  intros Hc Hl cs. unfold inner_batch. rewrite Hc.
  rewrite <- (length_subcalls tos values datas limits).
  apply (loop_spec T code_address context event_word log_cost Hc); by apply subcalls_limits.
Qed.

(** All or nothing: [batchAll] succeeds exactly when its subcalls, made one
    after the other, all succeed, and then leads to the state after the last; in
    every other case the EVM keeps the state from before. *)
Theorem batch_all_or_nothing log_cost tos values datas limits (s : S) :
  compute_cost (S := S) (log_subcall_failed T code_address 0) = Some log_cost ->
  Forall (fun l => 0 <= l) limits ->
  let cs := subcalls tos values datas limits in
  let batch := transactional (batch_all (Ex := Ex) (Fa := Fa) T code_address context tos values datas limits) in
  (forall s', batch s = Ok tt s' <->
     ran (Ex := Ex) (Fa := Fa) T code_address context log_cost 0 cs (replicate (length tos) true) s s') /\
  ((forall s', batch s <> Ok tt s') -> final_state batch s = s).
Proof.
  intros Hc Hl cs batch. unfold batch, batch_all, inner_batch. rewrite Hc. fold cs.
  pose proof (subcalls_limits tos values datas limits Hl) as Hcs. fold cs in Hcs.
  assert (Hlen : length cs = length tos) by apply length_subcalls.
  split.
  - intros s'. rewrite <- Hlen. split.
    + pose proof (loop_spec (Fa := Fa) T code_address context event_word log_cost Hc BatchAll 0 cs s Hcs) as Hs.
      unfold transactional. destruct (batch_loop _ _ _ _ _ _ _ _) as [u s1|e s1|]; [|done..].
      intros Heq. injection Heq as _ <-. destruct Hs as (oks & _ & Hr & ->).
      rewrite length_replicate, firstn_all in Hr. done.
    + intros Hr. unfold transactional.
      by rewrite (all_loop_complete (Fa := Fa) T code_address context event_word log_cost Hc 0 cs s s' Hcs Hr).
  - intros Hno. unfold final_state, transactional in *.
    destruct (batch_loop _ _ _ _ _ _ _ _) as [[] s1|e s1|]; [by destruct (Hno s1)|done..].
Qed.
End Properties.

(** ** A concrete EVM: gas and the addresses called; even addresses succeed, odd
    ones revert, negative ones are fatal *)
Section Witnesses.
Record Machine := mkMachine { gas : Z; called : list Z; logs : list (Log Z) }.

#[local] Instance sample_meter : GasMeter Machine Z unit := {|
  OutOfGas := tt;
  remaining_gas := gas;
  record c s :=
    let g := match c with DbRead n => n | Cost g => g | LogCosts t d => 375 * (t + 1) + 8 * d end in
    if g <=? gas s then inr (mkMachine (gas s - g) (called s) (logs s)) else inl tt;
  compute_cost l := Some (375 * (Z.of_nat (length (topics l)) + 1) + 8 * Z.of_nat (length (log_data l)));
  record_log_costs l s :=
    let g := 375 * (Z.of_nat (length (topics l)) + 1) + 8 * Z.of_nat (length (log_data l)) in
    if g <=? gas s then inr (mkMachine (gas s - g) (called s) (logs s)) else inl tt;
  record_log l s := inr (mkMachine (gas s) (called s) (logs s ++ [l]));
|}.

(** A call costs 700, and 9000 more with a value; the callee uses 100 of its gas. *)
Definition sample_call_cost (v : Z) : Z := if v =? 0 then 700 else 9700.

#[local] Instance sample_caller : Caller Machine Z unit unit := fun a t _ g _ _ s =>
  let v := match t with Some t => amount _ t | None => 0 end in
  let used := sample_call_cost v + Z.min 100 (default (gas s) g) in
  let s' := mkMachine (gas s - used) (called s ++ [a]) (logs s) in
  if a <? 0 then (Fatal tt, [], s') else if Z.even a then (Succeed, [], s') else (Revert, [a], s').

Definition sample_config : Config := {|
  LOG_SUBCALL_SUCCEEDED := [1];
  LOG_SUBCALL_FAILED := [0];
  encode_event_data n := to_be_bytes 32 n;
  call_cost := sample_call_cost;
  revert _ := [];
|}.

#[local] Instance sample_laws : GasLaws Machine Z unit unit sample_call_cost.
Proof.
  split.
  - intros l s c [= <-] Hle. simpl in *. rewrite (proj2 (Z.leb_le _ _)) by lia. by eexists.
  - intros l c [= <-]. lia.
  - intros l l' H1 H2. simpl. by rewrite H1, H2.
  - intros l s. by eexists.
  - intros to t data g static ctx s value Hg Hle. unfold call, sample_caller. fold value.
    destruct (to <? 0); [|destruct (Z.even to)]; simpl; lia.
Qed.

Lemma sample_words n : length (encode_event_data sample_config n) = 32%nat.
Proof. apply length_to_be_bytes. Qed.

Lemma sample_log_cost :
  compute_cost (S := Machine) (log_subcall_failed sample_config 9 0) = Some 1006.
Proof. vm_compute. reflexivity. Qed.

Definition sample_state : Machine := mkMachine 100000 [] [].

Abbreviation sample_batch mode := (inner_batch (Ex := unit) (Fa := unit) sample_config 9
  (mkContext 1 9 0) mode [2; 4; 3; 6] [5] [] [0; 0; 5000] sample_state).

(** The third subcall fails: the first mode goes on, the second stops there. *)
Lemma batch_outcomes_witness :
  match sample_batch BatchSomeUntilFailure with
  | Ok _ s' => called s' = [2; 4; 3] /\ exists oks, (length oks <= 4)%nat /\
      accepts BatchSomeUntilFailure 4 oks (gas s' < 1006)
  | _ => False
  end.
Proof.
  assert (Hl : Forall (fun l => 0 <= l) [0; 0; 5000]) by (repeat constructor; lia).
  pose proof (batch_outcomes (Fa := unit) sample_config 9 (mkContext 1 9 0) sample_words
    BatchSomeUntilFailure 1006 [2; 4; 3; 6] [5] [] [0; 0; 5000] sample_state sample_log_cost Hl) as Hb.
  destruct (sample_batch BatchSomeUntilFailure) as [u s'|e s'|] eqn:Hr.
  - destruct Hb as (oks & Hlen & _ & Hacc). split; [|by exists oks].
    vm_compute in Hr. injection Hr as <- <-. reflexivity.
  - vm_compute in Hr. discriminate Hr.
  - exact Hb.
Defined.

Lemma batch_all_or_nothing_witness :
  final_state (transactional (batch_all (Ex := unit) (Fa := unit) sample_config 9 (mkContext 1 9 0)
    [2; 4; 3; 6] [5] [] [0; 0; 5000])) sample_state = sample_state.
Proof.
  assert (Hl : Forall (fun l => 0 <= l) [0; 0; 5000]) by (repeat constructor; lia).
  apply (batch_all_or_nothing (Fa := unit) sample_config 9 (mkContext 1 9 0) sample_words 1006 [2; 4; 3; 6] [5] []
    [0; 0; 5000] sample_state sample_log_cost Hl).
  intros s'. vm_compute. discriminate.
Defined.
End Witnesses.
