(* ===== verification/Erc20.v ===== *)
(** * The ERC-20 precompile over a balances pallet
      ([precompiles/balances-erc20/src/{lib,eip2612}.rs])

    A currency of the runtime as an ERC-20 token: its transfers are dispatched to the
    balances pallet, approvals and the nonces of signed permits are storage of the
    precompile.  The balances pallet, the dispatch and its gas are the interface
    [TokenBalances]; hashing, ABI encoding and signature recovery are configuration. *)
From Stdlib Require Import ZArith Lia String.
From stdpp Require Import prelude gmap fin_maps.
From S2P Require Import Prelude.
From S2P Require Import Evm.

Local Open Scope Z_scope.

(** The currency as seen through the handle [G]: [total_issuance], [usable_balance],
    the dispatch of [transfer_allow_death] by a signed origin with a storage growth
    limit, the free balance it moves and the pallet's existential deposit. *)
Class TokenBalances (G A Ex Fa : Type) := {
  existential_deposit : Z;
  total_issuance : G -> Z;
  usable_balance : G -> A -> Z;
  balance : G -> A -> Z;
  transfer_allow_death : A -> A -> Z -> Z -> G -> PrecompileFailure Ex Fa + G;
}.

(** What a transfer of [v] from [x] to [y] makes of the balances: the value moves; when
    it leaves less than the existential deposit [ed], the rest, the dust, is removed from
    the account with it, and what the runtime's handler does with dust may make others
    (never [x]) richer by at most as much. *)
Definition transferred {A} `{EqDecision A} (ed : Z) (x y : A) (v : Z) (old new : A -> Z) : Prop :=
  exists dust, 0 <= dust /\
    (dust = 0 \/ x <> y /\ 0 < v /\ old x - v = dust /\ dust < ed) /\
    forall a,
      let moved := old a - (if decide (x = a) then v + dust else 0) + (if decide (y = a) then v else 0) in
      moved <= new a <= moved + (if decide (x = a) then 0 else dust).

(** Charging gas and logging leave the balances alone; a transfer moves its value, and
    removes an account that it leaves below the existential deposit. *)
Class TokenLaws (G A Addr Ex Fa : Type) `{EqDecision A} `{GasMeter G Addr Ex}
    `{TokenBalances G A Ex Fa} : Prop := {
  balance_nonneg (g : G) (a : A) : 0 <= balance g a;
  record_balance c (g g' : G) (a : A) : record c g = inr g' -> balance g' a = balance g a;
  record_log_balance l (g g' : G) (a : A) : record_log l g = inr g' -> balance g' a = balance g a;
  transfer_balance from to v growth (g g' : G) :
    0 <= v -> transfer_allow_death from to v growth g = inr g' ->
    transferred (existential_deposit (G := G) (A := A) (Ex := Ex) (Fa := Fa)) from to v
      (balance (Ex := Ex) (Fa := Fa) g) (balance (Ex := Ex) (Fa := Fa) g');
}.

(** *** What follows for the accounts *)
Section Transferred.
Context {A : Type} `{EqDecision A} (ed : Z) (x y : A) (v : Z) (old new : A -> Z).

Lemma transferred_ext old' new' :
  (forall a, old a = old' a) -> (forall a, new a = new' a) ->
  transferred ed x y v old new -> transferred ed x y v old' new'.
Proof.
  intros Ho Hn (dust & H0 & Hd & Ha). exists dust. split; [done|]. split; [by rewrite <- Ho|].
  intros a. rewrite <- Ho, <- Hn. apply Ha.
Qed.

Context (Ht : transferred ed x y v old new).

(** Only the source loses, *)
Lemma transferred_other a : 0 <= v -> x <> a -> old a <= new a.
Proof.
  destruct Ht as (dust & H0 & _ & Ha). intros Hv Hne. specialize (Ha a). simpl in Ha.
  rewrite decide_False in Ha by done. repeat case_decide; lia.
Qed.

(** at most the value for every unit of the existential deposit, *)
Lemma transferred_source : 0 <= v -> old x - Z.max 1 ed * v <= new x.
Proof.
  destruct Ht as (dust & H0 & Hd & Ha). intros Hv. specialize (Ha x). simpl in Ha.
  rewrite decide_True in Ha by done.
  assert (v + dust <= Z.max 1 ed * v) by (destruct Hd as [->|(_ & ? & _ & ?)]; nia).
  case_decide; lia.
Qed.

(** and no more than the value if it keeps the existential deposit. *)
Lemma transferred_kept : 0 <= v -> ed <= old x - v -> old x - v <= new x.
Proof.
  destruct Ht as (dust & H0 & Hd & Ha). intros Hv He. specialize (Ha x). simpl in Ha.
  rewrite decide_True in Ha by done. assert (dust = 0) as -> by lia. case_decide; lia.
Qed.
End Transferred.

Section Definitions.
Context {Addr A G Ex Fa : Type} `{Countable Addr} `{Countable A}.
Context `{GasMeter G Addr Ex} `{TokenBalances G A Ex Fa}.

(** The runtime, the metadata and the host functions. *)
Record Config := mkConfig {
  into_account_id : Addr -> A;
  balance_bits : Z;
  db_write_gas_cost : Z;
  StorageGrowth : Z;
  ChainId : Z;
  name : list Z;
  symbol : list Z;
  decimals : Z;
  is_native_currency : bool;
  (** reverts: [revert], [value_is_too_large] in a field, [UnknownSelector] *)
  revert : string -> list Z;
  too_large : list string -> list Z;
  unknown_selector : list Z;
  (** [keccak256!], [keccak_256], [encode_arguments], [encode_event_data],
      [secp256k1_ecdsa_recover], the address of a hash *)
  keccak : string -> list Z;
  keccak_256 : list Z -> list Z;
  encode_arguments : list (Argument Addr) -> list Z;
  encode_event_data : Z -> list Z;
  address_topic : Addr -> list Z;
  ecdsa_recover : list Z -> list Z -> option (list Z);
  address_of_hash : list Z -> Addr;
  zero_address : Addr;
}.

(** [ApprovesStorage], [NoncesStorage], everything else *)
Record State := mkState {
  Approves : gmap (A * A) Z;
  Nonces : gmap Addr Z;
  env : G;
}.

Abbreviation Mo := (M State (PrecompileFailure Ex Fa)).

Context (T : Config).
(** The context of the call: its caller, the precompile's address, the value. *)
Context (context : Context Addr).

Definition update_approves f (s : State) : State := mkState (f (Approves s)) (Nonces s) (env s).
Definition update_nonces f (s : State) : State := mkState (Approves s) (f (Nonces s)) (env s).
Definition put_env g (s : State) : State := mkState (Approves s) (Nonces s) g.

Definition get_approve (owner spender : A) (s : State) : option Z := Approves s !! (owner, spender).
Definition get_nonce (owner : Addr) (s : State) : Z := default 0 (Nonces s !! owner).

(** [handle.record_*(..)?] and [log.record(handle)?] *)
Definition on_handle (op : G -> Ex + G) : Mo unit := charge (fun s =>
  match op (env s) with inl e => inl e | inr g => inr (put_env g s) end).

(** [RuntimeHelper::try_dispatch] of [transfer_allow_death] *)
Definition try_dispatch_transfer (origin dest : A) (value : Z) : Mo unit := fun s =>
  match transfer_allow_death origin dest value (StorageGrowth T) (env s) with
  | inl e => Err e s
  | inr g => Ok tt (put_env g s)
  end.

(** [log2], [log3] with this precompile's address *)
Definition log (event : string) (addresses : list Addr) (data : Z) : Log Addr :=
  mkLog (address context) (keccak T event :: map (address_topic T) addresses)
    (encode_event_data T data).

Definition SELECTOR_LOG_TRANSFER : string := "Transfer(address,address,uint256)".
Definition SELECTOR_LOG_APPROVAL : string := "Approval(address,address,uint256)".
Definition SELECTOR_LOG_DEPOSIT : string := "Deposit(address,uint256)".
Definition SELECTOR_LOG_WITHDRAWAL : string := "Withdrawal(address,uint256)".

(** [u256_to_amount] *)
Definition u256_to_amount (value : Z) : option Z :=
  if value <=? umax (balance_bits T) then Some value else None.

(** ** Views *)
Definition total_supply : Mo Z :=
  on_handle (record (DbRead 16)) ;;
  gets (fun s => total_issuance (env s)).

Definition balance_of (owner : Addr) : Mo Z :=
  on_handle (record (DbRead 116)) ;;
  gets (fun s => usable_balance (env s) (into_account_id T owner)).

Definition allowance (owner spender : Addr) : Mo Z :=
  on_handle (record (DbRead 88)) ;;
  gets (fun s => default 0 (get_approve (into_account_id T owner) (into_account_id T spender) s)).

(** ** Calls *)
Definition approve (spender : Addr) (value : Z) : Mo bool :=
  on_handle (record (Cost (db_write_gas_cost T))) ;;
  on_handle (record (LogCosts 3 32)) ;;
  let amount := default (umax (balance_bits T)) (u256_to_amount value) in
  modify (update_approves
    <[(into_account_id T (caller context), into_account_id T spender) := amount]>) ;;
  on_handle (record_log (log SELECTOR_LOG_APPROVAL [caller context; spender] value)) ;;
  mret true.

Definition transfer (to : Addr) (value : Z) : Mo bool :=
  on_handle (record (LogCosts 3 32)) ;;
  amount ← ok_or (u256_to_amount value) (FailRevert (too_large T ["value"%string]));
  try_dispatch_transfer (into_account_id T (caller context)) (into_account_id T to) amount ;;
  on_handle (record_log (log SELECTOR_LOG_TRANSFER [caller context; to] value)) ;;
  mret true.

(** The closure of [ApprovesStorage::mutate]: an error leaves the entry as it was. *)
Definition spend_allowance (from spender : A) (value : Z) : Mo unit :=
  entry ← gets (get_approve from spender);
  allowed ← ok_or entry (FailRevert (revert T "spender not allowed"));
  allowed ← ok_or (checked_sub allowed value)
    (FailRevert (revert T "trying to spend more than allowed"));
  modify (update_approves <[(from, spender) := allowed]>).

Definition transfer_from (from to : Addr) (value : Z) : Mo bool :=
  on_handle (record (DbRead 88)) ;;
  on_handle (record (Cost (db_write_gas_cost T))) ;;
  on_handle (record (LogCosts 3 32)) ;;
  let spender := into_account_id T (caller context) in
  let from_account := into_account_id T from in
  amount ← ok_or (u256_to_amount value) (FailRevert (too_large T ["value"%string]));
  when (negb (bool_decide (spender = from_account))) (spend_allowance from_account spender amount) ;;
  try_dispatch_transfer from_account (into_account_id T to) amount ;;
  on_handle (record_log (log SELECTOR_LOG_TRANSFER [from; to] value)) ;;
  mret true.

(** The native currency as a wrapped token: funds sent here go back to the caller. *)
Definition deposit : Mo unit :=
  ensure (is_native_currency T) (FailRevert (unknown_selector T)) ;;
  amount ← ok_or (u256_to_amount (apparent_value context)) (FailRevert (too_large T []));
  ensure (negb (amount =? 0)) (FailRevert (revert T "deposited amount must be non-zero")) ;;
  on_handle (record (LogCosts 2 32)) ;;
  try_dispatch_transfer (into_account_id T (address context)) (into_account_id T (caller context))
    amount ;;
  on_handle (record_log (log SELECTOR_LOG_DEPOSIT [caller context] (apparent_value context))).

Definition withdraw (value : Z) : Mo unit :=
  ensure (is_native_currency T) (FailRevert (unknown_selector T)) ;;
  on_handle (record (LogCosts 2 32)) ;;
  account_amount ← gets (fun s => usable_balance (env s) (into_account_id T (caller context)));
  ensure (negb (account_amount <? value))
    (FailRevert (revert T "Trying to withdraw more than owned")) ;;
  on_handle (record_log (log SELECTOR_LOG_WITHDRAWAL [caller context] value)).

(** ** EIP-2612 *)
Definition compute_domain_separator (address : Addr) : list Z :=
  keccak_256 T (encode_arguments T [
    ArgBytes32 (keccak T "EIP712Domain(string name,string version,uint256 chainId,address verifyingContract)");
    ArgBytes32 (keccak_256 T (name T));
    ArgBytes32 (keccak T "1");
    ArgUint (ChainId T);
    ArgAddress address]).

Definition generate_permit (address owner spender : Addr) (value nonce deadline : Z) : list Z :=
  let domain_separator := compute_domain_separator address in
  let permit_content := keccak_256 T (encode_arguments T [
    ArgBytes32 (keccak T "Permit(address owner,address spender,uint256 value,uint256 nonce,uint256 deadline)");
    ArgAddress owner; ArgAddress spender; ArgUint value; ArgUint nonce; ArgUint deadline]) in
  keccak_256 T ([25; 1] ++ domain_separator ++ permit_content).

(** The address whose key signed [message], from the signature's three parts. *)
Definition recover (v : Z) (r s message : list Z) : option Addr :=
  public ← ecdsa_recover T (r ++ s ++ [v]) message;
  Some (address_of_hash T (keccak_256 T public)).

(** [permit]; [now] is the time in milliseconds. *)
Definition permit (now : Z) (owner spender : Addr) (value deadline v : Z) (r s : list Z) : Mo unit :=
  on_handle (record (DbRead 104)) ;;
  ensure (now / 1000 <=? deadline) (FailRevert (revert T "Permit expired")) ;;
  nonce ← gets (get_nonce owner);
  let permit := generate_permit (address context) owner spender value nonce deadline in
  signer ← ok_or (recover v r s permit) (FailRevert (revert T "Invalid permit"));
  ensure (negb (bool_decide (signer = zero_address T)) && bool_decide (signer = owner))
    (FailRevert (revert T "Invalid permit")) ;;
  next ← expect (checked_add 256 nonce 1);
  modify (update_nonces <[owner := next]>) ;;
  let amount := default (umax (balance_bits T)) (u256_to_amount value) in
  modify (update_approves <[(into_account_id T owner, into_account_id T spender) := amount]>) ;;
  on_handle (record_log (log SELECTOR_LOG_APPROVAL [owner; spender] value)).

Definition nonces (owner : Addr) : Mo Z :=
  on_handle (record (DbRead 104)) ;;
  gets (get_nonce owner).

Definition domain_separator : Mo (list Z) :=
  on_handle (record (DbRead 8)) ;;
  mret (compute_domain_separator (address context)).

(** ** Transactions *)

(** The calls that change state. *)
Inductive Call :=
  | approve_call (spender : Addr) (value : Z)
  | transfer_call (to : Addr) (value : Z)
  | transfer_from_call (from to : Addr) (value : Z)
  | deposit_call
  | withdraw_call (value : Z)
  | permit_call (owner spender : Addr) (value deadline v : Z) (r s : list Z).

(** A call in its context at a time, and its effect: the EVM drops that of errors. *)
Record Tx := mkTx { tx_context : Evm.Context Addr; tx_time : Z; tx_call : Call }.
End Definitions.
Arguments Config Addr A : clear implicits.
Arguments State Addr A G {_ _ _ _}.
Arguments Call Addr : clear implicits.
Arguments Tx Addr : clear implicits.

Section Runs.
Context {Addr A G Ex Fa : Type} `{Countable Addr} `{Countable A}.
Context `{GasMeter G Addr Ex} `{TokenBalances G A Ex Fa}.
Context (T : Config Addr A).

Abbreviation St := (State Addr A G).

Definition dispatch (tx : Tx Addr) : M St (PrecompileFailure Ex Fa) unit :=
  let context := tx_context tx in
  match tx_call tx with
  | approve_call spender value => _ ← approve T context spender value; mret tt
  | transfer_call to value => _ ← transfer T context to value; mret tt
  | transfer_from_call from to value => _ ← transfer_from T context from to value; mret tt
  | deposit_call => deposit T context
  | withdraw_call value => withdraw T context value
  | permit_call owner spender value deadline v r s =>
      permit T context (tx_time tx) owner spender value deadline v r s
  end.

Definition execute (s : St) (tx : Tx Addr) : St := final_state (transactional (dispatch tx)) s.

Definition succeeds (s : St) (tx : Tx Addr) : bool :=
  match dispatch tx s with Ok _ _ => true | _ => false end.

(** What [p] moves out of [o]'s account with its allowance. *)
Fixpoint spent (o p : A) (s : St) (txs : list (Tx Addr)) : Z :=
  match txs with
  | [] => 0
  | tx :: txs =>
      match tx_call tx with
      | transfer_from_call from _ value =>
          if succeeds s tx && bool_decide (into_account_id T from = o)
             && bool_decide (into_account_id T (caller (tx_context tx)) = p)
          then value else 0
      | _ => 0
      end + spent o p (execute s tx) txs
  end.

(** The permits of [owner] that are accepted, with the nonce each one uses. *)
Definition accepts_permit (owner : Addr) (s : St) (tx : Tx Addr) : bool :=
  match tx_call tx with
  | permit_call o _ _ _ _ _ _ => succeeds s tx && bool_decide (o = owner)
  | _ => false
  end.

Definition accepted (owner : Addr) : St -> list (Tx Addr) -> list (Z * Tx Addr) :=
  hits execute (get_nonce owner) (accepts_permit owner).

(** The transaction changes the allowance of [o] for [p] other than by spending. *)
Definition approves (o p : A) (tx : Tx Addr) : Prop :=
  match tx_call tx with
  | approve_call spender _ =>
      into_account_id T (caller (tx_context tx)) = o /\ into_account_id T spender = p
  | permit_call owner spender _ _ _ _ _ => into_account_id T owner = o /\ into_account_id T spender = p
  | _ => False
  end.

(** The transaction acts with the authority of the account [o] itself. *)
Definition acts_as (o : A) (tx : Tx Addr) : Prop :=
  into_account_id T (caller (tx_context tx)) = o \/ into_account_id T (address (tx_context tx)) = o \/
  match tx_call tx with
  | permit_call owner _ _ _ _ _ _ => into_account_id T owner = o
  | _ => False
  end.

(** Amounts are [u256]. *)
Definition amounts_ok (tx : Tx Addr) : Prop :=
  0 <= apparent_value (tx_context tx) /\
  match tx_call tx with
  | approve_call _ v | transfer_call _ v | transfer_from_call _ _ v | withdraw_call v
  | permit_call _ _ v _ _ _ _ => 0 <= v
  | deposit_call => True
  end.

(** The sum of what the spenders of [o] may still spend. *)
Definition allowances_of (o : A) (s : St) : Z :=
  map_sum (fun k v => if decide (k.1 = o) then v else 0) (Approves s).
End Runs.

(** ** Lemmas *)
Section Lemmas.
Context {Addr A G Ex Fa : Type} `{Countable Addr} `{Countable A}.
Context `{!GasMeter G Addr Ex} `{!TokenBalances G A Ex Fa} `{!TokenLaws G A Addr Ex Fa}.
Context (T : Config Addr A).

Abbreviation St := (State Addr A G).
Abbreviation Mo := (M St (PrecompileFailure Ex Fa)).
Abbreviation bal s a := (balance (Ex := Ex) (Fa := Fa) (env s) a).
Abbreviation ed := (existential_deposit (G := G) (A := A) (Ex := Ex) (Fa := Fa)).
Implicit Types (s : St) (a o p : A).

(** Only gas and logs changed. *)
Definition quiet s s' : Prop :=
  Approves s' = Approves s /\ Nonces s' = Nonces s /\ forall a, bal s' a = bal s a.

Lemma quiet_trans s1 s2 s3 : quiet s1 s2 -> quiet s2 s3 -> quiet s1 s3.
Proof.
  intros (H1 & H2 & H3) (H4 & H5 & H6). split; [congruence|]. split; [congruence|].
  intros a. by rewrite H6.
Qed.

Lemma quiet_refl s : quiet s s.
Proof. done. Qed.

Lemma charge_quiet c u s s' : on_handle (Fa := Fa) (record c) s = Ok u s' -> quiet s s'.
Proof.
  unfold on_handle, charge. destruct (record c (env s)) as [e|g] eqn:Hr; [done|].
  intros Hs. injection Hs as _ <-. split; [done|]. split; [done|]. intros a. by eapply record_balance.
Qed.

Lemma log_quiet l u s s' : on_handle (Fa := Fa) (record_log l) s = Ok u s' -> quiet s s'.
Proof.
  unfold on_handle, charge. destruct (record_log l (env s)) as [e|g] eqn:Hr; [done|].
  intros Hs. injection Hs as _ <-. split; [done|]. split; [done|]. intros a. by eapply record_log_balance.
Qed.

(** [s'] is [s] up to gas and logs, with [v] moved from [x] to [y]. *)
Definition moved (x y : A) (v : Z) s s' : Prop :=
  Nonces s' = Nonces s /\ transferred ed x y v (fun a => bal s a) (fun a => bal s' a).

Lemma try_dispatch_Ok x y v u s s' :
  0 <= v -> try_dispatch_transfer (Ex := Ex) T x y v s = Ok u s' ->
  Approves s' = Approves s /\ moved x y v s s'.
Proof.
  intros Hv. unfold try_dispatch_transfer.
  destruct (transfer_allow_death x y v _ (env s)) as [e|g] eqn:Ht; [done|].
  intros Hs. injection Hs as _ <-. split; [done|]. split; [done|]. by eapply transfer_balance.
Qed.
End Lemmas.

(** Take a successful run apart, collecting what its charges and logs keep. *)
Ltac run_ok :=
  repeat match goal with
  | Hr : (_ ≫= _) _ = Ok _ _ |- _ => apply bind_Ok in Hr as (? & ? & ? & ?)
  | Hr : on_handle (record _) _ = Ok _ _ |- _ => apply charge_quiet in Hr
  | Hr : on_handle (record_log _) _ = Ok _ _ |- _ => apply log_quiet in Hr
  | Hr : mret _ _ = Ok _ _ |- _ => first [injection Hr as <- <-|injection Hr as <-]
  | Hr : gets _ _ = Ok _ _ |- _ => injection Hr as <- <-
  | Hr : modify _ _ = Ok _ _ |- _ => injection Hr as <- <-
  | Hr : ensure ?b _ _ = Ok _ _ |- _ => unfold ensure in Hr; destruct b eqn:?; [injection Hr as <- <-|discriminate Hr]
  | Hr : ok_or ?o _ _ = Ok _ _ |- _ => unfold ok_or in Hr; destruct o eqn:?; [injection Hr as <- <-|discriminate Hr]
  | Hr : expect ?o _ = Ok _ _ |- _ => unfold expect in Hr; destruct o eqn:?; [injection Hr as <- <-|discriminate Hr]
  | Hq : quiet ?a ?b, Hq' : quiet ?b ?c |- _ =>
      pose proof (quiet_trans _ _ _ Hq Hq'); clear Hq Hq'
  end.

Section Operations.
Context {Addr A G Ex Fa : Type} `{Countable Addr} `{Countable A}.
Context `{!GasMeter G Addr Ex} `{!TokenBalances G A Ex Fa} `{!TokenLaws G A Addr Ex Fa}.
Context (T : Config Addr A) (ctx : Evm.Context Addr).

Abbreviation St := (State Addr A G).
Abbreviation quiet := (quiet (Ex := Ex) (Fa := Fa)).
Abbreviation moved := (moved (Ex := Ex) (Fa := Fa)).
Abbreviation bal s a := (balance (Ex := Ex) (Fa := Fa) (env s) a).
Implicit Types (s : St) (a o p : A).

(** Moves and quiet steps compose. *)
Lemma moved_quiet x y v s1 s2 s3 s4 :
  quiet s1 s2 -> Nonces s3 = Nonces s2 /\ env s3 = env s2 -> moved x y v s3 s4 ->
  moved x y v s1 s4.
Proof.
  intros (_ & H1 & H2) (H3 & H4) (H5 & H6). split; [congruence|].
  eapply transferred_ext; [| |exact H6]; [|done]. intros a. by rewrite H4, H2.
Qed.

Lemma moved_then_quiet x y v s1 s2 s3 : moved x y v s1 s2 -> quiet s2 s3 -> moved x y v s1 s3.
Proof.
  intros (H1 & H2) (_ & H3 & H4). split; [congruence|].
  eapply transferred_ext; [| |exact H2]; [done|]. intros a. by rewrite H4.
Qed.

Lemma amount_Some v w : u256_to_amount T v = Some w -> w = v.
Proof. unfold u256_to_amount. destruct (v <=? _); [|done]. congruence. Qed.

Lemma approve_Ok spender value b s s' :
  approve (Fa := Fa) T ctx spender value s = Ok b s' ->
  Approves s' = <[(into_account_id T (caller ctx), into_account_id T spender) :=
                  default (umax (balance_bits T)) (u256_to_amount T value)]> (Approves s) /\
  Nonces s' = Nonces s /\ forall a, bal s' a = bal s a.
Proof.
  unfold approve. intros Hr. run_ok.
  repeat match goal with Hq : quiet _ _ |- _ => destruct Hq as (? & ? & ?) end. simpl in *.
  split_and!; [congruence|congruence|]. intros a. etransitivity; eauto.
Qed.

Lemma transfer_Ok to value b s s' :
  0 <= value -> transfer T ctx to value s = Ok b s' ->
  Approves s' = Approves s /\
  moved (into_account_id T (caller ctx)) (into_account_id T to) value s s'.
Proof.
  intros Hv. unfold transfer. intros Hr. run_ok.
  match goal with Hu : u256_to_amount _ _ = Some _ |- _ => apply amount_Some in Hu as -> end.
  match goal with Hd : try_dispatch_transfer _ _ _ _ _ = _ |- _ =>
    apply try_dispatch_Ok in Hd as [Ha Hm]; [|done] end.
  match goal with Hq : quiet s ?x, Hq' : quiet ?y ?z |- context [moved _ _ _ s ?z] =>
    split; [|by eapply moved_then_quiet, Hq'; eapply moved_quiet; [exact Hq| |exact Hm]];
    destruct Hq as [? _], Hq' as [? _] end.
  congruence.
Qed.

Lemma spend_Ok b from p v u s s' :
  when b (spend_allowance (Ex := Ex) (Fa := Fa) T from p v) s = Ok u s' ->
  Nonces s' = Nonces s /\ env s' = env s /\
  if b then exists allowed, Approves s !! (from, p) = Some allowed /\ v <= allowed /\
              Approves s' = <[(from, p) := allowed - v]> (Approves s)
  else Approves s' = Approves s.
Proof.
  destruct b; simpl; [|intros Hr; by injection Hr as _ <-].
  unfold spend_allowance. intros Hr. run_ok.
  match goal with Hc : checked_sub _ _ = Some _ |- _ => apply checked_sub_Some in Hc as [-> ?] end.
  split; [done|]. split; [done|]. by eexists.
Qed.

Lemma transfer_from_Ok from to value b s s' :
  0 <= value -> transfer_from T ctx from to value s = Ok b s' ->
  let o := into_account_id T from in
  let p := into_account_id T (caller ctx) in
  moved o (into_account_id T to) value s s' /\
  if decide (p = o) then Approves s' = Approves s
  else exists allowed, Approves s !! (o, p) = Some allowed /\ value <= allowed /\
         Approves s' = <[(o, p) := allowed - value]> (Approves s).
Proof.
  intros Hv Hr o p. unfold transfer_from in Hr. run_ok.
  match goal with Hu : u256_to_amount _ _ = Some _ |- _ => apply amount_Some in Hu as -> end.
  match goal with Hd : try_dispatch_transfer _ _ _ _ _ = _ |- _ =>
    apply try_dispatch_Ok in Hd as [Ha Hm]; [|done] end.
  match goal with Hw : when _ _ _ = _ |- _ => apply spend_Ok in Hw as (Hn & He & Hs) end.
  match goal with Hq : quiet s ?x, Hq' : quiet ?y ?z |- context [moved _ _ _ s ?z] =>
    split; [by eapply moved_then_quiet, Hq'; eapply moved_quiet; [exact Hq|done|exact Hm]|];
    destruct Hq as [Hq1 _], Hq' as [Hq2 _] end.
  fold o p in Hs. rewrite Hq2, Ha, <- Hq1. case_bool_decide; case_decide; done.
Qed.

Lemma deposit_Ok u s s' :
  0 <= apparent_value ctx -> deposit T ctx s = Ok u s' ->
  Approves s' = Approves s /\
  moved (into_account_id T (address ctx)) (into_account_id T (caller ctx)) (apparent_value ctx) s s'.
Proof.
  intros Hv. unfold deposit. intros Hr. run_ok.
  match goal with Hu : u256_to_amount _ _ = Some _ |- _ => apply amount_Some in Hu as -> end.
  match goal with Hd : try_dispatch_transfer _ _ _ _ _ = _ |- _ =>
    apply try_dispatch_Ok in Hd as [Ha Hm]; [|done] end.
  match goal with Hq : quiet s ?x, Hq' : quiet ?y ?z |- context [moved _ _ _ s ?z] =>
    split; [|by eapply moved_then_quiet, Hq'; eapply moved_quiet; [exact Hq|done|exact Hm]];
    destruct Hq as [? _], Hq' as [? _] end.
  congruence.
Qed.

Lemma withdraw_Ok value u s s' : withdraw T ctx value s = Ok u s' -> quiet s s'.
Proof. unfold withdraw. intros Hr. run_ok. by eapply quiet_trans. Qed.

(** An accepted permit: in time, signed by the owner for the current nonce. *)
Lemma permit_Ok now owner spender value deadline v r sg u s s' :
  permit (Fa := Fa) T ctx now owner spender value deadline v r sg s = Ok u s' ->
  now / 1000 <= deadline /\
  recover T v r sg (generate_permit T (address ctx) owner spender value (get_nonce owner s) deadline)
    = Some owner /\ owner <> zero_address T /\
  get_nonce owner s + 1 <= umax 256 /\
  Nonces s' = <[owner := get_nonce owner s + 1]> (Nonces s) /\
  Approves s' = <[(into_account_id T owner, into_account_id T spender) :=
                  default (umax (balance_bits T)) (u256_to_amount T value)]> (Approves s) /\
  forall a, bal s' a = bal s a.
Proof.
  unfold permit. intros Hr. run_ok. bool_to_prop.
  repeat match goal with Hq : quiet _ _ |- _ => destruct Hq as (? & ? & ?) end. simpl in *.
  match goal with Hc : checked_add _ _ _ = Some _ |- _ => apply checked_add_Some in Hc as [-> ?] end.
  match goal with Hn : Nonces ?x = Nonces s |- _ =>
    assert (Hg : get_nonce owner x = get_nonce owner s) by (unfold get_nonce; by rewrite Hn);
    rewrite Hg in * end.
  subst. split_and!; try done; try congruence.
Qed.
End Operations.

(** ** What the precompile keeps of the rest of the state

    What charging, logging and the currency's transfers keep. *)
Section Keeps.
Context {Addr A G Ex Fa : Type} `{Countable Addr} `{Countable A}.
Context `{!GasMeter G Addr Ex} `{!TokenBalances G A Ex Fa}.
Context (T : Config Addr A) (J : G -> Prop).
Context (keeps_record : forall c g g', J g -> record c g = inr g' -> J g').
Context (keeps_log : forall l g g', J g -> record_log l g = inr g' -> J g').
Context (keeps_transfer : forall x y v n g g', J g -> transfer_allow_death x y v n g = inr g' -> J g').

Abbreviation St := (State Addr A G).
Abbreviation env_keeps := (keeps (S := St) (E := PrecompileFailure Ex Fa) (fun s => J (env s))).

Lemma on_handle_keeps op :
  (forall g g', J g -> op g = inr g' -> J g') -> env_keeps (on_handle (Fa := Fa) op).
Proof.
  intros Hop s u s' Hs Hr. unfold on_handle in Hr. inv_evm.
  destruct (op (env s)) as [|g] eqn:Ho; [done|]. simplify_eq. by eapply Hop.
Qed.

Lemma charge_keeps c : env_keeps (on_handle (Fa := Fa) (record c)).
Proof. apply on_handle_keeps. eauto. Qed.

Lemma log_keeps l : env_keeps (on_handle (Fa := Fa) (record_log l)).
Proof. apply on_handle_keeps. eauto. Qed.

Lemma try_dispatch_keeps x y v : env_keeps (try_dispatch_transfer T x y v).
Proof.
  intros s u s' Hs. unfold try_dispatch_transfer.
  destruct (transfer_allow_death x y v _ (env s)) as [|g] eqn:Ht; [done|]. intros [= _ <-]. by eapply keeps_transfer.
Qed.

Lemma modify_keeps (f : St -> St) : (forall s, env (f s) = env s) -> env_keeps (modify f).
Proof. intros Hf s u s' Hs [= _ <-]. simpl. by rewrite Hf. Qed.

Lemma spend_keeps b x y v : env_keeps (when b (spend_allowance (Ex := Ex) (Fa := Fa) T x y v)).
Proof. intros s u s' Hs (_ & He & _)%spend_Ok. by rewrite He. Qed.

Ltac keep_step :=
  first [ apply charge_keeps | apply log_keeps | apply try_dispatch_keeps | apply spend_keeps
        | by apply modify_keeps | apply read_only_keeps; solve [auto with handler] ].

Lemma dispatch_env_keeps tx : env_keeps (dispatch T tx).
Proof.
  unfold dispatch. destruct (tx_call tx); unfold approve, transfer, transfer_from, deposit, withdraw, permit;
    repeat first [keep_step | apply keeps_bind; [|intros ?]].
Qed.
End Keeps.

(** ** Properties *)
Section Properties.
Context {Addr A G Ex Fa : Type} `{Countable Addr} `{Countable A}.
Context `{!GasMeter G Addr Ex} `{!TokenBalances G A Ex Fa} `{!TokenLaws G A Addr Ex Fa}.
Context (T : Config Addr A).
Context (bits_nonneg : 0 <= balance_bits T).

Abbreviation St := (State Addr A G).
Abbreviation bal s a := (balance (Ex := Ex) (Fa := Fa) (env s) a).
Abbreviation ed := (existential_deposit (G := G) (A := A) (Ex := Ex) (Fa := Fa)).
Abbreviation execute := (execute (Ex := Ex) (Fa := Fa) T).
Abbreviation succeeds := (succeeds (Ex := Ex) (Fa := Fa) T).
Implicit Types (s : St) (a o p : A) (tx : Tx Addr).

(** A transaction is its successful run, or nothing. *)
Lemma execute_cases tx s :
  (exists s', dispatch (Ex := Ex) (Fa := Fa) T tx s = Ok tt s' /\ execute s tx = s' /\ succeeds s tx = true) \/
  execute s tx = s /\ succeeds s tx = false.
Proof.
  unfold Erc20.execute, Erc20.succeeds, final_state, transactional.
  destruct (dispatch T tx s) as [[] s'|e s'|]; [left; by exists s'|by right..].
Qed.

Lemma amount_nonneg v : 0 <= v -> 0 <= default (umax (balance_bits T)) (u256_to_amount T v).
Proof.
  intros. unfold u256_to_amount. destruct (v <=? _); simpl; [done|]. by apply umax_nonneg.
Qed.

(** No stored approval is negative. *)
Definition approvals_nonneg s : Prop := forall k v, Approves s !! k = Some v -> 0 <= v.

Lemma approvals_insert s s' k v :
  approvals_nonneg s -> 0 <= v -> Approves s' = <[k := v]> (Approves s) -> approvals_nonneg s'.
Proof.
  intros Hs Hv Ha i w. rewrite Ha. intros [[<- <-]|[_ Hi]]%lookup_insert_Some; [done|by eapply Hs].
Qed.

Lemma approvals_same s s' :
  approvals_nonneg s -> Approves s' = Approves s -> approvals_nonneg s'.
Proof. intros Hs Ha i w. rewrite Ha. apply Hs. Qed.

Lemma allowances_insert o s s' k v :
  Approves s' = <[k := v]> (Approves s) ->
  allowances_of o s' = allowances_of o s
    + (if decide (k.1 = o) then v - default 0 (Approves s !! k) else 0).
Proof.
  intros Ha. unfold allowances_of. rewrite Ha, map_sum_insert_any.
  destruct (Approves s !! k); simpl; case_decide; lia.
Qed.

Lemma allowances_same o s s' : Approves s' = Approves s -> allowances_of o s' = allowances_of o s.
Proof. intros Ha. unfold allowances_of. by rewrite Ha. Qed.

Lemma allowances_nonneg o s : approvals_nonneg s -> 0 <= allowances_of o s.
Proof. intros Hnn. apply map_sum_nonneg. intros k v Hk. case_decide; [by eapply Hnn|done]. Qed.

(** What an owner loses from [s] to [s'] is covered by what its allowances fall: by the
    existential deposit for every unit of them, since a transfer that leaves less than it
    takes the dust too, and by one for one if the account had the existential deposit
    beyond its allowances, and then it still has. *)
Definition covered o s s' : Prop :=
  bal s o - bal s' o <= Z.max 1 ed * (allowances_of o s - allowances_of o s') /\
  (ed <= bal s o - allowances_of o s -> bal s o - allowances_of o s <= bal s' o - allowances_of o s').

Lemma covered_refl o s : covered o s s.
Proof. split; lia. Qed.

Lemma covered_trans o s1 s2 s3 : covered o s1 s2 -> covered o s2 s3 -> covered o s1 s3.
Proof. intros [H1 H2] [H3 H4]. split; [nia|]. intros He. specialize (H2 He). lia. Qed.

(** No allowance of [o] changed and it lost nothing. *)
Lemma covered_same o s s' :
  Approves s' = Approves s -> bal s o <= bal s' o -> covered o s s'.
Proof.
  intros Ha Hb. unfold covered. rewrite (allowances_same o s s' Ha), Z.sub_diag, Z.mul_0_r. lia.
Qed.

(** Others' allowances changed. *)
Lemma covered_insert o s s' k v :
  k.1 <> o -> Approves s' = <[k := v]> (Approves s) -> bal s o <= bal s' o -> covered o s s'.
Proof.
  intros Hk Ha Hb. unfold covered.
  rewrite (allowances_insert o _ _ _ _ Ha), decide_False, Z.add_0_r, Z.sub_diag, Z.mul_0_r by done. lia.
Qed.

(** A spender used its allowance. *)
Lemma covered_spend o p y s s' v allowed :
  approvals_nonneg s -> 0 <= v -> Approves s !! (o, p) = Some allowed -> v <= allowed ->
  Approves s' = <[(o, p) := allowed - v]> (Approves s) ->
  transferred ed o y v (fun a => bal s a) (fun a => bal s' a) -> covered o s s'.
Proof.
  intros Hnn Hv Hl Hle Ha Hm. unfold covered.
  assert (Hnn' : approvals_nonneg s') by (eapply approvals_insert; [done| |exact Ha]; lia).
  pose proof (allowances_nonneg o s' Hnn') as Hpos.
  rewrite (allowances_insert o _ _ _ _ Ha), Hl, decide_True in * by done. simpl in *.
  pose proof (transferred_source _ _ _ _ _ _ Hm Hv) as Hs. simpl in Hs. split; [nia|].
  intros He. pose proof (transferred_kept _ _ _ _ _ _ Hm Hv) as Hk. simpl in Hk. lia.
Qed.

(** One transaction without the authority of [o]. *)
Lemma execute_owner o s tx :
  amounts_ok tx -> ~ acts_as T o tx -> approvals_nonneg s ->
  approvals_nonneg (execute s tx) /\ covered o s (execute s tx).
Proof.
  intros [Hv0 Hv] Hno Hnn.
  destruct (execute_cases tx s) as [(s' & Hd & -> & _)|[-> _]]; [|split; [done|apply covered_refl]].
  assert (Hc : into_account_id T (caller (tx_context tx)) <> o) by (intros ?; apply Hno; by left).
  assert (Had : into_account_id T (address (tx_context tx)) <> o) by (intros ?; apply Hno; right; by left).
  unfold dispatch in Hd. unfold acts_as in Hno.
  destruct (tx_call tx) as [spender v|to v|from to v| |v|owner spender v dl sv r sg].
  - run_ok. apply approve_Ok in H1 as (Ha & _ & Hb).
    split; [eapply approvals_insert; [done|by apply amount_nonneg|exact Ha]|].
    eapply covered_insert; [|exact Ha|by rewrite Hb]. done.
  - run_ok. apply transfer_Ok in H1 as (Ha & _ & Hm); [|done]. split; [by eapply approvals_same|].
    apply covered_same; [done|]. exact (transferred_other _ _ _ _ _ _ Hm o Hv Hc).
  - run_ok. apply transfer_from_Ok in H1 as [[_ Hm] Ha]; [|done].
    destruct (decide (into_account_id T (caller (tx_context tx)) = into_account_id T from)) as [Heq|Hne].
    + split; [by eapply approvals_same|]. apply covered_same; [done|].
      apply (transferred_other _ _ _ _ _ _ Hm o Hv). congruence.
    + destruct Ha as (allowed & Hl & Hle & Ha). split; [eapply approvals_insert; [done| |exact Ha]; lia|].
      destruct (decide (into_account_id T from = o)) as [<-|Hfo]; [by eapply covered_spend|].
      eapply covered_insert; [|exact Ha|]; [done|]. by apply (transferred_other _ _ _ _ _ _ Hm o Hv).
  - apply deposit_Ok in Hd as (Ha & _ & Hm); [|done]. split; [by eapply approvals_same|].
    apply covered_same; [done|]. exact (transferred_other _ _ _ _ _ _ Hm o Hv0 Had).
  - apply withdraw_Ok in Hd as (Ha & _ & Hb). split; [by eapply approvals_same|].
    apply covered_same; [done|by rewrite Hb].
  - apply permit_Ok in Hd as (_ & _ & _ & _ & _ & Ha & Hb).
    split; [eapply approvals_insert; [done|by apply amount_nonneg|exact Ha]|].
    eapply covered_insert; [|exact Ha|by rewrite Hb]. intros ?. apply Hno. by right; right.
Qed.


Lemma get_approve_same o p s s' : Approves s' = Approves s -> get_approve o p s' = get_approve o p s.
Proof. intros Ha. unfold get_approve. by rewrite Ha. Qed.

Lemma get_approve_insert o p s s' k v :
  Approves s' = <[k := v]> (Approves s) ->
  get_approve o p s' = if decide (k = (o, p)) then Some v else get_approve o p s.
Proof.
  intros Ha. unfold get_approve. rewrite Ha. case_decide as Hk.
  - by rewrite Hk, lookup_insert_eq.
  - by rewrite lookup_insert_ne.
Qed.

(** Allowances are spent exactly: as long as the owner does not approve the
    spender anew, by a call or a signed permit, the spender's allowance falls by
    exactly what it moves out of the owner's account, and it never moves more than the
    allowance. *)
Theorem allowance_spent o p s (txs : list (Tx Addr)) :
  o <> p -> Forall (fun tx => amounts_ok tx /\ ~ approves T o p tx) txs ->
  let s' := foldl execute s txs in
  let allowance s := default 0 (get_approve o p s) in
  0 <= spent (Ex := Ex) (Fa := Fa) T o p s txs /\
  allowance s' = allowance s - spent (Ex := Ex) (Fa := Fa) T o p s txs /\
  (0 <= allowance s -> spent (Ex := Ex) (Fa := Fa) T o p s txs <= allowance s).
Proof.
  intros Hop Htxs. cbv zeta. revert s.
  induction Htxs as [|tx txs [[Hv0 Hv] Hno] _ IH]; intros s; [simpl; lia|].
  cbn [spent foldl]. specialize (IH (execute s tx)).
  assert (Hstep : let d := match tx_call tx with
      | transfer_from_call from _ value =>
          if succeeds s tx && bool_decide (into_account_id T from = o)
             && bool_decide (into_account_id T (caller (tx_context tx)) = p) then value else 0
      | _ => 0 end in
    0 <= d /\ default 0 (get_approve o p (execute s tx)) = default 0 (get_approve o p s) - d /\
    (d = 0 \/ 0 <= default 0 (get_approve o p (execute s tx)))).
  2: { cbv zeta in Hstep. destruct IH as (IH1 & IH2 & IH3). destruct Hstep as (Hs1 & Hs2 & Hs3).
       split; [lia|]. split; [lia|]. intros Hz. destruct Hs3 as [Hs3|Hs3]; [|specialize (IH3 Hs3); lia].
       rewrite Hs3, Z.sub_0_r in Hs2. rewrite Hs2 in IH3. specialize (IH3 Hz). lia. }
  destruct (execute_cases tx s) as [(s' & Hd & -> & ->)|[-> ->]].
  2: { simpl. destruct (tx_call tx); simpl; lia. }
  unfold dispatch in Hd. unfold approves in Hno.
  destruct (tx_call tx) as [spender v|to v|from to v| |v|owner spender v dl sv r sg]; simpl.
  - run_ok. apply approve_Ok in H1 as (Ha & _).
    rewrite (get_approve_insert o p _ _ _ _ Ha), decide_False by (intros [= ? ?]; by apply Hno). lia.
  - run_ok. apply transfer_Ok in H1 as [Ha _]; [|done]. rewrite (get_approve_same _ _ _ _ Ha). lia.
  - run_ok. apply transfer_from_Ok in H1 as [_ Ha]; [|done].
    destruct (decide (into_account_id T (caller (tx_context tx)) = into_account_id T from)) as [Heq|Hne].
    + rewrite (get_approve_same _ _ _ _ Ha). repeat case_bool_decide; simpl; try lia. congruence.
    + destruct Ha as (allowed & Hl & Hle & Ha). rewrite (get_approve_insert o p _ _ _ _ Ha).
      case_decide as Hk.
      * injection Hk as Hk1 Hk2. rewrite !bool_decide_true by done.
        rewrite Hk1, Hk2 in Hl. unfold get_approve. rewrite Hl. simpl. lia.
      * case_bool_decide as H1; [case_bool_decide as H2|]; simpl; [|lia..].
        destruct Hk. by rewrite H1, H2.
  - apply deposit_Ok in Hd as [Ha _]; [|done]. rewrite (get_approve_same _ _ _ _ Ha). lia.
  - apply withdraw_Ok in Hd as [Ha _]. rewrite (get_approve_same _ _ _ _ Ha). lia.
  - apply permit_Ok in Hd as (_ & _ & _ & _ & _ & Ha & _).
    rewrite (get_approve_insert o p _ _ _ _ Ha), decide_False by (intros [= ? ?]; by apply Hno). lia.
Qed.

(** One transaction and the nonce of [owner]. *)
Lemma execute_nonce owner s tx :
  amounts_ok tx ->
  match tx_call tx with
  | permit_call o spender value deadline v r sg =>
      if succeeds s tx && bool_decide (o = owner) then
        get_nonce owner (execute s tx) = get_nonce owner s + 1 /\
        tx_time tx / 1000 <= deadline /\ owner <> zero_address T /\
        recover T v r sg (generate_permit T (address (tx_context tx)) owner spender value
          (get_nonce owner s) deadline) = Some owner
      else get_nonce owner (execute s tx) = get_nonce owner s
  | _ => get_nonce owner (execute s tx) = get_nonce owner s
  end.
Proof.
  intros [Hv0 Hv]. assert (Hsame : forall s', Nonces s' = Nonces s -> get_nonce owner s' = get_nonce owner s)
    by (intros s' Hn; unfold get_nonce; by rewrite Hn).
  destruct (execute_cases tx s) as [(s' & Hd & -> & ->)|[-> ->]].
  2: { by destruct (tx_call tx). }
  unfold dispatch in Hd.
  destruct (tx_call tx) as [spender v|to v|from to v| |v|o spender v dl sv r sg]; simpl.
  - run_ok. apply approve_Ok in H1 as (_ & Hn & _). by apply Hsame.
  - run_ok. apply transfer_Ok in H1 as (_ & Hn & _); [|done]. by apply Hsame.
  - run_ok. apply transfer_from_Ok in H1 as [(Hn & _) _]; [|done]. by apply Hsame.
  - apply deposit_Ok in Hd as (_ & Hn & _); [|done]. by apply Hsame.
  - apply withdraw_Ok in Hd as (_ & Hn & _). by apply Hsame.
  - apply permit_Ok in Hd as (Ht & Hr & Hz & _ & Hn & _).
    case_bool_decide as Ho; unfold get_nonce at 1; rewrite Hn.
    + subst o. rewrite lookup_insert_eq. by split_and!.
    + rewrite lookup_insert_ne by done. by unfold get_nonce.
Qed.

(** Permits cannot be replayed: over any transactions, the accepted permits of an
    owner use up its nonces one by one, each is in time and carries the owner's
    signature of its content and its own nonce, and nothing else touches the nonce. *)
Theorem permits_use_nonces owner s (txs : list (Tx Addr)) :
  Forall amounts_ok txs ->
  let used := accepted (Ex := Ex) (Fa := Fa) T owner s txs in
  used.*1 = seqZ (get_nonce owner s) (Z.of_nat (length used)) /\
  get_nonce owner (foldl execute s txs) = get_nonce owner s + Z.of_nat (length used) /\
  Forall (fun '(nonce, tx) => match tx_call tx with
    | permit_call o spender value deadline v r sg => o = owner /\ owner <> zero_address T /\
        tx_time tx / 1000 <= deadline /\
        recover T v r sg (generate_permit T (address (tx_context tx)) owner spender value nonce deadline)
          = Some owner
    | _ => False
    end) used.
Proof.
  intros Htxs. apply (hits_consecutive execute (get_nonce owner) (accepts_permit (Ex := Ex) (Fa := Fa) T owner)
    amounts_ok); [..|done]; intros s1 tx Hok; pose proof (execute_nonce owner s1 tx Hok) as Hn;
    unfold accepts_permit.
  - destruct (tx_call tx); try (rewrite Hn; lia).
    destruct (succeeds s1 tx && _); [apply Hn|rewrite Hn; lia].
  - intros Hh. destruct (tx_call tx) as [| | | | |o spender v dl sv r sg]; try done.
    rewrite Hh in Hn. apply andb_true_iff in Hh as [_ ->%bool_decide_eq_true]. destruct Hn as (_ & ? & ? & ?).
    by split_and!.
Qed.
End Properties.

(** ** A concrete token: addresses are accounts, a transfer needs the funds, the toy
    signature of a message is the message and the signer *)
Section Witnesses.
Record Token := mkToken { gas : Z; funds : gmap Z Z; logged : list (Log Z) }.

#[local] Instance token_meter : GasMeter Token Z unit := {|
  OutOfGas := tt;
  remaining_gas := gas;
  record c g :=
    let n := match c with DbRead n => n | Cost n => n | LogCosts t d => 375 * (t + 1) + 8 * d end in
    if n <=? gas g then inr (mkToken (gas g - n) (funds g) (logged g)) else inl tt;
  compute_cost _ := None;
  record_log_costs _ g := inr g;
  record_log l g := inr (mkToken (gas g) (funds g) (logged g ++ [l]));
|}.

Definition funds_of (g : Token) (a : Z) : Z := Z.max 0 (default 0 (funds g !! a)).

(** The existential deposit is 5; dust is lost. *)
#[local] Instance token_balances : TokenBalances Token Z unit unit := {|
  existential_deposit := 5;
  total_issuance g := map_sum (fun _ v => v) (funds g);
  usable_balance := funds_of;
  balance := funds_of;
  transfer_allow_death from to v _ g :=
    if v <=? funds_of g from then
      let rest := funds_of g from - v in
      let kept := if (rest <? 5) && (0 <? v) && bool_decide (from <> to) then 0 else rest in
      let m := <[from := kept]> (funds g) in
      inr (mkToken (gas g) (<[to := Z.max 0 (default 0 (m !! to)) + v]> m) (logged g))
    else inl (FailError tt);
|}.

#[local] Instance token_laws : TokenLaws Token Z Z unit unit.
Proof.
  split.
  - intros g a. simpl. unfold funds_of. lia.
  - intros c g g' a. simpl. destruct (_ <=? gas g); [|done]. by intros [= <-].
  - intros l g g' a. simpl. by intros [= <-].
  - intros from to v growth g g' Hv. simpl.
    destruct (Z.leb_spec v (funds_of g from)) as [Hle|]; [|done]. set (rest := funds_of g from - v).
    set (kept := if (rest <? 5) && _ && _ then 0 else rest). intros [= <-].
    exists (rest - kept). split; [|split].
    + unfold kept, rest. case_match; lia.
    + unfold kept. case_match eqn:Hk; [right|left; lia]. bool_to_prop. unfold rest in *. repeat split; done || lia.
    + intros a. assert (Hr : kept = 0 \/ kept = rest) by (unfold kept; case_match; auto).
      assert (Hz : kept <> rest -> from <> to) by (unfold kept; case_match eqn:Hk; bool_to_prop; tauto).
      assert (0 <= rest) by (unfold rest; lia). clearbody kept. unfold rest, funds_of in *. simpl.
      destruct (decide (to = a)) as [->|Hto], (decide (from = a)) as [->|Hfrom];
        rewrite ?lookup_insert_eq, ?lookup_insert_ne by done; rewrite ?lookup_insert_eq, ?lookup_insert_ne by done;
        simpl; lia.
Qed.

Definition sample_config : Config Z Z := {|
  into_account_id a := a;
  balance_bits := 128;
  db_write_gas_cost := 100;
  StorageGrowth := 0;
  ChainId := 42;
  name := [85];
  symbol := [85];
  decimals := 18;
  is_native_currency := true;
  revert _ := [];
  too_large _ := [];
  unknown_selector := [];
  keccak _ := [];
  keccak_256 l := l;
  encode_arguments l := map (fun a => match a with ArgUint n => n | ArgAddress a => a | _ => 0 end) l;
  encode_event_data n := [n];
  address_topic a := [a];
  ecdsa_recover sig message :=
    if bool_decide (take (length message) sig = message) then Some (drop (length message) sig) else None;
  address_of_hash l := hd 0 l;
  zero_address := 0;
|}.

Definition sample_state : State Z Z Token :=
  mkState {[(7, 8) := 60]} ∅ (mkToken 1000000 {[7 := 100]} []).

(** Account 8 spends 50 of its allowance of 60, then tries 20 more; account 9 tries
    without an allowance. *)
Definition sample_txs : list (Tx Z) :=
  [mkTx (mkContext 8 99 0) 0 (transfer_from_call 7 9 50);
   mkTx (mkContext 8 99 0) 0 (transfer_from_call 7 9 20);
   mkTx (mkContext 9 99 0) 0 (transfer_from_call 7 9 1)].

Abbreviation sample_final :=
  (foldl (execute (Ex := unit) (Fa := unit) sample_config) sample_state sample_txs).

Lemma sample_nonneg : approvals_nonneg sample_state.
Proof. intros k v. simpl. intros [_ <-]%lookup_singleton_Some. lia. Qed.

(** The same account with a balance of 52: spending 50 leaves 2, which are lost. *)
Definition dusty_state : State Z Z Token :=
  mkState {[(7, 8) := 60]} ∅ (mkToken 1000000 {[7 := 52]} []).

Abbreviation dusty_final :=
  (foldl (execute (Ex := unit) (Fa := unit) sample_config) dusty_state sample_txs).


Lemma allowance_spent_witness :
  get_approve 7 8 sample_final = Some 10 /\
  default 0 (get_approve 7 8 sample_final) =
    60 - spent (Ex := unit) (Fa := unit) sample_config 7 8 sample_state sample_txs.
Proof.
  assert (Ha : Forall (fun tx => amounts_ok tx /\ ~ approves sample_config 7 8 tx) sample_txs).
  { repeat constructor; unfold approves; simpl; (lia || tauto). }
  split; [vm_compute; reflexivity|].
  exact (proj1 (proj2 (allowance_spent (Fa := unit) sample_config 7 8 sample_state sample_txs
    ltac:(lia) Ha))).
Defined.

(** Two permits of account 7, each tried twice. *)
Definition sample_permit (n : Z) : Tx Z :=
  mkTx (mkContext 8 99 0) 5000 (permit_call 7 8 60 10 7
    (generate_permit sample_config 99 7 8 60 n 10) []).

Lemma permits_use_nonces_witness :
  (accepted (Ex := unit) (Fa := unit) sample_config 7 sample_state
    [sample_permit 0; sample_permit 0; sample_permit 1; sample_permit 0]).*1 = [0; 1].
Proof.
  assert (Ha : Forall amounts_ok [sample_permit 0; sample_permit 0; sample_permit 1; sample_permit 0]).
  { repeat constructor; simpl; lia. }
  pose proof (permits_use_nonces (Fa := unit) sample_config 7 sample_state _ Ha) as [Hu _].
  rewrite Hu. vm_compute. reflexivity.
Defined.
End Witnesses.
