(* ===== verification/CallPermit.v ===== *)
(** * The call-permit precompile ([precompiles/call-permit/src/lib.rs])

    Anybody may dispatch a call that an account signed, and pays for it.  The subcall
    can run any code, this precompile included: it is a [Caller] over the precompile's
    own state. *)
From Stdlib Require Import ZArith Lia String.
From stdpp Require Import prelude gmap fin_maps sorting.
From S2P Require Import Prelude.
From S2P Require Import Evm.

Local Open Scope Z_scope.

Definition CALL_DATA_LIMIT : Z := 2 ^ 16.

(** [NoncesStorage], everything else *)
Record State (Addr G : Type) `{Countable Addr} := mkState {
  Nonces : gmap Addr Z;
  env : G;
}.
Arguments mkState {Addr G _ _} _ _.
Arguments Nonces {Addr G _ _} _.
Arguments env {Addr G _ _} _.

Section Definitions.
Context {Addr G Ex Fa : Type} `{Countable Addr}.
Context `{GasMeter G Addr Ex} `{Caller (State Addr G) Addr Ex Fa}.

(** The runtime and the host functions, as for signed approvals. *)
Record Config := mkConfig {
  db_write_gas_cost : Z;
  ChainId : Z;
  call_cost : Z -> Z;
  revert : string -> list Z;
  keccak : string -> list Z;
  keccak_256 : list Z -> list Z;
  bytes_of : string -> list Z;
  encode_arguments : list (Argument Addr) -> list Z;
  ecdsa_recover : list Z -> list Z -> option (list Z);
  address_of_hash : list Z -> Addr;
  zero_address : Addr;
}.

Abbreviation St := (State Addr G).
Abbreviation Mo := (M St (PrecompileFailure Ex Fa)).

Context (T : Config) (context : Context Addr).

Definition get_nonce (owner : Addr) (s : St) : Z := default 0 (Nonces s !! owner).
Definition put_nonce (owner : Addr) (n : Z) (s : St) : St :=
  mkState (<[owner := n]> (Nonces s)) (env s).
Definition put_env g (s : St) : St := mkState (Nonces s) g.

(** [handle.record_*(..)?] *)
Definition on_handle (op : G -> Ex + G) : Mo unit := charge (fun s =>
  match op (env s) with inl e => inl e | inr g => inr (put_env g s) end).

Definition compute_domain_separator (address : Addr) : list Z :=
  keccak_256 T (encode_arguments T [
    ArgBytes32 (keccak T "EIP712Domain(string name,string version,uint256 chainId,address verifyingContract)");
    ArgBytes32 (keccak_256 T (bytes_of T "Call Permit Precompile"));
    ArgBytes32 (keccak T "1");
    ArgUint (ChainId T);
    ArgAddress address]).

Definition generate_permit (address from to : Addr) (value : Z) (data : list Z)
    (gaslimit nonce deadline : Z) : list Z :=
  let domain_separator := compute_domain_separator address in
  let permit_content := keccak_256 T (encode_arguments T [
    ArgBytes32 (keccak T "CallPermit(address from,address to,uint256 value,bytes data,uint64 gaslimit,uint256 nonce,uint256 deadline)");
    ArgAddress from; ArgAddress to; ArgUint value; ArgBytes32 (keccak_256 T data);
    ArgUint gaslimit; ArgUint nonce; ArgUint deadline]) in
  keccak_256 T ([25; 1] ++ domain_separator ++ permit_content).

Definition dispatch_inherent_cost : Z := 3000 + db_write_gas_cost T.

(** The address whose key signed [message]. *)
Definition recover (v : Z) (r s message : list Z) : option Addr :=
  public ← ecdsa_recover T (r ++ s ++ [v]) message;
  Some (address_of_hash T (keccak_256 T public)).

(** The arguments of [dispatch]. *)
Record Permit := mkPermit {
  from : Addr;
  to : Addr;
  value : Z;
  data : list Z;
  gas_limit : Z;
  deadline : Z;
  v : Z;
  r : list Z;
  s_ : list Z;
}.

(** The signed message of a permit under a nonce. *)
Definition message (p : Permit) (nonce : Z) : list Z :=
  generate_permit (address context) (from p) (to p) (value p) (data p) (gas_limit p) nonce (deadline p).

(** The subcall in the name of the signer, and the result it gives. *)
Definition dispatch_call (p : Permit) : Mo (list Z) :=
  let sub_context := mkContext (from p) (to p) (value p) in
  let transfer :=
    if value p =? 0 then None else Some (mkTransfer (from p) (to p) (value p)) in
  '(reason, output) ← (fun s =>
     let '(reason, output, s') :=
       call (to p) transfer (data p) (Some (gas_limit p)) false sub_context s in
     Ok (reason, output) s');
  match reason with
  | Error exit_status => fail (FailError exit_status)
  | Fatal exit_status => fail (FailFatal exit_status)
  | Revert => fail (FailRevert output)
  | Succeed => mret output
  end.

(** [dispatch]; [now] is the time in milliseconds. *)
Definition dispatch (now : Z) (p : Permit) : Mo (list Z) :=
  on_handle (record (DbRead 8)) ;;
  on_handle (record (DbRead 104)) ;;
  on_handle (record (Cost dispatch_inherent_cost)) ;;
  total_cost ← ok_or (checked_add 64 (gas_limit p) (call_cost T (value p)))
    (FailRevert (revert T "Call require too much gas (uint64 overflow)"));
  remaining ← gets (fun s => remaining_gas (env s));
  ensure (negb (remaining <? total_cost))
    (FailRevert (revert T "Gaslimit is too low to dispatch provided call")) ;;
  ensure (now / 1000 <=? deadline p) (FailRevert (revert T "Permit expired")) ;;
  nonce ← gets (get_nonce (from p));
  signer ← ok_or (recover (v p) (r p) (s_ p) (message p nonce)) (FailRevert (revert T "Invalid permit"));
  ensure (negb (bool_decide (signer = zero_address T)) && bool_decide (signer = from p))
    (FailRevert (revert T "Invalid permit")) ;;
  next ← expect (checked_add 256 nonce 1);
  modify (put_nonce (from p) next) ;;
  dispatch_call p.

Definition nonces (owner : Addr) : Mo Z :=
  on_handle (record (DbRead 104)) ;;
  gets (get_nonce owner).

Definition domain_separator : Mo (list Z) :=
  on_handle (record (DbRead 8)) ;;
  mret (compute_domain_separator (address context)).

(** ** Transactions: a failed dispatch leaves no trace *)
Definition execute (s : St) (tx : Z * Permit) : St :=
  final_state (transactional (dispatch tx.1 tx.2)) s.

(** The permits of [owner] that are dispatched, with the nonce each one uses. *)
Fixpoint dispatched (owner : Addr) (s : St) (txs : list (Z * Permit)) : list (Z * (Z * Permit)) :=
  match txs with
  | [] => []
  | tx :: txs =>
      match dispatch tx.1 tx.2 s with
      | Ok _ _ => if bool_decide (from tx.2 = owner) then [(get_nonce owner s, tx)] else []
      | _ => []
      end ++ dispatched owner (execute s tx) txs
  end.

(** [owner] signed the permit for the nonce, and it is in time. *)
Definition signed (owner : Addr) (nonce : Z) (tx : Z * Permit) : Prop :=
  from tx.2 = owner /\ owner <> zero_address T /\ tx.1 / 1000 <= deadline tx.2 /\
  recover (v tx.2) (r tx.2) (s_ tx.2) (message tx.2 nonce) = Some owner.
End Definitions.
Arguments Config Addr : clear implicits.
Arguments Permit Addr : clear implicits.

(** What an EVM promises: code that runs in a subcall, this precompile included, takes no
    nonce back. *)
Class NonceLaws {Addr G Ex Fa : Type} `{Countable Addr} `{Ca : Caller (State Addr G) Addr Ex Fa} : Prop :=
  call_nonces a t d g st c s r o s' x :
    call (Caller := Ca) a t d g st c s = (r, o, s') -> get_nonce x s <= get_nonce x s'.

(** ** Lemmas *)
Section Lemmas.
Context {Addr G Ex Fa : Type} `{Countable Addr}.
Context `{!GasMeter G Addr Ex} `{!Caller (State Addr G) Addr Ex Fa}.
Context (T : Config Addr) (context : Evm.Context Addr).
Implicit Types (s : State Addr G) (p : Permit Addr).

Lemma on_handle_Ok op u s s' :
  on_handle (Ex := Ex) (Fa := Fa) op s = Ok u s' -> exists g, op (env s) = inr g /\ s' = put_env g s.
Proof.
  unfold on_handle, charge. destruct (op (env s)) as [e|g]; [done|]. intros Hs. injection Hs as _ <-.
  by exists g.
Qed.

(** Only gas was charged. *)
Definition charged (g g' : G) : Prop := rtc (fun g1 g2 => exists c, record c g1 = inr g2) g g'.

(** The state in which the subcall of an accepted permit starts. *)
Lemma dispatch_Ok now p out s s' :
  dispatch (Ex := Ex) (Fa := Fa) T context now p s = Ok out s' ->
  signed T context (from p) (get_nonce (from p) s) (now, p) /\
  exists g, charged (env s) g /\ gas_limit p + call_cost T (value p) <= remaining_gas g /\
    call (to p) (if value p =? 0 then None else Some (mkTransfer (from p) (to p) (value p)))
      (data p) (Some (gas_limit p)) false (mkContext (from p) (to p) (value p))
      (mkState (<[from p := get_nonce (from p) s + 1]> (Nonces s)) g)
      = (Succeed, out, s').
Proof.
  unfold dispatch. intros Hr.
  apply bind_Ok in Hr as (? & s1 & (g1 & Hg1 & ->)%on_handle_Ok & Hr).
  apply bind_Ok in Hr as (? & s2 & (g2 & Hg2 & ->)%on_handle_Ok & Hr).
  apply bind_Ok in Hr as (? & s3 & (g3 & Hg3 & ->)%on_handle_Ok & Hr).
  apply bind_Ok in Hr as (cost & s4 & Hc & Hr). unfold ok_or in Hc.
  destruct (checked_add 64 _ _) as [c|] eqn:Hadd; [|done]. injection Hc as <- <-.
  apply checked_add_Some in Hadd as [-> _].
  apply bind_Ok in Hr as (rem & s4 & Hg & Hr). injection Hg as <- <-.
  apply bind_Ok in Hr as (? & s4 & He & Hr). unfold ensure in He. simpl in He.
  destruct (Z.ltb_spec (remaining_gas g3) (gas_limit p + call_cost T (value p))); [done|].
  injection He as _ <-.
  apply bind_Ok in Hr as (? & s4 & He & Hr). unfold ensure in He.
  destruct (Z.leb_spec (now / 1000) (deadline p)); [|done]. injection He as _ <-.
  apply bind_Ok in Hr as (n & s4 & Hg & Hr). injection Hg as <- <-.
  change (get_nonce (from p) (put_env _ _)) with (get_nonce (from p) s) in Hr.
  apply bind_Ok in Hr as (signer & s4 & Hs & Hr). unfold ok_or in Hs.
  destruct (recover _ _ _ _ _) as [signer'|] eqn:Hrec; [|done]. injection Hs as <- <-.
  apply bind_Ok in Hr as (? & s4 & He & Hr). unfold ensure in He.
  destruct (_ && _) eqn:Hb; [|done]. injection He as _ <-. bool_to_prop. subst signer'.
  apply bind_Ok in Hr as (next & s4 & Hn & Hr). unfold expect in Hn.
  destruct (checked_add 256 _ 1) as [n|] eqn:Hadd; [|done]. injection Hn as <- <-.
  apply checked_add_Some in Hadd as [-> _].
  apply bind_Ok in Hr as (? & s4 & Hm & Hr). injection Hm as _ <-.
  unfold dispatch_call, mbind, M_bind in Hr.
  split; [by split_and!|]. exists g3.
  split; [by repeat (eapply rtc_l; [eexists; eassumption|])|]. split; [done|].
  change (put_nonce _ _ (put_env _ _)) with
    (mkState (<[from p := get_nonce (from p) s + 1]> (Nonces s)) g3) in Hr.
  destruct (call _ _ _ _ _ _ _) as [[reason o] s4]. destruct reason; try done.
  by injection Hr as <- <-.
Qed.

(** The only panic is an exhausted nonce. *)
Lemma dispatch_Panic now p s :
  dispatch (Ex := Ex) (Fa := Fa) T context now p s = Panic -> umax 256 <= get_nonce (from p) s.
Proof.
  unfold dispatch, on_handle, charge, dispatch_call. unfold_M.
  destruct (record _ (env s)) as [|g1]; [done|]. simpl.
  destruct (record _ g1) as [|g2]; [done|]. simpl.
  destruct (record _ g2) as [|g3]; [done|]. simpl.
  destruct (checked_add 64 _ _); [|done]. destruct (negb _); [|done].
  destruct (_ <=? _); [|done].
  change (get_nonce (from p) (put_env _ _)) with (get_nonce (from p) s).
  destruct (recover _ _ _ _ _); [|done]. destruct (_ && _); [|done].
  unfold checked_add. destruct (Z.leb_spec (get_nonce (from p) s + 1) (umax 256)); [|lia].
  destruct (call _ _ _ _ _ _ _) as [[[] o] s']; done.
Qed.
End Lemmas.

(** ** Properties *)
Section Properties.
Context {Addr G Ex Fa : Type} `{Countable Addr}.
Context `{!GasMeter G Addr Ex} `{!Caller (State Addr G) Addr Ex Fa}.
Context (T : Config Addr) (context : Evm.Context Addr).
Implicit Types (s : State Addr G) (p : Permit Addr).

Abbreviation execute := (execute (Ex := Ex) (Fa := Fa) T context).
Abbreviation dispatched := (dispatched (Ex := Ex) (Fa := Fa) T context).

(** What a dispatch does: it succeeds only for a permit that is in time and that
    its account signed for its current nonce, with enough gas left for the subcall;
    the subcall then ran in the account's name with the nonce already used up, and its
    state and output are the result; anything else leaves the state as it was, so a
    permit whose subcall fails stays valid. *)
Theorem dispatch_in_signers_name now p s :
  match transactional (dispatch (Ex := Ex) (Fa := Fa) T context now p) s with
  | Ok out s' => signed T context (from p) (get_nonce (from p) s) (now, p) /\
      exists g s0, Nonces s0 = <[from p := get_nonce (from p) s + 1]> (Nonces s) /\ env s0 = g /\
        gas_limit p + call_cost T (value p) <= remaining_gas g /\
        call (to p) (if value p =? 0 then None else Some (mkTransfer (from p) (to p) (value p)))
          (data p) (Some (gas_limit p)) false (mkContext (from p) (to p) (value p)) s0
          = (Succeed, out, s')
  | Err _ s' => s' = s
  | Panic => umax 256 <= get_nonce (from p) s
  end.
Proof.
  unfold transactional. destruct (dispatch T context now p s) as [out s'|e s'|] eqn:Hd.
  - apply dispatch_Ok in Hd as (Hs & g & _ & Hg & Hc). split; [done|]. exists g. eexists.
    split; [|split; [|split; [done|exact Hc]]]; done.
  - done.
  - by apply dispatch_Panic in Hd.
Qed.

Context `{!NonceLaws (Addr := Addr) (G := G) (Ex := Ex) (Fa := Fa)}.

Lemma dispatch_nonce_grows x s tx :
  get_nonce x s <= get_nonce x (execute s tx) /\
  match dispatch (Ex := Ex) (Fa := Fa) T context tx.1 tx.2 s with
  | Ok _ _ => from tx.2 = x -> signed T context x (get_nonce x s) tx /\
                get_nonce x s + 1 <= get_nonce x (execute s tx)
  | _ => True
  end.
Proof.
  unfold CallPermit.execute, final_state, transactional.
  destruct (dispatch T context tx.1 tx.2 s) as [out s'|e s'|] eqn:Hd; [|done..].
  apply dispatch_Ok in Hd as (Hs & g & _ & _ & Hc). apply (call_nonces _ _ _ _ _ _ _ _ _ _ x) in Hc.
  unfold get_nonce at 1 in Hc. simpl in Hc. destruct (decide (from tx.2 = x)) as [<-|Hne].
  - rewrite lookup_insert_eq in Hc. simpl in Hc. split; [lia|]. intros _. split; [by destruct tx|done].
  - rewrite lookup_insert_ne in Hc by done. split; [exact Hc|]. by intros ?.
Qed.

(** C36: a signature is dispatched at most once: when subcalls, which may dispatch
    permits themselves, never decrease a nonce, neither does any sequence of
    dispatches; the permits of an account that it dispatches successfully carry the
    account's signature for strictly increasing nonces, all used up at the end. *)
Theorem permits_dispatch_once owner s (txs : list (Z * Permit Addr)) :
  let used := dispatched owner s txs in
  let s' := foldl execute s txs in
  (forall x, get_nonce x s <= get_nonce x s') /\
  StronglySorted Z.lt used.*1 /\
  Forall (fun '(n, tx) => get_nonce owner s <= n < get_nonce owner s' /\
                          signed T context owner n tx) used.
Proof.
  cbv zeta. revert s. induction txs as [|tx txs IH]; intros s.
  { simpl. split; [done|]. split; constructor. }
  cbn [CallPermit.dispatched foldl]. destruct (IH (execute s tx)) as (Hmono & Hsort & Hall).
  split; [intros x; etransitivity; [apply dispatch_nonce_grows|apply Hmono]|].
  destruct (dispatch_nonce_grows owner s tx) as [Hle Hd].
  assert (Hrest : Forall (fun '(n, tx0) => get_nonce owner s <= n < get_nonce owner
      (foldl execute (execute s tx) txs) /\ signed T context owner n tx0)
      (dispatched owner (execute s tx) txs)).
  { eapply Forall_impl; [exact Hall|]. intros [n t] [Hn Ht]. split; [lia|done]. }
  destruct (dispatch T context tx.1 tx.2 s) as [out s'| |]; [|by split..].
  case_bool_decide as Ho; [|by split]. destruct (Hd Ho) as [Hs Hlt]. simpl. split.
  - constructor; [done|]. apply Forall_fmap. eapply Forall_impl; [exact Hall|].
    intros [n t] [Hn _]. simpl. lia.
  - constructor; [|done]. split; [|done]. specialize (Hmono owner). lia.
Qed.
End Properties.

(** ** A concrete EVM: calls to even addresses succeed, to odd ones revert; the toy
    signature of a message is the message and the signer *)
Section Witnesses.
#[local] Instance sample_meter : GasMeter Z Z unit := {|
  OutOfGas := tt;
  remaining_gas g := g;
  record c g :=
    let n := match c with DbRead n => n | Cost n => n | LogCosts t d => 375 * (t + 1) + 8 * d end in
    if n <=? g then inr (g - n) else inl tt;
  compute_cost _ := None;
  record_log_costs _ g := inr g;
  record_log _ g := inr g;
|}.

#[local] Instance sample_caller : Caller (State Z Z) Z unit unit := fun a _ d _ _ _ s =>
  (if Z.even a then Succeed else Revert, d, put_env (env s - 100) s).

Definition sample_config : Config Z := {|
  db_write_gas_cost := 100;
  ChainId := 42;
  call_cost v := 700;
  revert _ := [];
  keccak _ := [];
  keccak_256 l := l;
  bytes_of _ := [];
  encode_arguments l := map (fun a => match a with ArgUint n => n | ArgAddress a => a | _ => 0 end) l;
  ecdsa_recover sig message :=
    if bool_decide (take (length message) sig = message) then Some (drop (length message) sig) else None;
  address_of_hash l := hd 0 l;
  zero_address := 0;
|}.

Definition sample_context : Evm.Context Z := mkContext 3 99 0.

(** Account 7 signs a call of [target] under the nonce [n]. *)
Definition sample_permit (target n : Z) : Permit Z :=
  mkPermit 7 target 0 [1; 2] 5000 10 7
    (generate_permit sample_config 99 7 target 0 [1; 2] 5000 n 10) [].

Definition sample_state : State Z Z := mkState ∅ 100000.

#[local] Instance sample_nonces : NonceLaws (Addr := Z) (G := Z) (Ex := unit) (Fa := unit).
Proof. intros a t d g st c s r o s' x Heq. injection Heq as _ _ <-. apply Z.le_refl. Qed.

(** A failed subcall, then the first permit twice, then the second. *)
Lemma permits_dispatch_once_witness :
  (dispatched (Ex := unit) (Fa := unit) sample_config sample_context 7 sample_state
    [(5000, sample_permit 5 0); (5000, sample_permit 4 0); (5000, sample_permit 4 0);
     (5000, sample_permit 4 1)]).*1 = [0; 1] /\
  StronglySorted Z.lt (dispatched (Ex := unit) (Fa := unit) sample_config sample_context 7 sample_state
    [(5000, sample_permit 5 0); (5000, sample_permit 4 0); (5000, sample_permit 4 0);
     (5000, sample_permit 4 1)]).*1.
Proof.
  split; [vm_compute; reflexivity|].
  apply (permits_dispatch_once (Fa := unit) sample_config sample_context 7 sample_state).
Defined.
End Witnesses.
