(* ===== verification/Proxy.v ===== *)
(** * The proxy precompile ([precompiles/proxy/src/lib.rs])

    Accounts register proxies that may act in their name in the EVM.  The
    registrations belong to [pallet_proxy], outside the repository, as do address
    types, code sizes and the dispatch of runtime calls: the class [ProxyPallet] over
    the state [G] of the handle.  What a proxy type allows is the trait
    [EvmProxyCallFilter], a class. *)
From Stdlib Require Import ZArith Lia String.
From stdpp Require Import prelude list.
From S2P Require Import Prelude.
From S2P Require Import Evm.

Local Open Scope Z_scope.

(** [pallet_proxy::ProxyDefinition] *)
Record ProxyDefinition (A PT : Type) := mkProxyDefinition {
  delegate : A;
  proxy_type : PT;
  delay : Z;
}.
Arguments mkProxyDefinition {A PT} _ _ _.
Arguments delegate {A PT} _.
Arguments proxy_type {A PT} _.
Arguments delay {A PT} _.

#[export] Instance definition_eq_dec A PT `{EqDecision A} `{EqDecision PT} :
  EqDecision (ProxyDefinition A PT).
Proof. solve_decision. Defined.

(** [EvmSubCall] *)
Record EvmSubCall (Addr : Type) := mkEvmSubCall {
  to : Addr;
  value : Z;
  call_data : list Z;
}.
Arguments mkEvmSubCall {Addr} _ _ _.
Arguments to {Addr} _.
Arguments value {Addr} _.
Arguments call_data {Addr} _.

(** [EvmProxyCallFilter], and the answer of its default method *)
Class EvmProxyCallFilter (Addr PT Ex Fa : Type) :=
  is_evm_proxy_call_allowed : PT -> EvmSubCall Addr -> bool -> Z -> PrecompileFailure Ex Fa + bool.

Definition default_call_filter {Addr PT Ex Fa} : EvmProxyCallFilter Addr PT Ex Fa :=
  fun _ _ _ _ => inr false.

(** [precompile_set::AddressType] *)
Inductive AddressType := Unknown | EOA | Precompile | Contract.

#[export] Instance AddressType_eq_dec : EqDecision AddressType.
Proof. solve_decision. Defined.

(** The runtime calls the precompile dispatches. *)
Inductive RuntimeCall (A PT : Type) :=
  | Proxy_add_proxy (delegate : A) (proxy_type : PT) (delay : Z)
  | Proxy_remove_proxy (delegate : A) (proxy_type : PT) (delay : Z)
  | Proxy_remove_proxies
  | Balances_transfer_allow_death (dest : A) (amount : Z).
Arguments Proxy_add_proxy {A PT} _ _ _.
Arguments Proxy_remove_proxy {A PT} _ _ _.
Arguments Proxy_remove_proxies {A PT}.
Arguments Balances_transfer_allow_death {A PT} _ _.

(** What the precompile reads through the handle. *)
Class ProxyPallet (G Addr A PT Ex Fa : Type) := {
  proxies : G -> A -> list (ProxyDefinition A PT);
  find_proxy : G -> A -> A -> option PT -> option (ProxyDefinition A PT);
  get_address_type : Addr -> G -> PrecompileFailure Ex Fa + (AddressType * G);
  account_code_len : G -> Addr -> option Z;
}.

Section Definitions.
Context {Addr A PT G Ex Fa : Type} `{EqDecision A} `{EqDecision PT}.
Context `{GasMeter G Addr Ex} `{Ca : Caller G Addr Ex Fa}.
Context `{ProxyPallet G Addr A PT Ex Fa} `{Dispatcher G A (RuntimeCall A PT) Ex Fa}.
Context `{EvmProxyCallFilter Addr PT Ex Fa}.

Record Config := mkConfig {
  into_account_id : Addr -> A;
  decode_proxy_type : Z -> option PT;
  MaxProxies : Z;
  balance_bits : Z;
  revert : string -> list Z;
  revert_in_field : string -> string -> list Z;
  (** the first four bytes of the hash of a signature *)
  selector_of : string -> Z;
}.

Abbreviation Mo := (M G (PrecompileFailure Ex Fa)).

Context (T : Config).
(** The context of the call. *)
Context (context : Context Addr).

(** ** Selector filters *)
Definition SYSTEM_ACCOUNT_SIZE : Z := 148.

Definition CALL_DATA_LIMIT : Z := 2 ^ 16.

Definition is_proxy_signatures : list string := ["isProxy(address,address,uint8,uint32)"%string].

Definition proxy_signatures : list string := ["proxy(address,address,bytes)"%string].

Definition proxy_force_type_signatures : list string :=
  ["proxyForceType(address,uint8,address,bytes)"; "proxy_force_type(address,uint8,address,bytes)"]%string.

Definition selectors (signatures : list string) : list Z := map (selector_of T) signatures.

(** [OnlyIsProxy::is_allowed] *)
Definition only_is_proxy (caller : Addr) (selector : option Z) : bool :=
  match selector with
  | None => false
  | Some selector => bool_decide (selector ∈ selectors is_proxy_signatures)
  end.

(** [OnlyIsProxyAndProxy::is_allowed] *)
Definition only_is_proxy_and_proxy (caller : Addr) (selector : option Z) : bool :=
  match selector with
  | None => false
  | Some selector =>
      bool_decide (selector ∈ selectors is_proxy_signatures)
      || bool_decide (selector ∈ selectors proxy_signatures)
      || bool_decide (selector ∈ selectors proxy_force_type_signatures)
  end.

(** ** The entry points *)

(** [ProxyType::decode(&mut proxy_type.to_le_bytes())], its error in a field *)
Definition decode_type (proxy_type : Z) (field : string) : Mo PT :=
  ok_or (decode_proxy_type T proxy_type)
    (FailRevert (revert_in_field T field "Failed decoding value to ProxyType")).

(** [handle.record_db_read(..)?] of the registrations *)
Definition read_proxies : Mo unit := charge (record (DbRead (28 + 29 * MaxProxies T + 8))).

Definition add_proxy (delegate' : Addr) (proxy_type : Z) (delay : Z) : Mo unit :=
  let delegate' := into_account_id T delegate' in
  proxy_type ← decode_type proxy_type "proxyType";
  let origin := into_account_id T (caller context) in
  read_proxies ;;
  registered ← gets (fun g => proxies g origin);
  ensure_or_revert (revert T) (negb (existsb (fun pd => bool_decide (delegate pd = delegate')) registered))
    "Cannot add more than one proxy" ;;
  try_dispatch origin (Proxy_add_proxy delegate' proxy_type delay) 0.

Definition remove_proxy (delegate' : Addr) (proxy_type : Z) (delay : Z) : Mo unit :=
  let delegate' := into_account_id T delegate' in
  proxy_type ← decode_type proxy_type "proxyType";
  let origin := into_account_id T (caller context) in
  try_dispatch origin (Proxy_remove_proxy delegate' proxy_type delay) 0.

Definition remove_proxies : Mo unit :=
  let origin := into_account_id T (caller context) in
  try_dispatch origin Proxy_remove_proxies 0.

(** Sending back the funds received by the precompile: the transfer of the subcall. *)
Definition refund (who : A) (sub_caller target : Addr) (value : Z) : Mo (option (Transfer Addr)) :=
  if value =? 0 then mret None
  else
    let contract_address := into_account_id T (address context) in
    balance ← ok_or (if value <=? umax (balance_bits T) then Some value else None) (FailRevert []);
    try_dispatch contract_address (Balances_transfer_allow_death who balance) SYSTEM_ACCOUNT_SIZE ;;
    mret (Some (mkTransfer sub_caller target value)).

(** [handle.call(..)] and how its exit reason is returned *)
Definition subcall (target : Addr) (transfer : option (Transfer Addr)) (input : list Z)
    (sub_context : Evm.Context Addr) : Mo unit := fun g =>
  match call target transfer input (Some (remaining_gas g)) false sub_context g with
  | (Succeed, _, g') => Ok tt g'
  | (Error e, _, g') => Err (FailError e) g'
  | (Revert, output, g') => Err (FailRevert output) g'
  | (Fatal f, _, g') => Err (FailFatal f) g'
  end.

(** [precompile_set::get_address_type(handle, address)?] *)
Definition address_type (a : Addr) : Mo AddressType := fun g =>
  match get_address_type (A := A) (PT := PT) a g with
  | inl e => Err e g
  | inr (t, g') => Ok t g'
  end.

(** The checks of [inner_proxy] before it moves anything. *)
Definition authorise (real : Addr) (force_proxy_type : option PT) (evm_subcall : EvmSubCall Addr) :
    Mo unit :=
  type ← address_type real;
  ensure_or_revert (revert T) (bool_decide (type = EOA)) "real address must be EOA" ;;
  let real_account_id := into_account_id T real in
  let who := into_account_id T (caller context) in
  read_proxies ;;
  found ← gets (fun g => find_proxy g real_account_id who force_proxy_type);
  def ← ok_or found (FailRevert (revert T "Not proxy"));
  ensure_or_revert (revert T) (delay def =? 0) "Unannounced" ;;
  charge (record (DbRead 41)) ;;
  recipient_has_code ← gets (fun g =>
    0 <? default 0 (account_code_len (A := A) (PT := PT) g (to evm_subcall)));
  gas ← gets remaining_gas;
  allowed ← try_ (is_evm_proxy_call_allowed (proxy_type def) evm_subcall recipient_has_code gas);
  ensure_or_revert (revert T) allowed "CallFiltered".

Definition inner_proxy (real : Addr) (force_proxy_type : option PT) (evm_subcall : EvmSubCall Addr) :
    Mo unit :=
  authorise real force_proxy_type evm_subcall ;;
  let address := to evm_subcall in
  let sub_context := mkContext real address (value evm_subcall) in
  transfer ← refund (into_account_id T (caller context)) real address (value evm_subcall);
  subcall address transfer (call_data evm_subcall) sub_context.

Definition proxy (real call_to : Addr) (call_data : list Z) : Mo unit :=
  inner_proxy real None (mkEvmSubCall call_to (apparent_value context) call_data).

Definition proxy_force_type (real : Addr) (force_proxy_type : Z) (call_to : Addr)
    (call_data : list Z) : Mo unit :=
  proxy_type ← decode_type force_proxy_type "forceProxyType";
  inner_proxy real (Some proxy_type) (mkEvmSubCall call_to (apparent_value context) call_data).

Definition is_proxy (real delegate' : Addr) (proxy_type' delay' : Z) : Mo bool :=
  let delegate' := into_account_id T delegate' in
  type ← decode_type proxy_type' "proxyType";
  let real := into_account_id T real in
  read_proxies ;;
  gets (fun g => existsb (fun pd => bool_decide (delegate pd = delegate')
    && bool_decide (proxy_type pd = type) && (delay pd =? delay')) (proxies g real)).
End Definitions.

(** The calls of the precompile. *)
Inductive Call (Addr : Type) :=
  | add_proxy_call (delegate : Addr) (proxy_type delay : Z)
  | remove_proxy_call (delegate : Addr) (proxy_type delay : Z)
  | remove_proxies_call
  | proxy_call (real call_to : Addr) (call_data : list Z)
  | proxy_force_type_call (real : Addr) (force_proxy_type : Z) (call_to : Addr) (call_data : list Z)
  | is_proxy_call (real delegate : Addr) (proxy_type delay : Z).
Arguments add_proxy_call {Addr} _ _ _.
Arguments remove_proxy_call {Addr} _ _ _.
Arguments remove_proxies_call {Addr}.
Arguments proxy_call {Addr} _ _ _.
Arguments proxy_force_type_call {Addr} _ _ _ _.
Arguments is_proxy_call {Addr} _ _ _ _.

(** The signatures a call answers to. *)
Definition signatures {Addr} (c : Call Addr) : list string :=
  match c with
  | add_proxy_call _ _ _ => ["addProxy(address,uint8,uint32)"%string]
  | remove_proxy_call _ _ _ => ["removeProxy(address,uint8,uint32)"%string]
  | remove_proxies_call => ["removeProxies()"%string]
  | proxy_call _ _ _ => proxy_signatures
  | proxy_force_type_call _ _ _ _ => proxy_force_type_signatures
  | is_proxy_call _ _ _ _ => is_proxy_signatures
  end.

(** The operations' documented behaviour: [find_proxy] is the first registration of
    the delegate with the forced type; charging, reading and transferring leave the
    registrations alone; [pallet_proxy] changes those of the origin only. *)
Class ProxyLaws (G Addr A PT Ex Fa : Type) `{EqDecision A} `{EqDecision PT} `{GasMeter G Addr Ex}
    `{ProxyPallet G Addr A PT Ex Fa} `{Dispatcher G A (RuntimeCall A PT) Ex Fa} : Prop := {
  find_proxy_spec (g : G) (real who : A) (force : option PT) :
    find_proxy g real who force =
      head (filter (fun pd => delegate pd = who /\ default (proxy_type pd) force = proxy_type pd)
        (proxies g real));
  record_proxies c (g g' : G) (a : A) : record c g = inr g' -> proxies g' a = proxies g a;
  address_type_proxies x type (g g' : G) (a : A) :
    get_address_type x g = inr (type, g') -> proxies g' a = proxies g a;
  dispatch_proxies o c growth (g g' : G) (a : A) :
    dispatch_with_growth o c growth g = inr g' ->
    if decide (o = a) then
      match c with
      | Proxy_add_proxy d t n => proxies g' a ≡ₚ mkProxyDefinition d t n :: proxies g a
      | Proxy_remove_proxy d t n => proxies g a ≡ₚ mkProxyDefinition d t n :: proxies g' a
      | Proxy_remove_proxies => proxies g' a = []
      | Balances_transfer_allow_death _ _ => proxies g' a = proxies g a
      end
    else proxies g' a = proxies g a;
}.

Section Dispatch.
Context {Addr A PT G Ex Fa : Type} `{EqDecision A} `{EqDecision PT}.
Context `{GasMeter G Addr Ex} `{Ca : Caller G Addr Ex Fa}.
Context `{ProxyPallet G Addr A PT Ex Fa} `{Dispatcher G A (RuntimeCall A PT) Ex Fa}.
Context `{EvmProxyCallFilter Addr PT Ex Fa}.
Context (T : Config (Addr := Addr) (A := A) (PT := PT)).

(** The output is the answer of a view. *)
Definition dispatch (ctx : Context Addr) (c : Call Addr) :
    M G (PrecompileFailure Ex Fa) (option bool) :=
  match c with
  | add_proxy_call d t n => add_proxy T ctx d t n ;; mret None
  | remove_proxy_call d t n => remove_proxy T ctx d t n ;; mret None
  | remove_proxies_call => remove_proxies (PT := PT) T ctx ;; mret None
  | proxy_call real to data => proxy T ctx real to data ;; mret None
  | proxy_force_type_call real t to data => proxy_force_type T ctx real t to data ;; mret None
  | is_proxy_call real d t n => b ← is_proxy T real d t n; mret (Some b)
  end.

(** Transactions to the precompile, one after the other. *)
Definition execute (g : G) (tx : Context Addr * Call Addr) : G :=
  committed (dispatch tx.1 tx.2) g.

(** How other contracts reach the registrations in the meantime: through the calls of
    this precompile that change them. *)
Definition changes_registrations (c : Call Addr) : bool :=
  match c with
  | add_proxy_call _ _ _ | remove_proxy_call _ _ _ | remove_proxies_call => true
  | _ => false
  end.

Inductive evm_step : relation G :=
  | evm_other g g' : (forall a, proxies g' a = proxies g a) -> evm_step g g'
  | evm_registration ctx c r g g' :
      changes_registrations c -> dispatch ctx c g = Ok r g' -> evm_step g g'.
End Dispatch.

(** What is assumed of the subcalls: the registrations change only through the
    precompile, as a filter on EVM calls is to ensure. *)
Class SubcallLaws (G Addr A PT Ex Fa : Type) `{EqDecision A} `{EqDecision PT}
    `{GasMeter G Addr Ex} `{Ca : Caller G Addr Ex Fa} `{ProxyPallet G Addr A PT Ex Fa}
    `{Dispatcher G A (RuntimeCall A PT) Ex Fa} `{EvmProxyCallFilter Addr PT Ex Fa}
    (T : Config (Addr := Addr) (A := A) (PT := PT)) : Prop :=
  subcall_steps target transfer input gas static ctx g reason output g' :
    call (Caller := Ca) target transfer input gas static ctx g = (reason, output, g') ->
    rtc (evm_step T) g g'.

(** No account has registered a delegate twice. *)
Definition delegates_unique {G Addr A PT Ex Fa} `{ProxyPallet G Addr A PT Ex Fa} (g : G) : Prop :=
  forall a, NoDup (map delegate (proxies g a)).

(** ** Lemmas *)
Section Lemmas.
Context {Addr A PT G Ex Fa : Type} `{EqDecision A} `{EqDecision PT}.
Context `{GasMeter G Addr Ex} `{Ca : Caller G Addr Ex Fa}.
Context `{ProxyPallet G Addr A PT Ex Fa} `{Dispatcher G A (RuntimeCall A PT) Ex Fa}.
Context `{EvmProxyCallFilter Addr PT Ex Fa}.
Context `{Laws : !ProxyLaws G Addr A PT Ex Fa}.
Context (T : Config (Addr := Addr) (A := A) (PT := PT)).

Definition same_proxies (g g' : G) : Prop := forall a, proxies g' a = proxies g a.

#[local] Instance same_proxies_preorder : PreOrder same_proxies.
Proof. split; [done|]. intros g1 g2 g3 Hx Hy a. by rewrite Hy, Hx. Qed.

Lemma record_same c g g' : record c g = inr g' -> same_proxies g g'.
Proof. intros Hr a. by eapply record_proxies. Qed.

Lemma unique_same g g' :
  same_proxies g g' -> delegates_unique g -> delegates_unique g'.
Proof. intros Hs Hu a. rewrite Hs. apply Hu. Qed.

(** The first registration that matches is one that matches. *)
Lemma find_proxy_Some g real who force def :
  find_proxy g real who force = Some def ->
  def ∈ proxies g real /\ delegate def = who /\ default (proxy_type def) force = proxy_type def.
Proof.
  rewrite find_proxy_spec. intros Hh.
  assert (Hin : def ∈ filter (fun pd => delegate pd = who /\
    default (proxy_type pd) force = proxy_type pd) (proxies g real)).
  { destruct (filter _ _); [done|]. injection Hh as ->. left. }
  by apply list_elem_of_filter in Hin as [[? ?] ?].
Qed.

Lemma NoDup_map_inj {B C} (f : B -> C) l x y :
  NoDup (map f l) -> x ∈ l -> y ∈ l -> f x = f y -> x = y.
Proof.
  intros Hnd Hx Hy Hf. apply list_elem_of_lookup in Hx as [i Hi], Hy as [j Hj].
  assert (i = j); [|congruence].
  assert (Hl : forall k z, l !! k = Some z -> map f l !! k = Some (f z)).
  { intros k z Hk. change (map f l) with (f <$> l). by rewrite list_lookup_fmap, Hk. }
  apply (NoDup_lookup (map f l) i j (f x)); [done|by apply Hl|rewrite Hf; by apply Hl].
Qed.

(** With unique delegates the registration of a delegate is the one found. *)
Lemma find_proxy_unique g real force def :
  delegates_unique g -> def ∈ proxies g real -> default (proxy_type def) force = proxy_type def ->
  find_proxy g real (delegate def) force = Some def.
Proof.
  intros Hu Hin Hf. rewrite find_proxy_spec.
  set (l := filter _ (proxies g real)).
  assert (Hl : def ∈ l) by (by apply list_elem_of_filter).
  destruct l as [|d l'] eqn:El; [by apply not_elem_of_nil in Hl|]. simpl. f_equal.
  assert (Hd : d ∈ l) by (rewrite El; left).
  apply list_elem_of_filter in Hd as [[Hd _] Hin'].
  by eapply (NoDup_map_inj delegate).
Qed.

Lemma authorise_Ok ctx real force sub g u g' :
  authorise T ctx real force sub g = Ok u g' ->
  exists def, def ∈ proxies g (into_account_id T real) /\
    delegate def = into_account_id T (caller ctx) /\
    default (proxy_type def) force = proxy_type def /\ delay def = 0 /\
    (exists g1, get_address_type (A := A) (PT := PT) real g = inr (EOA, g1)) /\
    is_evm_proxy_call_allowed (proxy_type def) sub
      (0 <? default 0 (account_code_len (A := A) (PT := PT) g' (to sub))) (remaining_gas g') = inr true /\
    same_proxies g g'.
Proof.
  unfold authorise, read_proxies. intros Hr. apply bind_Ok in Hr as (type & g1 & Ht & Hr).
  unfold address_type in Ht. destruct (get_address_type real g) as [|[ty g1']] eqn:Hty; [done|].
  injection Ht as -> ->.
  assert (Hs1 : same_proxies g g1) by (intros a; by eapply address_type_proxies).
  inv_evm. bool_to_prop. subst.
  repeat match goal with Hc : record _ _ = inr _ |- _ => apply record_same in Hc end.
  match goal with Hf : find_proxy _ _ _ _ = Some _ |- _ => apply find_proxy_Some in Hf as (Hin & Hd & Ht) end.
  assert (Hall : forall x y, same_proxies g1 x -> same_proxies x y -> same_proxies g y).
  { intros x y Hx Hy. etransitivity; [exact Hs1|]. by etransitivity. }
  eexists. split; [|split; [exact Hd|]; split; [exact Ht|]; split; [done|]].
  - match goal with Hx : same_proxies g1 ?x, Hin : _ ∈ proxies ?x _ |- _ => rewrite Hx, Hs1 in Hin end. done.
  - split; [by eexists|]. split; [done|]. eauto.
Qed.

Lemma perm_delegates (l l' : list (ProxyDefinition A PT)) :
  l ≡ₚ l' -> NoDup (map delegate l) -> NoDup (map delegate l').
Proof. intros Hp Hn. by rewrite <- Hp. Qed.

(** One dispatched runtime call and the uniqueness of delegates. *)
Lemma dispatch_unique o c growth g g' :
  dispatch_with_growth o c growth g = inr g' -> delegates_unique g ->
  match c with Proxy_add_proxy d _ _ => d ∉ map delegate (proxies g o) | _ => True end ->
  delegates_unique g'.
Proof.
  intros Hd Hu Hc a. pose proof (dispatch_proxies _ _ _ _ _ a Hd) as Ha. specialize (Hu a).
  case_decide as Ho; [subst o|by rewrite Ha].
  destruct c as [d t n|d t n| |dest v].
  - eapply perm_delegates; [symmetry; exact Ha|]. simpl. by constructor.
  - eapply perm_delegates in Hu; [|exact Ha]. by apply NoDup_cons in Hu as [_ ?].
  - rewrite Ha. constructor.
  - by rewrite Ha.
Qed.

Lemma not_registered d (l : list (ProxyDefinition A PT)) :
  negb (existsb (fun pd => bool_decide (delegate pd = d)) l) = true -> d ∉ map delegate l.
Proof.
  intros Hn Hin. apply negb_true_iff in Hn.
  apply list_elem_of_In, in_map_iff in Hin as (pd & <- & Hin).
  apply not_true_iff_false in Hn. apply Hn. apply existsb_exists.
  exists pd. split; [done|by apply bool_decide_eq_true].
Qed.

Lemma add_proxy_Ok ctx d t n g u g' :
  add_proxy T ctx d t n g = Ok u g' ->
  exists type g1, decode_proxy_type T t = Some type /\ same_proxies g g1 /\
    (into_account_id T d ∉ map delegate (proxies g1 (into_account_id T (caller ctx)))) /\
    dispatch_with_growth (into_account_id T (caller ctx))
      (Proxy_add_proxy (into_account_id T d) type n) 0 g1 = inr g'.
Proof.
  unfold add_proxy, decode_type, read_proxies. intros Hr. inv_evm.
  do 2 eexists. split; [done|]. split; [by eapply record_same|].
  split; [by apply not_registered|done].
Qed.

Lemma registration_unique ctx c r g g' :
  changes_registrations c -> dispatch T ctx c g = Ok r g' ->
  delegates_unique g -> delegates_unique g'.
Proof.
  intros Hc Hd Hu. destruct c as [d t n|d t n| | | | ]; try done; simpl in Hd; inv_evm.
  - match goal with Ha : add_proxy _ _ _ _ _ _ = _ |- _ =>
      apply add_proxy_Ok in Ha as (type & g1 & _ & Hs & Hn & Hd) end.
    by eapply (dispatch_unique _ _ _ _ _ Hd); [eapply unique_same|].
  - unfold remove_proxy, decode_type in *. inv_evm.
    match goal with Hd : dispatch_with_growth _ _ _ _ = _ |- _ => by eapply (dispatch_unique _ _ _ _ _ Hd) end.
  - unfold remove_proxies in *. inv_evm.
    match goal with Hd : dispatch_with_growth _ _ _ _ = _ |- _ => by eapply (dispatch_unique _ _ _ _ _ Hd) end.
Qed.

Lemma evm_steps_unique g g' :
  rtc (evm_step T) g g' -> delegates_unique g -> delegates_unique g'.
Proof.
  intros Hs. apply (rtc_invariant (evm_step T)); [|done].
  intros x y Hu Hstep. destruct Hstep; [by eapply unique_same|by eapply registration_unique].
Qed.

Lemma refund_Ok ctx who real target v g t g' :
  refund (PT := PT) T ctx who real target v g = Ok t g' ->
  v = 0 /\ t = None /\ g' = g \/
  v <> 0 /\ v <= umax (balance_bits T) /\ t = Some (mkTransfer real target v) /\
  dispatch_with_growth (into_account_id T (address ctx))
    (Balances_transfer_allow_death (PT := PT) who v) SYSTEM_ACCOUNT_SIZE g = inr g'.
Proof.
  unfold refund. destruct (Z.eqb_spec v 0).
  - intros [= <- <-]. by left.
  - intros Hr. right. inv_evm. case_match; simplify_eq. bool_to_prop. by split_and!.
Qed.

Lemma refund_unique ctx who real target v g t g' :
  refund (PT := PT) T ctx who real target v g = Ok t g' -> delegates_unique g -> delegates_unique g'.
Proof.
  intros [(_ & _ & ->)|(_ & _ & _ & Hd)]%refund_Ok; [done|]. intros Hu. by eapply (dispatch_unique _ _ _ _ _ Hd).
Qed.

Context `{Sub : !SubcallLaws (Ca := Ca) G Addr A PT Ex Fa T}.

Lemma inner_proxy_unique ctx real force sub g u g' :
  inner_proxy T ctx real force sub g = Ok u g' -> delegates_unique g -> delegates_unique g'.
Proof.
  unfold inner_proxy. intros Hr Hu. apply bind_Ok in Hr as ([] & g1 & Ha & Hr).
  apply authorise_Ok in Ha as (_ & _ & _ & _ & _ & _ & _ & Hs).
  apply bind_Ok in Hr as (t & g2 & Hf & Hr).
  apply refund_unique in Hf; [|by eapply unique_same].
  unfold subcall in Hr. destruct (call _ _ _ _ _ _ g2) as [[r o] g3] eqn:Hc.
  apply subcall_steps in Hc. destruct r; simplify_eq. by eapply evm_steps_unique.
Qed.

Lemma execute_unique g tx : delegates_unique g -> delegates_unique (execute T g tx).
Proof.
  intros Hu. unfold execute, committed. destruct (dispatch T tx.1 tx.2 g) as [r g'| |] eqn:Hd; try done.
  destruct (changes_registrations tx.2) eqn:Hc.
  { eapply registration_unique; [|exact Hd|done]. by rewrite Hc. }
  destruct tx as [ctx [d t n|d t n| |real to data|real t to data|real d t n]]; try done; simpl in Hd;
    unfold proxy, proxy_force_type, is_proxy, decode_type, read_proxies in Hd; inv_evm.
  - by eapply inner_proxy_unique.
  - by eapply inner_proxy_unique.
  - match goal with Hc : record _ _ = inr _ |- _ => apply record_same in Hc end. by eapply unique_same.
Qed.
End Lemmas.

(** ** What the precompile keeps

    A property is kept by every call that succeeds if charging keeps it, runtime calls of
    the caller and of the precompile's own account do, and the subcalls in the name of
    accounts that registered a proxy without a delay do. *)
Section Keeps.
Context {Addr A PT G Ex Fa : Type} `{EqDecision A} `{EqDecision PT}.
Context `{GasMeter G Addr Ex} `{Ca : Caller G Addr Ex Fa}.
Context `{ProxyPallet G Addr A PT Ex Fa} `{Dispatcher G A (RuntimeCall A PT) Ex Fa}.
Context `{EvmProxyCallFilter Addr PT Ex Fa}.
Context `{Laws : !ProxyLaws G Addr A PT Ex Fa}.
Context (T : Config (Addr := Addr) (A := A) (PT := PT)) (ctx : Context Addr) (I : G -> Prop).
Context (keeps_record : forall c g g', I g -> record c g = inr g' -> I g').
Context (keeps_type : forall x type g g', I g ->
  get_address_type (A := A) (PT := PT) (Ex := Ex) (Fa := Fa) x g = inr (type, g') -> I g').
Context (keeps_runtime : forall x c n g g', I g -> x = caller ctx \/ x = address ctx ->
  dispatch_with_growth (into_account_id T x) c n g = inr g' -> I g').
Context (keeps_subcall : forall real a t d gas def g r o g',
  I g -> def ∈ proxies g (into_account_id T real) -> delay def = 0 ->
  (forall tr, t = Some tr -> source _ tr = real) ->
  call a t d gas false (mkContext real a (apparent_value ctx)) g = (r, o, g') -> I g').

Lemma proxy_charge_keeps c : keeps I (charge (S := G) (Fa := Fa) (record c)).
Proof. intros g u g' Hg Hr. inv_evm. eauto. Qed.

Lemma runtime_keeps x c n :
  x = caller ctx \/ x = address ctx -> keeps I (try_dispatch (Ex := Ex) (Fa := Fa) (into_account_id T x) c n).
Proof. intros Hx g u g' Hg Hr. inv_evm. eauto. Qed.

Lemma authorise_keeps real force sub : keeps I (authorise T ctx real force sub).
Proof.
  unfold authorise, read_proxies, ensure_or_revert. apply keeps_bind.
  { intros g ty g' Hg Hr. unfold address_type in Hr. destruct (get_address_type real g) as [|[ty' g1]] eqn:Ht; [done|].
    injection Hr as <- <-. by eapply keeps_type. }
  intros ty. repeat (apply keeps_bind; [first [apply proxy_charge_keeps|apply read_only_keeps; auto with handler]|intros ?]).
  apply read_only_keeps; auto with handler.
Qed.

Lemma inner_proxy_keeps real force a d :
  keeps I (inner_proxy T ctx real force (mkEvmSubCall a (apparent_value ctx) d)).
Proof.
  intros g u g' Hg Hr. unfold inner_proxy in Hr. apply bind_Ok in Hr as ([] & g1 & Ha & Hr).
  pose proof Ha as (def & Hin & _ & _ & Hdelay & _ & _ & Hsame)%authorise_Ok. rewrite <- Hsame in Hin. apply authorise_keeps in Ha as Hg1; [|done].
  apply bind_Ok in Hr as (t & g2 & Hf & Hr). apply refund_Ok in Hf.
  assert (Hg2 : I g2 /\ (forall tr, t = Some tr -> source _ tr = real) /\
    def ∈ proxies g2 (into_account_id T real)).
  { destruct Hf as [(_ & -> & ->)|(_ & _ & -> & Hd)]; [by split_and!|]. split_and!; [|by intros tr [= <-]|].
    - by eapply (keeps_runtime (address ctx)); [exact Hg1|right|exact Hd].
    - apply (dispatch_proxies _ _ _ _ _ (into_account_id T real)) in Hd. case_decide; by rewrite Hd. }
  destruct Hg2 as (Hg2 & Ht & Hin2). unfold subcall in Hr. simpl in Hr.
  destruct (call _ _ _ _ _ _ g2) as [[r o] g3] eqn:Hc.
  assert (g3 = g') as -> by (destruct r; [by injection Hr|discriminate..]).
  eapply keeps_subcall; [exact Hg2|exact Hin2|exact Hdelay|exact Ht|exact Hc].
Qed.

Lemma dispatch_keeps c : keeps I (dispatch T ctx c).
Proof.
  destruct c; simpl; (apply keeps_bind; [|intros ?; apply read_only_keeps; auto with handler]).
  - unfold add_proxy, decode_type, read_proxies, ensure_or_revert.
    repeat (apply keeps_bind; [first [apply proxy_charge_keeps|apply read_only_keeps; auto with handler]|intros ?]).
    apply runtime_keeps. by left.
  - unfold remove_proxy, decode_type. apply keeps_bind; [apply read_only_keeps; auto with handler|]. intros ?.
    apply runtime_keeps. by left.
  - apply runtime_keeps. by left.
  - apply inner_proxy_keeps.
  - unfold proxy_force_type, decode_type. apply keeps_bind; [apply read_only_keeps; auto with handler|].
    intros ?. apply inner_proxy_keeps.
  - unfold is_proxy, decode_type, read_proxies.
    repeat (apply keeps_bind; [first [apply proxy_charge_keeps|apply read_only_keeps; auto with handler]|intros ?]).
    apply read_only_keeps; auto with handler.
Qed.
End Keeps.

(** As long as selectors do not collide, the filters let no call through that changes
    registrations, and the narrower one only the view. *)
Lemma filters_refuse {Addr A PT} (T : Config (Addr := Addr) (A := A) (PT := PT)) who (c : Call Addr) s :
  Inj (=) (=) (selector_of T) -> s ∈ signatures c ->
  (changes_registrations c -> only_is_proxy_and_proxy T who (Some (selector_of T s)) = false) /\
  (only_is_proxy T who (Some (selector_of T s)) = true <-> exists r d t n, c = is_proxy_call r d t n).
Proof.
  intros Hinj Hs.
  assert (Hin : forall l, selector_of T s ∈ selectors T l <-> s ∈ l).
  { intros l. unfold selectors. rewrite !list_elem_of_In, in_map_iff. split; [|by eauto].
    intros (s' & <-%Hinj & ?). done. }
  unfold only_is_proxy_and_proxy, only_is_proxy. split.
  - intros Hc. rewrite !bool_decide_false; [done|rewrite Hin; by destruct c; set_solver..].
  - rewrite (bool_decide_eq_true (_ ∈ _)), Hin. destruct c; simpl in Hs; (split; [try set_solver|by intros (? & ? & ? & ? & [=])]); eauto.
Qed.

(** ** Properties *)
Section Properties.
Context {Addr A PT G Ex Fa : Type} `{EqDecision A} `{EqDecision PT}.
Context `{GasMeter G Addr Ex}.
Context `{ProxyPallet G Addr A PT Ex Fa} `{Dispatcher G A (RuntimeCall A PT) Ex Fa}.
Context `{EvmProxyCallFilter Addr PT Ex Fa}.
Context `{Laws : !ProxyLaws G Addr A PT Ex Fa}.
Context (T : Config (Addr := Addr) (A := A) (PT := PT)).

(** C14: nobody acts in another's name without its leave: if it makes a difference to
    a proxied call what the EVM does with subcalls, the account acted for is an
    externally owned account that has registered the caller as a proxy, without a
    delay and with the forced type if there is one; the type allows this call; the
    funds sent along were returned to the caller; and the one subcall is the requested
    one, in the name of that account and paid by it. *)
Theorem acts_only_with_leave ctx real force sub g (C1 C2 : Caller G Addr Ex Fa) :
  inner_proxy (Ca := C1) T ctx real force sub g <> inner_proxy (Ca := C2) T ctx real force sub g ->
  exists def g1 g2 transfer,
    def ∈ proxies g (into_account_id T real) /\
    delegate def = into_account_id T (caller ctx) /\ delay def = 0 /\
    default (proxy_type def) force = proxy_type def /\
    (exists g0, get_address_type (A := A) (PT := PT) real g = inr (EOA, g0)) /\
    is_evm_proxy_call_allowed (proxy_type def) sub
      (0 <? default 0 (account_code_len (A := A) (PT := PT) g1 (to sub))) (remaining_gas g1) = inr true /\
    (value sub = 0 /\ transfer = None /\ g2 = g1 \/
     value sub <> 0 /\ transfer = Some (mkTransfer real (to sub) (value sub)) /\
     dispatch_with_growth (into_account_id T (address ctx)) (Balances_transfer_allow_death (PT := PT)
       (into_account_id T (caller ctx)) (value sub)) SYSTEM_ACCOUNT_SIZE g1 = inr g2) /\
    (forall C : Caller G Addr Ex Fa, inner_proxy (Ca := C) T ctx real force sub g =
      subcall (Ca := C) (to sub) transfer (call_data sub) (mkContext real (to sub) (value sub)) g2).
Proof.
  intros Hne. destruct (authorise T ctx real force sub g) as [[] g1| |] eqn:Ha;
    [|destruct Hne; unfold inner_proxy, mbind, M_bind; by rewrite Ha..].
  destruct (refund (PT := PT) (Fa := Fa) T ctx (into_account_id T (caller ctx)) real (to sub) (value sub) g1)
    as [t g2| |] eqn:Hf;
    [|destruct Hne; unfold inner_proxy, mbind, M_bind; by rewrite Ha, Hf..].
  assert (Hsub : forall C : Caller G Addr Ex Fa, inner_proxy (Ca := C) T ctx real force sub g =
    subcall (Ca := C) (to sub) t (call_data sub) (mkContext real (to sub) (value sub)) g2).
  { intros C. unfold inner_proxy, mbind, M_bind. by rewrite Ha, Hf. }
  pose proof Ha as (def & Hin & Hd & Ht & Hn & Heoa & Hok & Hs)%authorise_Ok.
  apply refund_Ok in Hf. exists def, g1, g2, t. split_and!; try done.
  destruct Hf as [?|(? & _ & ? & ?)]; auto.
Qed.

(** No account ever has two registrations of the same delegate: re-adding a proxy
    is refused, also when it is tried from within a proxied call. *)
Theorem one_registration_per_delegate `{Sub : !SubcallLaws (Ca := Ca) G Addr A PT Ex Fa T} g
    (txs : list (Context Addr * Call Addr)) :
  delegates_unique g -> delegates_unique (foldl (execute T) g txs).
Proof.
  revert g. induction txs as [|tx txs IH]; intros g Hu; [done|].
  apply IH. by apply execute_unique.
Qed.

(** The view tells who may act: with unique registrations [isProxy] of the caller
    for a type and no delay answers false exactly when a call forced to this type is
    refused for want of a registration, and it answers true only when the call is made
    as soon as the account is externally owned, the gas suffices and the type allows it. *)
Theorem is_proxy_decides ctx real t type b g g0 :
  delegates_unique g -> decode_proxy_type T t = Some type ->
  is_proxy (Fa := Fa) T real (caller ctx) t 0 g = Ok b g0 ->
  forall sub,
  (b = false -> forall g', authorise T ctx real (Some type) sub g <> Ok tt g') /\
  (b = true -> forall g1 g2 g3,
    get_address_type (A := A) (PT := PT) real g = inr (EOA, g1) ->
    record (DbRead (28 + 29 * MaxProxies T + 8)) g1 = inr g2 -> record (DbRead 41) g2 = inr g3 ->
    is_evm_proxy_call_allowed type sub
      (0 <? default 0 (account_code_len (A := A) (PT := PT) g3 (to sub))) (remaining_gas g3) = inr true ->
    authorise T ctx real (Some type) sub g = Ok tt g3).
Proof.
  intros Hu Ht Hb sub. unfold is_proxy, decode_type, read_proxies in Hb. inv_evm. simplify_eq.
  match goal with Hc : record _ g = inr _ |- _ => apply record_same in Hc as Hs end.
  split; intros Hb.
  - intros g' (def & Hin & Hd & Hty & Hn & _)%authorise_Ok. apply not_true_iff_false in Hb. apply Hb.
    apply existsb_exists. exists def. split; [apply list_elem_of_In; by rewrite Hs|].
    simpl in Hty. by rewrite Hn, !bool_decide_true.
  - intros g1 g2 g3 Ha Hr2 Hr3 Hok.
    apply existsb_exists in Hb as (def & Hin & Hdef). apply list_elem_of_In in Hin. bool_to_prop. subst.
    assert (Hs2 : same_proxies g g2).
    { intros a. rewrite (record_proxies _ _ _ a Hr2). by eapply address_type_proxies. }
    assert (Hfind : find_proxy g2 (into_account_id T real) (delegate def) (Some (proxy_type def)) = Some def).
    { apply find_proxy_unique; [by eapply unique_same|by rewrite Hs2, <- Hs|done]. }
    unfold authorise, address_type, read_proxies, ensure_or_revert, charge, mbind, M_bind, ensure, gets,
      ok_or, try_. rewrite Ha. simpl. rewrite Hr2. simpl in *.
    match goal with Hx : delegate def = _ |- _ => rewrite <- Hx end. rewrite Hfind.
    match goal with Hx : delay def = _ |- _ => rewrite Hx end. simpl. by rewrite Hr3, Hok.
Qed.
End Properties.

(** ** A concrete EVM: accounts are integers, those below 100 are externally owned,
    types are integers below 3, type 0 allows every call *)
Section Witnesses.
Record World := mkWorld {
  gas_left : Z;
  registered : Z -> list (ProxyDefinition Z Z);
  calls : list (Z * Z * Z);
}.

Definition with_registered (w : World) (o : Z) (l : list (ProxyDefinition Z Z)) : World :=
  mkWorld (gas_left w) (fun a => if decide (o = a) then l else registered w a) (calls w).

#[local] Instance world_meter : GasMeter World Z unit := {|
  OutOfGas := tt;
  remaining_gas := gas_left;
  record c w := match c with
    | DbRead n | Cost n | LogCosts n _ =>
        if n <=? gas_left w then inr (mkWorld (gas_left w - n) (registered w) (calls w)) else inl tt
    end;
  compute_cost _ := None;
  record_log_costs _ w := inr w;
  record_log _ w := inr w;
|}.

#[local] Instance world_proxies : ProxyPallet World Z Z Z unit unit := {|
  proxies := registered;
  find_proxy w real who force :=
    head (filter (fun pd => delegate pd = who /\ default (proxy_type pd) force = proxy_type pd)
      (registered w real));
  get_address_type a w := inr (if a <? 100 then EOA else Contract, w);
  account_code_len _ a := if a <? 100 then None else Some 10;
|}.

#[local] Instance world_dispatcher : Dispatcher World Z (RuntimeCall Z Z) unit unit :=
  fun o c _ w => match c with
  | Proxy_add_proxy d t n => inr (with_registered w o (mkProxyDefinition d t n :: registered w o))
  | Proxy_remove_proxy d t n =>
      match list_find (fun pd => pd = mkProxyDefinition d t n) (registered w o) with
      | Some (i, _) => inr (with_registered w o (delete i (registered w o)))
      | None => inl (FailRevert [])
      end
  | Proxy_remove_proxies => inr (with_registered w o [])
  | Balances_transfer_allow_death _ v => if v <=? 1000 then inr w else inl (FailRevert [])
  end.

#[local] Instance world_filter : EvmProxyCallFilter Z Z unit unit := fun t _ _ _ => inr (t =? 0).

#[local] Instance world_laws : ProxyLaws World Z Z Z unit unit.
Proof.
  split.
  - done.
  - intros c g g' a Hr. destruct c as [n|n|n d]; simpl in Hr;
      destruct (n <=? gas_left g); by simplify_eq.
  - intros x type g g' a Hr. simpl in Hr. injection Hr as _ <-. done.
  - intros o c growth g g' a. unfold dispatch_with_growth, world_dispatcher. destruct c as [d t n|d t n| |d v].
    + intros [= <-]. simpl. by destruct (decide (o = a)) as [->|].
    + destruct (list_find _ _) as [[i x]|] eqn:Hf; [|done]. intros [= <-]. simpl.
      destruct (decide (o = a)) as [->|]; [|done].
      apply list_find_Some in Hf as (Hi & -> & _). by apply delete_Permutation.
    + intros [= <-]. simpl. by destruct (decide (o = a)).
    + destruct (v <=? 1000); [|done]. intros [= <-]. by destruct (decide (o = a)).
Qed.

Definition sample_config : Config (Addr := Z) (A := Z) (PT := Z) := {|
  into_account_id a := a;
  decode_proxy_type t := if t <? 3 then Some t else None;
  MaxProxies := 32;
  balance_bits := 128;
  revert _ := [];
  revert_in_field _ _ := [];
  selector_of s := Z.of_nat (length (String.list_ascii_of_string s));
|}.

(** Account 1 has registered account 2 with type 0 and account 3 with a delay. *)
Definition sample_world : World :=
  mkWorld 100000 (fun a => if decide (a = 1) then
    [mkProxyDefinition 2 0 0; mkProxyDefinition 3 0 10] else []) [].

(** Two EVMs: one records the subcall, the other lets the called contract register the
    callee's caller's proxy 2 once more. *)
Definition recording : Caller World Z unit unit := fun target _ _ _ _ ctx w =>
  (Succeed, [], mkWorld (gas_left w) (registered w) (calls w ++ [(caller ctx, target, apparent_value ctx)])).

Definition reentrant : Caller World Z unit unit := fun _ _ _ _ _ ctx w =>
  (Succeed, [], committed (dispatch (Ca := recording) sample_config ctx (add_proxy_call 2 1 0)) w).

Lemma acts_only_with_leave_witness :
  inner_proxy (Ca := recording) sample_config (mkContext 2 99 5) 1 None (mkEvmSubCall 150 5 []) sample_world
    <> inner_proxy (Ca := reentrant) sample_config (mkContext 2 99 5) 1 None (mkEvmSubCall 150 5 []) sample_world
  /\ exists def, def ∈ registered sample_world 1 /\ delegate def = 2.
Proof.
  assert (Hne : inner_proxy (Ca := recording) sample_config (mkContext 2 99 5) 1 None
      (mkEvmSubCall 150 5 []) sample_world
    <> inner_proxy (Ca := reentrant) sample_config (mkContext 2 99 5) 1 None
      (mkEvmSubCall 150 5 []) sample_world).
  { intros Heq. apply (f_equal (fun r => length (calls (final_state (fun _ => r) sample_world)))) in Heq.
    vm_compute in Heq. discriminate Heq. }
  split; [exact Hne|].
  destruct (acts_only_with_leave sample_config _ _ _ _ _ _ _ Hne) as (def & g1 & g2 & t & Hin & Hd & _).
  by exists def.
Defined.

#[local] Instance reentrant_laws :
  SubcallLaws (Ca := reentrant) World Z Z Z unit unit sample_config.
Proof.
  intros target transfer input gas static ctx g reason output g' Hc. unfold call, reentrant, committed in Hc.
  destruct (dispatch (Ca := recording) sample_config ctx (add_proxy_call 2 1 0) g) as [r g1| |] eqn:Hd;
    simplify_eq; [|constructor..].
  apply rtc_once. by eapply (evm_registration (Ca := reentrant) sample_config ctx (add_proxy_call 2 1 0) r).
Qed.

(** Account 4 registers account 2 with type 0; then 2 calls a contract in the name of
    4 that registers 2 once more, which is refused; then 5 does the same directly. *)
Lemma one_registration_per_delegate_witness :
  delegates_unique (foldl (execute (Ca := reentrant) sample_config) sample_world
    [(mkContext 4 99 0, add_proxy_call 2 0 0); (mkContext 2 99 0, proxy_call 4 150 []);
     (mkContext 4 99 0, add_proxy_call 2 2 0)]) /\
  registered (foldl (execute (Ca := reentrant) sample_config) sample_world
    [(mkContext 4 99 0, add_proxy_call 2 0 0); (mkContext 2 99 0, proxy_call 4 150 []);
     (mkContext 4 99 0, add_proxy_call 2 2 0)]) 4 = [mkProxyDefinition 2 0 0].
Proof.
  assert (Hu : delegates_unique sample_world).
  { intros a. simpl. case_decide; simpl; repeat constructor; set_solver. }
  split; [|reflexivity].
  exact (one_registration_per_delegate (Ca := reentrant) sample_config _ _ Hu).
Defined.

Lemma is_proxy_decides_witness :
  is_proxy (Ex := unit) (Fa := unit) sample_config 1 3 0 0 sample_world
    = Ok false (mkWorld 99036 (registered sample_world) []) /\
  forall sub g', authorise sample_config (mkContext 3 99 0) 1 (Some 0) sub sample_world <> Ok tt g'.
Proof.
  assert (Hu : delegates_unique sample_world).
  { intros a. simpl. case_decide; simpl; repeat constructor; set_solver. }
  split; [reflexivity|]. intros sub.
  exact (proj1 (is_proxy_decides (Fa := unit) sample_config (mkContext 3 99 0) 1 0 0 false sample_world _
    Hu eq_refl eq_refl sub) eq_refl).
Defined.
End Witnesses.
