(* ===== verification/AssetsErc20.v ===== *)
(** * The ERC-20 precompile set over the assets pallet
      ([precompiles/assets-erc20/src/{lib,eip2612}.rs])

    Every asset of [pallet_assets] as an ERC-20 contract at an address of its own:
    the discriminant routes an address to an asset, the calls are dispatched to the
    pallet, which keeps balances and approvals; the precompile itself only stores the
    nonces of signed permits, per contract and owner.  The pallet and the dispatch are
    interfaces over the state [G] of the handle. *)
From Stdlib Require Import ZArith Lia String Ascii.
From stdpp Require Import prelude gmap fin_maps.
From S2P Require Import Prelude.
From S2P Require Import XcmPrimitives.
From S2P Require Import Evm.

Local Open Scope Z_scope.

(** The calls of [pallet_assets] the precompile dispatches. *)
Inductive AssetsCall (AssetId A : Type) :=
  | cancel_approval (id : AssetId) (delegate : A)
  | approve_transfer (id : AssetId) (delegate : A) (amount : Z)
  | assets_transfer (id : AssetId) (target : A) (amount : Z)
  | transfer_approved (id : AssetId) (owner destination : A) (amount : Z).
Arguments cancel_approval {AssetId A} _ _.
Arguments approve_transfer {AssetId A} _ _ _.
Arguments assets_transfer {AssetId A} _ _ _.
Arguments transfer_approved {AssetId A} _ _ _ _.

(** What the precompile reads of the pallet. *)
Class AssetsPallet (G AssetId A : Type) := {
  maybe_total_supply : G -> AssetId -> option Z;
  total_issuance : G -> AssetId -> Z;
  balance : G -> AssetId -> A -> Z;
  pallet_allowance : G -> AssetId -> A -> A -> Z;
  asset_name : G -> AssetId -> list Z;
  asset_symbol : G -> AssetId -> list Z;
  asset_decimals : G -> AssetId -> Z;
  asset_owner : G -> AssetId -> option A;
  asset_issuer : G -> AssetId -> option A;
  asset_admin : G -> AssetId -> option A;
  asset_freezer : G -> AssetId -> option A;
}.

(** [DiscriminantResult] *)
Inductive DiscriminantResult (AssetId : Type) :=
  | DSome (id : AssetId) (extra_cost : Z)
  | DNone (extra_cost : Z)
  | DOutOfGas.
Arguments DSome {AssetId} _ _.
Arguments DNone {AssetId} _.
Arguments DOutOfGas {AssetId}.

Section Definitions.
Context {Addr A AssetId G Ex Fa : Type} `{Countable Addr} `{EqDecision A}.
Context `{GasMeter G Addr Ex} `{AssetsPallet G AssetId A}.
Context `{Dispatcher G A (AssetsCall AssetId A) Ex Fa}.
Context `{AccountIdAssetIdConversion A AssetId}.

(** The runtime, its constants and the host functions. *)
Record Config := mkConfig {
  into_account_id : Addr -> A;
  (** [Runtime::AccountId: Into<H160>] *)
  into_address : A -> Addr;
  (** [AssetId: Display] *)
  display : AssetId -> string;
  balance_bits : Z;
  db_read_gas_cost : Z;
  Extra_max_encoded_len : Z;
  StringLimit : Z;
  ChainId : Z;
  revert : string -> list Z;
  too_large : string -> list Z;
  keccak : string -> list Z;
  keccak_256 : list Z -> list Z;
  encode_arguments : list (Argument Addr) -> list Z;
  encode_event_data : Z -> list Z;
  address_topic : Addr -> list Z;
  ecdsa_recover : list Z -> list Z -> option (list Z);
  address_of_hash : list Z -> Addr;
  zero_address : Addr;
}.

(** [NoncesStorage], everything else *)
Record State := mkState {
  Nonces : gmap (Addr * Addr) Z;
  env : G;
}.

Abbreviation Mo := (M State (PrecompileFailure Ex Fa)).

Context (T : Config).

Definition put_env g (s : State) : State := mkState (Nonces s) g.
Definition update_nonces f (s : State) : State := mkState (f (Nonces s)) (env s).
Definition get_nonce (contract owner : Addr) (s : State) : Z :=
  default 0 (Nonces s !! (contract, owner)).

(** What runs on the handle. *)
Definition on_handle {B} (m : M G (PrecompileFailure Ex Fa) B) : Mo B := zoom env put_env id m.

Definition read_db (size : Z) : Mo unit := on_handle (charge (record (DbRead size))).

Definition SYSTEM_ACCOUNT_SIZE : Z := 148.
Definition SELECTOR_LOG_TRANSFER : string := "Transfer(address,address,uint256)".
Definition SELECTOR_LOG_APPROVAL : string := "Approval(address,address,uint256)".

(** [log3(..).record(handle)?] *)
Definition log3 (address : Addr) (event : string) (from to : Addr) (data : Z) : Mo unit :=
  on_handle (charge (record_log
    (mkLog address (keccak T event :: map (address_topic T) [from; to]) (encode_event_data T data)))).

(** [discriminant]: the asset of an address, if it exists. *)
Definition discriminant (address : Addr) (gas : Z) (g : G) : DiscriminantResult AssetId :=
  let extra_cost := db_read_gas_cost T in
  if gas <? extra_cost then DOutOfGas
  else match account_to_asset_id (into_account_id T address) with
  | None => DNone extra_cost
  | Some (_, asset_id) =>
      match maybe_total_supply g asset_id with
      | Some _ => DSome asset_id extra_cost
      | None => DNone extra_cost
      end
  end.

Section Asset.
(** The asset the address was routed to, and the context of the call. *)
Context (asset_id : AssetId) (context : Context Addr).

Definition u256_to_amount (value : Z) : option Z :=
  if value <=? umax (balance_bits T) then Some value else None.

(** ** Views *)
Definition total_supply : Mo Z :=
  read_db 175 ;;
  gets (fun s => total_issuance (env s) asset_id).

Definition balance_of (who : Addr) : Mo Z :=
  read_db (87 + Extra_max_encoded_len T) ;;
  gets (fun s => balance (env s) asset_id (into_account_id T who)).

Definition allowance (owner spender : Addr) : Mo Z :=
  read_db 136 ;;
  gets (fun s => pallet_allowance (env s) asset_id (into_account_id T owner) (into_account_id T spender)).

Definition name : Mo (list Z) :=
  read_db (50 + 2 * StringLimit T) ;;
  gets (fun s => asset_name (env s) asset_id).

Definition symbol : Mo (list Z) :=
  read_db (50 + 2 * StringLimit T) ;;
  gets (fun s => asset_symbol (env s) asset_id).

Definition decimals : Mo Z :=
  read_db (50 + 2 * StringLimit T) ;;
  gets (fun s => asset_decimals (env s) asset_id).

Definition role (get : G -> option A) (msg : string) : Mo Addr :=
  read_db 175 ;;
  who ← gets (fun s => get (env s));
  who ← ok_or who (FailRevert (revert T msg));
  mret (into_address T who).

Definition owner : Mo Addr := role (fun g => asset_owner g asset_id) "No owner set".
Definition issuer : Mo Addr := role (fun g => asset_issuer g asset_id) "No issuer set".
Definition admin : Mo Addr := role (fun g => asset_admin g asset_id) "No admin set".
Definition freezer : Mo Addr := role (fun g => asset_freezer g asset_id) "No freezer set".

(** ** Calls *)
Definition approve_inner (owner spender : Addr) (value : Z) : Mo unit :=
  let owner := into_account_id T owner in
  let spender := into_account_id T spender in
  let amount := default (umax (balance_bits T)) (u256_to_amount value) in
  read_db 136 ;;
  previous ← gets (fun s => pallet_allowance (env s) asset_id owner spender);
  when (negb (previous =? 0)) (on_handle (try_dispatch owner (cancel_approval asset_id spender) 0)) ;;
  on_handle (try_dispatch owner (approve_transfer asset_id spender amount) 0).

Definition approve (spender : Addr) (value : Z) : Mo bool :=
  on_handle (charge (record (LogCosts 3 32))) ;;
  approve_inner (caller context) spender value ;;
  log3 (address context) SELECTOR_LOG_APPROVAL (caller context) spender value ;;
  mret true.

Definition transfer (to : Addr) (value : Z) : Mo bool :=
  on_handle (charge (record (LogCosts 3 32))) ;;
  value ← ok_or (u256_to_amount value) (FailRevert (too_large T "value"));
  on_handle (try_dispatch (into_account_id T (caller context))
    (assets_transfer asset_id (into_account_id T to) value) SYSTEM_ACCOUNT_SIZE) ;;
  log3 (address context) SELECTOR_LOG_TRANSFER (caller context) to value ;;
  mret true.

Definition transfer_from (from to : Addr) (value : Z) : Mo bool :=
  on_handle (charge (record (LogCosts 3 32))) ;;
  value ← ok_or (u256_to_amount value) (FailRevert (too_large T "value"));
  let caller := into_account_id T (caller context) in
  let from_account := into_account_id T from in
  let to_account := into_account_id T to in
  (if bool_decide (caller = from_account) then
     on_handle (try_dispatch from_account (assets_transfer asset_id to_account value) SYSTEM_ACCOUNT_SIZE)
   else
     on_handle (try_dispatch caller (transfer_approved asset_id from_account to_account value)
       SYSTEM_ACCOUNT_SIZE)) ;;
  log3 (address context) SELECTOR_LOG_TRANSFER from to value ;;
  mret true.

(** ** EIP-2612; [code_address] is the contract that was called *)
Definition bytes_of_string (s : string) : list Z :=
  map (fun c => Z.of_nat (nat_of_ascii c)) (list_ascii_of_string s).

Definition permit_name (g : G) : list Z :=
  let asset_name := asset_name g asset_id in
  match asset_name with
  | [] => bytes_of_string "Unnamed XC20 #" ++ bytes_of_string (display T asset_id)
  | _ => asset_name
  end.

Definition compute_domain_separator (g : G) (address : Addr) : list Z :=
  keccak_256 T (encode_arguments T [
    ArgBytes32 (keccak T "EIP712Domain(string name,string version,uint256 chainId,address verifyingContract)");
    ArgBytes32 (keccak_256 T (permit_name g));
    ArgBytes32 (keccak T "1");
    ArgUint (ChainId T);
    ArgAddress address]).

Definition generate_permit (g : G) (address owner spender : Addr) (value nonce deadline : Z) : list Z :=
  let domain_separator := compute_domain_separator g address in
  let permit_content := keccak_256 T (encode_arguments T [
    ArgBytes32 (keccak T "Permit(address owner,address spender,uint256 value,uint256 nonce,uint256 deadline)");
    ArgAddress owner; ArgAddress spender; ArgUint value; ArgUint nonce; ArgUint deadline]) in
  keccak_256 T ([25; 1] ++ domain_separator ++ permit_content).

Definition recover (v : Z) (r s message : list Z) : option Addr :=
  public ← ecdsa_recover T (r ++ s ++ [v]) message;
  Some (address_of_hash T (keccak_256 T public)).

Definition permit (code_address : Addr) (now : Z) (owner spender : Addr) (value deadline v : Z)
    (r s : list Z) : Mo unit :=
  read_db 104 ;;
  ensure (now / 1000 <=? deadline) (FailRevert (revert T "Permit expired")) ;;
  nonce ← gets (get_nonce code_address owner);
  g ← gets env;
  let permit := generate_permit g code_address owner spender value nonce deadline in
  signer ← ok_or (recover v r s permit) (FailRevert (revert T "Invalid permit"));
  ensure (negb (bool_decide (signer = zero_address T)) && bool_decide (signer = owner))
    (FailRevert (revert T "Invalid permit")) ;;
  next ← expect (checked_add 256 nonce 1);
  modify (update_nonces <[(code_address, owner) := next]>) ;;
  approve_inner owner spender value ;;
  log3 code_address SELECTOR_LOG_APPROVAL owner spender value.

Definition nonces (code_address owner : Addr) : Mo Z :=
  read_db 104 ;;
  gets (get_nonce code_address owner).

Definition domain_separator (code_address : Addr) : Mo (list Z) :=
  read_db (50 + 2 * StringLimit T) ;;
  gets (fun s => compute_domain_separator (env s) code_address).
End Asset.

(** ** Transactions *)

(** The calls that change state. *)
Inductive Call :=
  | approve_call (spender : Addr) (value : Z)
  | transfer_call (to : Addr) (value : Z)
  | transfer_from_call (from to : Addr) (value : Z)
  | permit_call (owner spender : Addr) (value deadline v : Z) (r s : list Z).

(** A call to an address in its context, with its gas and its time. *)
Record Tx := mkTx {
  tx_context : Context Addr;
  code_address : Addr;
  tx_gas : Z;
  tx_time : Z;
  tx_call : Call;
}.
End Definitions.
Arguments Config Addr A AssetId : clear implicits.
Arguments State Addr G {_ _}.
Arguments Call Addr : clear implicits.
Arguments Tx Addr : clear implicits.

Section Runs.
Context {Addr A AssetId G Ex Fa : Type} `{Countable Addr} `{EqDecision A} `{EqDecision AssetId}.
Context `{GasMeter G Addr Ex} `{AssetsPallet G AssetId A}.
Context `{Dispatcher G A (AssetsCall AssetId A) Ex Fa}.
Context `{AccountIdAssetIdConversion A AssetId}.
Context (T : Config Addr A AssetId).

Abbreviation St := (State Addr G).

Definition dispatch (asset_id : AssetId) (tx : Tx Addr) : M St (PrecompileFailure Ex Fa) unit :=
  let context := tx_context tx in
  match tx_call tx with
  | approve_call spender value => _ ← approve T asset_id context spender value; mret tt
  | transfer_call to value => _ ← transfer T asset_id context to value; mret tt
  | transfer_from_call from to value => _ ← transfer_from T asset_id context from to value; mret tt
  | permit_call owner spender value deadline v r s =>
      permit T asset_id (code_address tx) (tx_time tx) owner spender value deadline v r s
  end.

(** The routing of the precompile set: an address that is no asset's contract has no
    code here; the effect of errors is dropped by the EVM. *)
Definition route (s : St) (tx : Tx Addr) : option AssetId :=
  match discriminant T (code_address tx) (tx_gas tx) (env s) with
  | DSome id _ => Some id
  | _ => None
  end.

Definition run (asset_id : AssetId) (tx : Tx Addr) : M St (PrecompileFailure Ex Fa) unit :=
  on_handle (charge (record (Cost (db_read_gas_cost T)))) ;;
  dispatch asset_id tx.

Definition execute (s : St) (tx : Tx Addr) : St :=
  match route s tx with
  | Some id => committed (run id tx) s
  | None => s
  end.

(** The asset whose contract succeeds with this transaction. *)
Definition succeeds (s : St) (tx : Tx Addr) : option AssetId :=
  id ← route s tx;
  match run id tx s with Ok _ _ => Some id | _ => None end.

(** ** The ERC-20 standard's allowances, as a specification

    [approve] and [permit] set an allowance, [transferFrom] spends one. *)
Definition Allowances : Type := AssetId -> A -> A -> Z.

Definition put_allowance (f : Allowances) (id : AssetId) (o p : A) (v : Z) : Allowances :=
  fun id' o' p' => if decide ((id', o', p') = (id, o, p)) then v else f id' o' p'.

Definition spec_step (id : AssetId) (tx : Tx Addr) (f : Allowances) : Allowances :=
  let caller := into_account_id T (caller (tx_context tx)) in
  match tx_call tx with
  | approve_call spender value =>
      put_allowance f id caller (into_account_id T spender) (Z.min value (umax (balance_bits T)))
  | permit_call owner spender value _ _ _ _ =>
      put_allowance f id (into_account_id T owner) (into_account_id T spender)
        (Z.min value (umax (balance_bits T)))
  | transfer_from_call from _ value =>
      let from := into_account_id T from in
      if decide (caller = from) then f else put_allowance f id from caller (f id from caller - value)
  | transfer_call _ _ => f
  end.

(** The standard's allowances after those of the transactions that succeed. *)
Fixpoint spec_run (s : St) (txs : list (Tx Addr)) (f : Allowances) : Allowances :=
  match txs with
  | [] => f
  | tx :: txs =>
      spec_run (execute s tx) txs
        match succeeds s tx with Some id => spec_step id tx f | None => f end
  end.

(** The transaction acts with the authority of the account [o] itself. *)
Definition acts_as (o : A) (tx : Tx Addr) : Prop :=
  into_account_id T (caller (tx_context tx)) = o \/
  match tx_call tx with
  | permit_call owner _ _ _ _ _ _ => into_account_id T owner = o
  | _ => False
  end.

(** Amounts are [u256]. *)
Definition amounts_ok (tx : Tx Addr) : Prop :=
  match tx_call tx with
  | approve_call _ v | transfer_call _ v | transfer_from_call _ _ v | permit_call _ _ v _ _ _ _ => 0 <= v
  end.
End Runs.

(** ** The documented behaviour of the pallet

    Charging gas and logging leave it alone; [approve_transfer] adds to an approval,
    saturating at the widest balance; a transfer takes its amount from the source, with
    the dust if it leaves less than the minimum, in which case nothing is left. *)
Class AssetsLaws (G Addr A AssetId Ex Fa : Type) `{EqDecision A} `{EqDecision AssetId}
    `{GasMeter G Addr Ex} `{AssetsPallet G AssetId A} `{Dispatcher G A (AssetsCall AssetId A) Ex Fa}
    (widest : Z) : Prop := {
  asset_allowance_nonneg (g : G) (id : AssetId) (o p : A) : 0 <= pallet_allowance g id o p;
  record_assets c (g g' : G) (id : AssetId) (a p : A) :
    record c g = inr g' ->
    balance g' id a = balance g id a /\ pallet_allowance g' id a p = pallet_allowance g id a p;
  record_log_assets l (g g' : G) (id : AssetId) (a p : A) :
    record_log l g = inr g' ->
    balance g' id a = balance g id a /\ pallet_allowance g' id a p = pallet_allowance g id a p;
  dispatch_allowance (o : A) c growth (g g' : G) (id' : AssetId) (o' p' : A) :
    dispatch_with_growth o c growth g = inr g' ->
    pallet_allowance g' id' o' p' =
      match c with
      | cancel_approval id p =>
          if decide ((id', o', p') = (id, o, p)) then 0 else pallet_allowance g id' o' p'
      | approve_transfer id p v =>
          if decide ((id', o', p') = (id, o, p)) then Z.min (pallet_allowance g id o p + v) widest
          else pallet_allowance g id' o' p'
      | assets_transfer _ _ _ => pallet_allowance g id' o' p'
      | transfer_approved id from _ v =>
          if decide ((id', o', p') = (id, from, o)) then pallet_allowance g id from o - v
          else pallet_allowance g id' o' p'
      end;
  dispatch_balance (o : A) c growth (g g' : G) (id' : AssetId) (a : A) :
    dispatch_with_growth o c growth g = inr g' ->
    match c with
    | cancel_approval _ _ | approve_transfer _ _ _ => balance g' id' a = balance g id' a
    | assets_transfer id _ v => (id', a) <> (id, o) -> balance g id' a <= balance g' id' a
    | transfer_approved id from _ v =>
        (id', a) <> (id, from) \/ v = 0 -> balance g id' a <= balance g' id' a
    end;
}.

(** ** Lemmas *)
Section Lemmas.
Context {Addr A AssetId G Ex Fa : Type} `{Countable Addr} `{EqDecision A} `{EqDecision AssetId}.
Context `{GasMeter G Addr Ex} `{AssetsPallet G AssetId A}.
Context `{Dispatcher G A (AssetsCall AssetId A) Ex Fa}.
Context `{AccountIdAssetIdConversion A AssetId}.
Context (T : Config Addr A AssetId).
Context `{Laws : !AssetsLaws G Addr A AssetId Ex Fa (umax (balance_bits T))}.

Abbreviation St := (State Addr G).
Abbreviation allow s := (pallet_allowance (env s)).
Abbreviation bal s := (balance (env s)).
Implicit Types (s : St) (a o p : A) (id : AssetId).

(** Only gas and logs changed. *)
Definition quiet s s' : Prop :=
  Nonces s' = Nonces s /\ (forall id a, bal s' id a = bal s id a) /\
  forall id o p, allow s' id o p = allow s id o p.

#[local] Instance quiet_preorder : PreOrder quiet.
Proof.
  split; [done|]. intros s1 s2 s3 (Hn & Hb & Ha) (Hn' & Hb' & Ha').
  split; [congruence|]. split; intros; [by rewrite Hb', Hb|by rewrite Ha', Ha].
Qed.

Lemma handle_charge_quiet c u s s' :
  on_handle (Ex := Ex) (Fa := Fa) (charge (record c)) s = Ok u s' -> quiet s s'.
Proof.
  intros (g & Hc & ->)%zoom_Ok. apply charge_Ok in Hc.
  split; [done|]. split; [intros id a; apply (record_assets c _ _ id a a Hc)|].
  intros id o p. apply (record_assets c _ _ id o p Hc).
Qed.

Lemma read_db_quiet n u s s' : read_db (Ex := Ex) (Fa := Fa) n s = Ok u s' -> quiet s s'.
Proof. apply handle_charge_quiet. Qed.

Lemma log3_quiet x e f t d u s s' : log3 (Ex := Ex) (Fa := Fa) T x e f t d s = Ok u s' -> quiet s s'.
Proof.
  intros (g & Hc & ->)%zoom_Ok. apply charge_Ok in Hc.
  split; [done|]. split; [intros id a; apply (record_log_assets _ _ _ id a a Hc)|].
  intros id o p. apply (record_log_assets _ _ _ id o p Hc).
Qed.

(** What one dispatched call of the pallet does. *)
Definition dispatched o c s s' : Prop :=
  Nonces s' = Nonces s /\ exists growth, dispatch_with_growth o c growth (env s) = inr (env s').

Lemma on_handle_dispatch o c n u s s' :
  on_handle (try_dispatch (Ex := Ex) (Fa := Fa) o c n) s = Ok u s' -> dispatched o c s s'.
Proof. intros (g & Hc & ->)%zoom_Ok. apply try_dispatch_inr in Hc. split; [done|]. by exists n. Qed.

Lemma amount_min value :
  default (umax (balance_bits T)) (u256_to_amount T value) = Z.min value (umax (balance_bits T)).
Proof. unfold u256_to_amount. destruct (Z.leb_spec value (umax (balance_bits T))); simpl; lia. Qed.

Lemma to_amount_Some value v : u256_to_amount T value = Some v -> v = value.
Proof. unfold u256_to_amount. case_match; by intros [= <-]. Qed.

(** [s'] is [s] with the allowance of [o] for [p] in [id] set to [v]. *)
Definition allowance_set id o p v s s' : Prop :=
  (forall id' a, bal s' id' a = bal s id' a) /\
  forall id' o' p', allow s' id' o' p' = put_allowance (allow s) id o p v id' o' p'.

Lemma approve_inner_Ok id owner spender value u s s' :
  0 <= value -> approve_inner T id owner spender value s = Ok u s' ->
  Nonces s' = Nonces s /\
  allowance_set id (into_account_id T owner) (into_account_id T spender)
    (Z.min value (umax (balance_bits T))) s s'.
Proof.
  intros Hv. unfold approve_inner. rewrite amount_min. intros Hr.
  apply bind_Ok in Hr as ([] & s1 & Hq%read_db_quiet & Hr). destruct Hq as (Hn1 & Hb1 & Ha1).
  apply bind_Ok in Hr as (previous & s1' & Hg & Hr). injection Hg as <- <-.
  apply bind_Ok in Hr as ([] & s2 & Hc & Hr). apply on_handle_dispatch in Hr as (Hn3 & n3 & Hd3).
  set (o := into_account_id T owner) in *. set (p := into_account_id T spender) in *.
  assert (Hcancel : Nonces s2 = Nonces s1 /\ allowance_set id o p 0 s1 s2).
  { unfold when in Hc. destruct (Z.eqb_spec (allow s1 id o p) 0) as [Hz|Hz]; simpl in Hc.
    - injection Hc as <-. split; [done|]. split; [done|]. intros id' o' p'. unfold put_allowance.
      case_decide as Hk; [|done]. by injection Hk as -> -> ->.
    - apply on_handle_dispatch in Hc as (Hn2 & n2 & Hd2). split; [done|]. split.
      + intros id' a. exact (dispatch_balance _ _ _ _ _ id' a Hd2).
      + intros id' o' p'. exact (dispatch_allowance _ _ _ _ _ id' o' p' Hd2). }
  destruct Hcancel as (Hn2 & Hb2 & Ha2). split; [congruence|]. split.
  - intros id' a. pose proof (dispatch_balance _ _ _ _ _ id' a Hd3) as Hb3. simpl in Hb3.
    by rewrite Hb3, Hb2, Hb1.
  - intros id' o' p'. rewrite (dispatch_allowance _ _ _ _ _ id' o' p' Hd3), !Ha2.
    unfold put_allowance. rewrite (decide_True (P := (id, o, p) = (id, o, p))) by done.
    case_decide; [simpl; lia|by rewrite Ha1].
Qed.

Lemma asset_approve_Ok id ctx spender value b s s' :
  0 <= value -> approve T id ctx spender value s = Ok b s' ->
  Nonces s' = Nonces s /\
  allowance_set id (into_account_id T (caller ctx)) (into_account_id T spender)
    (Z.min value (umax (balance_bits T))) s s'.
Proof.
  intros Hv. unfold approve. intros Hr.
  apply bind_Ok in Hr as ([] & s1 & Hq1%handle_charge_quiet & Hr).
  apply bind_Ok in Hr as ([] & s2 & Hi & Hr). apply approve_inner_Ok in Hi as (Hn & Hb & Ha); [|done].
  apply bind_Ok in Hr as ([] & s3 & Hq3%log3_quiet & Hr). injection Hr as _ <-.
  destruct Hq1 as (Hn1 & Hb1 & Ha1), Hq3 as (Hn3 & Hb3 & Ha3).
  split; [congruence|]. split; intros; [by rewrite Hb3, Hb, Hb1|].
  rewrite Ha3, Ha. unfold put_allowance. by case_decide.
Qed.

(** A transfer: the call dispatched between charges and logs. *)
Lemma asset_transfer_Ok id ctx to value b s s' :
  transfer T id ctx to value s = Ok b s' ->
  exists s1 s2, quiet s s1 /\ quiet s2 s' /\
    dispatched (into_account_id T (caller ctx)) (assets_transfer id (into_account_id T to) value) s1 s2.
Proof.
  unfold transfer. intros Hr.
  apply bind_Ok in Hr as ([] & s1 & Hq1%handle_charge_quiet & Hr).
  apply bind_Ok in Hr as (v & s1' & Hv & Hr). unfold ok_or in Hv.
  destruct (u256_to_amount T value) eqn:Hu; [|done]. apply to_amount_Some in Hu as ->.
  injection Hv as <- <-. apply bind_Ok in Hr as ([] & s2 & Hd%on_handle_dispatch & Hr).
  apply bind_Ok in Hr as ([] & s3 & Hq3%log3_quiet & Hr). injection Hr as _ <-. eauto.
Qed.

Lemma asset_transfer_from_Ok id ctx from to value b s s' :
  transfer_from T id ctx from to value s = Ok b s' ->
  let caller := into_account_id T (caller ctx) in
  let from := into_account_id T from in
  exists s1 s2, quiet s s1 /\ quiet s2 s' /\
    if decide (caller = from)
    then dispatched from (assets_transfer id (into_account_id T to) value) s1 s2
    else dispatched caller (transfer_approved id from (into_account_id T to) value) s1 s2.
Proof.
  unfold transfer_from. intros Hr.
  apply bind_Ok in Hr as ([] & s1 & Hq1%handle_charge_quiet & Hr).
  apply bind_Ok in Hr as (v & s1' & Hv & Hr). unfold ok_or in Hv.
  destruct (u256_to_amount T value) eqn:Hu; [|done]. apply to_amount_Some in Hu as ->.
  injection Hv as <- <-. apply bind_Ok in Hr as ([] & s2 & Hd & Hr).
  apply bind_Ok in Hr as ([] & s3 & Hq3%log3_quiet & Hr). injection Hr as _ <-.
  exists s1, s2. split; [done|]. split; [done|].
  case_bool_decide; [rewrite decide_True by done|rewrite decide_False by done];
    by apply on_handle_dispatch in Hd.
Qed.

Lemma asset_permit_Ok id x now owner spender value deadline v r sg u s s' :
  0 <= value -> permit T id x now owner spender value deadline v r sg s = Ok u s' ->
  now / 1000 <= deadline /\ owner <> zero_address T /\
  (exists g, recover T v r sg (generate_permit T id g x owner spender value (get_nonce x owner s) deadline)
     = Some owner) /\
  Nonces s' = <[(x, owner) := get_nonce x owner s + 1]> (Nonces s) /\
  allowance_set id (into_account_id T owner) (into_account_id T spender)
    (Z.min value (umax (balance_bits T))) s s'.
Proof.
  intros Hv. unfold permit. intros Hr.
  apply bind_Ok in Hr as ([] & s1 & Hq1%read_db_quiet & Hr).
  apply bind_Ok in Hr as ([] & s1a & Ht & Hr). unfold ensure in Ht.
  destruct (Z.leb_spec (now / 1000) deadline); [|done]. injection Ht as <-.
  apply bind_Ok in Hr as (n & s1b & Hn & Hr). injection Hn as <- <-.
  apply bind_Ok in Hr as (g & s1c & Hg & Hr). injection Hg as <- <-.
  apply bind_Ok in Hr as (signer & s1d & Hs & Hr). unfold ok_or in Hs.
  destruct (recover _ _ _ _ _) as [signer'|] eqn:Hrec; [|done]. injection Hs as -> <-.
  apply bind_Ok in Hr as ([] & s1e & He & Hr). unfold ensure in He.
  destruct (negb _ && _) eqn:Hsig; [|done]. injection He as <-. bool_to_prop. subst signer.
  apply bind_Ok in Hr as (next & s1f & Hx & Hr). unfold expect in Hx.
  destruct (checked_add 256 _ 1) as [next'|] eqn:Hc; [|done]. injection Hx as -> <-.
  apply checked_add_Some in Hc as [-> _].
  apply bind_Ok in Hr as ([] & s2 & Hm & Hr). injection Hm as <-.
  apply bind_Ok in Hr as ([] & s3 & Hi & Hr). apply approve_inner_Ok in Hi as (Hn3 & Hb3 & Ha3); [|done].
  apply log3_quiet in Hr as (Hn4 & Hb4 & Ha4). destruct Hq1 as (Hn1 & Hb1 & Ha1).
  assert (Hnonce : get_nonce x owner s1 = get_nonce x owner s) by (unfold get_nonce; by rewrite Hn1).
  split; [done|]. split; [done|]. split; [exists (env s1); by rewrite <- Hnonce|].
  split; [rewrite Hn4, Hn3; simpl; by rewrite Hn1, Hnonce|].
  split; intros; [by rewrite Hb4, Hb3; simpl|].
  rewrite Ha4, Ha3. unfold put_allowance. simpl. by case_decide.
Qed.
End Lemmas.

(** ** Properties *)
Section Properties.
Context {Addr A AssetId G Ex Fa : Type} `{Countable Addr} `{EqDecision A} `{EqDecision AssetId}.
Context `{GasMeter G Addr Ex} `{AssetsPallet G AssetId A}.
Context `{Dispatcher G A (AssetsCall AssetId A) Ex Fa}.
Context `{AccountIdAssetIdConversion A AssetId}.
Context (T : Config Addr A AssetId).
Context `{Laws : !AssetsLaws G Addr A AssetId Ex Fa (umax (balance_bits T))}.

Abbreviation St := (State Addr G).
Abbreviation allow s := (pallet_allowance (env s)).
Abbreviation bal s := (balance (env s)).
Abbreviation execute := (execute (Ex := Ex) (Fa := Fa) T).
Abbreviation succeeds := (succeeds (Ex := Ex) (Fa := Fa) T).
Abbreviation spec_run := (spec_run (Ex := Ex) (Fa := Fa) T).
Implicit Types (s : St) (a o p : A) (id : AssetId).

Lemma asset_execute_cases s tx :
  (succeeds s tx = None /\ execute s tx = s) \/
  exists id s1, succeeds s tx = Some id /\ route T s tx = Some id /\ quiet s s1 /\
    dispatch T id tx s1 = Ok tt (execute s tx).
Proof.
  unfold AssetsErc20.succeeds, AssetsErc20.execute. destruct (route T s tx) as [id|] eqn:Hroute; [|by left].
  simpl. unfold committed. destruct (run T id tx s) as [[] s'| |] eqn:Hr; [|by left..].
  right. unfold run in Hr. apply bind_Ok in Hr as ([] & s1 & Hq%(handle_charge_quiet T) & Hr). eauto 10.
Qed.

(** One successful transaction follows the standard. *)
Lemma execute_spec s tx id :
  amounts_ok tx -> succeeds s tx = Some id ->
  forall id' o' p', allow (execute s tx) id' o' p' = spec_step T id tx (allow s) id' o' p'.
Proof.
  intros Hok Hs. destruct (asset_execute_cases s tx) as [[? _]|(id1 & s1 & Hs' & _ & Hq & Hd)]; [congruence|].
  assert (id1 = id) as -> by congruence. clear Hs Hs'.
  destruct Hq as (_ & _ & Ha1). unfold dispatch in Hd. unfold amounts_ok in Hok. unfold spec_step.
  intros id' o' p'. destruct (tx_call tx) as [sp v|to v|from to v|ow sp v dl sv r sg].
  - apply bind_Ok in Hd as (b & s2 & Hd & Hr). injection Hr as <-.
    apply (asset_approve_Ok T) in Hd as (_ & _ & Ha); [|done]. rewrite Ha. unfold put_allowance. by case_decide.
  - apply bind_Ok in Hd as (b & s2 & Hd & Hr). injection Hr as <-.
    apply (asset_transfer_Ok T) in Hd as (s3 & s4 & (_ & _ & Ha3) & (_ & _ & Ha4) & (_ & n & Hd)).
    by rewrite Ha4, (dispatch_allowance _ _ _ _ _ id' o' p' Hd), Ha3.
  - apply bind_Ok in Hd as (b & s2 & Hd & Hr). injection Hr as <-.
    apply (asset_transfer_from_Ok T) in Hd as (s3 & s4 & (_ & _ & Ha3) & (_ & _ & Ha4) & Hd).
    destruct (decide _); destruct Hd as (_ & growth & Hd);
      rewrite Ha4, (dispatch_allowance _ _ _ _ _ id' o' p' Hd), !Ha3, !Ha1; [done|].
    unfold put_allowance. by case_decide.
  - apply (asset_permit_Ok T) in Hd as (_ & _ & _ & _ & _ & Ha); [|done]. rewrite Ha.
    unfold put_allowance. by case_decide.
Qed.

Lemma spec_step_ext id tx (f g : Allowances) :
  (forall id o p, f id o p = g id o p) ->
  forall id' o' p', spec_step T id tx f id' o' p' = spec_step T id tx g id' o' p'.
Proof.
  intros Hfg id' o' p'. unfold spec_step, put_allowance.
  destruct (tx_call tx); repeat case_decide; by rewrite ?Hfg.
Qed.

(** C22: the allowances are those of the ERC-20 standard: on top of a pallet whose
    approvals only grow, a successful [approve] or [permit] sets exactly its allowance
    (saturated), a successful [transferFrom] by another account spends exactly its
    value, and nothing else, no other asset and no failed call changes any. *)
Theorem allowances_refine_erc20 s (txs : list (Tx Addr)) :
  Forall amounts_ok txs ->
  forall f : Allowances, (forall id o p, allow s id o p = f id o p) ->
  forall id o p, allow (foldl execute s txs) id o p = spec_run s txs f id o p.
Proof.
  intros Htxs. revert s. induction Htxs as [|tx txs Hok _ IH]; intros s f Hf id o p; [apply Hf|].
  cbn [foldl AssetsErc20.spec_run]. apply IH. intros id' o' p'.
  destruct (succeeds s tx) as [id1|] eqn:Hs.
  - rewrite (execute_spec s tx id1 Hok Hs). by apply spec_step_ext.
  - destruct (asset_execute_cases s tx) as [[_ ->]|(? & ? & ? & _)]; [done|congruence].
Qed.

(** One transaction by others and the account of [o] that has granted no allowance. *)
Lemma execute_no_allowance s tx id o :
  amounts_ok tx -> ~ acts_as T o tx -> (forall p, allow s id o p = 0) ->
  (forall p, allow (execute s tx) id o p = 0) /\ bal s id o <= bal (execute s tx) id o.
Proof.
  intros Hok Hno Hz. destruct (asset_execute_cases s tx) as [[_ ->]|(id1 & s1 & Hs & _ & Hq & Hd)]; [done|].
  pose proof (execute_spec s tx id1 Hok Hs) as Hspec.
  assert (Hz' : forall p, allow (execute s tx) id o p <= 0).
  { intros p. rewrite Hspec. unfold spec_step, put_allowance. unfold acts_as in Hno. unfold amounts_ok in Hok.
    destruct (tx_call tx); repeat case_decide; simplify_eq; rewrite ?Hz; try lia; tauto. }
  split; [intros p; pose proof (asset_allowance_nonneg (env (execute s tx)) id o p); specialize (Hz' p); lia|].
  destruct Hq as (_ & Hb1 & Ha1). unfold dispatch in Hd. unfold acts_as in Hno. rewrite <- (Hb1 id o).
  unfold amounts_ok in Hok. destruct (tx_call tx) as [sp v|to v|from to v|ow sp v dl sv r sg].
  - apply bind_Ok in Hd as (b & s2 & Hd & Hr). injection Hr as <-.
    apply (asset_approve_Ok T) in Hd as (_ & Hb & _); [|done]. rewrite Hb. lia.
  - apply bind_Ok in Hd as (b & s2 & Hd & Hr). injection Hr as <-.
    apply (asset_transfer_Ok T) in Hd as (s3 & s4 & (_ & Hb3 & _) & (_ & Hb4 & _) & (_ & n & Hd)).
    pose proof (dispatch_balance _ _ _ _ _ id o Hd) as Hb. simpl in Hb.
    rewrite Hb4, <- Hb3. apply Hb. intros [= _ ->]. tauto.
  - apply bind_Ok in Hd as (b & s2 & Hd & Hr). injection Hr as <-.
    apply (asset_transfer_from_Ok T) in Hd as (s3 & s4 & (_ & Hb3 & Ha3) & (_ & Hb4 & Ha4) & Hd).
    rewrite Hb4, <- Hb3. destruct (decide _) as [Hc|Hc]; destruct Hd as (_ & growth & Hd);
      pose proof (dispatch_balance _ _ _ _ _ id o Hd) as Hb; simpl in Hb; apply Hb.
    + intros [= _ ->]. rewrite Hc in Hno. tauto.
    + destruct (decide ((id, o) = (id1, into_account_id T from))) as [Heq|?]; [right|by left].
      injection Heq as -> ->.
      pose proof (dispatch_allowance _ _ _ _ _ id1 (into_account_id T from)
        (into_account_id T (caller (tx_context tx))) Hd) as Hal.
      simpl in Hal. rewrite decide_True, Ha3, Ha1, Hz in Hal by done.
      pose proof (asset_allowance_nonneg (env s4) id1 (into_account_id T from)
        (into_account_id T (caller (tx_context tx)))). lia.
  - apply (asset_permit_Ok T) in Hd as (_ & _ & _ & _ & Hb & _); [|done]. rewrite Hb. lia.
Qed.

(** An account that has granted no allowance for an asset loses none of it:
    whatever others call on any asset, without a transaction of the account or a permit
    it signed, no allowance of its appears and its balance never falls. *)
Theorem no_allowance_no_loss o id s (txs : list (Tx Addr)) :
  Forall (fun tx => amounts_ok tx /\ ~ acts_as T o tx) txs ->
  (forall p, allow s id o p = 0) ->
  (forall p, allow (foldl execute s txs) id o p = 0) /\ bal s id o <= bal (foldl execute s txs) id o.
Proof.
  intros Htxs. revert s. induction Htxs as [|tx txs [Hok Hno] _ IH]; intros s Hz; [done|].
  destruct (execute_no_allowance s tx id o Hok Hno Hz) as [Hz' Hle].
  destruct (IH _ Hz') as [? ?]. split; [done|]. simpl. lia.
Qed.

(** The permits of [owner] that the contract [x] accepts. *)
Definition accepts_permit x owner s tx : bool :=
  match tx_call tx with
  | permit_call o _ _ _ _ _ _ =>
      bool_decide (is_Some (succeeds s tx)) && bool_decide (code_address tx = x) && bool_decide (o = owner)
  | _ => false
  end.

Lemma asset_execute_nonce x owner s tx :
  amounts_ok tx ->
  get_nonce x owner (execute s tx) = get_nonce x owner s + (if accepts_permit x owner s tx then 1 else 0) /\
  (accepts_permit x owner s tx = true ->
   match tx_call tx with
   | permit_call o spender value deadline v r sg => o = owner /\ code_address tx = x /\
       owner <> zero_address T /\ tx_time tx / 1000 <= deadline /\
       exists id g, recover T v r sg (generate_permit T id g x owner spender value (get_nonce x owner s) deadline)
         = Some owner
   | _ => False
   end).
Proof.
  intros Hok. unfold accepts_permit.
  assert (Hsame : forall s', Nonces s' = Nonces s -> get_nonce x owner s' = get_nonce x owner s + 0)
    by (intros s' Hn; unfold get_nonce; rewrite Hn; lia).
  destruct (asset_execute_cases s tx) as [[-> ->]|(id & s1 & -> & _ & (Hn1 & _) & Hd)].
  { destruct (tx_call tx); rewrite ?bool_decide_false by (by intros []); by split; [apply Hsame|]. }
  unfold dispatch in Hd. unfold amounts_ok in Hok. destruct (tx_call tx) as [sp v|to v|from to v|ow sp v dl sv r sg].
  - split; [|done]. apply Hsame. apply bind_Ok in Hd as (b & s2 & Hd & Hr). injection Hr as <-.
    apply (asset_approve_Ok T) in Hd as (Hn & _); [|done]. congruence.
  - split; [|done]. apply Hsame. apply bind_Ok in Hd as (b & s2 & Hd & Hr). injection Hr as <-.
    apply (asset_transfer_Ok T) in Hd as (s3 & s4 & (Hn3 & _) & (Hn4 & _) & (Hn & _)). congruence.
  - split; [|done]. apply Hsame. apply bind_Ok in Hd as (b & s2 & Hd & Hr). injection Hr as <-.
    apply (asset_transfer_from_Ok T) in Hd as (s3 & s4 & (Hn3 & _) & (Hn4 & _) & Hd).
    destruct (decide _); destruct Hd as (Hn & _); congruence.
  - apply (asset_permit_Ok T) in Hd as (Ht & Hz & (g & Hr) & Hn & _); [|done].
    assert (Hnc : get_nonce (code_address tx) ow s1 = get_nonce (code_address tx) ow s)
      by (unfold get_nonce; by rewrite Hn1).
    rewrite bool_decide_true by eauto. simpl. rewrite Hnc, Hn1 in *.
    split.
    + unfold get_nonce at 1. rewrite Hn. case_bool_decide as Hx; [case_bool_decide as Ho|]; simpl.
      * subst. by rewrite lookup_insert_eq.
      * rewrite lookup_insert_ne by congruence. unfold get_nonce. lia.
      * rewrite lookup_insert_ne by congruence. unfold get_nonce. lia.
    + intros Hh. bool_to_prop. subst. split_and!; eauto.
Qed.

(** Permits are not replayed within a contract: the permits of an owner that a
    contract accepts use up this contract's nonces of the owner one by one, each in
    time and signed by the owner for that contract, its content and its nonce; no
    other call and no other contract touches the nonce. *)
Theorem permits_use_contract_nonces x owner s (txs : list (Tx Addr)) :
  Forall amounts_ok txs ->
  let used := hits execute (get_nonce x owner) (accepts_permit x owner) s txs in
  used.*1 = seqZ (get_nonce x owner s) (Z.of_nat (length used)) /\
  get_nonce x owner (foldl execute s txs) = get_nonce x owner s + Z.of_nat (length used) /\
  Forall (fun '(nonce, tx) => match tx_call tx with
    | permit_call o spender value deadline v r sg => o = owner /\ code_address tx = x /\
        owner <> zero_address T /\ tx_time tx / 1000 <= deadline /\
        exists id g, recover T v r sg (generate_permit T id g x owner spender value nonce deadline) = Some owner
    | _ => False
    end) used.
Proof.
  intros Htxs. apply (hits_consecutive execute (get_nonce x owner) (accepts_permit x owner) amounts_ok);
    [intros s1 tx Hok; apply asset_execute_nonce, Hok| |done].
  intros s1 tx Hok. apply asset_execute_nonce, Hok.
Qed.
End Properties.

(** ** Concrete assets: ids 0 to 9, whose contracts are at 1000 to 1009; addresses are
    accounts, the toy signature of a message is the message and the signer *)
Section Witnesses.
Record Assets := mkAssets {
  gas : Z;
  funds : gmap (Z * Z) Z;
  approvals : gmap (Z * Z * Z) Z;
}.

Definition nat_at {K} `{Countable K} (m : gmap K Z) (k : K) : Z := Z.max 0 (default 0 (m !! k)).

Definition move_funds (g : Assets) (id from to v : Z) : unit + Assets :=
  if (v <? 0) || (nat_at (funds g) (id, from) <? v) then inl tt
  else
    let m := <[(id, from) := nat_at (funds g) (id, from) - v]> (funds g) in
    inr (mkAssets (gas g) (<[(id, to) := nat_at m (id, to) + v]> m) (approvals g)).

Definition put_approval (g : Assets) (k : Z * Z * Z) (v : Z) : Assets :=
  mkAssets (gas g) (funds g) (<[k := v]> (approvals g)).

#[local] Instance assets_meter : GasMeter Assets Z unit := {|
  OutOfGas := tt;
  remaining_gas := gas;
  record c g := match c with
    | DbRead n | Cost n | LogCosts n _ =>
        if n <=? gas g then inr (mkAssets (gas g - n) (funds g) (approvals g)) else inl tt
    end;
  compute_cost _ := None;
  record_log_costs _ g := inr g;
  record_log _ g := inr g;
|}.

#[local] Instance assets_pallet : AssetsPallet Assets Z Z := {|
  maybe_total_supply _ id := if (0 <=? id) && (id <? 10) then Some 0 else None;
  total_issuance _ _ := 0;
  balance g id a := nat_at (funds g) (id, a);
  pallet_allowance g id o p := nat_at (approvals g) (id, o, p);
  asset_name _ id := [id];
  asset_symbol _ id := [id];
  asset_decimals _ _ := 18;
  asset_owner _ _ := None;
  asset_issuer _ _ := None;
  asset_admin _ _ := None;
  asset_freezer _ _ := None;
|}.

#[local] Instance assets_dispatcher : Dispatcher Assets Z (AssetsCall Z Z) unit unit :=
  fun o c _ g => match c with
  | cancel_approval id p => inr (put_approval g (id, o, p) 0)
  | approve_transfer id p v =>
      if v <? 0 then inl (FailRevert [])
      else inr (put_approval g (id, o, p) (Z.min (nat_at (approvals g) (id, o, p) + v) (umax 128)))
  | assets_transfer id to v =>
      match move_funds g id o to v with inl _ => inl (FailRevert []) | inr g => inr g end
  | transfer_approved id from to v =>
      if nat_at (approvals g) (id, from, o) <? v then inl (FailRevert [])
      else match move_funds (put_approval g (id, from, o) (nat_at (approvals g) (id, from, o) - v)) id from to v with
        | inl _ => inl (FailRevert [])
        | inr g => inr g
        end
  end.

#[local] Instance assets_conversion : AccountIdAssetIdConversion Z Z := {|
  account_to_asset_id a := if 1000 <=? a then Some ([], a - 1000) else None;
  asset_id_to_account _ id := 1000 + id;
|}.

Lemma nat_at_insert {K} `{Countable K} (m : gmap K Z) (k k' : K) v :
  0 <= v -> nat_at (<[k := v]> m) k' = if decide (k' = k) then v else nat_at m k'.
Proof.
  intros Hv. unfold nat_at. case_decide; [subst; rewrite lookup_insert_eq; simpl; lia|].
  by rewrite lookup_insert_ne.
Qed.

Lemma nat_at_nonneg {K} `{Countable K} (m : gmap K Z) (k : K) : 0 <= nat_at m k.
Proof. unfold nat_at. lia. Qed.

Lemma move_funds_spec g id from to v g' id' a :
  move_funds g id from to v = inr g' ->
  approvals g' = approvals g /\
  ((id', a) <> (id, from) \/ v = 0 -> nat_at (funds g) (id', a) <= nat_at (funds g') (id', a)).
Proof.
  unfold move_funds. destruct (_ || _) eqn:Hc; [done|]. apply orb_false_iff in Hc as [Hv Hb]. bool_to_prop.
  intros [= <-]. split; [done|]. simpl. intros Hne.
  set (m := <[(id, from) := _]> (funds g)).
  assert (Hm : nat_at (funds g) (id', a) <= nat_at m (id', a)).
  { unfold m. rewrite nat_at_insert by lia. case_decide as Hk; [|done].
    destruct Hne as [?|Hz]; [done|]. rewrite Hk, Hz. lia. }
  rewrite nat_at_insert by (pose proof (nat_at_nonneg m (id, to)); lia).
  case_decide as Hk; [|done]. rewrite Hk in Hm |- *. lia.
Qed.

#[local] Instance assets_laws : AssetsLaws Assets Z Z Z unit unit (umax 128).
Proof.
  split.
  - intros. apply nat_at_nonneg.
  - intros c g g' id a p Hr. destruct c as [n|n|n d]; simpl in Hr; destruct (n <=? gas g); by simplify_eq.
  - intros l g g' id a p Hr. simpl in Hr. injection Hr as <-. done.
  - intros o c growth g g' id' o' p' Hd. unfold dispatch_with_growth, assets_dispatcher in Hd.
    pose proof (nat_at_nonneg (approvals g)) as Hnn. unfold pallet_allowance, assets_pallet.
    destruct c as [id p|id p v|id to v|id from to v].
    + injection Hd as <-. simpl. by rewrite nat_at_insert.
    + destruct (Z.ltb_spec v 0); [done|]. injection Hd as <-. specialize (Hnn (id, o, p)).
      assert (0 <= umax 128) by done. cbn [approvals put_approval]. rewrite nat_at_insert by lia. done.
    + destruct (move_funds _ _ _ _ _) as [|g1] eqn:Hm; [done|]. injection Hd as <-.
      apply (move_funds_spec _ _ _ _ _ _ id' o') in Hm as [-> _]. done.
    + destruct (Z.ltb_spec (nat_at (approvals g) (id, from, o)) v); [done|].
      destruct (move_funds _ _ _ _ _) as [|g1] eqn:Hm; [done|]. injection Hd as <-.
      apply (move_funds_spec _ _ _ _ _ _ id' o') in Hm as [-> _]. cbn [approvals put_approval].
      rewrite nat_at_insert by lia. done.
  - intros o c growth g g' id' a Hd. unfold dispatch_with_growth, assets_dispatcher in Hd.
    unfold balance, assets_pallet. destruct c as [id p|id p v|id to v|id from to v].
    + by injection Hd as <-.
    + destruct (Z.ltb_spec v 0); [done|]. by injection Hd as <-.
    + destruct (move_funds _ _ _ _ _) as [|g1] eqn:Hm; [done|]. injection Hd as <-. intros Hne.
      apply (move_funds_spec _ _ _ _ _ _ id' a) in Hm as [_ Hle]. apply Hle. by left.
    + destruct (Z.ltb_spec (nat_at (approvals g) (id, from, o)) v); [done|].
      destruct (move_funds _ _ _ _ _) as [|g1] eqn:Hm; [done|]. injection Hd as <-. intros Hne.
      by apply (move_funds_spec _ _ _ _ _ _ id' a) in Hm as [_ Hle]; apply Hle.
Qed.

Definition sample_config : Config Z Z Z := {|
  into_account_id a := a;
  into_address a := a;
  display _ := ""%string;
  balance_bits := 128;
  db_read_gas_cost := 100;
  Extra_max_encoded_len := 0;
  StringLimit := 50;
  ChainId := 42;
  revert _ := [];
  too_large _ := [];
  keccak _ := [];
  keccak_256 l := l;
  encode_arguments l := map (fun a => match a with ArgUint n => n | ArgAddress a => a | _ => 0 end) l;
  encode_event_data n := [n];
  address_topic a := [a];
  ecdsa_recover sig message :=
    if bool_decide (take (length message) sig = message) then Some (drop (length message) sig) else None;
  address_of_hash l := hd 0 l;
  zero_address := 0;
|}.

Definition sample_state : State Z Assets :=
  mkState ∅ (mkAssets 100000 {[(3, 7) := 100; (4, 7) := 50]} ∅).

Definition tx_to (contract who : Z) (c : Call Z) : Tx Z := mkTx (mkContext who contract 0) contract 1000 5000 c.

(** Account 7 approves 60 and then 40 of asset 3 for account 8, who spends 30 of it
    and then fails to spend 20 more. *)
Definition sample_txs : list (Tx Z) :=
  [tx_to 1003 7 (approve_call 8 60); tx_to 1003 7 (approve_call 8 40);
   tx_to 1003 8 (transfer_from_call 7 9 30); tx_to 1003 8 (transfer_from_call 7 9 20)].

Lemma allowances_refine_erc20_witness :
  pallet_allowance (env (foldl (execute (Ex := unit) (Fa := unit) sample_config) sample_state sample_txs)) 3 7 8
    = spec_run (Ex := unit) (Fa := unit) sample_config sample_state sample_txs (fun _ _ _ => 0) 3 7 8 /\
  spec_run (Ex := unit) (Fa := unit) sample_config sample_state sample_txs (fun _ _ _ => 0) 3 7 8 = 10.
Proof.
  assert (Ha : Forall amounts_ok sample_txs) by (repeat constructor; unfold amounts_ok; simpl; lia).
  split; [|vm_compute; reflexivity].
  exact (allowances_refine_erc20 (Fa := unit) sample_config sample_state sample_txs Ha (fun _ _ _ => 0)
    (fun _ _ _ => eq_refl) 3 7 8).
Defined.

(** Account 8 tries to spend the funds of 7 in two assets. *)
Lemma no_allowance_no_loss_witness :
  50 <= balance (env (foldl (execute (Ex := unit) (Fa := unit) sample_config) sample_state
    [tx_to 1004 8 (transfer_from_call 7 9 30); tx_to 1004 8 (approve_call 7 10);
     tx_to 1004 9 (transfer_call 7 0)])) 4 7.
Proof.
  assert (Ha : Forall (fun tx => amounts_ok tx /\ ~ acts_as sample_config 7 tx)
    [tx_to 1004 8 (transfer_from_call 7 9 30); tx_to 1004 8 (approve_call 7 10);
     tx_to 1004 9 (transfer_call 7 0)]).
  { repeat constructor; unfold amounts_ok, acts_as; simpl; lia. }
  exact (proj2 (no_allowance_no_loss (Fa := unit) sample_config 7 4 sample_state _ Ha (fun _ => eq_refl))).
Defined.

(** The same permit of account 7 at two contracts, twice at its own. *)
Definition sample_permit : Call Z :=
  permit_call 7 8 60 10 7 (generate_permit sample_config 3 (env sample_state) 1003 7 8 60 0 10) [].

Lemma permits_use_contract_nonces_witness :
  (hits (execute (Ex := unit) (Fa := unit) sample_config) (get_nonce 1003 7)
    (accepts_permit (Ex := unit) (Fa := unit) sample_config 1003 7) sample_state
    [tx_to 1004 9 sample_permit; tx_to 1003 9 sample_permit; tx_to 1003 9 sample_permit]).*1 = [0].
Proof.
  assert (Ha : Forall amounts_ok
    [tx_to 1004 9 sample_permit; tx_to 1003 9 sample_permit; tx_to 1003 9 sample_permit])
    by (repeat constructor; unfold amounts_ok; simpl; lia).
  pose proof (permits_use_contract_nonces (Fa := unit) sample_config 1003 7 sample_state _ Ha) as [Hu _].
  rewrite Hu. vm_compute. reflexivity.
Defined.
End Witnesses.
