(* ===== verification/PalletXcm.v ===== *)
(** * The pallet-xcm precompile ([precompiles/pallet-xcm/src/lib.rs])

    Eight ways to send assets over XCM, each of which prepares one call of
    [pallet_xcm] and dispatches it in the name of the caller.  The dispatch, the
    decoding of XCM messages and the conversion of a list of assets into XCM's sorted
    [Assets] are code outside the repository. *)
From Stdlib Require Import ZArith Lia String.
From Stdlib Require Import Sorted.
From stdpp Require Import countable prelude.
From S2P Require Import Prelude.
From S2P Require Import XcmLocations.
From S2P Require Import Evm.

Local Open Scope Z_scope.

Definition MAX_ASSETS_ARRAY_LIMIT : Z := 2.

Definition XCM_SIZE_LIMIT : Z := 2 ^ 16.

(** [TransferTypeHelper], and [TransferType] of the XCM executor *)
Inductive TransferTypeHelper := HelperTeleport | HelperLocalReserve | HelperDestinationReserve.

Inductive TransferType :=
  | Teleport
  | LocalReserve
  | DestinationReserve
  | RemoteReserve (reserve : Location).

(** A fungible [Asset]: its id and its amount; [WeightLimit]. *)
Definition Asset : Type := Location * Z.

Inductive WeightLimit := Unlimited | Limited (ref_time proof_size : Z).

(** The calls of [pallet_xcm] the precompile dispatches; [Xcm] are decoded messages. *)
Inductive XcmCall (Xcm : Type) :=
  | transfer_assets (dest beneficiary : Location) (assets : list Asset) (fee_asset_item : Z)
      (weight_limit : WeightLimit)
  | transfer_assets_using_type_and_then (dest : Location) (assets : list Asset)
      (assets_transfer_type : TransferType) (remote_fees_id : Location)
      (fees_transfer_type : TransferType) (custom_xcm_on_dest : Xcm) (weight_limit : WeightLimit).
Arguments transfer_assets {Xcm} _ _ _ _ _.
Arguments transfer_assets_using_type_and_then {Xcm} _ _ _ _ _ _ _.

Section Definitions.
Context {Addr A G Ex Fa Xcm : Type}.
Context `{GasMeter G Addr Ex} `{Di : Dispatcher G A (XcmCall Xcm) Ex Fa}.

Record Config := mkConfig {
  into_account_id : Addr -> A;
  (** [Address.0 .0], the bytes of an address *)
  address_bytes : Addr -> list Z;
  LocationMatcher : AccountIdToLocationMatcher G A;
  Location_max_encoded_len : Z;
  (** [Vec<Asset>] into [Assets] *)
  assets_from : list Asset -> list Asset;
  (** [VersionedXcm::<()>::decode_all_with_depth_limit] *)
  decode_xcm : list Z -> option Xcm;
  revert : string -> list Z;
}.

Abbreviation Mo := (M G (PrecompileFailure Ex Fa)).

Context (T : Config).
Context (context : Context Addr).

(** ** Helpers *)

(** The loop of [convert_assets], which pushes on [assets_to_send]. *)
Fixpoint convert_loop (g : G) (assets : list (Addr * Z)) (assets_to_send : list (Location * Z)) :
    option (list (Location * Z)) :=
  match assets with
  | [] => Some assets_to_send
  | asset :: assets =>
      let asset_account := into_account_id T asset.1 in
      match LocationMatcher T g asset_account with
      | Some asset_loc => convert_loop g assets (assets_to_send ++ [(asset_loc, asset.2)])
      | None => None
      end
  end.

Definition convert_assets (assets : list (Addr * Z)) : Mo (list (Location * Z)) :=
  converted ← gets (fun g => convert_loop g assets []);
  ok_or converted (FailRevert (revert T "Asset not found")).

Definition get_assets_to_send_and_remote_fees (assets : list (Location * Z))
    (remote_fees_id_index : option Z) : Mo (list Asset * option Location) :=
  let assets_to_send := assets_from T assets in
  match remote_fees_id_index with
  | Some index =>
      asset ← ok_or (assets_to_send !! Z.to_nat index)
        (FailRevert (revert T "remote_fees_id not found"));
      mret (assets_to_send, Some asset.1)
  | None => mret (assets_to_send, None)
  end.

(** The [Decode] of [TransferTypeHelper]: its discriminant is one byte. *)
Definition decode_helper (transfer_type : Z) : option TransferTypeHelper :=
  if transfer_type =? 0 then Some HelperTeleport
  else if transfer_type =? 1 then Some HelperLocalReserve
  else if transfer_type =? 2 then Some HelperDestinationReserve
  else None.

Definition parse_transfer_type (transfer_type : Z) : Mo TransferType :=
  helper ← ok_or (decode_helper transfer_type)
    (FailRevert (revert T "Failed decoding value for TransferTypeHelper"));
  mret match helper with
    | HelperTeleport => Teleport
    | HelperLocalReserve => LocalReserve
    | HelperDestinationReserve => DestinationReserve
    end.

(** ** Entry points; [origin] is the caller's account *)
Definition origin : A := into_account_id T (caller context).

Definition transfer_assets_location (dest beneficiary : Location) (assets : list (Location * Z))
    (fee_asset_item : Z) : Mo unit :=
  charge (record (Cost 1000)) ;;
  '(assets_to_send, _) ← get_assets_to_send_and_remote_fees assets None;
  try_dispatch origin (transfer_assets dest beneficiary assets_to_send fee_asset_item Unlimited) 0.

Definition transfer_assets_to_para_20 (para_id : Z) (beneficiary : Addr) (assets : list (Addr * Z))
    (fee_asset_item : Z) : Mo unit :=
  charge (record (DbRead (32 + Location_max_encoded_len T))) ;;
  charge (record (Cost 1000)) ;;
  assets_converted ← convert_assets assets;
  '(assets_to_send, _) ← get_assets_to_send_and_remote_fees assets_converted None;
  let dest := XcmSiblingDestinationGenerator para_id in
  let beneficiary := XcmLocalBeneficiary20Generator (address_bytes T beneficiary) in
  try_dispatch origin (transfer_assets dest beneficiary assets_to_send fee_asset_item Unlimited) 0.

Definition transfer_assets_to_para_32 (para_id : Z) (beneficiary : list Z) (assets : list (Addr * Z))
    (fee_asset_item : Z) : Mo unit :=
  charge (record (DbRead (32 + Location_max_encoded_len T))) ;;
  charge (record (Cost 1000)) ;;
  assets_converted ← convert_assets assets;
  '(assets_to_send, _) ← get_assets_to_send_and_remote_fees assets_converted None;
  let dest := XcmSiblingDestinationGenerator para_id in
  let beneficiary := XcmLocalBeneficiary32Generator beneficiary in
  try_dispatch origin (transfer_assets dest beneficiary assets_to_send fee_asset_item Unlimited) 0.

Definition transfer_assets_to_relay (beneficiary : list Z) (assets : list (Addr * Z))
    (fee_asset_item : Z) : Mo unit :=
  charge (record (DbRead (32 + Location_max_encoded_len T))) ;;
  charge (record (Cost 1000)) ;;
  assets_converted ← convert_assets assets;
  '(assets_to_send, _) ← get_assets_to_send_and_remote_fees assets_converted None;
  let dest := location_parent in
  let beneficiary := XcmLocalBeneficiary32Generator beneficiary in
  try_dispatch origin (transfer_assets dest beneficiary assets_to_send fee_asset_item Unlimited) 0.

Definition transfer_assets_using_type_and_then_location_no_remote_reserve (dest : Location)
    (assets : list (Location * Z)) (assets_transfer_type remote_fees_id_index fees_transfer_type : Z)
    (custom_xcm_on_dest : list Z) : Mo unit :=
  charge (record (Cost 1000)) ;;
  '(assets_to_send, remote_fees_id) ←
    get_assets_to_send_and_remote_fees assets (Some remote_fees_id_index);
  remote_fees_id ← ok_or remote_fees_id (FailRevert (revert T "remote_fees_id not found"));
  assets_transfer_type ← parse_transfer_type assets_transfer_type;
  fees_transfer_type ← parse_transfer_type fees_transfer_type;
  custom_xcm_on_dest ← ok_or (decode_xcm T custom_xcm_on_dest)
    (FailRevert (revert T "Failed decoding custom XCM message"));
  try_dispatch origin (transfer_assets_using_type_and_then dest assets_to_send assets_transfer_type
    remote_fees_id fees_transfer_type custom_xcm_on_dest Unlimited) 0.

Definition transfer_assets_using_type_and_then_location_remote_reserve (dest : Location)
    (assets : list (Location * Z)) (remote_fees_id_index : Z) (custom_xcm_on_dest : list Z)
    (remote_reserve : Location) : Mo unit :=
  charge (record (Cost 1000)) ;;
  '(assets_to_send, remote_fees_id) ←
    get_assets_to_send_and_remote_fees assets (Some remote_fees_id_index);
  remote_fees_id ← ok_or remote_fees_id (FailRevert (revert T "remote_fees_id not found"));
  custom_xcm_on_dest ← ok_or (decode_xcm T custom_xcm_on_dest)
    (FailRevert (revert T "Failed decoding custom XCM message"));
  let asset_and_fees_transfer_type := RemoteReserve remote_reserve in
  try_dispatch origin (transfer_assets_using_type_and_then dest assets_to_send
    asset_and_fees_transfer_type remote_fees_id asset_and_fees_transfer_type custom_xcm_on_dest
    Unlimited) 0.

Definition transfer_assets_using_type_and_then_address_no_remote_reserve (dest : Location)
    (assets : list (Addr * Z)) (assets_transfer_type remote_fees_id_index fees_transfer_type : Z)
    (custom_xcm_on_dest : list Z) : Mo unit :=
  charge (record (DbRead (32 + Location_max_encoded_len T))) ;;
  charge (record (Cost 1000)) ;;
  assets_converted ← convert_assets assets;
  '(assets_to_send, remote_fees_id) ←
    get_assets_to_send_and_remote_fees assets_converted (Some remote_fees_id_index);
  remote_fees_id ← ok_or remote_fees_id (FailRevert (revert T "remote_fees_id not found"));
  assets_transfer_type ← parse_transfer_type assets_transfer_type;
  fees_transfer_type ← parse_transfer_type fees_transfer_type;
  custom_xcm_on_dest ← ok_or (decode_xcm T custom_xcm_on_dest)
    (FailRevert (revert T "Failed decoding custom XCM message"));
  try_dispatch origin (transfer_assets_using_type_and_then dest assets_to_send assets_transfer_type
    remote_fees_id fees_transfer_type custom_xcm_on_dest Unlimited) 0.

Definition transfer_assets_using_type_and_then_address_remote_reserve (dest : Location)
    (assets : list (Addr * Z)) (remote_fees_id_index : Z) (custom_xcm_on_dest : list Z)
    (remote_reserve : Location) : Mo unit :=
  charge (record (DbRead (32 + Location_max_encoded_len T))) ;;
  charge (record (Cost 1000)) ;;
  assets_converted ← convert_assets assets;
  '(assets_to_send, remote_fees_id) ←
    get_assets_to_send_and_remote_fees assets_converted (Some remote_fees_id_index);
  remote_fees_id ← ok_or remote_fees_id (FailRevert (revert T "remote_fees_id not found"));
  custom_xcm_on_dest ← ok_or (decode_xcm T custom_xcm_on_dest)
    (FailRevert (revert T "Failed decoding custom XCM message"));
  let asset_and_fees_transfer_type := RemoteReserve remote_reserve in
  try_dispatch origin (transfer_assets_using_type_and_then dest assets_to_send
    asset_and_fees_transfer_type remote_fees_id asset_and_fees_transfer_type custom_xcm_on_dest
    Unlimited) 0.
End Definitions.
Arguments Config Addr A G Xcm : clear implicits.

(** The calls of the precompile. *)
Inductive Call (Addr : Type) :=
  | assets_location_call (dest beneficiary : Location) (assets : list (Location * Z)) (fee_asset_item : Z)
  | para_20_call (para_id : Z) (beneficiary : Addr) (assets : list (Addr * Z)) (fee_asset_item : Z)
  | para_32_call (para_id : Z) (beneficiary : list Z) (assets : list (Addr * Z)) (fee_asset_item : Z)
  | relay_call (beneficiary : list Z) (assets : list (Addr * Z)) (fee_asset_item : Z)
  | type_location_call (dest : Location) (assets : list (Location * Z))
      (assets_transfer_type remote_fees_id_index fees_transfer_type : Z) (custom_xcm_on_dest : list Z)
  | reserve_location_call (dest : Location) (assets : list (Location * Z)) (remote_fees_id_index : Z)
      (custom_xcm_on_dest : list Z) (remote_reserve : Location)
  | type_address_call (dest : Location) (assets : list (Addr * Z))
      (assets_transfer_type remote_fees_id_index fees_transfer_type : Z) (custom_xcm_on_dest : list Z)
  | reserve_address_call (dest : Location) (assets : list (Addr * Z)) (remote_fees_id_index : Z)
      (custom_xcm_on_dest : list Z) (remote_reserve : Location).
Arguments assets_location_call {Addr} _ _ _ _.
Arguments para_20_call {Addr} _ _ _ _.
Arguments para_32_call {Addr} _ _ _ _.
Arguments relay_call {Addr} _ _ _.
Arguments type_location_call {Addr} _ _ _ _ _ _.
Arguments reserve_location_call {Addr} _ _ _ _ _.
Arguments type_address_call {Addr} _ _ _ _ _ _.
Arguments reserve_address_call {Addr} _ _ _ _ _.

Section Specification.
Context {Addr A G Ex Fa Xcm : Type}.
Context `{GasMeter G Addr Ex} `{Di : Dispatcher G A (XcmCall Xcm) Ex Fa}.
Context (T : Config Addr A G Xcm).

Definition dispatch (ctx : Context Addr) (c : Call Addr) : M G (PrecompileFailure Ex Fa) unit :=
  match c with
  | assets_location_call dest ben assets item => transfer_assets_location T ctx dest ben assets item
  | para_20_call para ben assets item => transfer_assets_to_para_20 T ctx para ben assets item
  | para_32_call para ben assets item => transfer_assets_to_para_32 T ctx para ben assets item
  | relay_call ben assets item => transfer_assets_to_relay T ctx ben assets item
  | type_location_call dest assets ta i tf xcm =>
      transfer_assets_using_type_and_then_location_no_remote_reserve T ctx dest assets ta i tf xcm
  | reserve_location_call dest assets i xcm r =>
      transfer_assets_using_type_and_then_location_remote_reserve T ctx dest assets i xcm r
  | type_address_call dest assets ta i tf xcm =>
      transfer_assets_using_type_and_then_address_no_remote_reserve T ctx dest assets ta i tf xcm
  | reserve_address_call dest assets i xcm r =>
      transfer_assets_using_type_and_then_address_remote_reserve T ctx dest assets i xcm r
  end.

(** ** A reference for all entry points

    What a call names: its assets by address or by location; a beneficiary and the item
    of the fee, or the index of the fee, the types of the transfers and a message. *)
Definition named (c : Call Addr) : list (Addr * Z) + list (Location * Z) :=
  match c with
  | para_20_call _ _ assets _ | para_32_call _ _ assets _ | relay_call _ assets _
  | type_address_call _ assets _ _ _ _ | reserve_address_call _ assets _ _ _ => inl assets
  | assets_location_call _ _ assets _ | type_location_call _ assets _ _ _ _
  | reserve_location_call _ assets _ _ _ => inr assets
  end.

Definition destination (c : Call Addr) : Location :=
  match c with
  | para_20_call para _ _ _ | para_32_call para _ _ _ => mkLocation 1 [Parachain para]
  | relay_call _ _ _ => mkLocation 1 []
  | assets_location_call dest _ _ _ | type_location_call dest _ _ _ _ _
  | reserve_location_call dest _ _ _ _ | type_address_call dest _ _ _ _ _
  | reserve_address_call dest _ _ _ _ => dest
  end.

(** The type that a number stands for, which is never a remote reserve. *)
Definition numbered_type (n : Z) : option TransferType :=
  match n with 0 => Some Teleport | 1 => Some LocalReserve | 2 => Some DestinationReserve | _ => None end.

Definition terms (c : Call Addr) :
    (Location * Z) + (Z * option TransferType * option TransferType * list Z) :=
  match c with
  | assets_location_call _ ben _ item => inl (ben, item)
  | para_20_call _ ben _ item => inl (mkLocation 0 [AccountKey20 None (address_bytes T ben)], item)
  | para_32_call _ ben _ item | relay_call ben _ item => inl (mkLocation 0 [AccountId32 None ben], item)
  | type_location_call _ _ ta i tf xcm | type_address_call _ _ ta i tf xcm =>
      inr (i, numbered_type ta, numbered_type tf, xcm)
  | reserve_location_call _ _ i xcm r | reserve_address_call _ _ i xcm r =>
      inr (i, Some (RemoteReserve r), Some (RemoteReserve r), xcm)
  end.

(** The assets by location: every address must have one. *)
Definition located (g : G) (c : Call Addr) : option (list (Location * Z)) :=
  match named c with
  | inl assets => mapM (fun '(a, n) => l ← LocationMatcher T g (into_account_id T a); Some (l, n)) assets
  | inr assets => Some assets
  end.

(** The call of [pallet_xcm], or the reason why there is none. *)
Definition prepared (g : G) (c : Call Addr) : string + XcmCall Xcm :=
  match located g c with
  | None => inl "Asset not found"%string
  | Some assets =>
      let sent := assets_from T assets in
      match terms c with
      | inl (beneficiary, item) => inr (transfer_assets (destination c) beneficiary sent item Unlimited)
      | inr (i, ta, tf, bytes) =>
          match sent !! Z.to_nat i, ta, tf, decode_xcm T bytes with
          | None, _, _, _ => inl "remote_fees_id not found"%string
          | _, None, _, _ | _, _, None, _ => inl "Failed decoding value for TransferTypeHelper"%string
          | _, _, _, None => inl "Failed decoding custom XCM message"%string
          | Some fee, Some ta, Some tf, Some xcm =>
              inr (transfer_assets_using_type_and_then (destination c) sent ta fee.1 tf xcm Unlimited)
          end
      end
  end.

(** The gas paid for the preparation. *)
Definition charged (c : Call Addr) : M G (PrecompileFailure Ex Fa) unit :=
  match named c with
  | inl _ => charge (record (DbRead (32 + Location_max_encoded_len T)))
  | inr _ => mret tt
  end ;;
  charge (record (Cost 1000)).

(** The assets of a call of [pallet_xcm], the amount of a location in a list. *)
Definition assets_of (call : XcmCall Xcm) : list Asset :=
  match call with
  | transfer_assets _ _ assets _ _ => assets
  | transfer_assets_using_type_and_then _ assets _ _ _ _ _ => assets
  end.

Definition types_of (call : XcmCall Xcm) : list TransferType :=
  match call with
  | transfer_assets _ _ _ _ _ => []
  | transfer_assets_using_type_and_then _ _ ta _ tf _ _ => [ta; tf]
  end.
End Specification.

Definition amount_of (l : Location) (assets : list Asset) : Z :=
  foldr (fun x n => (if decide (x.1 = l) then x.2 else 0) + n) 0 assets.

(** Amounts are [u128]. *)
Definition amounts_fit (assets : list Asset) : Prop := Forall (fun x => fits 128 x.2) assets.

(** The documented conversion into [Assets]: every location once, with the sum of its
    amounts (saturated at [u128::MAX]), sorted; strictly sorted lists stay. *)
Class AssetsFromLaws (assets_from : list Asset -> list Asset) (lt : relation Location) : Prop := {
  assets_from_amount l assets :
    amounts_fit assets -> amount_of l (assets_from assets) = Z.min (amount_of l assets) (umax 128);
  assets_from_nodup assets : NoDup (assets_from assets).*1;
  assets_from_sorted assets :
    amounts_fit assets -> StronglySorted lt assets.*1 -> assets_from assets = assets;
}.

(** ** Properties *)
Section Properties.
Context {Addr A G Ex Fa Xcm : Type}.
Context `{GasMeter G Addr Ex}.
Context (T : Config Addr A G Xcm).

Lemma convert_loop_mapM g (assets : list (Addr * Z)) pushed :
  convert_loop T g assets pushed =
    (app pushed) <$> mapM (fun '(a, n) => l ← LocationMatcher T g (into_account_id T a); Some (l, n)) assets.
Proof.
  revert pushed. induction assets as [|[a n] assets IH]; intros pushed; simpl; [by rewrite app_nil_r|].
  destruct (LocationMatcher T g (into_account_id T a)) as [l|]; [|done]. simpl. rewrite IH.
  destruct (mapM _ assets); simpl; [|done]. by rewrite <- app_assoc.
Qed.

Lemma decode_helper_type n :
  match decode_helper n with
  | Some HelperTeleport => Some Teleport
  | Some HelperLocalReserve => Some LocalReserve
  | Some HelperDestinationReserve => Some DestinationReserve
  | None => None
  end = numbered_type n.
Proof.
  unfold decode_helper, numbered_type.
  destruct n as [|p|p]; [done| |done]. do 2 (destruct p as [p|p|]; try done).
Qed.

Lemma bind_eq {S E B C} (m : M S E B) (k : B -> M S E C) s :
  (m ≫= k) s = match m s with Ok b s' => k b s' | Err e s' => Err e s' | Panic => Panic end.
Proof. done. Qed.

Lemma mret_bind {S E B C} (b : B) (k : B -> M S E C) s : (mret b ≫= k) s = k b s.
Proof. done. Qed.

Lemma ok_or_bind {S E B C} (o : option B) (e : E) (k : B -> M S E C) s :
  (ok_or o e ≫= k) s = match o with Some b => k b s | None => Err e s end.
Proof. by destruct o. Qed.

(** The helpers in front of the rest [k] of an entry point. *)
Section Helpers.
Context {B : Type}.

Lemma parse_bind n (k : TransferType -> M G (PrecompileFailure Ex Fa) B) g :
  (parse_transfer_type T n ≫= k) g =
    match numbered_type n with
    | Some t => k t g
    | None => Err (FailRevert (revert T "Failed decoding value for TransferTypeHelper")) g
    end.
Proof.
  rewrite <- decode_helper_type. unfold parse_transfer_type, mbind, M_bind, ok_or, mret, M_ret.
  by destruct (decode_helper n) as [[]|].
Qed.

Lemma convert_bind assets (k : list (Location * Z) -> M G (PrecompileFailure Ex Fa) B) g :
  (convert_assets T assets ≫= k) g =
    match mapM (fun '(a, n) => l ← LocationMatcher T g (into_account_id T a); Some (l, n)) assets with
    | Some l => k l g
    | None => Err (FailRevert (revert T "Asset not found")) g
    end.
Proof.
  unfold convert_assets, mbind, M_bind, gets, ok_or. rewrite convert_loop_mapM.
  by destruct (mapM _ assets).
Qed.

Lemma fees_bind assets i (k : list Asset * option Location -> M G (PrecompileFailure Ex Fa) B) g :
  (get_assets_to_send_and_remote_fees T assets (Some i) ≫= k) g =
    match assets_from T assets !! Z.to_nat i with
    | Some fee => k (assets_from T assets, Some fee.1) g
    | None => Err (FailRevert (revert T "remote_fees_id not found")) g
    end.
Proof.
  unfold get_assets_to_send_and_remote_fees, mbind, M_bind, ok_or.
  by destruct (assets_from T assets !! Z.to_nat i).
Qed.

Lemma no_fees_bind assets (k : list Asset * option Location -> M G (PrecompileFailure Ex Fa) B) g :
  (get_assets_to_send_and_remote_fees T assets None ≫= k) g = k (assets_from T assets, None) g.
Proof. done. Qed.
End Helpers.

(** Every entry point is its charges followed by the prepared call. *)
Lemma dispatch_prepared `{Di : !Dispatcher G A (XcmCall Xcm) Ex Fa} ctx c g :
  dispatch T ctx c g =
    match charged (Fa := Fa) T c g with
    | Ok _ g1 =>
        match prepared T g1 c with
        | inl reason => Err (FailRevert (revert T reason)) g1
        | inr call => try_dispatch (into_account_id T (caller ctx)) call 0 g1
        end
    | Err e g1 => Err e g1
    | Panic => Panic
    end.
Proof.
  unfold charged, prepared, located.
  destruct c; cbn [dispatch named terms destination];
    unfold transfer_assets_location, transfer_assets_to_para_20, transfer_assets_to_para_32,
      transfer_assets_to_relay, transfer_assets_using_type_and_then_location_no_remote_reserve,
      transfer_assets_using_type_and_then_location_remote_reserve,
      transfer_assets_using_type_and_then_address_no_remote_reserve,
      transfer_assets_using_type_and_then_address_remote_reserve;
    repeat (rewrite ?(bind_eq (charge _)), ?mret_bind;
      match goal with |- context [charge ?op ?x] => destruct (charge op x) as [[] ?| |] end;
      try done; cbn beta iota);
    rewrite ?convert_bind;
    repeat match goal with |- context [mapM ?f ?l] => destruct (mapM f l); [|done] end;
    rewrite ?no_fees_bind, ?fees_bind; try done;
    match goal with |- context [?l !! ?i] => destruct (l !! i) as [fee|]; [|done] end;
    rewrite ok_or_bind, ?parse_bind;
    repeat match goal with |- context [numbered_type ?n] =>
      destruct (numbered_type n); rewrite ?parse_bind; [|done] end;
    rewrite ok_or_bind; by destruct (decode_xcm _ _).
Qed.

Lemma charge_total (op : G -> Ex + G) g : charge (Fa := Fa) op g <> Panic.
Proof. unfold charge. by destruct (op g). Qed.

Lemma charged_total c g : charged (Fa := Fa) T c g <> Panic.
Proof.
  unfold charged. destruct (named c); rewrite ?mret_bind, ?bind_eq.
  - pose proof (charge_total (record (DbRead (32 + Location_max_encoded_len T))) g).
    destruct (charge _ g); [apply charge_total|done..].
  - apply charge_total.
Qed.

(** All eight entry points do what one reference says, and never panic: when the
    gas of the preparation cannot be paid they fail with that error; otherwise they
    revert with the first reason there is and dispatch nothing, or they dispatch exactly
    the prepared call in the name of the caller and return what the dispatch returns. *)
Theorem one_prepared_call `{Di : !Dispatcher G A (XcmCall Xcm) Ex Fa} ctx c g :
  match charged (Fa := Fa) T c g with
  | Ok _ g1 =>
      match prepared T g1 c with
      | inl reason => dispatch T ctx c g = Err (FailRevert (revert T reason)) g1
      | inr call =>
          dispatch T ctx c g =
            match dispatch_with_growth (into_account_id T (caller ctx)) call 0 g1 with
            | inl e => Err e g1
            | inr g2 => Ok tt g2
            end
      end
  | Err e g1 => dispatch T ctx c g = Err e g1
  | Panic => False
  end.
Proof.
  rewrite dispatch_prepared. pose proof (charged_total c g).
  destruct (charged T c g) as [[] g1| |]; [|done..]. by destruct (prepared T g1 c).
Qed.

(** The matcher does not depend on gas. *)
Context (matcher_gas : forall c g g' a, record c g = inr g' -> LocationMatcher T g' a = LocationMatcher T g a).

Lemma charged_located c g u g1 :
  charged (Fa := Fa) T c g = Ok u g1 -> located T g1 c = located T g c.
Proof.
  intros Hc. assert (Hm : forall a, LocationMatcher T g1 a = LocationMatcher T g a).
  { intros a. unfold charged in Hc. destruct (named c); inv_evm;
      repeat match goal with Hr : record _ _ = inr _ |- _ => apply (matcher_gas _ _ _ a) in Hr end; congruence. }
  unfold located. destruct (named c) as [assets|]; [|done]. induction assets as [|[x n] assets IH]; [done|].
  simpl. by rewrite Hm, IH.
Qed.

(** What a successful call dispatched. *)
Lemma xcm_dispatch_Ok `{Di : !Dispatcher G A (XcmCall Xcm) Ex Fa} ctx c g u g' :
  dispatch T ctx c g = Ok u g' ->
  exists g1 call, prepared T g1 c = inr call /\ located T g1 c = located T g c /\
    dispatch_with_growth (into_account_id T (caller ctx)) call 0 g1 = inr g'.
Proof.
  rewrite dispatch_prepared. destruct (charged T c g) as [[] g1| |] eqn:Hc; [|done..].
  apply charged_located in Hc as Hl.
  destruct (prepared T g1 c) as [|call] eqn:Hp; [done|]. intros Hd%try_dispatch_inr. eauto.
Qed.

Context (lt : relation Location) `{Laws : !AssetsFromLaws (assets_from T) lt}.

(** C23: what is sent is what was named: a successful call dispatched, to the named
    destination and without a weight limit, for every location exactly the (saturated)
    sum of the amounts that were named for it, by location or by an address that is
    matched with it; no location appears twice. *)
Theorem sends_what_is_named `{Di : !Dispatcher G A (XcmCall Xcm) Ex Fa} ctx c g g' :
  dispatch T ctx c g = Ok tt g' ->
  (forall assets, located T g c = Some assets -> amounts_fit assets) ->
  exists g1 call assets, located T g c = Some assets /\
    dispatch_with_growth (into_account_id T (caller ctx)) call 0 g1 = inr g' /\
    NoDup (assets_of call).*1 /\
    (forall l, amount_of l (assets_of call) = Z.min (amount_of l assets) (umax 128)) /\
    match call with
    | transfer_assets dest _ _ _ w => dest = destination c /\ w = Unlimited
    | transfer_assets_using_type_and_then dest _ _ _ _ _ w => dest = destination c /\ w = Unlimited
    end.
Proof.
  intros (g1 & call & Hp & Hl & Hd)%xcm_dispatch_Ok Hnn. unfold prepared in Hp. rewrite Hl in Hp.
  destruct (located T g c) as [assets|]; [|done]. specialize (Hnn assets eq_refl).
  exists g1, call, assets. split; [done|]. split; [done|].
  assert (Ha : assets_of call = assets_from T assets /\ match call with
    | transfer_assets dest _ _ _ w => dest = destination c /\ w = Unlimited
    | transfer_assets_using_type_and_then dest _ _ _ _ _ w => dest = destination c /\ w = Unlimited
    end).
  { destruct (terms T c) as [[ben item]|[[[i ta] tf] bytes]]; [by injection Hp as <-|].
    repeat (case_match; try done). by injection Hp as <-. }
  destruct Ha as [-> Hc]. split; [apply (assets_from_nodup (lt := lt))|]. split; [|done].
  intros l. by apply (assets_from_amount (lt := lt)).
Qed.

(** C39: the fee, the beneficiary and the types of a transfer: on all entry points the
    index that the caller gave is passed on, or the asset at that index among those sent
    is named, as the one that pays the fees; if the named assets are strictly sorted, as
    the interface demands, those sent are at the same indices, so that it is the asset the
    caller's index points at.  Beneficiary and message are the caller's.  The entry points
    that take numbers for the types pass on the types these stand for in the interface,
    never a remote reserve; those that name a remote reserve use it for assets and fees. *)
Theorem fee_and_types `{Di : !Dispatcher G A (XcmCall Xcm) Ex Fa} ctx c g g' :
  dispatch T ctx c g = Ok tt g' ->
  exists g1 assets, located T g c = Some assets /\
    let sent := assets_from T assets in
    let sends call := dispatch_with_growth (into_account_id T (caller ctx)) call 0 g1 = inr g' in
    let transfers beneficiary item := sends (transfer_assets (destination c) beneficiary sent item Unlimited) in
    let transfers_by_type ta i tf bytes := exists fee xcm, sent.*1 !! Z.to_nat i = Some fee /\
      decode_xcm T bytes = Some xcm /\
      sends (transfer_assets_using_type_and_then (destination c) sent ta fee tf xcm Unlimited) in
    (amounts_fit assets -> StronglySorted lt assets.*1 -> sent = assets) /\
    match c with
    | assets_location_call _ beneficiary _ item => transfers beneficiary item
    | para_20_call _ a _ item => transfers (mkLocation 0 [AccountKey20 None (address_bytes T a)]) item
    | para_32_call _ a _ item | relay_call a _ item => transfers (mkLocation 0 [AccountId32 None a]) item
    | type_location_call _ _ ta i tf bytes | type_address_call _ _ ta i tf bytes =>
        exists t1 t2, numbered_type ta = Some t1 /\ numbered_type tf = Some t2 /\
          (forall r, t1 <> RemoteReserve r /\ t2 <> RemoteReserve r) /\ transfers_by_type t1 i t2 bytes
    | reserve_location_call _ _ i bytes r | reserve_address_call _ _ i bytes r =>
        transfers_by_type (RemoteReserve r) i (RemoteReserve r) bytes
    end.
Proof.
  intros (g1 & call & Hp & Hl & Hd)%xcm_dispatch_Ok. unfold prepared in Hp. rewrite Hl in Hp.
  destruct (located T g c) as [assets|]; [|done]. exists g1, assets. split; [done|]. cbv zeta.
  split; [intros; by apply (assets_from_sorted (lt := lt))|].
  assert (Hnum : forall n t r, numbered_type n = Some t -> t <> RemoteReserve r).
  { intros n t r. rewrite <- decode_helper_type. destruct (decode_helper n) as [[]|]; by intros [= <-]. }
  assert (Hby : forall ta i tf bytes, terms T c = inr (i, ta, tf, bytes) ->
    exists t1 t2 fee xcm, ta = Some t1 /\ tf = Some t2 /\ (assets_from T assets).*1 !! Z.to_nat i = Some fee /\
      decode_xcm T bytes = Some xcm /\
      call = transfer_assets_using_type_and_then (destination c) (assets_from T assets) t1 fee t2 xcm Unlimited).
  { intros ta i tf bytes Ht. rewrite Ht in Hp.
    destruct (assets_from T assets !! Z.to_nat i) as [fee|] eqn:Hi; [|done].
    destruct ta as [t1|]; [|done]. destruct tf as [t2|]; [|done].
    destruct (decode_xcm T bytes) as [xcm|]; [|done]. injection Hp as <-.
    exists t1, t2, fee.1, xcm. split_and!; try done. rewrite list_lookup_fmap. exact (f_equal (fmap fst) Hi). }
  destruct c; simpl in *; try (by injection Hp as <-);
    destruct (Hby _ _ _ _ eq_refl) as (t1 & t2 & fee & xcm & H1 & H2 & Hfee & Hx & ->).
  1, 3: exists t1, t2; split_and!; [done|done|eauto|by exists fee, xcm].
  all: injection H1 as <-; injection H2 as <-; by exists fee, xcm.
Qed.
End Properties.

(** ** A concrete conversion: insertion sort that adds up equal locations *)
Section SortedAssets.
Definition location_lt (l l' : Location) : Prop := (encode l < encode l')%positive.

Fixpoint insert_asset (x : Asset) (assets : list Asset) : list Asset :=
  match assets with
  | [] => [x]
  | y :: assets' =>
      if decide (x.1 = y.1) then (y.1, saturating_add 128 x.2 y.2) :: assets'
      else if (encode x.1 <? encode y.1)%positive then x :: assets
      else y :: insert_asset x assets'
  end.

Definition sort_assets (assets : list Asset) : list Asset :=
  foldr insert_asset [] assets.

Lemma insert_elem x assets l : l ∈ (insert_asset x assets).*1 <-> l = x.1 \/ l ∈ assets.*1.
Proof.
  induction assets as [|y assets IH]; simpl; [set_solver|].
  destruct (decide (x.1 = y.1)) as [->|]; [simpl; set_solver|].
  destruct (_ <? _)%positive; simpl; set_solver.
Qed.

Lemma insert_sorted x assets :
  StronglySorted location_lt assets.*1 -> StronglySorted location_lt (insert_asset x assets).*1.
Proof.
  induction assets as [|y assets IH]; simpl; intros Hs; [by repeat constructor|].
  apply StronglySorted_inv in Hs as [Hs Hall].
  destruct (decide (x.1 = y.1)) as [Heq|Hne]; [by constructor|].
  destruct (Pos.ltb_spec (encode x.1) (encode y.1)) as [Hlt|Hge]; simpl.
  - constructor; [by constructor|]. constructor; [done|].
    eapply Forall_impl; [exact Hall|]. intros l Hl. unfold location_lt in *. lia.
  - constructor; [by apply IH|]. apply Forall_forall. intros l [->|Hin]%insert_elem.
    + unfold location_lt. assert (encode y.1 <> encode x.1) by (by intros Heq%(inj encode)). lia.
    + rewrite Forall_forall in Hall. by apply Hall.
Qed.

Lemma sort_sorted assets : StronglySorted location_lt (sort_assets assets).*1.
Proof. induction assets as [|x l IH]; simpl; [constructor|]. by apply insert_sorted. Qed.

Lemma sorted_notin l (ls : list Location) : Forall (location_lt l) ls -> l ∉ ls.
Proof. rewrite Forall_forall. intros Hall Hin. specialize (Hall l Hin). unfold location_lt in Hall. lia. Qed.

Lemma sorted_nodup (ls : list Location) : StronglySorted location_lt ls -> NoDup ls.
Proof. induction 1; constructor; [by apply sorted_notin|done]. Qed.

Lemma amount_cons l x assets :
  amount_of l (x :: assets) = (if decide (x.1 = l) then x.2 else 0) + amount_of l assets.
Proof. done. Qed.

Lemma amount_notin l assets : (l ∉ assets.*1) -> amount_of l assets = 0.
Proof.
  induction assets as [|x assets IH]; [done|]. rewrite fmap_cons, not_elem_of_cons, amount_cons. intros [? ?].
  rewrite decide_False by congruence. rewrite IH by done. lia.
Qed.

Lemma insert_amount l x assets :
  StronglySorted location_lt assets.*1 -> 0 <= x.2 <= umax 128 ->
  amount_of l (insert_asset x assets) =
    if decide (x.1 = l) then Z.min (x.2 + amount_of l assets) (umax 128) else amount_of l assets.
Proof.
  intros Hs Hx. induction assets as [|y assets IH]; cbn [insert_asset].
  - rewrite amount_cons. change (amount_of l []) with 0. case_decide; lia.
  - rewrite fmap_cons in Hs. apply StronglySorted_inv in Hs as [Hs Hall]. specialize (IH Hs).
    destruct (decide (x.1 = y.1)) as [Heq|Hne]; [|destruct (Pos.ltb_spec (encode x.1) (encode y.1)) as [Hlt|]];
      rewrite !amount_cons; cbn [fst snd].
    + clear IH. rewrite Heq. case_decide as Hl; [|done].
      rewrite (amount_notin l) by (subst l; by apply sorted_notin). unfold saturating_add. lia.
    + clear IH. case_decide as Hl; [|lia]. subst l. rewrite decide_False by congruence. rewrite amount_notin; [lia|].
      apply sorted_notin. eapply Forall_impl; [exact Hall|]. intros l Hl. unfold location_lt in *. lia.
    + rewrite IH. repeat case_decide; subst; congruence || lia.
Qed.

Lemma sort_amount l assets :
  amounts_fit assets -> amount_of l (sort_assets assets) = Z.min (amount_of l assets) (umax 128).
Proof.
  assert (Hpos : 0 <= umax 128) by done.
  induction 1 as [|x assets Hx Hall IH]; [done|]. unfold fits in Hx.
  unfold sort_assets in *. cbn [foldr]. rewrite insert_amount; [|by apply sort_sorted|done].
  rewrite IH, amount_cons. assert (0 <= amount_of l assets); [|case_decide; lia].
  clear IH. induction Hall as [|y assets' Hy]; [done|]. rewrite amount_cons.
  unfold fits in Hy. case_decide; lia.
Qed.

Lemma sort_id assets : StronglySorted location_lt assets.*1 -> sort_assets assets = assets.
Proof.
  unfold sort_assets. induction assets as [|[l n] assets IH]; simpl in *; [done|].
  intros [Hs Hlt]%StronglySorted_inv. rewrite IH by done.
  destruct assets as [|y assets]; [done|]. simpl.
  assert (Hly : location_lt l y.1) by (by apply Forall_cons in Hlt as [? _]).
  unfold location_lt in Hly. rewrite decide_False by (intros Heq; rewrite Heq in Hly; lia).
  by destruct (Pos.ltb_spec (encode l) (encode y.1)); [|lia].
Qed.

#[export] Instance sort_laws : AssetsFromLaws sort_assets location_lt.
Proof.
  split.
  - intros. by apply sort_amount.
  - intros. apply sorted_nodup, sort_sorted.
  - intros. by apply sort_id.
Qed.
End SortedAssets.

(** ** A concrete runtime: addresses are accounts, those below 10 stand for pallets;
    gas is counted and the dispatched calls are recorded *)
Section Witnesses.
Record World := mkWorld { gas_left : Z; sent : list (Z * XcmCall unit) }.

#[local] Instance world_meter : GasMeter World Z unit := {|
  OutOfGas := tt;
  remaining_gas := gas_left;
  record c w := match c with
    | DbRead n | Cost n | LogCosts n _ =>
        if n <=? gas_left w then inr (mkWorld (gas_left w - n) (sent w)) else inl tt
    end;
  compute_cost _ := None;
  record_log_costs _ w := inr w;
  record_log _ w := inr w;
|}.

#[local] Instance world_dispatcher : Dispatcher World Z (XcmCall unit) unit unit :=
  fun o c _ w => inr (mkWorld (gas_left w) (sent w ++ [(o, c)])).

Definition sample_config : Config Z Z World unit := {|
  into_account_id a := a;
  address_bytes a := [a];
  LocationMatcher _ a := if a <? 10 then Some (mkLocation 0 [PalletInstance a]) else None;
  Location_max_encoded_len := 600;
  assets_from := sort_assets;
  decode_xcm bytes := match bytes with [] => None | _ => Some tt end;
  revert _ := [];
|}.

Definition sample_world : World := mkWorld 5000 [].

Lemma sample_matcher_gas c g g' a :
  record c g = inr g' -> LocationMatcher sample_config g' a = LocationMatcher sample_config g a.
Proof. done. Qed.

(** Twice the same pallet, and a fee. *)
Definition sample_call : Call Z := type_address_call location_parent [(3, 10); (4, 7)] 1 0 2 [1].

Definition sample_relay_call : Call Z := relay_call [7] [(3, 10); (3, 5)] 0.

Definition sample_after : World :=
  mkWorld 3368 [(8, transfer_assets location_parent (mkLocation 0 [AccountId32 None [7]])
    [(mkLocation 0 [PalletInstance 3], 15)] 0 Unlimited)].

Lemma sends_what_is_named_witness :
  exists g1 call assets, located sample_config sample_world sample_relay_call = Some assets /\
    dispatch_with_growth (Fa := unit) 8 call 0 g1 = inr sample_after /\
    forall l, amount_of l (assets_of call) = Z.min (amount_of l assets) (umax 128).
Proof.
  assert (Hd : dispatch (Fa := unit) sample_config (mkContext 8 99 0) sample_relay_call sample_world
    = Ok tt sample_after) by (vm_compute; reflexivity).
  destruct (sends_what_is_named (Fa := unit) sample_config sample_matcher_gas location_lt _ _ _ _ Hd)
    as (g1 & call & assets & Hl & Hg & _ & Ha & _).
  - intros assets Hl. vm_compute in Hl. injection Hl as <-. by repeat constructor.
  - by exists g1, call, assets.
Defined.

Lemma fee_and_types_witness :
  (exists t1 t2, numbered_type 1 = Some t1 /\ numbered_type 2 = Some t2 /\ t1 <> RemoteReserve location_parent) /\
  exists g1, dispatch_with_growth (Fa := unit) 8 (transfer_assets location_parent
    (mkLocation 0 [AccountId32 None [7]]) [(mkLocation 0 [PalletInstance 3], 15)] 0 Unlimited) 0 g1 = inr sample_after.
Proof.
  assert (Hd : forall c, c = sample_call \/ c = sample_relay_call ->
    dispatch (Fa := unit) sample_config (mkContext 8 99 0) c sample_world
    = Ok tt (final_state (dispatch (Fa := unit) sample_config (mkContext 8 99 0) c) sample_world)).
  { by intros c [->| ->]; vm_compute. }
  split.
  - destruct (fee_and_types (Fa := unit) sample_config sample_matcher_gas location_lt _ _ _ _ (Hd _ (or_introl eq_refl)))
      as (g1 & assets & _ & _ & t1 & t2 & H1 & H2 & Hr & _).
    exists t1, t2. split; [exact H1|]. split; [exact H2|]. apply (Hr location_parent).
  - destruct (fee_and_types (Fa := unit) sample_config sample_matcher_gas location_lt _ _ _ _ (Hd _ (or_intror eq_refl)))
      as (g1 & assets & Hl & _ & Hs).
    exists g1. vm_compute in Hl. injection Hl as <-. exact Hs.
Defined.
End Witnesses.
