(* ===== verification/XcmUtils.v ===== *)
(** * The xcm-utils precompile ([precompiles/xcm-utils/src/{lib,holding}.rs])

    Three views (the account of a location, the price of a second of execution in an
    asset, the weight of a message) and two calls that execute or send a message.  The
    XCM library and executor are code outside the repository: the fields of [Config] and
    the class [Holdings]. *)
From Stdlib Require Import ZArith Lia String.
From stdpp Require Import prelude.
From S2P Require Import Prelude.
From S2P Require Import Evm.

Local Open Scope Z_scope.

Definition DEFAULT_PROOF_SIZE : Z := 256 * 1024.

Definition XCM_SIZE_LIMIT : Z := 2 ^ 16.

(** ** Holding credits ([holding.rs]): the methods that take [&mut self] return its new
    value too. *)
Record HoldingCredit := mkCredit { credit_amount : Z }.

Definition unsafe_clone (c : HoldingCredit) : HoldingCredit := mkCredit (credit_amount c).

Definition forget_imbalance (c : HoldingCredit) : Z * HoldingCredit := (credit_amount c, mkCredit 0).

Definition saturating_subsume (c other : HoldingCredit) : HoldingCredit :=
  mkCredit (saturating_add 128 (credit_amount c) (forget_imbalance other).1).

Definition amount (c : HoldingCredit) : Z := credit_amount c.

(** What was taken, and what is left. *)
Definition saturating_take (c : HoldingCredit) (amount : Z) : HoldingCredit * HoldingCredit :=
  let taken := Z.min (credit_amount c) amount in
  (mkCredit taken, mkCredit (credit_amount c - taken)).

(** [AssetsInHolding]: its constructors, and its fungible credits. *)
Class Holdings (Holding Location Instance_ : Type) := {
  new_from_fungible_credit : Location -> HoldingCredit -> Holding;
  new_from_non_fungible : Location -> Instance_ -> Holding;
  fungible_get : Holding -> Location -> option HoldingCredit;
}.

(** [Asset] *)
Inductive Fungibility (Instance_ : Type) := Fungible (amount : Z) | NonFungible (instance : Instance_).
Arguments Fungible {Instance_} amount.
Arguments NonFungible {Instance_} instance.

Definition asset_to_holding {Holding Location Instance_} `{Holdings Holding Location Instance_}
    (asset : Location * Fungibility Instance_) : Holding :=
  match asset.2 with
  | Fungible amount => new_from_fungible_credit asset.1 (mkCredit amount)
  | NonFungible instance => new_from_non_fungible asset.1 instance
  end.

(** The calls of [pallet_xcm] the precompile dispatches. *)
Inductive XcmCall (Location Versioned VersionedUnit : Type) :=
  | execute (message : Versioned) (ref_time proof_size : Z)
  | send (dest : Location) (message : VersionedUnit).
Arguments execute {Location Versioned VersionedUnit} _ _ _.
Arguments send {Location Versioned VersionedUnit} _ _.

Section Definitions.
Context {Addr A G Ex Fa Origin Location Instance_ Holding Trader : Type}.
Context {Versioned VersionedUnit VersionedConfig Xcm : Type}.
Context `{GasMeter G Addr Ex} `{Di : Dispatcher G A (XcmCall Location Versioned VersionedUnit) Ex Fa}.
Context `{Holdings Holding Location Instance_}.

Record Config := mkConfig {
  into_account_id : Addr -> A;
  Location_max_encoded_len : Z;
  (** [OriginConverter::convert_origin] for sovereign accounts, and the account of it *)
  convert_origin : G -> Location -> option Origin;
  into_signer : Origin -> option A;
  into_h160 : A -> Addr;
  (** the trader: it is made, sells weight for a payment to an origin, which may change
      the trader and the storage, and is dropped, which may deposit what it took *)
  new_trader : Trader;
  buy_weight : Trader -> Z * Z -> Holding -> Location -> G -> option Holding * Trader * G;
  drop_trader : Trader -> G -> G;
  (** [VersionedXcm::decode_all_with_depth_limit] for the calls of the runtime, for no
      calls and for the calls of the executor; [Xcm::try_from] *)
  decode_versioned : list Z -> option Versioned;
  decode_versioned_unit : list Z -> option VersionedUnit;
  decode_versioned_config : list Z -> option VersionedConfig;
  xcm_try_from : VersionedConfig -> option Xcm;
  (** [Weigher::weight] with the greatest limit: the reference time *)
  weigh : Xcm -> option Z;
  StorageGrowth : Z;
  revert : string -> list Z;
  revert_in_field : string -> string -> list Z;
  selector_of : string -> Z;
}.

Abbreviation Mo := (M G (PrecompileFailure Ex Fa)).

Context (T : Config).
Context (context : Context Addr).

Definition record_location_read : Mo unit :=
  charge (record (DbRead (32 + Location_max_encoded_len T))).

Definition multilocation_to_address (location : Location) : Mo Addr :=
  record_location_read ;;
  converted ← gets (fun g => convert_origin T g location);
  origin ← ok_or converted (FailRevert (revert_in_field T "Failed location conversion" "location"));
  account ← ok_or (into_signer T origin)
    (FailRevert (revert_in_field T "Failed location conversion" "location"));
  mret (into_h160 T account).

(** [trader.buy_weight(..)] *)
Definition buy (trader : Trader) (weight : Z * Z) (payment : Holding) (origin : Location) :
    Mo (option Holding * Trader) :=
  fun g => let '(bought, trader, g') := buy_weight T trader weight payment origin g in Ok (bought, trader) g'.

(** A local value is dropped when the function returns, with whatever result. *)
Definition dropping {B} (drop : G -> G) (m : Mo B) : Mo B := fun g =>
  match m g with
  | Ok b g' => Ok b (drop g')
  | Err e g' => Err e (drop g')
  | Panic => Panic
  end.

Definition get_units_per_second (location : Location) : Mo Z :=
  record_location_read ;;
  let multiasset := (location, Fungible (umax 128)) in
  let weight_per_second := 1000000000000 in
  '(bought, trader) ← buy (new_trader T) (weight_per_second, DEFAULT_PROOF_SIZE)
    (asset_to_holding multiasset) location;
  dropping (drop_trader T trader) (
    unused ← ok_or bought (FailRevert (revert_in_field T "Asset not supported as fee payment" "location"));
    match fungible_get unused multiasset.1 with
    | Some credit => mret (saturating_sub (umax 128) (amount credit))
    | None => revert_with (revert T) "Weight was too expensive to be bought with this asset"
    end).

Definition weight_message (message : list Z) : Mo Z :=
  match (versioned ← decode_versioned_config T message; xcm_try_from T versioned) with
  | Some x => ok_or (weigh T x) (FailRevert (revert T "failed weighting"))
  | None => fail (FailRevert (revert_in_field T "Failed decoding" "message"))
  end.

Definition xcm_execute (message : list Z) (weight : Z) : Mo unit :=
  let origin := into_account_id T (caller context) in
  xcm ← ok_or (decode_versioned T message)
    (FailRevert (revert_in_field T "Failed xcm decoding" "message"));
  try_dispatch origin (execute xcm weight DEFAULT_PROOF_SIZE) (StorageGrowth T).

Definition xcm_send (dest : Location) (message : list Z) : Mo unit :=
  let origin := into_account_id T (caller context) in
  xcm ← ok_or (decode_versioned_unit T message)
    (FailRevert (revert_in_field T "Failed xcm decoding" "message"));
  try_dispatch origin (send dest xcm) (StorageGrowth T).

(** ** The precompile: its calls, their signatures and results *)
Inductive Call :=
  | multilocation_to_address_call (location : Location)
  | get_units_per_second_call (location : Location)
  | weight_message_call (message : list Z)
  | xcm_execute_call (message : list Z) (weight : Z)
  | xcm_send_call (dest : Location) (message : list Z).

Inductive Output := OutAddress (a : Addr) | OutUint (n : Z) | OutUnit.

Definition signature (c : Call) : string :=
  match c with
  | multilocation_to_address_call _ => "multilocationToAddress((uint8,bytes[]))"
  | get_units_per_second_call _ => "getUnitsPerSecond((uint8,bytes[]))"
  | weight_message_call _ => "weightMessage(bytes)"
  | xcm_execute_call _ _ => "xcmExecute(bytes,uint64)"
  | xcm_send_call _ _ => "xcmSend((uint8,bytes[]),bytes)"
  end%string.

Definition dispatch (c : Call) : Mo Output :=
  match c with
  | multilocation_to_address_call location => a ← multilocation_to_address location; mret (OutAddress a)
  | get_units_per_second_call location => n ← get_units_per_second location; mret (OutUint n)
  | weight_message_call message => n ← weight_message message; mret (OutUint n)
  | xcm_execute_call message weight => xcm_execute message weight ;; mret OutUnit
  | xcm_send_call dest message => xcm_send dest message ;; mret OutUnit
  end.

(** [AllExceptXcmExecute::is_allowed] *)
Definition xcm_execute_selectors : list Z := [selector_of T "xcmExecute(bytes,uint64)"].

Definition all_except_xcm_execute (selector : option Z) : bool :=
  match selector with
  | None => true
  | Some selector => negb (bool_decide (selector ∈ xcm_execute_selectors))
  end.
End Definitions.
Arguments Config : clear implicits.
Arguments Call Location : clear implicits.
Arguments Output Addr : clear implicits.

(** ** What the theorems rely on and use *)
Section Specification.
Context {Addr A G Origin Location Instance_ Holding Trader : Type}.
Context {Versioned VersionedUnit VersionedConfig Xcm : Type}.
Context `{Holdings Holding Location Instance_}.
Abbreviation Cfg := (Config Addr A G Origin Location Holding Trader Versioned VersionedUnit
  VersionedConfig Xcm).

(** The documented behaviour of [WeightTrader::buy_weight] for a weight whose price in an
    asset is known: a payment that covers the price is taken from with [saturating_take]
    and the rest returned (an empty credit is not part of a holding); a lower payment, or
    one in another asset, buys nothing. *)
Class TraderLaws (T : Cfg) (weight : Z * Z) (price : G -> Location -> option Z) : Prop := {
  price_nonneg g l p : price g l = Some p -> 0 <= p;
  buys g l n p :
    price g l = Some p -> p <= n ->
    exists unused,
      (buy_weight T (new_trader T) weight (asset_to_holding (l, Fungible n)) l g).1.1 = Some unused /\
      fungible_get unused l =
        (let '(_, rest) := saturating_take (mkCredit n) p in
         if credit_amount rest =? 0 then None else Some rest);
  buys_not g l n :
    (forall p, price g l = Some p -> n < p) ->
    (buy_weight T (new_trader T) weight (asset_to_holding (l, Fungible n)) l g).1.1 = None;
}.

(** What asking for the price of a second does to the storage: a trader sells that second
    for the greatest payment, made up for the question, and is dropped. *)
Definition asked (T : Cfg) (l : Location) (g : G) : G :=
  let '(_, trader, g') := buy_weight T (new_trader T) (1000000000000, DEFAULT_PROOF_SIZE)
    (asset_to_holding (l, Fungible (umax 128))) l g in
  drop_trader T trader g'.

(** Calls that execute a message. *)
Definition executes (c : Call Location) : bool :=
  match c with xcm_execute_call _ _ => true | _ => false end.

(** Different signatures have different selectors. *)
Definition selectors_distinct (T : Cfg) : Prop :=
  forall c c' : Call Location, selector_of T (signature c) = selector_of T (signature c') ->
    signature c = signature c'.
End Specification.

(** ** Properties *)

(** Credits are neither created nor lost, short of saturation. *)
Lemma take_subsume c n :
  0 <= n -> fits 128 (credit_amount c) ->
  let '(taken, rest) := saturating_take c n in
  credit_amount taken <= n /\ saturating_subsume rest taken = c.
Proof.
  intros Hn Hc. destruct c as [m]. unfold fits in Hc. unfold saturating_take, saturating_subsume. simpl in *.
  split; [lia|]. f_equal. rewrite saturating_add_exact; lia.
Qed.

Section Properties.
Context {Addr A G Ex Fa Origin Location Instance_ Holding Trader : Type}.
Context {Versioned VersionedUnit VersionedConfig Xcm : Type}.
Context `{GasMeter G Addr Ex} `{Holdings Holding Location Instance_}.
Abbreviation Cfg := (Config Addr A G Origin Location Holding Trader Versioned VersionedUnit
  VersionedConfig Xcm).
Abbreviation Calls := (XcmCall Location Versioned VersionedUnit).
Context (T : Cfg).

Lemma record_location_read_spec (g : G) :
  record_location_read (Ex := Ex) (Fa := Fa) T g =
    match record (DbRead (32 + Location_max_encoded_len T)) g with
    | inl e => Err (FailError e) g
    | inr g' => Ok tt g'
    end.
Proof. done. Qed.

(** The price of a second is exact: when the read cannot be paid the call fails with
    that error; otherwise [getUnitsPerSecond] charges the read and has a trader sell and be
    dropped, and returns exactly what the trader takes for the weight out of the greatest
    payment whenever that leaves something; it reverts as too expensive when nothing is
    left, and as not supported when the asset buys no weight or not for any payment that
    exists. *)
Theorem units_per_second_exact (price : G -> Location -> option Z)
    `{!TraderLaws T (1000000000000, DEFAULT_PROOF_SIZE) price} (location : Location) (g : G) :
  get_units_per_second (Ex := Ex) (Fa := Fa) T location g =
    match record (DbRead (32 + Location_max_encoded_len T)) g with
    | inl e => Err (FailError e) g
    | inr g' =>
        match price g' location with
        | Some p =>
            if p <? umax 128 then Ok p (asked T location g')
            else if p =? umax 128 then
              Err (FailRevert (revert T "Weight was too expensive to be bought with this asset")) (asked T location g')
            else Err (FailRevert (revert_in_field T "Asset not supported as fee payment" "location")) (asked T location g')
        | None => Err (FailRevert (revert_in_field T "Asset not supported as fee payment" "location")) (asked T location g')
        end
    end.
Proof.
  unfold get_units_per_second. unfold mbind, M_bind. rewrite record_location_read_spec.
  destruct (record _ g) as [|g']; [done|]. unfold buy, asked, dropping.
  pose proof (buys g' location (umax 128)) as Hbuys. pose proof (buys_not g' location (umax 128)) as Hnot.
  simpl. destruct (buy_weight T _ _ _ _ g') as [[bought trader] g2]. simpl in *.
  destruct (price g' location) as [p|] eqn:Hp.
  - pose proof (price_nonneg _ _ _ Hp) as Hp0. destruct (decide (p <= umax 128)) as [Hle|Hgt].
    + destruct (Hbuys _ eq_refl Hle) as (unused & -> & Hget). simpl. rewrite Hget.
      simpl. rewrite Z.min_r by done. destruct (Z.ltb_spec p (umax 128)).
      * replace (umax 128 - p =? 0) with false by lia. unfold mret, M_ret, amount, saturating_sub. simpl.
        f_equal. lia.
      * replace (umax 128 - p =? 0) with true by lia. by replace (p =? umax 128) with true by lia.
    + rewrite Hnot; [|intros q Hq; injection Hq as <-; lia]. simpl.
      replace (p <? umax 128) with false by lia. by replace (p =? umax 128) with false by lia.
  - by rewrite Hnot.
Qed.

(** What is left of the storage does not depend on what the holding returned. *)
Lemma get_units_state location g out g' :
  get_units_per_second (Ex := Ex) (Fa := Fa) T location g = Ok out g' ->
  exists g1, record (DbRead (32 + Location_max_encoded_len T)) g = inr g1 /\ g' = asked T location g1.
Proof.
  unfold get_units_per_second. unfold mbind at 1, M_bind at 1. rewrite record_location_read_spec.
  destruct (record _ g) as [|g1]; [done|]. intros Hr. exists g1. split; [done|].
  unfold mbind at 1, M_bind at 1 in Hr. unfold buy, asked, dropping in *. simpl in Hr.
  destruct (buy_weight T _ _ _ _ g1) as [[bought trader] g2].
  destruct bought as [unused|]; [|done]. unfold mbind, M_bind, ok_or in Hr.
  destruct (fungible_get unused location); [|done]. by injection Hr as _ <-.
Qed.

(** The filter refuses exactly the calls that execute. *)
Lemma filter_executes (c : Call Location) :
  selectors_distinct T ->
  all_except_xcm_execute T (Some (selector_of T (signature c))) = negb (executes c).
Proof.
  intros Hd. unfold all_except_xcm_execute, xcm_execute_selectors. f_equal.
  transitivity (bool_decide (executes c = true)); [|by destruct (executes c)].
  apply bool_decide_ext. rewrite list_elem_of_singleton.
  split; [|by destruct c]. intros Heq%(Hd c (xcm_execute_call [] 0)). by destruct c.
Qed.

(** C18: whoever is only allowed the selectors that [AllExceptXcmExecute] lets through
    cannot have a message executed: the filter refuses exactly [xcmExecute]; the outcome
    of an allowed call is the same whatever executing would do; and an allowed call that
    succeeds dispatched exactly one [send] of the decoded message in the name of its
    caller, or charged at most the read of a location; asking for the price of a second
    moreover leaves what the trader does when it sells that second and is dropped. *)
Theorem filtered_never_executes (D : Dispatcher G A Calls Ex Fa) ctx (c : Call Location) (g : G) :
  selectors_distinct T ->
  (all_except_xcm_execute T (Some (selector_of T (signature c))) = negb (executes c)) /\
  (all_except_xcm_execute T (Some (selector_of T (signature c))) = true ->
   (forall D' : Dispatcher G A Calls Ex Fa,
      (forall o dest message n, D' o (send dest message) n = D o (send dest message) n) ->
      dispatch (Di := D') T ctx c g = dispatch (Di := D) T ctx c g) /\
   (forall out g', dispatch (Di := D) T ctx c g = Ok out g' ->
      g' = g \/ record (DbRead (32 + Location_max_encoded_len T)) g = inr g' \/
      (exists l g1, c = get_units_per_second_call l /\
        record (DbRead (32 + Location_max_encoded_len T)) g = inr g1 /\ g' = asked T l g1) \/
      exists dest message xcm, c = xcm_send_call dest message /\
        decode_versioned_unit T message = Some xcm /\
        D (into_account_id T (caller ctx)) (send dest xcm) (StorageGrowth T) g = inr g')).
Proof.
  intros Hd. split; [by apply filter_executes|]. rewrite (filter_executes _ Hd). intros Hc.
  destruct c as [location|location|message| |dest message]; try done.
  - split; [done|]. intros out g' Hr. cbn [dispatch] in Hr. unfold multilocation_to_address, record_location_read in Hr.
    inv_evm. auto.
  - split; [done|]. intros out g' (n & g2 & Hr & Hret)%bind_Ok. injection Hret as _ <-.
    apply get_units_state in Hr as (g1 & Hr & ->). right; right; left. by exists location, g1.
  - split; [done|]. intros out g' Hr. cbn [dispatch] in Hr. unfold weight_message in Hr.
    apply bind_Ok in Hr as (n & s & Hr & Hp). case_match; inv_evm; auto.
  - split.
    + intros D' HD. cbn [dispatch]. unfold xcm_send, mbind, M_bind, ok_or.
      destruct (decode_versioned_unit T message) as [xcm|]; [|done]. unfold try_dispatch, dispatch_with_growth.
      by rewrite HD.
    + intros out g' Hr. cbn [dispatch] in Hr. unfold xcm_send in Hr. inv_evm. right; right; right. eauto 10.
Qed.
End Properties.

(** ** A concrete executor: locations are numbers; a second costs 500 of asset 1, the
    greatest amount of asset 2, more than that of asset 3; gas is counted and the
    dispatched calls are recorded *)
Section Witnesses.
Definition Traded : Type := option (Z * HoldingCredit).

#[local] Instance traded_holdings : Holdings Traded Z unit := {|
  new_from_fungible_credit l c := Some (l, c);
  new_from_non_fungible _ _ := None;
  fungible_get h l := '(l', c) ← h; if (l' =? l) && negb (amount c =? 0) then Some c else None;
|}.

Definition sample_price (l : Z) : option Z :=
  match l with 1 => Some 500 | 2 => Some (umax 128) | 3 => Some (2 ^ 128) | _ => None end.

Definition sample_buy (payment : Traded) (l : Z) : option Traded :=
  '(_, c) ← payment; p ← sample_price l;
  if p <=? amount c then Some (Some (l, (saturating_take c p).2)) else None.

(** The gas, the dispatched calls, and the fees that traders deposited. *)
Definition Sent : Type := Z * list (Z * XcmCall Z Z Z) * Z.

#[local] Instance sent_meter : GasMeter Sent Z unit := {|
  OutOfGas := tt;
  remaining_gas w := w.1.1;
  record c w := match c with
    | DbRead n | Cost n | LogCosts n _ => if n <=? w.1.1 then inr (w.1.1 - n, w.1.2, w.2) else inl tt
    end;
  compute_cost _ := None;
  record_log_costs _ w := inr w;
  record_log _ w := inr w;
|}.

#[local] Instance sent_dispatcher : Dispatcher Sent Z (XcmCall Z Z Z) unit unit :=
  fun o c _ w => inr (w.1.1, w.1.2 ++ [(o, c)], w.2).

Definition sample_utils : Config Z Z Sent Z Z Traded Z Z Z Z Z := {|
  into_account_id a := a;
  Location_max_encoded_len := 600;
  convert_origin _ l := if l <? 10 then Some l else None;
  into_signer o := Some o;
  into_h160 a := a;
  new_trader := 0;
  buy_weight taken _ payment l w :=
    let bought := sample_buy payment l in
    (bought, match bought with Some _ => default 0 (sample_price l) | None => taken end, w);
  drop_trader taken w := (w.1, w.2 + taken);
  decode_versioned := head;
  decode_versioned_unit := head;
  decode_versioned_config := head;
  xcm_try_from := Some;
  weigh x := Some x;
  StorageGrowth := 0;
  revert _ := [];
  revert_in_field _ _ := [1];
  selector_of s := Z.of_nat (String.length s);
|}.

#[local] Instance sample_trader_laws :
  TraderLaws (Instance_ := unit) sample_utils (1000000000000, DEFAULT_PROOF_SIZE) (fun _ => sample_price).
Proof.
  split.
  - intros ? l p. unfold sample_price. repeat (case_match; try done); intros [= <-]; done.
  - intros ? l n p Hp Hle. simpl. unfold sample_buy. simpl. rewrite Hp. simpl.
    replace (p <=? n) with true by lia. eexists. split; [done|]. simpl.
    rewrite Z.eqb_refl. simpl. by destruct (_ =? 0).
  - intros ? l n Hp. simpl. unfold sample_buy. simpl.
    destruct (sample_price l) as [p|]; [|done]. specialize (Hp p eq_refl). simpl.
    by replace (p <=? n) with false by lia.
Qed.

(** The price of asset 1 is answered, and the trader deposits it, though nobody paid. *)
Lemma units_per_second_exact_witness :
  map (fun l => final_state (get_units_per_second (Ex := unit) (Fa := unit) (Instance_ := unit) sample_utils l)
    (1000, [], 0)) [1; 2; 3; 4] = [(368, [], 500); (368, [], umax 128); (368, [], 0); (368, [], 0)] /\
  get_units_per_second (Ex := unit) (Fa := unit) (Instance_ := unit) sample_utils 1 (1000, [], 0)
    = Ok 500 (368, [], 500) /\
  get_units_per_second (Ex := unit) (Fa := unit) (Instance_ := unit) sample_utils 4 (1000, [], 0)
    = Err (FailRevert [1]) (368, [], 0).
Proof.
  split; [vm_compute; reflexivity|].
  split; rewrite (units_per_second_exact sample_utils (fun _ => sample_price)); vm_compute; reflexivity.
Defined.

Lemma sample_selectors_distinct : selectors_distinct sample_utils.
Proof. intros c c' Heq. by destruct c, c'; vm_compute in Heq. Qed.

Lemma filtered_never_executes_witness :
  all_except_xcm_execute sample_utils (Some (selector_of sample_utils (signature (xcm_execute_call [7] 5 : Call Z))))
    = false /\
  exists dest message xcm, xcm_send_call 4 [7] = xcm_send_call dest message /\
    Some xcm = Some 7 /\ dispatch_with_growth (Ex := unit) (Fa := unit) 8 (send dest xcm : XcmCall Z Z Z) 0 (1000, [], 0)
      = inr (1000, [(8, send 4 7)], 0).
Proof.
  destruct (filtered_never_executes sample_utils sent_dispatcher (mkContext 8 99 0)
    (xcm_execute_call [7] 5) (1000, [], 0) sample_selectors_distinct) as [Hex _].
  destruct (filtered_never_executes sample_utils sent_dispatcher (mkContext 8 99 0)
    (xcm_send_call 4 [7]) (1000, [], 0) sample_selectors_distinct) as [_ Hs].
  split; [exact Hex|].
  assert (Hd : dispatch (Fa := unit) (Instance_ := unit) sample_utils (mkContext 8 99 0) (xcm_send_call 4 [7]) (1000, [], 0)
    = Ok OutUnit (1000, [(8, send 4 7)], 0)) by (vm_compute; reflexivity).
  destruct (proj2 (Hs eq_refl) _ _ Hd) as [Hg|[Hg|[(l & g1 & Hc & _)|(dest & message & xcm & Hc & Hx & Hg)]]];
    [discriminate Hg|vm_compute in Hg; discriminate Hg|discriminate Hc|].
  exists dest, message, xcm. injection Hc as <- <-. simpl in Hx. split; [done|]. split; [done|exact Hg].
Defined.
End Witnesses.
