(* ===== verification/ClaimSlot.v ===== *)
(** * Claiming slots: what the collators share
      ([client/consensus/nimbus-consensus/src/{lib,collators}.rs])

    A collator looks for a key of its keystore that the runtime lets author, checks
    that there is room in the unincluded segment, finds the parent to build upon and
    keeps its connection to the backing groups.  The keystore, the runtime APIs and the
    relay chain are code outside the repository: the classes below, over the world [W]
    as an iteration of a collator sees it; [None] is an error of a call. *)
From Stdlib Require Import ZArith Lia.
From stdpp Require Import prelude.
From S2P Require Import Prelude.

Local Open Scope Z_scope.

(** The headers of the parachain and of the relay chain. *)
Class HeaderOps (H Hash : Type) := {
  header_hash : H -> Hash;
  number : H -> Z;
  parent_hash : H -> Hash;
}.

(** The keystore and the runtime APIs [Core], [NimbusApi] and [UnincludedSegmentApi]. *)
Class ParaClient (W PH Hash NimbusId Version : Type) := {
  keys : W -> option (list (list Z));
  runtime_version : W -> Hash -> option Version;
  api_can_author : W -> Hash -> NimbusId -> Z -> PH -> option bool;
  segment_api_version : W -> Hash -> option (option Z);
  api_can_build_upon : W -> Hash -> Hash -> Z -> option bool;
}.

(** What is asked of the relay chain. *)
Class RelayClient (W RHash ClaimQueue : Type) := {
  (** the version of the parachain host API, if the API is there *)
  relay_version : W -> RHash -> option (option Z);
  relay_scheduling_lookahead : W -> RHash -> option Z;
  relay_claim_queue : W -> RHash -> option ClaimQueue;
}.

(** [SlotClaim] *)
Record SlotClaim (NimbusId : Type) := mkSlotClaim {
  author_id : NimbusId;
  timestamp : Z;
}.
Arguments mkSlotClaim {NimbusId} _ _.
Arguments author_id {NimbusId} _.
Arguments timestamp {NimbusId} _.

Inductive ClaimError := ApiError | InvalidLength.

Section Definitions.
Context {W PH RH Hash RHash NimbusId Version ClaimQueue : Type}.
Context `{EqDecision Hash} `{EqDecision Version}.
Context `{HeaderOps PH Hash} `{HeaderOps RH RHash}.
Context `{ParaClient W PH Hash NimbusId Version} `{RelayClient W RHash ClaimQueue}.
(** [NimbusId::from_slice] *)
Context (from_slice : list Z -> option NimbusId).

(** ** Claiming a slot *)
Definition first_available_key (w : W) : option (list Z) :=
  match keys w with
  | Some available_keys => head available_keys
  | None => None
  end.

(** [Iterator::find] *)
Fixpoint find_key (eligible : list Z -> bool) (available_keys : list (list Z)) : option (list Z) :=
  match available_keys with
  | [] => None
  | key :: available_keys => if eligible key then Some key else find_key eligible available_keys
  end.

Definition key_eligible (w : W) (parent : PH) (slot_number : Z) (key : list Z) : bool :=
  match from_slice key with
  | Some nimbus_id =>
      default false (api_can_author w (header_hash parent) nimbus_id slot_number parent)
  | None => false
  end.

Definition first_eligible_key (w : W) (parent : PH) (slot_number : Z) : option (list Z) :=
  available_keys ← keys w;
  if decide (available_keys = []) then None
  else find_key (key_eligible w parent slot_number) available_keys.

Definition runtime_upgraded (w : W) (parent : PH) : ClaimError + bool :=
  if 0 <? number parent then
    match runtime_version w (parent_hash parent), runtime_version w (header_hash parent) with
    | Some previous, Some version => inr (bool_decide (previous <> version))
    | _, _ => inl ApiError
    end
  else inr false.

(** [claim_slot]; the relay parent's number is the slot. *)
Definition claim_slot (w : W) (parent : PH) (relay_parent_header : RH) (skip_prediction : bool) :
    ClaimError + option NimbusId :=
  match runtime_upgraded w parent with
  | inl e => inl e
  | inr runtime_upgraded =>
      let maybe_key :=
        if skip_prediction || runtime_upgraded then first_available_key w
        else first_eligible_key w parent (number relay_parent_header) in
      match maybe_key with
      | Some key =>
          match from_slice key with
          | Some id => inr (Some id)
          | None => inl InvalidLength
          end
      | None => inr None
      end
  end.

(** [can_build_upon] of the slot-based collator *)
Definition can_build_upon (w : W) (para_slot relay_slot timestamp : Z) (relay_parent : RH)
    (parent_header : PH) (included_block : Hash) (force_authoring : bool) :
    option (SlotClaim NimbusId) :=
  author_pub ← match claim_slot w parent_header relay_parent force_authoring with
    | inr (Some id) => Some id
    | _ => None
    end;
  let parent_hash := header_hash parent_header in
  if decide (parent_hash = included_block) then Some (mkSlotClaim author_pub timestamp)
  else
    api_version ← segment_api_version w parent_hash;
    api_version ← api_version;
    let slot := if 1 <? api_version then relay_slot else para_slot in
    allowed ← api_can_build_upon w parent_hash included_block slot;
    if allowed : bool then Some (mkSlotClaim author_pub timestamp) else None.

(** ** The relay chain *)

(** [RelayParentData] *)
Record RelayParentData := mkRelayParentData {
  relay_parent : RH;
  descendants : list RH;
}.

Definition into_inherent_descendant_list (d : RelayParentData) : list RH :=
  match descendants d with
  | [] => []
  | _ => [relay_parent d] ++ descendants d
  end.

(** [SCHEDULING_LOOKAHEAD_RUNTIME_REQUIREMENT], [DEFAULT_SCHEDULING_LOOKAHEAD] *)
Context (runtime_requirement default_lookahead : Z).

Definition scheduling_lookahead (w : W) (relay_parent : RHash) : option Z :=
  version ← relay_version (ClaimQueue := ClaimQueue) w relay_parent;
  let parachain_host_runtime_api_version := default 0 version in
  if parachain_host_runtime_api_version <? runtime_requirement then None
  else relay_scheduling_lookahead (ClaimQueue := ClaimQueue) w relay_parent.

(** [find_parent]: the search of the consensus library gets the lookback; its result
    is the included and the best header. *)
Definition ancestry_lookback (w : W) (relay_parent : RHash) : Z :=
  saturating_sub (default default_lookahead (scheduling_lookahead w relay_parent)) 1.

Definition find_parent (find_parent_for_building : W -> RHash -> Z -> option (option (PH * PH)))
    (w : W) (relay_parent : RHash) : option (PH * PH) :=
  match find_parent_for_building w relay_parent (ancestry_lookback w relay_parent) with
  | Some (Some result) => Some result
  | _ => None
  end.

(** [claim_queue_at] *)
Definition claim_queue_at (empty : ClaimQueue) (w : W) (relay_parent : RHash) : ClaimQueue :=
  default empty (relay_claim_queue w relay_parent).
End Definitions.
Arguments RelayParentData RH : clear implicits.
Arguments mkRelayParentData {RH} _ _.
Arguments relay_parent {RH} _.
Arguments descendants {RH} _.

(** ** Connecting to the backing groups *)
Inductive CollatorProtocolMessage := ConnectToBackingGroups | DisconnectFromBackingGroups.

#[export] Instance message_eq_dec : EqDecision CollatorProtocolMessage.
Proof. solve_decision. Defined.

(** [BackingGroupConnectionHelper], with the messages sent so far. *)
Record ConnectionHelper := mkConnectionHelper {
  last_slot : option Z;
  connected : bool;
  sent : list CollatorProtocolMessage;
}.

Definition new_connection_helper : ConnectionHelper := mkConnectionHelper None false [].

(** [update]; [available] is what the keystore answers. *)
Definition update (available : option (list (list Z))) (current_slot : Z) (h : ConnectionHelper) :
    ConnectionHelper :=
  if decide (last_slot h = Some current_slot) then h
  else
    let last_slot := Some current_slot in
    let has_keys := match available with Some keys => negb (bool_decide (keys = [])) | None => false end in
    if has_keys && negb (connected h) then
      mkConnectionHelper last_slot true (sent h ++ [ConnectToBackingGroups])
    else if negb has_keys && connected h then
      mkConnectionHelper last_slot false (sent h ++ [DisconnectFromBackingGroups])
    else mkConnectionHelper last_slot (connected h) (sent h).

(** Whether the keystore has keys; the updates of a run, oldest first. *)
Definition has_keys (available : option (list (list Z))) : bool :=
  match available with Some (_ :: _) => true | _ => false end.

Definition updates : Type := list (option (list (list Z)) * Z).

Definition run_updates (us : updates) (h : ConnectionHelper) : ConnectionHelper :=
  foldl (fun h u => update u.1 u.2 h) h us.

(** A protocol run that a peer accepts: connecting and disconnecting alternate,
    starting with a connection. *)
Fixpoint alternating (from : bool) (msgs : list CollatorProtocolMessage) : bool :=
  match msgs with
  | [] => true
  | ConnectToBackingGroups :: msgs => negb from && alternating true msgs
  | DisconnectFromBackingGroups :: msgs => from && alternating false msgs
  end.

(** ** Properties of claims *)
Section Claims.
Context {W PH RH Hash RHash NimbusId Version ClaimQueue : Type}.
Context `{EqDecision Hash} `{EqDecision Version}.
Context `{HeaderOps PH Hash} `{HeaderOps RH RHash}.
Context `{ParaClient W PH Hash NimbusId Version}.
Context (from_slice : list Z -> option NimbusId).

Lemma find_key_Some eligible ks key :
  find_key eligible ks = Some key -> key ∈ ks /\ eligible key = true.
Proof.
  induction ks as [|k ks IH]; [done|]. simpl. destruct (eligible k) eqn:He.
  - intros [= ->]. split; [left|done].
  - intros [? ?]%IH. split; [by right|done].
Qed.

Lemma find_key_None eligible ks :
  find_key eligible ks = None <-> forall key, key ∈ ks -> eligible key = false.
Proof.
  induction ks as [|k ks IH]; simpl; [set_solver|]. destruct (eligible k) eqn:He.
  - split; [done|]. intros Hall. specialize (Hall k (list_elem_of_here _ _)). congruence.
  - rewrite IH. set_solver.
Qed.

Lemma first_eligible_key_Some w parent slot key :
  first_eligible_key from_slice w parent slot = Some key ->
  exists ks, keys w = Some ks /\ key ∈ ks /\ key_eligible from_slice w parent slot key = true.
Proof.
  unfold first_eligible_key. destruct (keys w) as [ks|]; [|done]. simpl.
  case_decide; [done|]. intros [? ?]%find_key_Some. eauto.
Qed.

Lemma first_eligible_key_None w parent slot :
  first_eligible_key from_slice w parent slot = None <->
  forall ks key, keys w = Some ks -> key ∈ ks -> key_eligible from_slice w parent slot key = false.
Proof.
  unfold first_eligible_key. destruct (keys w) as [ks|]; simpl; [|naive_solver].
  case_decide as Hks; [subst; naive_solver set_solver|]. rewrite find_key_None. naive_solver.
Qed.

Lemma key_eligible_true w parent slot key :
  key_eligible from_slice w parent slot key = true <->
  exists id, from_slice key = Some id /\ api_can_author w (header_hash parent) id slot parent = Some true.
Proof.
  unfold key_eligible. destruct (from_slice key) as [id|]; [|naive_solver].
  destruct (api_can_author _ _ _ _ _) as [[]|] eqn:Ha; simpl; split; try done; [eauto|..];
    intros (? & [= <-] & ?); congruence.
Qed.

(** The parent was built by another runtime than the one it leaves behind. *)
Definition just_upgraded (w : W) (parent : PH) : Prop :=
  0 < number parent /\ exists previous version,
    runtime_version w (parent_hash parent) = Some previous /\
    runtime_version w (header_hash parent) = Some version /\ previous <> version.

Lemma runtime_upgraded_inr w parent b :
  runtime_upgraded w parent = inr b -> b = true <-> just_upgraded w parent.
Proof.
  unfold runtime_upgraded, just_upgraded. destruct (Z.ltb_spec 0 (number parent)).
  - destruct (runtime_version w (parent_hash parent)) as [v|]; [|done].
    destruct (runtime_version w (header_hash parent)) as [v'|]; [|done]. intros [= <-].
    rewrite bool_decide_eq_true. naive_solver.
  - intros [= <-]. split; [done|]. lia.
Qed.

(** What a successful claim says. *)
Lemma claim_slot_Some w parent (rp : RH) skip id :
  claim_slot from_slice w parent rp skip = inr (Some id) ->
  exists ks key, keys w = Some ks /\ key ∈ ks /\ from_slice key = Some id /\
    (skip = true \/ just_upgraded w parent \/
     api_can_author w (header_hash parent) id (number rp) parent = Some true).
Proof.
  unfold claim_slot. destruct (runtime_upgraded w parent) as [|up] eqn:Hup; [done|].
  destruct (skip || up) eqn:Hskip.
  - unfold first_available_key. destruct (keys w) as [[|k ks]|] eqn:Hk; [done| |done]. simpl.
    destruct (from_slice k) as [id'|] eqn:Hs; [|done]. intros [= ->].
    exists (k :: ks), k. split; [done|]. split; [left|]. split; [done|].
    apply orb_true_iff in Hskip as [->| ->]; [by left|right; left].
    by apply (runtime_upgraded_inr w parent true).
  - destruct (first_eligible_key _ _ _ _) as [k|] eqn:Hf; [|done].
    destruct (from_slice k) as [id'|] eqn:Hs; [|done]. intros [= ->].
    apply first_eligible_key_Some in Hf as (ks & Hk & Hin & (id' & Hs' & Ha)%key_eligible_true).
    exists ks, k. split_and!; [done..|]. right; right. congruence.
Qed.

(** With an eligible key there is a claim. *)
Lemma claim_slot_eligible w parent (rp : RH) ks key :
  runtime_upgraded w parent = inr false -> keys w = Some ks -> key ∈ ks ->
  key_eligible from_slice w parent (number rp) key = true ->
  exists id, claim_slot from_slice w parent rp false = inr (Some id).
Proof.
  intros Hup Hk Hin He. unfold claim_slot. rewrite Hup. simpl.
  destruct (first_eligible_key _ _ _ _) as [k|] eqn:Hf.
  - apply first_eligible_key_Some in Hf as (_ & _ & _ & (id & Hs & _)%key_eligible_true). rewrite Hs. eauto.
  - rewrite first_eligible_key_None in Hf. specialize (Hf ks key Hk Hin). congruence.
Qed.

(** C30: claiming is sound and complete: a claim names a key of the keystore that the
    runtime lets author in the slot of the relay parent, unless prediction is skipped
    or the runtime was just upgraded; there is no claim only when no key is eligible
    (no key at all when prediction is skipped); and the only errors are those of the
    version calls and, when prediction is skipped, a malformed first key. *)
Theorem claim_sound_complete w parent (rp : RH) skip :
  match claim_slot from_slice w parent rp skip with
  | inr (Some id) => exists ks key, keys w = Some ks /\ key ∈ ks /\ from_slice key = Some id /\
      (skip = true \/ just_upgraded w parent \/
       api_can_author w (header_hash parent) id (number rp) parent = Some true)
  | inr None => forall ks key, keys w = Some ks -> key ∈ ks ->
      skip = false /\ ~ just_upgraded w parent /\
      forall id, from_slice key = Some id ->
        api_can_author w (header_hash parent) id (number rp) parent <> Some true
  | inl ApiError => 0 < number parent /\
      (runtime_version w (parent_hash parent) = None \/ runtime_version w (header_hash parent) = None)
  | inl InvalidLength => exists key ks, keys w = Some (key :: ks) /\ from_slice key = None /\
      (skip = true \/ just_upgraded w parent)
  end.
Proof.
  destruct (claim_slot _ _ _ _ _) as [[|]|[id|]] eqn:Hc; [..|by apply claim_slot_Some|].
  - unfold claim_slot, runtime_upgraded in Hc. destruct (Z.ltb_spec 0 (number parent)).
    + split; [done|]. destruct (runtime_version w (parent_hash parent)); [|by left].
      destruct (runtime_version w (header_hash parent)); [|by right].
      repeat case_match; simplify_eq.
    + repeat case_match; simplify_eq.
  - unfold claim_slot in Hc. destruct (runtime_upgraded w parent) as [e|up] eqn:Hup.
    { unfold runtime_upgraded in Hup. repeat case_match; simplify_eq. }
    unfold first_available_key in Hc. destruct (skip || up) eqn:Hskip.
    + destruct (keys w) as [[|k ks]|]; try done. simpl in Hc.
      destruct (from_slice k) eqn:Hs; [done|]. exists k, ks. split; [done|]. split; [done|].
      apply orb_true_iff in Hskip as [->| ->]; [by left|right]. by apply (runtime_upgraded_inr w parent true).
    + destruct (first_eligible_key _ _ _ _) as [k|] eqn:Hf; [|done].
      apply first_eligible_key_Some in Hf as (ks & _ & _ & (id' & Hs' & _)%key_eligible_true).
      by rewrite Hs' in Hc.
  - unfold claim_slot in Hc. destruct (runtime_upgraded w parent) as [|up] eqn:Hup; [done|]. intros ks key Hk Hin.
    destruct (skip || up) eqn:Hskip.
    + unfold first_available_key in Hc. rewrite Hk in Hc. destruct ks; [by apply not_elem_of_nil in Hin|].
      simpl in Hc. by destruct (from_slice _).
    + apply orb_false_iff in Hskip as [-> ->]. split; [done|]. split.
      { by intros ?%(runtime_upgraded_inr _ _ _ Hup). }
      intros id Hs Ha.
      destruct (first_eligible_key _ _ _ _) as [k|] eqn:Hf; [by destruct (from_slice k)|].
      rewrite first_eligible_key_None in Hf. specialize (Hf ks key Hk Hin).
      apply not_true_iff_false in Hf. apply Hf, key_eligible_true. eauto.
Qed.

(** A claim of the slot-based collator was claimed, and there is room: the parent is
    the included block or the runtime says so for the slot it wants to be asked about. *)
Lemma can_build_upon_Some w para_slot relay_slot ts (rp : RH) parent included force claim :
  can_build_upon from_slice w para_slot relay_slot ts rp parent included force = Some claim ->
  claim_slot from_slice w parent rp force = inr (Some (author_id claim)) /\ timestamp claim = ts /\
  (header_hash parent = included \/
   exists v, segment_api_version w (header_hash parent) = Some (Some v) /\
     api_can_build_upon w (header_hash parent) included (if 1 <? v then relay_slot else para_slot) = Some true).
Proof.
  unfold can_build_upon. destruct (claim_slot _ _ _ _ _) as [|[id|]]; [done| |done]. simpl.
  case_decide; [intros [= <-]; by split_and!; [..|left]|].
  destruct (segment_api_version _ _) as [[v|]|]; [|done..]. simpl.
  destruct (api_can_build_upon _ _ _ _) as [[]|] eqn:Ha; [|done..]. simpl. intros [= <-].
  split; [done|]. split; [done|]. right. eauto.
Qed.
End Claims.

(** ** Properties of the connection *)
Lemma update_has_keys available :
  match available with Some keys => negb (bool_decide (keys = [])) | None => false end = has_keys available.
Proof. by destruct available as [[|]|]. Qed.

(** One update at a new slot: the message that changes the connection, if it changes. *)
Lemma update_new available slot h :
  last_slot h <> Some slot ->
  update available slot h = mkConnectionHelper (Some slot) (has_keys available)
    (sent h ++ if bool_decide (has_keys available = connected h) then []
               else [if has_keys available then ConnectToBackingGroups else DisconnectFromBackingGroups]).
Proof.
  intros Hs. unfold update. rewrite decide_False, update_has_keys by done.
  destruct (has_keys available), (connected h); simpl; by rewrite ?app_nil_r.
Qed.

Lemma update_same available slot h : last_slot h = Some slot -> update available slot h = h.
Proof. intros Hs. unfold update. by rewrite decide_True. Qed.

Lemma alternating_app from msgs :
  alternating from msgs = true -> forall m,
  let now := match last msgs with Some ConnectToBackingGroups => true
             | Some DisconnectFromBackingGroups => false | None => from end in
  alternating from (msgs ++ [m]) = match m with ConnectToBackingGroups => negb now
                                   | DisconnectFromBackingGroups => now end.
Proof.
  revert from. induction msgs as [|m' msgs IH]; intros from Ha m; [by destruct m, from|].
  simpl in Ha. destruct m'; apply andb_true_iff in Ha as [Hf Ha]; simpl; rewrite Hf; simpl;
    rewrite (IH _ Ha), last_cons; by destruct (last msgs) as [[]|], m.
Qed.

(** What every run of updates keeps. *)
Definition connection_ok (h : ConnectionHelper) : Prop :=
  alternating false (sent h) = true /\
  connected h = match last (sent h) with Some ConnectToBackingGroups => true | _ => false end.

Lemma update_ok available slot h : connection_ok h -> connection_ok (update available slot h).
Proof.
  intros [Ha Hc]. destruct (decide (last_slot h = Some slot)) as [Hs|Hs].
  { by rewrite update_same. }
  rewrite update_new by done. case_bool_decide as He; unfold connection_ok; simpl.
  - by rewrite app_nil_r, He.
  - rewrite alternating_app, last_snoc by done. unfold connection_ok in *.
    destruct (has_keys available), (connected h); try congruence;
      destruct (last (sent h)) as [[]|]; done.
Qed.

Lemma run_updates_snoc us u h : run_updates (us ++ [u]) h = update u.1 u.2 (run_updates us h).
Proof. unfold run_updates. by rewrite foldl_app. Qed.

(** The connection to the backing groups follows the keystore: whatever slots and
    keys a collator sees, the messages sent alternate and start with a connection,
    [connected] is what the last message asked for, an update at a slot other than the
    last one leaves the collator connected exactly if it has keys, with at most one
    message, and an update at the same slot does nothing. *)
Theorem connection_follows_keys (us : updates) available slot :
  let h := run_updates us new_connection_helper in
  let h' := run_updates (us ++ [(available, slot)]) new_connection_helper in
  alternating false (sent h') = true /\
  connected h' = match last (sent h') with Some ConnectToBackingGroups => true | _ => false end /\
  last_slot h' = Some slot /\
  if decide (snd <$> last us = Some slot) then h' = h
  else connected h' = has_keys available /\
       exists new, sent h' = sent h ++ new /\ (length new <= 1)%nat.
Proof.
  assert (Hok : forall l, connection_ok (run_updates l new_connection_helper)).
  { intros l. induction l as [|u l IH] using rev_ind; [done|]. rewrite run_updates_snoc. by apply update_ok. }
  assert (Hlast : forall l, last_slot (run_updates l new_connection_helper) = snd <$> last l).
  { intros l. induction l as [|u l IH] using rev_ind; [done|]. rewrite run_updates_snoc, last_snoc. simpl.
    destruct (decide (last_slot (run_updates l new_connection_helper) = Some u.2)) as [Hs|Hs].
    - by rewrite update_same.
    - by rewrite update_new. }
  intros h h'. destruct (Hok (us ++ [(available, slot)])) as [Ha Hc]. fold h' in Ha, Hc.
  split; [done|]. split; [done|].
  assert (Hl : last_slot h' = Some slot) by (unfold h'; by rewrite Hlast, last_snoc).
  split; [done|]. unfold h' in *. rewrite run_updates_snoc in *. fold h in Hl |- *. simpl in *.
  rewrite <- Hlast. fold h. case_decide as Hs.
  - by rewrite update_same.
  - rewrite update_new by done. simpl. split; [done|]. eexists. split; [done|]. destruct (bool_decide _); simpl; lia.
Qed.
