(* ===== verification/BlockImport.v ===== *)
(** * Importing blocks
    ([client/consensus/nimbus-consensus/src/{import_queue,collators/slot_based/block_import}.rs])

    Every block passes the verifier of the import queue, which strips the seal and
    checks it against the author the digest names, and then a pipeline of imports.
    The nimbus import sets the fork choice; the import of the slot-based collator
    executes foreign blocks to record their storage proofs.  An import is a record of
    operations that may wrap another one.  The client, the inherent providers and the
    channel are code outside the repository: classes over the world [W]. *)
From Stdlib Require Import ZArith Lia.
From stdpp Require Import prelude.
From S2P Require Import Prelude.
From S2P Require Import Interfaces.
From S2P Require Import NimbusPrimitives.
From S2P Require Import AuthorInherent.
From S2P Require Import ClaimSlot.

Local Open Scope Z_scope.

(** ** The data of an import *)
Inductive ForkChoiceStrategy := LongestChain | Custom (best : bool).

(** [BlockImportParams], as far as the code reads or writes it. *)
Record BlockImportParams (Origin Hdr D Ext SA : Type) := mkImportParams {
  origin : Origin;
  header : Hdr;
  post_digests : list D;
  body : option (list Ext);
  state_action : SA;
  fork_choice : option ForkChoiceStrategy;
  create_gap : bool;
}.
Arguments mkImportParams {_ _ _ _ _} _ _ _ _ _ _ _.
Arguments origin {_ _ _ _ _} _.
Arguments header {_ _ _ _ _} _.
Arguments post_digests {_ _ _ _ _} _.
Arguments body {_ _ _ _ _} _.
Arguments state_action {_ _ _ _ _} _.
Arguments fork_choice {_ _ _ _ _} _.
Arguments create_gap {_ _ _ _ _} _.

Definition with_fork_choice {Origin Hdr D Ext SA} (c : ForkChoiceStrategy)
    (p : BlockImportParams Origin Hdr D Ext SA) : BlockImportParams Origin Hdr D Ext SA :=
  mkImportParams (origin p) (header p) (post_digests p) (body p) (state_action p) (Some c)
    (create_gap p).

(** A block: header and extrinsics. *)
Definition Block (Hdr Ext : Type) : Type := Hdr * list Ext.

(** [StateAction]: the constructor for known changes, what the code asks about an
    action ([with_state] is asked of the parameters, which look at the action). *)
Class StateActionOps (SA Changes : Type) := {
  ApplyChanges : Changes -> SA;
  is_apply_changes : SA -> bool;
  skip_execution_checks : SA -> bool;
  with_state : SA -> bool;
}.

Class StateActionLaws (SA Changes : Type) `{StateActionOps SA Changes} : Prop := {
  is_apply_changes_ApplyChanges (c : Changes) : is_apply_changes (ApplyChanges c) = true;
}.

(** [BlockImport]: a check and an import, with results [R] and errors [X]. *)
Record BlockImport (W X CheckParams R P : Type) := mkBlockImport {
  check_block : CheckParams -> M W X R;
  import_block : P -> M W X R;
}.
Arguments mkBlockImport {_ _ _ _ _} _ _.
Arguments check_block {_ _ _ _ _} _ _.
Arguments import_block {_ _ _ _ _} _ _.

(** [BlockOrigin]: the two origins the code names. *)
Class BlockOrigins (Origin : Type) := {
  Own : Origin;
  NetworkInitialSync : Origin;
}.

(** [CreateInherentDataProviders] with its providers, for a context [Ctx]. *)
Class InherentProviders (W Hash Ctx Providers InherentData X : Type) := {
  create_inherent_data_providers : W -> Hash -> Ctx -> X + Providers;
  create_inherent_data : W -> Providers -> X + InherentData;
  try_handle_error : W -> Providers -> list Z -> list Z -> option (X + unit);
}.

(** [BlockBuilderApi::check_inherents] and its result. *)
Class InherentCheck (W Hash Blk InherentData Res X : Type) := {
  check_inherents : W -> Hash -> Blk -> InherentData -> X + Res;
  inherent_res_ok : Res -> bool;
  into_errors : Res -> list (list Z * list Z);
}.

(** ** The verifier *)
Inductive VerifyError (X : Type) :=
  | NoDigest
  | HeaderUnsealed
  | NoAuthorBytes
  | WrongLength
  | InvalidSignature
  | External (x : X)
  | UnhandledInherentError (id : list Z).
Arguments NoDigest {X}.
Arguments HeaderUnsealed {X}.
Arguments NoAuthorBytes {X}.
Arguments WrongLength {X}.
Arguments InvalidSignature {X}.
Arguments External {X} x.
Arguments UnhandledInherentError {X} id.

Section Verifier.
Context {W D HeaderRest Hash NimbusId NimbusSignature Ext SA Changes Origin : Type}.
Context {Providers InherentData Res X : Type}.
Context `{DigestItemOps D} `{Codec NimbusSignature} `{HeaderOps (Header D HeaderRest) Hash}.
Context `{StateActionOps SA Changes}.
Context `{InherentProviders W Hash unit Providers InherentData X}.
Context `{InherentCheck W Hash (Block (Header D HeaderRest) Ext) InherentData Res X}.
Context (from_slice : list Z -> option NimbusId).
(** [NimbusPair::verify] *)
Context (pair_verify : NimbusId -> Hash -> NimbusSignature -> bool).

Abbreviation Params := (BlockImportParams Origin (Header D HeaderRest) D Ext SA).
Abbreviation Mo := (M W (VerifyError X)).

(** The author bytes of a nimbus digest, consensus or pre-runtime. *)
Definition author_bytes (digest : D) : option (list Z) :=
  match as_consensus digest, as_pre_runtime digest with
  | Some (id, author_id), _ | None, Some (id, author_id) =>
      if bool_decide (id = NIMBUS_ENGINE_ID) then Some author_id else None
  | None, None => None
  end.

(** [find_map] over the digests *)
Definition verifier_author (digests : list D) : option (list Z) := head (omap author_bytes digests).

Definition external {A} (r : X + A) : VerifyError X + A :=
  match r with inl x => inl (External x) | inr a => inr a end.

Fixpoint handle_errors (w : W) (providers : Providers) (errors : list (list Z * list Z)) :
    VerifyError X + unit :=
  match errors with
  | [] => inr tt
  | (i, e) :: errors =>
      match try_handle_error (InherentData := InherentData) w providers i e with
      | Some (inr _) => handle_errors w providers errors
      | Some (inl x) => inl (External x)
      | None => inl (UnhandledInherentError i)
      end
  end.

Definition verify_inherents (hdr : Header D HeaderRest) (inner_body : list Ext) : Mo unit :=
  w ← gets id;
  providers ← try_ (external (create_inherent_data_providers (InherentData := InherentData)
    w (parent_hash hdr) tt));
  inherent_data ← try_ (external (create_inherent_data (Hash := Hash) (Ctx := unit) w providers));
  inherent_res ← try_ (external (check_inherents (Res := Res) w (parent_hash hdr)
    (hdr, inner_body) inherent_data));
  if inherent_res_ok (W := W) (Hash := Hash) (Blk := Block (Header D HeaderRest) Ext)
       (InherentData := InherentData) (X := X) inherent_res then mret tt
  else try_ (handle_errors w providers (into_errors (W := W) (Hash := Hash)
    (Blk := Block (Header D HeaderRest) Ext) (InherentData := InherentData) (X := X) inherent_res)).

(** [Verifier::verify] *)
Definition verify (block_params : Params) : Mo Params :=
  let action := state_action block_params in
  if with_state action || skip_execution_checks action then
    mret (with_fork_choice (Custom (with_state action)) block_params)
  else
    seal ← ok_or (last (logs (header block_params))) NoDigest;
    let hdr := mkHeader (removelast (logs (header block_params))) (rest (header block_params)) in
    signature ← ok_or (as_nimbus_seal seal) HeaderUnsealed;
    claimed_author ← ok_or (verifier_author (logs hdr)) NoAuthorBytes;
    author ← ok_or (from_slice claimed_author) WrongLength;
    ensure (pair_verify author (header_hash hdr) signature) InvalidSignature ;;
    match body block_params with
    | Some inner_body => verify_inherents hdr inner_body
    | None => mret tt
    end ;;
    mret (mkImportParams (origin block_params) hdr (post_digests block_params ++ [seal])
      (body block_params) action (Some LongestChain) (create_gap block_params)).
End Verifier.

(** ** The nimbus block import *)
Section NimbusImport.
Context {W X CheckParams R Origin Hdr D Ext SA : Type}.
Context `{EqDecision Origin} `{BlockOrigins Origin}.

Abbreviation Params := (BlockImportParams Origin Hdr D Ext SA).

(** What [NimbusBlockImport::import_block] changes before it passes a block on. *)
Definition nimbus_params (with_delayed_best_block dont_create_gap : bool) (p : Params) : Params :=
  let initial_sync := bool_decide (origin p = NetworkInitialSync) in
  let p := if with_delayed_best_block then with_fork_choice (Custom initial_sync) p else p in
  if dont_create_gap && initial_sync then
    mkImportParams (origin p) (header p) (post_digests p) (body p) (state_action p)
      (fork_choice p) false
  else p.

Definition NimbusBlockImport (inner : BlockImport W X CheckParams R Params)
    (with_delayed_best_block dont_create_gap : bool) : BlockImport W X CheckParams R Params :=
  mkBlockImport (check_block inner)
    (fun block_import_params =>
       import_block inner (nimbus_params with_delayed_best_block dont_create_gap block_import_params)).
End NimbusImport.

(** ** The import of the slot-based collator *)

(** The runtime API object of a client: it executes a block against the state of its
    parent, recording a proof when told so. *)
Class ExecutionApi (W Hash Blk Api Recorder Proof StateBackend Changes X : Type) := {
  runtime_api : W -> Api;
  set_call_context_onchain : Api -> Api;
  record_proof : Api -> Api;
  proof_recorder : Api -> option Recorder;
  (** registers the [ProofSizeExt] of a recorder *)
  register_proof_size : Recorder -> Api -> Api;
  execute_block : Api -> Hash -> Blk -> X + Api;
  extract_proof : Api -> option (Proof * Api);
  state_at : W -> Hash -> X + StateBackend;
  into_storage_changes : Api -> StateBackend -> Hash -> X + Changes;
  transaction_storage_root : Changes -> Hash;
}.

(** A recorder is there once recording was turned on, and has a proof after the
    execution of a block. *)
Class ExecutionApiLaws (W Hash Blk Api Recorder Proof StateBackend Changes X : Type)
    `{ExecutionApi W Hash Blk Api Recorder Proof StateBackend Changes X} : Prop := {
  recorder_recording (api : Api) : exists r : Recorder, proof_recorder (record_proof api) = Some r;
  execute_extract (r : Recorder) (api api' : Api) h (b : Blk) :
    execute_block (register_proof_size r (record_proof api)) h b = inr api' ->
    exists pa : Proof * Api, extract_proof api' = Some pa;
}.

(** The sending end of the channel to the collation task. *)
Class Channel (W Msg : Type) := {
  is_closed : W -> bool;
  (** the result of the send is ignored *)
  unbounded_send : Msg -> W -> W;
}.

Inductive ImportError (X : Type) := InvalidStateRoot | ImportFailed (x : X).
Arguments InvalidStateRoot {X}.
Arguments ImportFailed {X} x.

Section SlotBasedImport.
Context {W X CheckParams R Origin Hdr D Ext SA Changes Hash : Type}.
Context {Api Recorder Proof StateBackend : Type}.
Context `{EqDecision Hash} `{StateActionOps SA Changes} `{HeaderOps Hdr Hash}.
Context `{!ExecutionApi W Hash (Block Hdr Ext) Api Recorder Proof StateBackend Changes X}.
Context `{!Channel W (Block Hdr Ext * Proof)}.
(** the state root of a header *)
Context (state_root : Hdr -> Hash).

Abbreviation Params := (BlockImportParams Origin Hdr D Ext SA).
Abbreviation Mo := (M W (ImportError X)).

Definition import_failed {A} (r : X + A) : ImportError X + A :=
  match r with inl x => inl (ImportFailed x) | inr a => inr a end.

(** Executes the block and sends it with its proof; returns the changes. *)
Definition execute_recording (block : Block Hdr Ext) : Mo Changes :=
  w ← gets id;
  let api := record_proof (set_call_context_onchain (runtime_api w)) in
  recorder ← expect (proof_recorder api);
  let api := register_proof_size recorder api in
  let parent := parent_hash block.1 in
  api ← try_ (import_failed (execute_block api parent block));
  '(storage_proof, api) ← expect (extract_proof (Proof := Proof) api);
  state ← try_ (import_failed (state_at w parent));
  gen_storage_changes ← try_ (import_failed (into_storage_changes api state parent));
  ensure (bool_decide (state_root block.1 = transaction_storage_root gen_storage_changes))
    InvalidStateRoot ;;
  modify (unbounded_send (block, storage_proof)) ;;
  mret gen_storage_changes.

Definition with_changes (c : Changes) (p : Params) : Params :=
  mkImportParams (origin p) (header p) (post_digests p) (body p) (ApplyChanges c) (fork_choice p)
    (create_gap p).

(** [SlotBasedBlockImport::import_block] *)
Definition slot_based_import (inner : Params -> M W X R) (params : Params) : Mo R :=
  closed ← gets is_closed;
  params ← (if negb closed && negb (is_apply_changes (state_action params)) then
              changes ← execute_recording (header params, default [] (body params));
              mret (with_changes changes params)
            else mret params);
  zoom id (fun w _ => w) ImportFailed (inner params).

Definition SlotBasedBlockImport (inner : BlockImport W X CheckParams R Params) :
    BlockImport W (ImportError X) CheckParams R Params :=
  mkBlockImport (fun block => zoom id (fun w _ => w) ImportFailed (check_block inner block))
    (slot_based_import (import_block inner)).
End SlotBasedImport.

(** ** Properties of the verifier *)
Section VerifierProperties.
Context {W D HeaderRest Hash NimbusId NimbusSignature Ext SA Changes Origin : Type}.
Context {Providers InherentData Res X : Type}.
Context `{!DigestItemOps D} `{!DigestItemLaws D} `{!Codec NimbusSignature}.
Context `{!HeaderOps (Header D HeaderRest) Hash} `{!StateActionOps SA Changes}.
Context `{!InherentProviders W Hash unit Providers InherentData X}.
Context `{!InherentCheck W Hash (Block (Header D HeaderRest) Ext) InherentData Res X}.
Context (from_slice : list Z -> option NimbusId).
Context (pair_verify : NimbusId -> Hash -> NimbusSignature -> bool).

Abbreviation Params := (BlockImportParams Origin (Header D HeaderRest) D Ext SA).
Abbreviation verify := (verify (W := W) (Ext := Ext) (Origin := Origin) (InherentData := InherentData)
  (Res := Res) (X := X) (Providers := Providers) from_slice pair_verify).
Abbreviation unseal := (verify_and_remove_seal (HeaderRest := HeaderRest) header_hash from_slice pair_verify).

(** The inherent checks of a block, if its body is there. *)
Definition inherents_pass (w : W) (hdr : Header D HeaderRest) (b : option (list Ext)) : Prop :=
  match b with
  | Some b => verify_inherents (W := W) (Providers := Providers) (InherentData := InherentData) (Res := Res)
      (X := X) hdr b w = Ok tt w
  | None => True
  end.

(** No consensus digest of nimbus. *)
Definition no_nimbus_consensus (digests : list D) : Prop :=
  Forall (fun d => forall data, as_consensus d <> Some (NIMBUS_ENGINE_ID, data)) digests.

(** Then the verifier reads the author the executor reads. *)
Lemma verifier_author_claimed digests :
  no_nimbus_consensus digests -> verifier_author digests = claimed_author digests.
Proof.
  unfold verifier_author, claimed_author. induction 1 as [|d digests Hd _ IH]; [done|]. simpl.
  unfold author_bytes at 1.
  destruct (as_consensus d) as [[i a]|] eqn:Hc.
  - rewrite bool_decide_false by (intros ->; by eapply Hd).
    destruct (as_consensus_or_pre_runtime d) as [|Hp]; [congruence|]. by rewrite Hp.
  - destruct (as_pre_runtime d) as [[i a]|] eqn:Hp; [|done]. rewrite filter_cons. simpl.
    case_bool_decide; [by rewrite decide_True|by rewrite decide_False].
Qed.

Lemma verify_inherents_state hdr b (w w' : W) u :
  verify_inherents (Providers := Providers) (InherentData := InherentData) (Res := Res)
    (X := X) hdr b w = Ok u w' -> w' = w.
Proof.
  unfold verify_inherents. intros Hv. inv_ok. destruct (inherent_res_ok _); inv_ok; done.
Qed.

Lemma check_body_Ok hdr b (w w' : W) u :
  match b with
  | Some inner_body => verify_inherents (Providers := Providers) (InherentData := InherentData)
      (Res := Res) (X := X) hdr inner_body
  | None => mret tt
  end w = Ok u w' -> inherents_pass w hdr b /\ w' = w.
Proof.
  destruct b as [b|]; simpl; [|by intros [= <- <-]]. destruct u. intros Hi.
  pose proof (verify_inherents_state _ _ _ _ _ Hi). by subst.
Qed.

(** What the verifier accepts. *)
Lemma verify_Ok (p p' : Params) (w w' : W) :
  with_state (state_action p) || skip_execution_checks (state_action p) = false ->
  verify p w = Ok p' w' <->
  w' = w /\ exists item b n sig, logs (header p) = logs (header p') ++ [item] /\
    rest (header p') = rest (header p) /\ as_nimbus_seal item = Some sig /\
    verifier_author (logs (header p')) = Some b /\ from_slice b = Some n /\
    pair_verify n (header_hash (header p')) sig = true /\
    inherents_pass w (header p') (body p) /\
    p' = mkImportParams (origin p) (header p') (post_digests p ++ [item]) (body p) (state_action p)
           (Some LongestChain) (create_gap p).
Proof.
  intros Hskip. unfold BlockImport.verify. rewrite Hskip.
  destruct p as [o [l r] pd bd sa fc cg]; simpl. split.
  - intros Hv. inv_ok. simpl in *.
    match goal with Hl : last l = Some ?s |- _ => apply last_Some in Hl as [lpre ->]; rename s into item end.
    rewrite removelast_last in *.
    match goal with Hi : _ = Ok _ ?x |- _ => apply check_body_Ok in Hi as [? ->] end.
    simpl. split; [done|]. eauto 12.
  - intros (-> & item & b & n & sig & Hl & Hr & Hs & Ha & Hn & Hp & Hi & Hp').
    destruct p' as [o' [l' r'] pd' bd' sa' fc' cg']; simpl in *. subst r' l.
    rewrite last_snoc. unfold mbind, M_bind, ok_or, ensure. rewrite removelast_last, Hs, Ha, Hn, Hp.
    rewrite Hp'. destruct bd; simpl in *; [by rewrite Hi|done].
Qed.

(** C27: the import queue and the executor agree on seals: a block that is to be executed
    and has no nimbus consensus digest passes the verifier exactly if the block executor
    accepts its header and its inherents check; what is passed on is the header the
    executor gets, with the seal as the last post-digest, the body unchanged and the
    longest chain as fork choice.  A block whose execution is skipped is passed on
    unchecked, as the best block exactly if it comes with its state. *)
Theorem verifier_matches_executor (p : Params) (w : W) :
  (with_state (state_action p) || skip_execution_checks (state_action p) = true ->
    verify p w = Ok (with_fork_choice (Custom (with_state (state_action p))) p) w) /\
  (with_state (state_action p) || skip_execution_checks (state_action p) = false ->
   no_nimbus_consensus (logs (header p)) -> forall p',
    verify p w = Ok p' w <->
    exists hdr seal, unseal (header p) = Some hdr /\ logs (header p) = logs hdr ++ [seal] /\
      inherents_pass w hdr (body p) /\
      p' = mkImportParams (origin p) hdr (post_digests p ++ [seal]) (body p) (state_action p)
             (Some LongestChain) (create_gap p)).
Proof.
  split.
  { intros Hskip. unfold BlockImport.verify. by rewrite Hskip. }
  intros Hskip Hcons p'. rewrite verify_Ok by done.
  assert (Hsub : forall l item, logs (header p) = l ++ [item] -> verifier_author l = claimed_author l).
  { intros l item Hl. apply verifier_author_claimed. unfold no_nimbus_consensus in *.
    rewrite Hl in Hcons. by apply Forall_app in Hcons as [? _]. }
  split.
  - intros (_ & item & b & n & sig & Hl & Hr & Hs & Ha & Hn & Hp & Hi & Hp').
    exists (header p'), item. rewrite verify_and_remove_seal_Some. erewrite Hsub in Ha by done.
    split_and!; try done. eauto 12.
  - intros (hdr & seal & Hu & Hl & Hi & ->). split; [done|]. simpl.
    apply verify_and_remove_seal_Some in Hu as (item & b & n & sig & Hl' & Hr & Hs & Ha & Hn & Hp).
    rewrite Hl in Hl'. apply app_inj_tail in Hl' as [_ <-].
    exists seal, b, n, sig. erewrite Hsub by done. split_and!; done.
Qed.
End VerifierProperties.

(** ** Properties of the slot-based import *)
Section SlotBasedProperties.
Context {W X R Origin Hdr D Ext SA Changes Hash : Type}.
Context {Api Recorder Proof StateBackend : Type}.
Context `{!EqDecision Hash} `{!StateActionOps SA Changes} `{!StateActionLaws SA Changes}.
Context `{!HeaderOps Hdr Hash}.
Context `{!ExecutionApi W Hash (Block Hdr Ext) Api Recorder Proof StateBackend Changes X}.
Context `{!ExecutionApiLaws W Hash (Block Hdr Ext) Api Recorder Proof StateBackend Changes X}.
Context `{!Channel W (Block Hdr Ext * Proof)}.
Context (state_root : Hdr -> Hash).

Abbreviation Params := (BlockImportParams Origin Hdr D Ext SA).

(** Executing the block on its parent, with recording, gives these changes and proof. *)
Definition executes (w : W) (block : Block Hdr Ext) (changes : Changes) (proof : Proof) : Prop :=
  exists (recorder : Recorder) (api api' : Api) (state : StateBackend),
    proof_recorder (record_proof (set_call_context_onchain (runtime_api w))) = Some recorder /\
    execute_block (register_proof_size recorder
      (record_proof (set_call_context_onchain (runtime_api w)))) (parent_hash block.1) block = inr api /\
    extract_proof api = Some (proof, api') /\
    state_at w (parent_hash block.1) = inr state /\
    into_storage_changes api' state (parent_hash block.1) = inr changes.

Local Ltac refute := split; [done|]; intros ? ? (?&?&?&?&?&?&?&?&?); congruence.

Lemma execute_recording_spec (block : Block Hdr Ext) (w : W) :
  match execute_recording (Proof := Proof) state_root block w with
  | Ok changes w' => exists proof : Proof, executes w block changes proof /\
      state_root block.1 = transaction_storage_root changes /\ w' = unbounded_send (block, proof) w
  | Err InvalidStateRoot w' => w' = w /\ exists changes (proof : Proof), executes w block changes proof /\
      state_root block.1 <> transaction_storage_root changes
  | Err (ImportFailed _) w' => w' = w /\ forall changes (proof : Proof), ~ executes w block changes proof
  | Panic => False
  end.
Proof.
  unfold execute_recording, executes. unfold_M. unfold id, import_failed.
  destruct (recorder_recording (set_call_context_onchain (runtime_api w))) as [rec Hrec]. rewrite Hrec.
  destruct (execute_block _ _ _) as [x|api] eqn:Hex; [refute|].
  destruct (execute_extract _ _ _ _ _ Hex) as [[proof api'] Hpr]. rewrite Hpr.
  destruct (state_at _ _) as [x|st] eqn:Hst; [refute|].
  destruct (into_storage_changes _ _ _) as [x|changes] eqn:Hch; [refute|].
  destruct (decide (state_root block.1 = transaction_storage_root changes)) as [Hr|Hr].
  - rewrite bool_decide_true by done. exists proof. split; [|done]. eauto 10.
  - rewrite bool_decide_false by done. split; [done|]. eauto 14.
Qed.

(** The slot-based import executes each block at most once and sends its proof
    exactly when it does: with a closed channel or known changes a block reaches the
    inner import as it is; otherwise it is executed on its parent, reaches the inner
    import with the changes of that execution and is sent with its proof if its state
    root is the one executed, and is refused without reaching the inner import if the
    roots differ or the execution fails.  Only the inner import can panic. *)
Theorem executed_once (inner : Params -> M W X R) (p : Params) (w : W) :
  let block := (header p, default [] (body p)) in
  let passes := is_closed (W := W) (Msg := Block Hdr Ext * Proof) w || is_apply_changes (state_action p) in
  slot_based_import (Proof := Proof) state_root inner p w =
    zoom id (fun w _ => w) ImportFailed (inner p) w /\ passes = true \/
  passes = false /\
  ((exists changes (proof : Proof), executes w block changes proof /\
     if decide (state_root (header p) = transaction_storage_root changes) then
       is_apply_changes (state_action (with_changes changes p)) = true /\
       slot_based_import (Proof := Proof) state_root inner p w =
         zoom id (fun w _ => w) ImportFailed (inner (with_changes changes p))
           (unbounded_send (block, proof) w)
     else slot_based_import (Proof := Proof) state_root inner p w = Err InvalidStateRoot w) \/
   (forall changes (proof : Proof), ~ executes w block changes proof) /\
   exists x, slot_based_import (Proof := Proof) state_root inner p w = Err (ImportFailed x) w).
Proof.
  intros block passes. unfold passes, slot_based_import. unfold mbind, M_bind, gets.
  destruct (is_closed w); [by left|]. destruct (is_apply_changes (state_action p)); [by left|].
  simpl. right. split; [done|]. pose proof (execute_recording_spec block w) as He. fold block.
  destruct (execute_recording _ _ _) as [changes w'|[|x] w'|]; [..|done].
  - destruct He as (proof & He & Hr & ->). left. exists changes, proof. split; [done|].
    rewrite decide_True by done. split; [|done]. simpl. by rewrite is_apply_changes_ApplyChanges.
  - destruct He as (-> & changes & proof & He & Hr). left. exists changes, proof. split; [done|].
    by rewrite decide_False.
  - destruct He as [-> He]. right. split; [done|]. eauto.
Qed.
End SlotBasedProperties.

(** ** Concrete instances: the parent's hash is one less, known changes are numbers, the
    inherents always check, and executing a block changes the root to its number. *)
Section Witnesses.
#[local] Existing Instance fixed_codec.
#[local] Existing Instance fixed_codec_laws.

#[local] Instance sample_header : HeaderOps (Header Item Z) Z := {|
  header_hash := sample_hash;
  number := rest;
  parent_hash h := rest h - 1;
|}.

#[local] Instance sample_action : StateActionOps (option Z) Z := {|
  ApplyChanges := Some;
  is_apply_changes a := match a with Some _ => true | None => false end;
  skip_execution_checks _ := false;
  with_state _ := false;
|}.

#[local] Instance sample_providers : InherentProviders unit Z unit unit unit unit := {|
  create_inherent_data_providers _ _ _ := inr tt;
  create_inherent_data _ _ := inr tt;
  try_handle_error _ _ _ _ := None;
|}.

#[local] Instance sample_check : InherentCheck unit Z (Block (Header Item Z) Z) unit bool unit := {|
  check_inherents _ _ b _ := inr (bool_decide (b.2 = []));
  inherent_res_ok r := r;
  into_errors _ := [([7], [8])];
|}.

Definition sample_params : BlockImportParams unit (Header Item Z) Item Z (option Z) :=
  mkImportParams tt (mkHeader (sample_logs ++ [nimbus_seal 14]) 9) [] (Some []) None None true.

Lemma verifier_matches_executor_witness :
  verify (W := unit) (Res := bool) (X := unit) (Providers := unit) (InherentData := unit)
    sample_from_slice sample_verify sample_params tt =
  Ok (mkImportParams tt (mkHeader sample_logs 9) [nimbus_seal 14] (Some []) None (Some LongestChain) true) tt.
Proof.
  apply (verifier_matches_executor (Res := bool) (X := unit) (Providers := unit) (InherentData := unit)
    sample_from_slice sample_verify sample_params tt); [reflexivity| |].
  - repeat constructor; intros data; discriminate.
  - exists (mkHeader sample_logs 9), (nimbus_seal 14). split; [reflexivity|].
    split; [reflexivity|]. split; reflexivity.
Defined.

#[local] Instance sample_action_laws : StateActionLaws (option Z) Z.
Proof. by split. Qed.

#[local] Instance sample_execution :
  ExecutionApi (list (Block (Header Item Z) Z * Z)) Z (Block (Header Item Z) Z) bool unit Z unit Z unit := {|
  runtime_api _ := false;
  set_call_context_onchain api := api;
  record_proof _ := true;
  proof_recorder api := if api then Some tt else None;
  register_proof_size _ api := api;
  execute_block api _ _ := inr api;
  extract_proof api := if api then Some (77, api) else None;
  state_at _ _ := inr tt;
  into_storage_changes _ _ h := inr (h + 1);
  transaction_storage_root c := c;
|}.

#[local] Instance sample_execution_laws :
  ExecutionApiLaws (list (Block (Header Item Z) Z * Z)) Z (Block (Header Item Z) Z) bool unit Z unit Z unit.
Proof.
  split.
  - intros api. by exists tt.
  - intros r api api' h b He. simpl in He. injection He as <-. by eexists.
Qed.

#[local] Instance sample_channel :
  Channel (list (Block (Header Item Z) Z * Z)) (Block (Header Item Z) Z * Z) := {|
  is_closed _ := false;
  unbounded_send m w := w ++ [m];
|}.

Lemma executed_once_witness :
  slot_based_import (Proof := Z) rest (fun p w => Ok (state_action p) w) sample_params [] =
  Ok (Some 9) [((header sample_params, []), 77)].
Proof.
  destruct (executed_once (Proof := Z) rest (fun p w => Ok (state_action p) w) sample_params [])
    as [[_ Hp]|[_ [(c & pr & (r & api & api' & st & _ & H1 & H2 & _ & H3) & Hd)|[_ [x Hx]]]]].
  - vm_compute in Hp. discriminate.
  - vm_compute in H1, H2, H3. injection H1 as <-. injection H2 as <- <-. injection H3 as <-.
    vm_compute in Hd. destruct Hd as [_ Hd]. exact Hd.
  - vm_compute in Hx. discriminate.
Defined.
End Witnesses.
