(* ===== verification/BlockProduction.v ===== *)
(** * Producing blocks
    ([client/consensus/nimbus-consensus/src/{proposer,collator,manual_seal}.rs])

    A collator proposes a block with the nimbus pre-digest of its claim, seals it,
    imports it and turns it into a collation; with manual seal the consensus data
    provider supplies the pre-digest and the seal.  Proposing, recording the storage
    proof, importing and building collations belong to code outside the repository:
    classes over the world [W], whose operations are handlers of the monad [M]. *)
From Stdlib Require Import ZArith Lia.
From stdpp Require Import prelude.
From S2P Require Import Prelude.
From S2P Require Import Interfaces.
From S2P Require Import NimbusPrimitives.
From S2P Require Import AuthorInherent.
From S2P Require Import ClaimSlot.
From S2P Require Import BlockImport.

Local Open Scope Z_scope.

(** ** The proposer *)

(** [ProposeArgs] *)
Record ProposeArgs (InherentData D Recorder Extensions : Type) := mkProposeArgs {
  inherent_data : InherentData;
  inherent_digests : list D;
  max_duration : Z;
  block_size_limit : option Z;
  storage_proof_recorder : option Recorder;
  extra_extensions : Extensions;
}.
Arguments mkProposeArgs {_ _ _ _} _ _ _ _ _ _.
Arguments inherent_data {_ _ _ _} _.
Arguments inherent_digests {_ _ _ _} _.
Arguments max_duration {_ _ _ _} _.
Arguments block_size_limit {_ _ _ _} _.
Arguments storage_proof_recorder {_ _ _ _} _.
Arguments extra_extensions {_ _ _ _} _.

(** [Proposal]: a block and the changes of its execution *)
Record Proposal (Blk Changes : Type) := mkProposal {
  proposal_block : Blk;
  storage_changes : Changes;
}.
Arguments mkProposal {_ _} _ _.
Arguments proposal_block {_ _} _.
Arguments storage_changes {_ _} _.

(** [Environment], which creates a [Proposer] for a parent, with that proposer. *)
Class Environment (W Hdr Proposer Args Prop_ X : Type) := {
  init : Hdr -> M W X Proposer;
  proposer_propose : Proposer -> Args -> M W X Prop_;
}.

(** [InherentDataProvider] of the parachain inherent data *)
Class ParasInherents (W Paras InherentData X : Type) :=
  provide_inherent_data : W -> Paras -> InherentData -> X + InherentData.

(** [proposer::Error] *)
Inductive ProposerError (X : Type) := ProposerCreation (x : X) | Proposing (x : X).
Arguments ProposerCreation {X} x.
Arguments Proposing {X} x.

(** [ProposerInterface] *)
Class ProposerInterface (W Hdr Paras InherentData D Recorder Extensions Prop_ X : Type) :=
  propose : Hdr -> Paras -> InherentData -> list D -> Z -> option Z -> option Recorder ->
    Extensions -> M W (ProposerError X) Prop_.

Section Factory.
Context {W Hdr Paras InherentData D Recorder Extensions Prop_ Proposer X : Type}.
Context `{Environment W Hdr Proposer (ProposeArgs InherentData D Recorder Extensions) Prop_ X}.
Context `{ParasInherents W Paras InherentData X}.

(** [r.map_err(f)?] *)
Definition map_err {E E' A} (f : E -> E') (m : M W E A) : M W E' A := zoom id (fun w _ => w) f m.

(** [ProposerInterface for ProposerFactory] *)
#[global] Instance ProposerFactory :
    ProposerInterface W Hdr Paras InherentData D Recorder Extensions Prop_ X :=
  fun parent_header paras_inherent_data other_inherent_data inherent_digests max_duration
      block_size_limit storage_proof_recorder extra_extensions =>
    proposer ← map_err ProposerCreation (init parent_header);
    w ← gets id;
    inherent_data ← map_err Proposing
      (try_ (provide_inherent_data w paras_inherent_data other_inherent_data));
    map_err Proposing (proposer_propose proposer
      (mkProposeArgs inherent_data inherent_digests max_duration block_size_limit
        storage_proof_recorder extra_extensions)).
End Factory.

(** ** The collator's interfaces *)

(** [PersistedValidationData] *)
Record PersistedValidationData (RHash : Type) := mkValidationData {
  parent_head : list Z;
  relay_parent_number : Z;
  relay_parent_storage_root : RHash;
  max_pov_size : Z;
}.
Arguments mkValidationData {_} _ _ _ _.
Arguments parent_head {_} _.
Arguments relay_parent_number {_} _.
Arguments relay_parent_storage_root {_} _.
Arguments max_pov_size {_} _.

(** [RelayProofRequest]: the keys of the top trie; the code asks for no others. *)
Inductive RelayStorageKey := Top (key : list Z).

(** [ParachainInherentDataProvider::create_at] *)
Class ParasProvider (W RHash RH Paras PeerId : Type) :=
  create_at : W -> RHash -> PersistedValidationData RHash -> Z -> list RH -> list RelayStorageKey ->
    PeerId -> option Paras.

(** [InherentData::replace_data] with a timestamp *)
Class ReplaceData (InherentData : Type) :=
  replace_timestamp : Z -> InherentData -> InherentData.

(** A proof recorder is a handle to a part of the world. *)
Class ProofRecorders (W Recorder Proof Extensions : Type) := {
  new_recorder : W -> Recorder * W;
  (** the extensions with the [ProofSizeExt] of the recorder *)
  proof_size_extensions : Recorder -> Extensions;
  drain_storage_proof : Recorder -> W -> Proof * W;
}.

(** [Keystore::sign_with] for nimbus keys; [None] is an error, a missing key, or a
    signature of another length. *)
Class Keystore (W NimbusId Hash NimbusSignature : Type) :=
  sign_with : W -> NimbusId -> Hash -> option NimbusSignature.

(** [BlockImportParams::new] and [post_header] *)
Class ImportParamsOps (P Origin Hdr : Type) := {
  new_params : Origin -> Hdr -> P;
  post_header : P -> Hdr;
}.

(** [ParachainCandidate] *)
Record ParachainCandidate (Blk Proof : Type) := mkCandidate {
  candidate_block : Blk;
  candidate_proof : Proof;
}.
Arguments mkCandidate {_ _} _ _.
Arguments candidate_block {_ _} _.
Arguments candidate_proof {_ _} _.

(** [CollatorServiceInterface::build_collation] *)
Class CollatorService (W Hdr Hash Candidate Collation BlockData : Type) :=
  build_collation : W -> Hdr -> Hash -> Candidate -> option (Collation * BlockData).

(** What the collator's methods return as errors. *)
Inductive CollatorError (RHash X : Type) :=
  | NoParasInherent (relay_parent : RHash)
  | ProposeFailed (e : ProposerError X)
  | Boxed (x : X)
  | UnableToProduceCollation.
Arguments NoParasInherent {RHash X} relay_parent.
Arguments ProposeFailed {RHash X} e.
Arguments Boxed {RHash X} x.
Arguments UnableToProduceCollation {RHash X}.

(** ** The collator *)
Section Collator.
Context {W D HeaderRest Hash RH RHash NimbusId NimbusSignature Ext SA Changes Origin : Type}.
Context {Paras InherentData Providers Ctx Recorder Extensions Proof PeerId X R CheckParams : Type}.
Context {Collation BlockData : Type}.
Abbreviation Hdr := (Header D HeaderRest).
Abbreviation Blk := (Block Hdr Ext).
Abbreviation Params := (BlockImportParams Origin Hdr D Ext SA).
Context `{DigestItemOps D} `{Codec NimbusId} `{Codec NimbusSignature} `{HeaderOps Hdr Hash}.
Context `{StateActionOps SA Changes} `{BlockOrigins Origin}.
Context `{ProposerInterface W Hdr Paras InherentData D Recorder Extensions (Proposal Blk Changes) X}.
Context `{InherentProviders W Hash Ctx Providers InherentData X} `{ReplaceData InherentData}.
Context `{ParasProvider W RHash RH Paras PeerId} `{ProofRecorders W Recorder Proof Extensions}.
Context `{Keystore W NimbusId Hash NimbusSignature} `{ImportParamsOps Params Origin Hdr}.
Context `{CollatorService W Hdr Hash (ParachainCandidate Blk Proof) Collation BlockData}.
(** the parachain's id, and the block import the collator was given *)
Context (para_id : Z) (block_import : BlockImport W X CheckParams R Params).

Abbreviation Mo := (M W (CollatorError RHash X)).

(** [create_inherent_data_with_rp_offset] *)
Definition create_inherent_data_with_rp_offset (relay_parent : RHash)
    (validation_data : PersistedValidationData RHash) (parent_hash : Hash) (timestamp : option Z)
    (relay_parent_descendants : option (RelayParentData RH))
    (additional_relay_state_keys : list (list Z)) (collator_peer_id : PeerId) (cidp_context : Ctx) :
    Mo (Paras * InherentData) :=
  w ← gets id;
  paras_inherent_data ← ok_or
    (create_at w relay_parent validation_data para_id
      (default [] (into_inherent_descendant_list <$> relay_parent_descendants))
      (map Top additional_relay_state_keys) collator_peer_id)
    (NoParasInherent relay_parent);
  providers ← map_err Boxed (try_ (create_inherent_data_providers (InherentData := InherentData)
    w parent_hash cidp_context));
  other_inherent_data ← map_err Boxed (try_ (create_inherent_data (Hash := Hash) (Ctx := Ctx)
    w providers));
  mret (paras_inherent_data,
        match timestamp with
        | Some timestamp => replace_timestamp timestamp other_inherent_data
        | None => other_inherent_data
        end).

(** [create_inherent_data] *)
Definition create_collator_inherent_data (relay_parent : RHash)
    (validation_data : PersistedValidationData RHash) (parent_hash : Hash) (timestamp : option Z)
    (additional_relay_state_keys : list (list Z)) (collator_peer_id : PeerId) (cidp_context : Ctx) :
    Mo (Paras * InherentData) :=
  create_inherent_data_with_rp_offset relay_parent validation_data parent_hash timestamp None
    additional_relay_state_keys collator_peer_id cidp_context.

(** [seal] *)
Definition seal (pre_sealed : Blk) (changes : Changes) (author_pub : NimbusId) : Mo Params :=
  let (pre_header, body) := pre_sealed in
  w ← gets id;
  seal_digest ← expect (seal_header header_hash (sign_with w) pre_header author_pub);
  let p : Params := new_params Own pre_header in
  mret (mkImportParams (origin p) (header p) (post_digests p ++ [seal_digest]) (Some body)
    (ApplyChanges changes) (Some LongestChain) (create_gap p)).

(** [build_block_and_import] *)
Definition build_block_and_import (parent_header : Hdr) (slot_claim : SlotClaim NimbusId)
    (additional_pre_digest : option (list D)) (inherent_data : Paras * InherentData)
    (proposal_duration max_pov_size : Z) : Mo (option (ParachainCandidate Blk Proof)) :=
  let logs := [nimbus_pre_digest (author_id slot_claim)] ++ default [] additional_pre_digest in
  w ← gets id;
  let (storage_proof_recorder, w) := new_recorder w in
  modify (fun _ => w) ;;
  proposal ← map_err ProposeFailed (propose parent_header inherent_data.1 inherent_data.2 logs
    proposal_duration (Some max_pov_size) (Some storage_proof_recorder)
    (proof_size_extensions storage_proof_recorder));
  w ← gets id;
  let (proof, w) := drain_storage_proof storage_proof_recorder w in
  modify (fun _ => w) ;;
  sealed_importable ← seal (proposal_block proposal) (storage_changes proposal) (author_id slot_claim);
  body ← expect (body sealed_importable);
  let block := (post_header sealed_importable, body) in
  map_err Boxed (import_block block_import sealed_importable) ;;
  mret (Some (mkCandidate block proof)).

(** [collate] *)
Definition collate (parent_header : Hdr) (slot_claim : SlotClaim NimbusId)
    (additional_pre_digest : option (list D)) (inherent_data : Paras * InherentData)
    (proposal_duration max_pov_size : Z) : Mo (option (Collation * BlockData)) :=
  maybe_candidate ← build_block_and_import parent_header slot_claim additional_pre_digest
    inherent_data proposal_duration max_pov_size;
  match maybe_candidate with
  | None => mret None
  | Some candidate =>
      let hash := header_hash (candidate_block candidate).1 in
      w ← gets id;
      collation ← ok_or (build_collation w parent_header hash candidate) UnableToProduceCollation;
      mret (Some collation)
  end.
End Collator.

(** ** Manual seal *)

(** [InherentData::get_data] of the parachain inherent: [None] if it does not decode,
    [Some None] if it is missing; and the relay parent's number in it. *)
Class MockedInherents (InherentData Paras : Type) := {
  get_paras_data : InherentData -> option (option Paras);
  paras_relay_parent_number : Paras -> Z;
}.

(** the two errors of the provider *)
Inductive ManualSealError := InvalidNimbusId | NoNimbusKeys.

Section ManualSeal.
Context {W D HeaderRest Hash NimbusId NimbusSignature Version Ext SA Origin : Type}.
Context {InherentData Paras DP : Type}.
Abbreviation Hdr := (Header D HeaderRest).
Abbreviation Params := (BlockImportParams Origin Hdr D Ext SA).
Context `{DigestItemOps D} `{Codec NimbusId} `{Codec NimbusSignature} `{HeaderOps Hdr Hash}.
Context `{ParaClient W Hdr Hash NimbusId Version} `{Keystore W NimbusId Hash NimbusSignature}.
Context `{DigestsProvider DP NimbusId Hash D} `{MockedInherents InherentData Paras}.
Context (from_slice : list Z -> option NimbusId) (additional_digests_provider : DP).

Abbreviation Mo := (M W ManualSealError).

(** [create_digest] *)
Definition create_digest (parent : Hdr) (inherents : InherentData) : Mo (list D) :=
  data ← expect (get_paras_data (Paras := Paras) inherents);
  data ← expect data;
  let slot_number := paras_relay_parent_number (InherentData := InherentData) data in
  w ← gets id;
  match first_eligible_key (PH := Hdr) (Hash := Hash) (Version := Version) from_slice w parent slot_number with
  | Some key =>
      nimbus_id ← ok_or (from_slice key) InvalidNimbusId;
      mret ([nimbus_pre_digest nimbus_id]
        ++ provide_digests additional_digests_provider nimbus_id (header_hash parent))
  | None => fail NoNimbusKeys
  end.

(** [append_block_import]; the argument is [&mut], the result its new value. *)
Definition append_block_import (params : Params) : Mo Params :=
  claimed_author ← expect (claimed_author (logs (header params)));
  nimbus_public ← ok_or (from_slice claimed_author) InvalidNimbusId;
  w ← gets id;
  sig_digest ← expect (seal_header header_hash (sign_with w) (header params) nimbus_public);
  mret (mkImportParams (origin params) (header params) (post_digests params ++ [sig_digest])
    (body params) (state_action params) (fork_choice params) (create_gap params)).
End ManualSeal.

(** ** The documented behaviour of the interfaces *)

(** A proposer puts the given digests first. *)
Class EnvironmentLaws (W D HeaderRest Ext Proposer InherentData Recorder Extensions Changes X : Type)
    `{Environment W (Header D HeaderRest) Proposer (ProposeArgs InherentData D Recorder Extensions)
        (Proposal (Block (Header D HeaderRest) Ext) Changes) X} : Prop := {
  proposer_digests (proposer : Proposer) args w
      (proposal : Proposal (Block (Header D HeaderRest) Ext) Changes) w' :
    proposer_propose (Hdr := Header D HeaderRest) proposer args w = Ok proposal w' ->
    exists more, logs (proposal_block proposal).1 = inherent_digests args ++ more;
}.

Class ProposerLaws (W D HeaderRest Ext Paras InherentData Recorder Extensions Changes X : Type)
    `{ProposerInterface W (Header D HeaderRest) Paras InherentData D Recorder Extensions
        (Proposal (Block (Header D HeaderRest) Ext) Changes) X} : Prop := {
  propose_digests parent paras inherents digests duration limit recorder extensions w
      (proposal : Proposal (Block (Header D HeaderRest) Ext) Changes) w' :
    propose (Recorder := Recorder) (Extensions := Extensions) (X := X) (parent : Header D HeaderRest)
      (paras : Paras) (inherents : InherentData) digests duration limit recorder extensions w
      = Ok proposal w' ->
    exists more, logs (proposal_block proposal).1 = digests ++ more;
}.

Class ImportParamsLaws (Origin D HeaderRest Ext SA : Type)
    `{ImportParamsOps (BlockImportParams Origin (Header D HeaderRest) D Ext SA) Origin (Header D HeaderRest)} :
    Prop := {
  new_params_header o (h : Header D HeaderRest) :
    header (new_params o h : BlockImportParams Origin (Header D HeaderRest) D Ext SA) = h;
  new_params_post_digests o (h : Header D HeaderRest) :
    post_digests (new_params o h : BlockImportParams Origin (Header D HeaderRest) D Ext SA) = [];
  (** the header with the post-digests *)
  post_header_spec (p : BlockImportParams Origin (Header D HeaderRest) D Ext SA) :
    post_header p = mkHeader (logs (header p) ++ post_digests p) (rest (header p));
}.

(** The signatures of the keystore verify, and the encoding of an id is its bytes. *)
Class KeystoreLaws (W NimbusId Hash NimbusSignature : Type) `{Codec NimbusId}
    `{Keystore W NimbusId Hash NimbusSignature} (from_slice : list Z -> option NimbusId)
    (verify : NimbusId -> Hash -> NimbusSignature -> bool) : Prop := {
  sign_verify w n h sig : sign_with w n h = Some sig -> verify n h sig = true;
  from_slice_encode n : from_slice (encode n) = Some n;
}.

(** The proposer factory keeps the promise of the environment's proposers. *)
#[export] Instance ProposerFactory_laws
    {W D HeaderRest Ext Proposer Paras InherentData Recorder Extensions Changes X : Type}
    `{EnvironmentLaws W D HeaderRest Ext Proposer InherentData Recorder Extensions Changes X}
    `{ParasInherents W Paras InherentData X} :
  ProposerLaws W D HeaderRest Ext Paras InherentData Recorder Extensions Changes X.
Proof.
  split. intros parent paras inh digests duration limit rec ext w proposal w'.
  unfold propose, ProposerFactory, map_err. intros Hp. inv_ok.
  repeat match goal with Hz : zoom _ _ _ _ _ = Ok _ _ |- _ => apply zoom_Ok in Hz as (? & Hz & ->) end.
  match goal with Hz : proposer_propose _ _ _ = Ok _ _ |- _ =>
    apply proposer_digests in Hz as [more ->] end. by exists more.
Qed.

(** ** Properties of the collator *)
Section CollatorProperties.
Context {W D HeaderRest Hash RHash NimbusId NimbusSignature Ext SA Changes Origin : Type}.
Context {Paras InherentData Recorder Extensions Proof X R CheckParams : Type}.
Context {Collation BlockData : Type}.
Abbreviation Hdr := (Header D HeaderRest).
Abbreviation Blk := (Block Hdr Ext).
Abbreviation Params := (BlockImportParams Origin Hdr D Ext SA).
Context `{!DigestItemOps D} `{!DigestItemLaws D} `{!Codec NimbusId}.
Context `{!Codec NimbusSignature} `{!CodecLaws NimbusSignature} `{!HeaderOps Hdr Hash}.
Context `{!StateActionOps SA Changes} `{!BlockOrigins Origin}.
Context `{!ProposerInterface W Hdr Paras InherentData D Recorder Extensions (Proposal Blk Changes) X}.
Context `{!ProposerLaws W D HeaderRest Ext Paras InherentData Recorder Extensions Changes X}.
Context `{!ProofRecorders W Recorder Proof Extensions}.
Context `{!Keystore W NimbusId Hash NimbusSignature}.
Context `{!ImportParamsOps Params Origin Hdr} `{!ImportParamsLaws Origin D HeaderRest Ext SA}.
Context `{!CollatorService W Hdr Hash (ParachainCandidate Blk Proof) Collation BlockData}.
Context (from_slice : list Z -> option NimbusId).
Context (verify : NimbusId -> Hash -> NimbusSignature -> bool).
Context `{!KeystoreLaws W NimbusId Hash NimbusSignature from_slice verify}.
Context (block_import : BlockImport W X CheckParams R Params).

Abbreviation unseal := (verify_and_remove_seal (HeaderRest := HeaderRest) header_hash from_slice verify).
Abbreviation build := (build_block_and_import (RHash := RHash) (NimbusSignature := NimbusSignature)
  (Recorder := Recorder) (Extensions := Extensions) (Changes := Changes) block_import).

Lemma claimed_author_pre_digest (n : NimbusId) (l : list D) :
  claimed_author (nimbus_pre_digest n :: l) = Some (encode n).
Proof.
  unfold claimed_author. cbn [omap list_omap]. unfold nimbus_pre_digest.
  rewrite as_pre_runtime_PreRuntime, filter_cons_True by done. done.
Qed.

Lemma zoom_id_Ok {E E' A} (f : E -> E') (m : M W E A) w a w' : map_err f m w = Ok a w' <-> m w = Ok a w'.
Proof. unfold map_err, zoom. simpl. destruct (m w); simpl; naive_solver. Qed.

(** A sealed block: what goes into the import. *)
Lemma seal_Ok (h : Hdr) (b : list Ext) changes (n : NimbusId) (w w' : W) (p : Params) :
  seal (RHash := RHash) (X := X) (h, b) changes n w = Ok p w' ->
  w' = w /\ exists seal_digest, seal_header header_hash (sign_with w) h n = Some seal_digest /\
    post_header p = mkHeader (logs h ++ [seal_digest]) (rest h) /\ body p = Some b /\
    state_action p = ApplyChanges changes /\ fork_choice p = Some LongestChain.
Proof.
  unfold seal. intros Hs. inv_ok. split; [done|]. eexists. split; [done|].
  rewrite post_header_spec. simpl. by rewrite new_params_header, new_params_post_digests.
Qed.

(** A block that carries the pre-digest of [n] first and is sealed with its key. *)
Lemma sealed_accepted (h : Hdr) (n : NimbusId) (l : list D) (w : W) seal_digest :
  logs h = nimbus_pre_digest n :: l -> seal_header header_hash (sign_with w) h n = Some seal_digest ->
  unseal (mkHeader (logs h ++ [seal_digest]) (rest h)) = Some h.
Proof.
  intros Hl Hs. eapply (seal_accepted header_hash from_slice verify (sign_with w)); [..|exact Hs].
  - intros pk m sig. apply sign_verify.
  - rewrite Hl. apply claimed_author_pre_digest.
  - apply from_slice_encode.
Qed.

(** What a collator has built: the author's pre-digest, the additional digests and those
    of the runtime, then the seal that the executor accepts. *)
Definition built_by (n : NimbusId) (additional : list D) (block : Blk) : Prop :=
  exists proposed more seal_digest, logs proposed = nimbus_pre_digest n :: additional ++ more /\
    claimed_author (logs proposed) = Some (encode n) /\
    block.1 = mkHeader (logs proposed ++ [seal_digest]) (rest proposed) /\
    unseal block.1 = Some proposed.

(** and imported: the import that led to the state [w'] had the block's header and body. *)
Definition imported (block : Blk) (w' : W) : Prop :=
  exists (p : Params) w1 r, import_block block_import p w1 = Ok r w' /\ post_header p = block.1 /\
    body p = Some block.2 /\ fork_choice p = Some LongestChain.

(** Where a block comes from: the proposer made it on [parent] out of [inherents]. *)
Definition proposed_from (parent : Hdr) (inherents : Paras * InherentData) (block : Blk) : Prop :=
  exists proposed changes digests duration limit recorder extensions w1 w2,
    propose (Recorder := Recorder) (Extensions := Extensions) (X := X) parent inherents.1 inherents.2
      digests duration limit recorder extensions w1
      = Ok (mkProposal (proposed, block.2) (changes : Changes)) w2 /\
    unseal block.1 = Some proposed.

Lemma build_spec parent claim additional (inherents : Paras * InherentData) duration limit (w w' : W) o :
  build parent claim additional inherents duration limit w = Ok o w' ->
  exists c : ParachainCandidate Blk Proof, o = Some c /\
    built_by (author_id claim) (default [] additional) (candidate_block c) /\
    imported (candidate_block c) w' /\
    proposed_from parent inherents (candidate_block c).
Proof.
  unfold build_block_and_import. intros Hb. repeat inv_ok_step.
  repeat match goal with
  | Hx : (let (_, _) := ?x in _) _ = Ok _ _ |- _ => destruct x; repeat inv_ok_step
  | Hx : match ?x with (_, _) => _ end _ = Ok _ _ |- _ => destruct x; repeat inv_ok_step
  end.
  repeat match goal with Hx : map_err _ _ _ = Ok _ _ |- _ => apply zoom_id_Ok in Hx end.
  match goal with Hx : propose _ _ _ _ _ _ _ _ _ = Ok ?x _ |- _ =>
    pose proof Hx as Hprop; apply propose_digests in Hx as [more Hm]; destruct x as [[h b] ch] end.
  simpl in *.
  match goal with Hx : _ = Ok _ _ |- _ =>
    apply seal_Ok in Hx as (-> & sd & Hsd & Hpost & Hbody & _ & Hfork) end.
  eexists. split; [done|]. simpl. simplify_eq.
  assert (Hu : unseal (mkHeader (logs h ++ [sd]) (rest h)) = Some h) by (by eapply sealed_accepted).
  split; [|split].
  - exists h, more, sd. split; [done|]. split; [rewrite Hm; apply claimed_author_pre_digest|].
    by rewrite Hpost.
  - unfold imported. eauto 8.
  - exists h, ch. simpl. rewrite Hpost. eauto 12.
Qed.

Lemma build_Ok parent claim additional (inherents : Paras * InherentData) duration limit (w w' : W) o :
  build parent claim additional inherents duration limit w = Ok o w' ->
  exists c : ParachainCandidate Blk Proof, o = Some c /\
    built_by (author_id claim) (default [] additional) (candidate_block c) /\
    imported (candidate_block c) w'.
Proof. intros (c & ? & ? & ? & _)%build_spec. eauto. Qed.

(** C16: what a collator builds passes every check: a block that was built and imported
    carries the nimbus pre-digest of the claim's author first, then the additional
    digests, then those of the runtime, and a seal; it went into the import with its own
    header and body; the block executor accepts its header and gives back the proposed
    one; and the verifier of any other node that executes it accepts it as well, if its
    inherents check there and no nimbus consensus digest was added. *)
Theorem built_block_verifies
    `{!InherentProviders W Hash unit Providers InhData Y} `{!InherentCheck W Hash Blk InhData Res Y}
    parent claim additional (inherents : Paras * InherentData) duration limit (w w' : W) o :
  build parent claim additional inherents duration limit w = Ok o w' ->
  exists c : ParachainCandidate Blk Proof, o = Some c /\
    built_by (author_id claim) (default [] additional) (candidate_block c) /\
    imported (candidate_block c) w' /\
    forall (p : Params) (wv : W),
      header p = (candidate_block c).1 ->
      with_state (state_action p) || skip_execution_checks (state_action p) = false ->
      no_nimbus_consensus (logs (header p)) ->
      (forall proposed, unseal (header p) = Some proposed ->
        inherents_pass (Res := Res) (X := Y) (Providers := Providers) (InherentData := InhData)
          wv proposed (body p)) ->
      exists p', BlockImport.verify (Res := Res) (X := Y) (Providers := Providers)
          (InherentData := InhData) from_slice verify p wv = Ok p' wv /\
        unseal (header p) = Some (header p') /\ body p' = body p.
Proof.
  intros (c & -> & Hb & Hi)%build_Ok. exists c. split; [done|]. split; [done|]. split; [done|].
  intros p wv Hh Hskip Hcons Hpass. destruct Hb as (h & more & sd & Hl & _ & Hblk & Hu).
  rewrite <- Hh in *.
  destruct (verifier_matches_executor (Res := Res) (X := Y) (Providers := Providers)
    (InherentData := InhData) from_slice verify p wv) as [_ Hv].
  exists (mkImportParams (origin p) h (post_digests p ++ [sd]) (body p) (state_action p)
    (Some LongestChain) (create_gap p)).
  split; [|done]. apply Hv; [done..|]. exists h, sd. split; [done|].
  split; [by rewrite Hblk|]. split; [by apply Hpass|done].
Qed.

Abbreviation collate := (collate (RHash := RHash) (NimbusSignature := NimbusSignature)
  (Recorder := Recorder) (Extensions := Extensions) (Changes := Changes) (Proof := Proof)
  (Collation := Collation) (BlockData := BlockData) block_import).

Lemma collate_Ok parent claim additional (inherents : Paras * InherentData) duration limit (w w' : W) o :
  collate parent claim additional inherents duration limit w = Ok o w' ->
  exists (c : ParachainCandidate Blk Proof) collation, o = Some collation /\
    built_by (author_id claim) (default [] additional) (candidate_block c) /\
    imported (candidate_block c) w' /\
    build_collation w' parent (header_hash (candidate_block c).1) c = Some collation.
Proof.
  unfold BlockProduction.collate. intros (oc & w1 & Hb & Hc)%bind_Ok.
  apply build_Ok in Hb as (c & -> & Hb & Hi). inv_ok. eauto 10.
Qed.

(** A collation is of a block that was built and imported, made for its hash; there is
    never a success without a collation; and when the collation cannot be produced the
    block has been imported nevertheless. *)
Theorem collate_outcomes parent claim additional (inherents : Paras * InherentData) duration limit (w : W) :
  match collate parent claim additional inherents duration limit w with
  | Ok o w' => exists (c : ParachainCandidate Blk Proof) collation, o = Some collation /\
      built_by (author_id claim) (default [] additional) (candidate_block c) /\
      imported (candidate_block c) w' /\
      build_collation w' parent (header_hash (candidate_block c).1) c = Some collation
  | Err UnableToProduceCollation w' => exists c : ParachainCandidate Blk Proof,
      built_by (author_id claim) (default [] additional) (candidate_block c) /\
      imported (candidate_block c) w' /\
      build_collation (Collation := Collation) (BlockData := BlockData)
        w' parent (header_hash (candidate_block c).1) c = None
  | Err _ _ | Panic => True
  end.
Proof.
  destruct (collate _ _ _ _ _ _ w) as [o w'|e w'|] eqn:Hc; [by eapply collate_Ok|destruct e; try done|done].
  unfold BlockProduction.collate in Hc. apply bind_Err in Hc as [Hb|(oc & w1 & Hb & Hc)].
  - exfalso. unfold build_block_and_import in Hb. unfold_M. unfold map_err, zoom, seal in Hb. unfold_M.
    repeat (exec_step; simplify_eq/=).
  - apply build_Ok in Hb as (c & -> & Hb & Hi). unfold mbind, M_bind, gets, id, ok_or in Hc.
    destruct (build_collation _ _ _ _) as [col|] eqn:Hcol; simpl in Hc; [done|]. injection Hc as <-. eauto 10.
Qed.
End CollatorProperties.

(** ** Properties of manual seal *)
Section ManualSealProperties.
Context {W D HeaderRest Hash NimbusId NimbusSignature Version Ext SA Origin : Type}.
Context {InherentData Paras DP : Type}.
Abbreviation Hdr := (Header D HeaderRest).
Abbreviation Params := (BlockImportParams Origin Hdr D Ext SA).
Context `{!DigestItemOps D} `{!DigestItemLaws D} `{!Codec NimbusId}.
Context `{!Codec NimbusSignature} `{!CodecLaws NimbusSignature} `{!HeaderOps Hdr Hash}.
Context `{!ParaClient W Hdr Hash NimbusId Version} `{!Keystore W NimbusId Hash NimbusSignature}.
Context `{!DigestsProvider DP NimbusId Hash D} `{!MockedInherents InherentData Paras}.
Context `{!ImportParamsOps Params Origin Hdr} `{!ImportParamsLaws Origin D HeaderRest Ext SA}.
Context (from_slice : list Z -> option NimbusId) (provider : DP).
Context (verify : NimbusId -> Hash -> NimbusSignature -> bool).
Context `{!KeystoreLaws W NimbusId Hash NimbusSignature from_slice verify}.

(** Manual seal makes blocks that import: the digest names a key of the keystore that
    the runtime lets author in the slot of the relay parent of the inherents, followed by
    the provided digests; a block that starts with it and gets its seal appended is
    accepted by the block executor; the only error is that no key is eligible, and the
    only panic that the parachain inherent is missing or does not decode. *)
Theorem manual_seal_accepted (parent : Hdr) (inherents : InherentData) (w : W) :
  match create_digest (Paras := Paras) (Version := Version) from_slice provider parent inherents w with
  | Ok digests w1 => w1 = w /\ exists paras n ks key,
      get_paras_data inherents = Some (Some paras) /\ keys w = Some ks /\ key ∈ ks /\
      from_slice key = Some n /\
      digests = nimbus_pre_digest n :: provide_digests provider n (header_hash parent) /\
      api_can_author w (header_hash parent) n (paras_relay_parent_number (InherentData := InherentData) paras) parent = Some true /\
      forall (p p' : Params) more w',
        logs (header p) = digests ++ more -> post_digests p = [] ->
        append_block_import (NimbusSignature := NimbusSignature) from_slice p w = Ok p' w' ->
        verify_and_remove_seal header_hash from_slice verify (post_header p') = Some (header p)
  | Err e w1 => w1 = w /\ e = NoNimbusKeys /\ exists paras,
      get_paras_data inherents = Some (Some paras) /\
      forall ks key n, keys w = Some ks -> key ∈ ks -> from_slice key = Some n ->
        api_can_author w (header_hash parent) n (paras_relay_parent_number (InherentData := InherentData) paras) parent <> Some true
  | Panic => forall paras, get_paras_data (Paras := Paras) inherents <> Some (Some paras)
  end.
Proof.
  unfold create_digest. unfold_M. destruct (get_paras_data inherents) as [[paras|]|]; [|done..]. unfold id.
  destruct (first_eligible_key _ _ _ _) as [key|] eqn:Hf.
  - apply first_eligible_key_Some in Hf as (ks & Hks & Hin & (n & Hn & Hc)%key_eligible_true). rewrite Hn.
    split; [done|]. exists paras, n, ks, key. split_and!; try done.
    intros p p' more w' Hl Hpd Ha. unfold append_block_import in Ha. inv_ok.
    rewrite post_header_spec. simpl. rewrite Hpd. simpl.
    match goal with Hx : claimed_author _ = Some _ |- _ =>
      rewrite Hl in Hx; simpl in Hx; rewrite claimed_author_pre_digest in Hx; simplify_eq end.
    match goal with Hx : from_slice (encode _) = Some _ |- _ => rewrite from_slice_encode in Hx; simplify_eq end.
    eapply (sealed_accepted from_slice verify); [by rewrite Hl|done].
  - split; [done|]. split; [done|]. exists paras. split; [done|]. intros ks key n Hks Hin Hn Hc.
    rewrite first_eligible_key_None in Hf. specialize (Hf ks key Hks Hin).
    apply not_true_iff_false in Hf. apply Hf, key_eligible_true. eauto.
Qed.
End ManualSealProperties.

(** ** Concrete instances: a proposer that adds one digest of the runtime and no
    extrinsics, signatures as in [AuthorInherent], and a collation that is its block's
    hash. *)
Section Witnesses.
#[local] Existing Instance fixed_codec.
#[local] Existing Instance fixed_codec_laws.
#[local] Existing Instance BlockImport.sample_header.
#[local] Existing Instance BlockImport.sample_action.
#[local] Existing Instance BlockImport.sample_providers.
#[local] Existing Instance BlockImport.sample_check.

Abbreviation SHdr := (Header Item Z).
Abbreviation SBlk := (Block SHdr Z).
Abbreviation SParams := (BlockImportParams unit SHdr Item Z (option Z)).

#[local] Instance sample_origins : BlockOrigins unit := {| Own := tt; NetworkInitialSync := tt |}.

#[local] Instance sample_environment :
  Environment unit SHdr unit (ProposeArgs unit Item unit unit) (Proposal SBlk Z) unit := {|
  init _ := mret tt;
  proposer_propose _ args :=
    mret (mkProposal (mkHeader (inherent_digests args ++ [ICons [1] [2]]) 9, []) 9);
|}.

#[local] Instance sample_environment_laws : EnvironmentLaws unit Item Z Z unit unit unit unit Z unit.
Proof. split. intros proposer args w proposal w' [= <- <-]. simpl. eauto. Qed.

#[local] Instance sample_paras : ParasInherents unit Z unit unit := fun _ _ _ => inr tt.

#[local] Instance sample_recorders : ProofRecorders unit unit Z unit := {|
  new_recorder w := (tt, w);
  proof_size_extensions _ := tt;
  drain_storage_proof _ w := (77, w);
|}.

#[local] Instance sample_keystore : Keystore unit Z Z Z := fun _ n h => sample_sign n h.

#[local] Instance sample_keystore_laws : KeystoreLaws unit Z Z Z sample_from_slice sample_verify.
Proof. split; [|done]. intros w n h sig [= <-]. apply Z.eqb_refl. Qed.

#[local] Instance sample_import_params : ImportParamsOps SParams unit SHdr := {|
  new_params o h := mkImportParams o h [] None None None true;
  post_header p := mkHeader (logs (header p) ++ post_digests p) (rest (header p));
|}.

#[local] Instance sample_import_params_laws : ImportParamsLaws unit Item Z Z (option Z).
Proof. by split. Qed.

#[local] Instance sample_service : CollatorService unit SHdr Z (ParachainCandidate SBlk Z) Z unit :=
  fun _ _ h _ => Some (h, tt).

Definition sample_import : BlockImport unit unit unit unit SParams :=
  mkBlockImport (fun _ => mret tt) (fun _ => mret tt).

Definition sample_built : ParachainCandidate SBlk Z :=
  mkCandidate (mkHeader [IPre NIMBUS_ENGINE_ID [4]; ICons [1] [2]; ISeal NIMBUS_ENGINE_ID [15]] 9, []) 77.

Lemma built_block_verifies_witness :
  build_block_and_import (RHash := Z) (NimbusSignature := Z) (Changes := Z) (Recorder := unit)
    (Extensions := unit) sample_import (mkHeader [] 8) (mkSlotClaim 4 0) None (3, tt) 100 200 tt
    = Ok (Some sample_built) tt /\
  imported sample_import (candidate_block sample_built) tt.
Proof.
  assert (Hb : build_block_and_import (RHash := Z) (NimbusSignature := Z) (Changes := Z)
    (Recorder := unit) (Extensions := unit) sample_import (mkHeader [] 8) (mkSlotClaim 4 0) None
    (3, tt) 100 200 tt = Ok (Some sample_built) tt) by reflexivity.
  split; [exact Hb|].
  destruct (built_block_verifies (Res := bool) (Y := unit) (Providers := unit) (InhData := unit)
    sample_from_slice sample_verify sample_import _ _ _ _ _ _ _ _ _ Hb) as (c & Hc & _ & Hi & _).
  injection Hc as <-. exact Hi.
Defined.

Lemma collate_outcomes_witness :
  exists c : ParachainCandidate SBlk Z, built_by sample_from_slice sample_verify 4 [] (candidate_block c) /\
    build_collation tt (mkHeader [] 8 : SHdr) (header_hash (candidate_block c).1) c = Some (12, tt).
Proof.
  pose proof (collate_outcomes (RHash := Z) (Recorder := unit) (Extensions := unit) (X := unit)
    (Changes := Z) sample_from_slice sample_verify sample_import (mkHeader [] 8) (mkSlotClaim 4 0)
    None (3, tt) 100 200 tt) as Hc.
  destruct Hc as (c & col & Hcol & Hb & _ & Hbc). injection Hcol as <-.
  exists c. split; [exact Hb|exact Hbc].
Defined.

#[local] Instance sample_para_client : ParaClient unit SHdr Z Z Z := {|
  keys _ := Some [[4]; [6]];
  runtime_version _ _ := Some 1;
  api_can_author _ _ n sl _ := Some (n =? sl);
  segment_api_version _ _ := Some (Some 2);
  api_can_build_upon _ _ _ _ := Some true;
|}.

#[local] Instance sample_mocked : MockedInherents Z Z := {|
  get_paras_data d := Some (Some d);
  paras_relay_parent_number d := d;
|}.

Lemma manual_seal_accepted_witness :
  create_digest (NimbusId := Z) (Version := Z) (Paras := Z) sample_from_slice tt (mkHeader [] 8 : SHdr) 6 tt
    = Ok [IPre NIMBUS_ENGINE_ID [6]] tt /\
  forall (p p' : SParams) w', logs (header p) = [IPre NIMBUS_ENGINE_ID [6]] -> post_digests p = [] ->
    append_block_import (NimbusSignature := Z) sample_from_slice p tt = Ok p' w' ->
    verify_and_remove_seal header_hash sample_from_slice sample_verify (post_header p') = Some (header p).
Proof.
  split; [reflexivity|].
  pose proof (manual_seal_accepted (Version := Z) (Paras := Z) (Ext := Z) (SA := option Z) (Origin := unit)
    sample_from_slice tt sample_verify (mkHeader [] 8) 6 tt) as Hm.
  destruct Hm as (_ & paras & n & ks & key & _ & _ & _ & _ & _ & _ & Hm).
  intros p p' w' Hl Hp Ha. apply (Hm p p' [] w'); [exact Hl|exact Hp|exact Ha].
Defined.
End Witnesses.
