(* ===== verification/RelayParents.v ===== *)
(** * Relay parents and cores of the slot-based collator
    ([client/consensus/nimbus-consensus/src/collators/slot_based/relay_chain_data_cache.rs]
    and the helpers of [block_builder_task.rs])

    The block builder caches what it needs of relay chain blocks, walks back from the
    best one to the relay parent it may use, and picks the core to claim.  The cache's
    LRU map belongs to a library: it is the interface [LruMap] with its laws.  The
    helpers run in [M] over the cache; the world [W] is fixed while they run, and the
    error [tt] is the code's [Err(())]. *)
From Stdlib Require Import ZArith Lia.
From stdpp Require Import prelude.
From S2P Require Import Prelude.
From S2P Require Import ClaimSlot.
From S2P Require Import SlotTimer.

Local Open Scope Z_scope.

(** ** Interfaces *)

(** What the code reads in relay chain headers, next to [HeaderOps]. *)
Class RelayHeaderOps (RH RHash : Type) := {
  relay_state_root : RH -> RHash;
  (** the slot of the babe pre-digest, if it can be found *)
  babe_slot : RH -> option Z;
  contains_epoch_change : RH -> bool;
}.

(** What it reads in the digest of parachain headers. *)
Class ParaDigestOps (PH RHash : Type) := {
  extract_relay_parent : PH -> option RHash;
  extract_relay_parent_storage_root : PH -> option RHash;
  (** the selector of the core info *)
  find_core_selector : PH -> option Z;
}.

(** The relay chain client: [None] is an error, [Some None] an unknown block; the second
    query gives the maximum PoV size of the persisted validation data. *)
Class RelayChainInterface (W RH RHash : Type) := {
  relay_header : W -> RHash -> option (option RH);
  persisted_max_pov_size : W -> RHash -> Z -> option (option Z);
}.

(** [ClaimQueueSnapshot::iter_claims_at_depth_for_para] *)
Class ClaimQueueOps (ClaimQueue : Type) := {
  empty_queue : ClaimQueue;
  claims_at_depth_for_para : ClaimQueue -> Z -> Z -> list Z;
}.

(** [RelayChainData] *)
Record RelayChainData (RH ClaimQueue : Type) := mkRelayChainData {
  relay_parent_header : RH;
  claim_queue : ClaimQueue;
  max_pov_size : Z;
  last_claimed_core_selector : option Z;
}.
Arguments mkRelayChainData {_ _} _ _ _ _.
Arguments relay_parent_header {_ _} _.
Arguments claim_queue {_ _} _.
Arguments max_pov_size {_ _} _.
Arguments last_claimed_core_selector {_ _} _.

(** [LruMap]: [get_or_insert] evaluates its last argument only if the key is missing and
    fails if that fails; [set_entry] writes through the reference it returned. *)
Class LruMap (K V L : Type) := {
  peek : L -> K -> option V;
  get_or_insert : L -> K -> option V -> option (V * L);
  set_entry : L -> K -> (V -> V) -> L;
}.

Class LruMapLaws (K V L : Type) `{LruMap K V L} : Prop := {
  get_or_insert_Some (l : L) k (o : option V) v :
    from_option Some o (peek l k) = Some v -> exists l', get_or_insert l k o = Some (v, l') /\ peek l' k = Some v /\
      forall k', k' <> k -> peek l' k' = peek l k' \/ peek l' k' = None;
  peek_set_entry (l : L) k (f : V -> V) : peek (set_entry l k f) k = f <$> peek l k;
  peek_set_entry_ne (l : L) k k' (f : V -> V) : k' <> k -> peek (set_entry l k f) k' = peek l k';
}.

Section Definitions.
Context {W PH Hash RH RHash ClaimQueue L : Type}.
Context `{EqDecision RHash}.
Context `{HeaderOps PH Hash} `{HeaderOps RH RHash} `{RelayHeaderOps RH RHash}.
Context `{ParaDigestOps PH RHash} `{RelayClient W RHash ClaimQueue}.
Context `{RelayChainInterface W RH RHash} `{ClaimQueueOps ClaimQueue}.
Context `{LruMap RHash (RelayChainData RH ClaimQueue) L}.
Context (para_id : Z) (w : W).

Abbreviation Data := (RelayChainData RH ClaimQueue).
Abbreviation Mo := (M L unit).

(** ** The cache *)
Definition update_for_relay_parent (relay_parent : RHash) : option Data :=
  let claim_queue := claim_queue_at empty_queue w relay_parent in
  relay_parent_header ← default None (relay_header w relay_parent);
  max_pov_size ← default None (persisted_max_pov_size (RH := RH) w relay_parent para_id);
  Some (mkRelayChainData relay_parent_header claim_queue max_pov_size None).

Definition get_mut_relay_chain_data (relay_parent : RHash) : Mo Data :=
  cached ← gets (fun l => peek l relay_parent);
  insert_data ← (match cached with
                 | Some _ => mret None
                 | None => data ← ok_or (update_for_relay_parent relay_parent) tt; mret (Some data)
                 end);
  entry ← gets (fun l => get_or_insert l relay_parent insert_data);
  '(data, l) ← expect entry;
  modify (fun _ => l) ;;
  mret data.

(** ** The relay parent at an offset from the best block *)

(** The [while] loop; [fuel] bounds its rounds and running out of it is a panic. *)
Fixpoint find_ancestors (fuel : nat) (relay_parent_offset : Z) (relay_header : RH)
    (required_ancestors : list RH) : Mo (option (RH * list RH)) :=
  if Z.of_nat (length required_ancestors) <? relay_parent_offset then
    match fuel with
    | O => panic
    | S fuel =>
        next ← get_mut_relay_chain_data (parent_hash relay_header);
        let next_header := relay_parent_header next in
        if contains_epoch_change next_header then mret None
        else find_ancestors fuel relay_parent_offset next_header (next_header :: required_ancestors)
    end
  else mret (Some (relay_header, required_ancestors)).

Definition offset_relay_parent_find_descendants (relay_best_block : RHash)
    (relay_parent_offset : Z) : Mo (option (RelayParentData RH)) :=
  best ← get_mut_relay_chain_data relay_best_block;
  let relay_header := relay_parent_header best in
  if relay_parent_offset =? 0 then mret (Some (mkRelayParentData relay_header []))
  else if contains_epoch_change relay_header then mret None
  else
    found ← find_ancestors (Z.to_nat relay_parent_offset) relay_parent_offset relay_header [relay_header];
    match found with
    | None => mret None
    | Some (relay_header, required_ancestors) =>
        relay_parent ← get_mut_relay_chain_data (parent_hash relay_header);
        mret (Some (mkRelayParentData (relay_parent_header relay_parent) required_ancestors))
    end.

(** ** The core *)

(** [Core] *)
Record Core := mkCore {
  core_selector : Z;
  claim_queue_offset : Z;
  core_index : Z;
  total_cores : Z;
}.

Definition is_new_relay_parent (relay_parent : RH) (para_parent : PH) : Mo bool :=
  if number para_parent =? 0 then mret true
  else
    match extract_relay_parent para_parent with
    | Some last_relay_parent => mret (bool_decide (last_relay_parent <> header_hash relay_parent))
    | None =>
        root ← ok_or (extract_relay_parent_storage_root para_parent) tt;
        mret (bool_decide (root <> relay_state_root relay_parent))
    end.

(** The selector and its core, or none if there is no such core. *)
Definition select (cores_at_offset : list Z) (selector : Z) : option (Z * Z) :=
  core_index ← cores_at_offset !! Z.to_nat selector;
  Some (selector, core_index).

Definition determine_core (relay_parent : RH) (para_parent : PH) (relay_parent_offset : Z) :
    Mo (option Core) :=
  data ← get_mut_relay_chain_data (header_hash relay_parent);
  let cores_at_offset := claims_at_depth_for_para (claim_queue data) relay_parent_offset para_id in
  is_new ← is_new_relay_parent relay_parent para_parent;
  selected ← (if is_new : bool then mret (select cores_at_offset 0)
              else
                match find_core_selector para_parent with
                | Some selector => mret (select cores_at_offset (selector + 1))
                | None =>
                    data ← get_mut_relay_chain_data (header_hash relay_parent);
                    mret (select cores_at_offset (default 0 (last_claimed_core_selector data) + 1))
                end);
  mret (match selected with
        | None => None
        | Some (selector, core_index) =>
            Some (mkCore (wrapping 8 selector) (wrapping 8 relay_parent_offset) core_index
              (wrapping 16 (Z.of_nat (length cores_at_offset))))
        end).

(** What the block builder writes after a block was built. *)
Definition claim (rp : RH) (core : Core) (l : L) : L :=
  set_entry l (header_hash rp) (fun d : Data =>
    mkRelayChainData (relay_parent_header d) (claim_queue d) (max_pov_size d) (Some (core_selector core))).

(** ** The slot *)
Context `{SlotOps}.

(** [adjust_para_to_relay_parent_slot]: the slot and its timestamp; the outer option is
    the panic of [Slot::from_timestamp]. *)
Definition adjust_para_to_relay_parent_slot (relay_header : RH)
    (relay_chain_slot_duration para_slot_duration : Z) : option (option (Z * Z)) :=
  match babe_slot relay_header with
  | None => Some None
  | Some relay_slot =>
      match SlotTimer.timestamp relay_slot (wrapping 64 (as_millis relay_chain_slot_duration)) with
      | None => Some None
      | Some relay_timestamp =>
          new_slot ← from_timestamp relay_timestamp para_slot_duration;
          Some (timestamp ← SlotTimer.timestamp new_slot para_slot_duration;
                Some (new_slot, timestamp))
      end
  end.
End Definitions.

(** ** Lemmas *)

(** The client gives the header of the hash it was asked for. *)
Class RelayChainLaws (W RH RHash : Type) `{HeaderOps RH RHash} `{RelayChainInterface W RH RHash} : Prop := {
  relay_header_hash (w : W) (h : RHash) (hdr : RH) : relay_header w h = Some (Some hdr) -> header_hash hdr = h;
}.

(** A chain, oldest header first. *)
Fixpoint chained {RH RHash} `{HeaderOps RH RHash} (headers : list RH) : Prop :=
  match headers with
  | parent :: ((header :: _) as headers) => parent_hash header = header_hash parent /\ chained headers
  | _ => True
  end.

Section Properties.
Context {W PH Hash RH RHash ClaimQueue L : Type}.
Context `{!EqDecision RHash}.
Context `{!HeaderOps PH Hash} `{!HeaderOps RH RHash} `{!RelayHeaderOps RH RHash}.
Context `{!ParaDigestOps PH RHash} `{!RelayClient W RHash ClaimQueue}.
Context `{!RelayChainInterface W RH RHash} `{!RelayChainLaws W RH RHash} `{!ClaimQueueOps ClaimQueue}.
Context `{!LruMap RHash (RelayChainData RH ClaimQueue) L} `{!LruMapLaws RHash (RelayChainData RH ClaimQueue) L}.
Context (para_id : Z) (w : W).

Abbreviation Data := (RelayChainData RH ClaimQueue).
Abbreviation fetch := (get_mut_relay_chain_data (ClaimQueue := ClaimQueue) (RH := RH) (L := L) para_id w).
Abbreviation find_descendants := (offset_relay_parent_find_descendants (ClaimQueue := ClaimQueue) (RH := RH)
  (L := L) para_id w).
Abbreviation core_for := (determine_core (PH := PH) (ClaimQueue := ClaimQueue) (RH := RH) (L := L) para_id w).

(** What is cached for a hash is about the block with that hash. *)
Definition cache_ok (l : L) : Prop :=
  forall h (d : Data), peek l h = Some d -> header_hash (relay_parent_header d) = h.

Lemma update_hash h (d : Data) :
  update_for_relay_parent (ClaimQueue := ClaimQueue) para_id w h = Some d ->
  header_hash (relay_parent_header d) = h /\ last_claimed_core_selector d = None.
Proof.
  unfold update_for_relay_parent. destruct (relay_header w h) as [[hdr|]|] eqn:Hh; [|done..]. simpl.
  destruct (default None _); [|done]. simpl. intros [= <-]. simpl. split; [|done].
  by apply relay_header_hash in Hh.
Qed.

(** Fetching keeps the cache right, returns what is cached afterwards, and fails only if
    the block is neither cached nor known. *)
Lemma fetch_spec h l :
  cache_ok l ->
  match fetch h l with
  | Ok d l' => cache_ok l' /\ header_hash (relay_parent_header d) = h /\ peek l' h = Some d /\
      (peek l h = Some d \/ peek l h = None /\ update_for_relay_parent para_id w h = Some d)
  | Err _ l' => l' = l /\ peek l h = None /\
      update_for_relay_parent (RH := RH) (ClaimQueue := ClaimQueue) para_id w h = None
  | Panic => False
  end.
Proof.
  intros Hl. unfold get_mut_relay_chain_data. unfold_M.
  assert (Hins : forall (o : option Data) d, from_option Some o (peek l h) = Some d ->
    header_hash (relay_parent_header d) = h ->
    exists l', get_or_insert l h o = Some (d, l') /\ cache_ok l' /\ peek l' h = Some d).
  { intros o d Hd Hh. destruct (get_or_insert_Some l h o d Hd) as (l' & Hg & Hp & Hne).
    exists l'. split; [done|]. split; [|done]. intros k dk Hk.
    destruct (decide (k = h)) as [->|Hkh]; [congruence|].
    destruct (Hne k Hkh) as [He|He]; [rewrite He in Hk; by apply Hl|congruence]. }
  destruct (peek l h) as [d|] eqn:Hp.
  - destruct (Hins None d eq_refl (Hl _ _ Hp)) as (l' & Hg & Hc & Hp'). rewrite Hg.
    split_and!; [done|by apply Hl|done|by left].
  - destruct (update_for_relay_parent para_id w h) as [d|] eqn:Hu; [|done].
    destruct (update_hash _ _ Hu) as [Hh _].
    destruct (Hins (Some d) d eq_refl Hh) as (l' & Hg & Hc & Hp'). rewrite Hg.
    split_and!; [done..|by right].
Qed.

(** A fetch of what is cached. *)
Lemma fetch_cached h l d : cache_ok l -> peek l h = Some d ->
  exists l', fetch h l = Ok d l' /\ cache_ok l' /\ peek l' h = Some d.
Proof.
  intros Hl Hp. pose proof (fetch_spec h l Hl) as Hf. destruct (fetch h l) as [d' l'|u l'|]; [| |done].
  - destruct Hf as (Hc & _ & Hp' & [He|[He _]]); [|congruence]. simplify_eq. eauto.
  - destruct Hf as (_ & He & _). congruence.
Qed.

Lemma chained_cons a b (l : list RH) :
  parent_hash b = header_hash a -> chained (b :: l) -> chained (a :: b :: l).
Proof. done. Qed.

(** The loop, from ancestors that form a chain down to the best block. *)
Lemma find_ancestors_spec fuel offset best hdr acc l :
  cache_ok l -> 0 < offset -> Z.of_nat (length (hdr :: acc)) <= offset <= Z.of_nat (length (hdr :: acc)) + Z.of_nat fuel ->
  chained (hdr :: acc) -> header_hash <$> last (hdr :: acc) = Some best ->
  Forall (fun h => contains_epoch_change h = false) (hdr :: acc) ->
  match find_ancestors (ClaimQueue := ClaimQueue) para_id w fuel offset hdr (hdr :: acc) l with
  | Ok (Some (hdr', acc')) l' => cache_ok l' /\ head acc' = Some hdr' /\ Z.of_nat (length acc') = offset /\
      chained acc' /\ header_hash <$> last acc' = Some best /\
      Forall (fun h => contains_epoch_change h = false) acc'
  | Ok None l' | Err _ l' => cache_ok l'
  | Panic => False
  end.
Proof.
  intros Hl Ho. revert hdr acc l Hl. induction fuel as [|fuel IH]; intros hdr acc l Hl Hlen Hch Hlast Hep;
    cbn [find_ancestors]; destruct (Z.ltb_spec (Z.of_nat (length (hdr :: acc))) offset); try lia.
  - split_and!; [done|done|lia|done..].
  - unfold mbind, M_bind. pose proof (fetch_spec (parent_hash hdr) l Hl) as Hf.
    destruct (fetch (parent_hash hdr) l) as [d l'|u l'|]; [|by destruct Hf as [-> _]|done].
    destruct Hf as (Hl' & Hh & _). destruct (contains_epoch_change _) eqn:He; [done|].
    specialize (IH (relay_parent_header d) (hdr :: acc) l' Hl').
    apply IH; [simpl in *; lia|by apply chained_cons|done|by constructor].
  - split_and!; [done|done|lia|done..].
Qed.

(** C34: the walk back from the best block terminates with exactly the descendants asked
    for: it never panics and never runs out of its fuel, which is the offset; the relay
    parent it finds is followed by [relay_parent_offset] blocks that form a chain down to
    the best block, none of them starting an epoch; it finds none only for a positive
    offset, and fails only if some header is neither cached nor known.  The cache stays
    right in every case. *)
Theorem descendants_chain best offset l :
  cache_ok l -> 0 <= offset ->
  match find_descendants best offset l with
  | Ok (Some data) l' => cache_ok l' /\ Z.of_nat (length (descendants data)) = offset /\
      chained (relay_parent data :: descendants data) /\
      header_hash <$> last (relay_parent data :: descendants data) = Some best /\
      Forall (fun h => contains_epoch_change h = false) (descendants data) /\
      into_inherent_descendant_list data =
        (if decide (offset = 0) then [] else relay_parent data :: descendants data)
  | Ok None l' => cache_ok l' /\ 0 < offset
  | Err _ l' => cache_ok l'
  | Panic => False
  end.
Proof.
  intros Hl Ho. unfold offset_relay_parent_find_descendants, mbind at 1, M_bind at 1.
  pose proof (fetch_spec best l Hl) as Hf.
  destruct (fetch best l) as [d l'|u l'|]; [|by destruct Hf as [-> _]|done].
  destruct Hf as (Hl' & Hh & _). set (hdr := relay_parent_header d) in *.
  destruct (Z.eqb_spec offset 0) as [->|Hne].
  { simpl. split_and!; [done..|by rewrite Hh|by constructor|done]. }
  destruct (contains_epoch_change hdr) eqn:He; [split; [done|lia]|].
  pose proof (find_ancestors_spec (Z.to_nat offset) offset best hdr [] l' Hl' ltac:(lia)
    ltac:(simpl; lia) I ltac:(simpl; by rewrite Hh) ltac:(by repeat constructor)) as Hs.
  unfold mbind at 1, M_bind at 1.
  destruct (find_ancestors _ _ _ _ _ _ _) as [[[hdr' acc]|] l1|u l1|]; [|split; [done|lia]|done..].
  destruct Hs as (Hl1 & Hhd & Hlen & Hch & Hlast & Hep). unfold mbind, M_bind.
  pose proof (fetch_spec (parent_hash hdr') l1 Hl1) as Hf.
  destruct (fetch (parent_hash hdr') l1) as [d2 l2|u l2|]; [|by destruct Hf as [-> _]|done].
  destruct Hf as (Hl2 & Hh2 & _). simpl. destruct acc as [|a acc]; [simpl in Hlen; lia|].
  simpl in Hhd. simplify_eq. split_and!; try done.
Qed.

(** ** Claiming the cores of one relay parent *)

(** The parent of the next block was built on the same relay parent, and carries no core
    info or that of the last block. *)
Definition continues (rp : RH) (parent : PH) (cores : list Core) : Prop :=
  (forall l, is_new_relay_parent (L := L) rp parent l = Ok false l) /\
  (find_core_selector parent = None \/ find_core_selector parent = core_selector <$> last cores).

(** The cores claimed so far at the relay parent, and the cache: the first block is on a new
    relay parent, every other one continues, and in between the cache may be used in any
    way that keeps the entry of the relay parent. *)
Inductive claimed (rp : RH) (offset : Z) : list Core -> L -> Prop :=
  | claimed_first parent core l l' :
      cache_ok l -> (forall l, is_new_relay_parent (L := L) rp parent l = Ok true l) ->
      core_for rp parent offset l = Ok (Some core) l' -> claimed rp offset [core] (claim rp core l')
  | claimed_next parent cores core l l' :
      claimed rp offset cores l -> continues rp parent cores ->
      core_for rp parent offset l = Ok (Some core) l' ->
      claimed rp offset (cores ++ [core]) (claim rp core l')
  | claimed_other cores l l' :
      claimed rp offset cores l -> cache_ok l' ->
      peek l' (header_hash rp) = (peek l (header_hash rp) : option Data) -> claimed rp offset cores l'.

(** The selector the code tries. *)
Definition tried (rp : RH) (parent : PH) (is_new : bool) (d : Data) : Z :=
  if is_new then 0
  else match find_core_selector parent with
       | Some s => s + 1
       | None => default 0 (last_claimed_core_selector d) + 1
       end.

Lemma core_for_Ok rp parent offset is_new l o l' :
  cache_ok l -> (forall l, is_new_relay_parent (L := L) rp parent l = Ok is_new l) ->
  core_for rp parent offset l = Ok o l' ->
  exists d, cache_ok l' /\ peek l' (header_hash rp) = Some d /\
    (peek l (header_hash rp) = Some d \/
     peek l (header_hash rp) = None /\ update_for_relay_parent para_id w (header_hash rp) = Some d) /\
    let cores := claims_at_depth_for_para (claim_queue d) offset para_id in
    let s := tried rp parent is_new d in
    o = match cores !! Z.to_nat s with
        | Some i => Some (mkCore (wrapping 8 s) (wrapping 8 offset) i (wrapping 16 (Z.of_nat (length cores))))
        | None => None
        end.
Proof.
  intros Hl Hnew. unfold determine_core, mbind at 1, M_bind at 1.
  pose proof (fetch_spec (header_hash rp) l Hl) as Hf.
  destruct (fetch (header_hash rp) l) as [d l1|u l1|]; [|done..].
  destruct Hf as (Hl1 & _ & Hp & Hor). unfold mbind at 1, M_bind at 1. rewrite Hnew.
  unfold tried. intros Hc. exists d.
  destruct is_new; [|destruct (find_core_selector parent) as [s|]].
  - unfold mbind, M_bind, mret, M_ret, select in Hc. simpl in Hc.
    destruct (_ !! _); simpl in Hc; by simplify_eq.
  - unfold mbind, M_bind, mret, M_ret, select in Hc. simpl in Hc.
    destruct (_ !! _); simpl in Hc; by simplify_eq.
  - destruct (fetch_cached _ _ _ Hl1 Hp) as (l2 & Hf & Hl2 & Hp2).
    unfold mbind, M_bind in Hc. rewrite Hf in Hc. unfold mret, M_ret, select in Hc. simpl in Hc.
    destruct (_ !! _); simpl in Hc; simplify_eq; done.
Qed.

Lemma claim_ok rp core l : cache_ok l -> cache_ok (claim rp core l).
Proof.
  intros Hl k d Hk. unfold claim in Hk. destruct (decide (k = header_hash rp)) as [->|Hne].
  - rewrite peek_set_entry in Hk. destruct (peek l (header_hash rp)) as [d'|] eqn:Hp; [|done].
    simpl in Hk. simplify_eq. simpl. by apply Hl.
  - rewrite peek_set_entry_ne in Hk by done. by apply Hl.
Qed.

(** The state of a relay parent's entry after some claims. *)
Definition claims_ok (rp : RH) (offset : Z) (cores : list Core) (l : L) : Prop :=
  cache_ok l /\ exists d, peek l (header_hash rp) = Some d /\
    let queue := claims_at_depth_for_para (claim_queue d) offset para_id in
    (Z.of_nat (length queue) <= 256 ->
     core_index <$> cores = take (length cores) queue /\ (length cores <= length queue)%nat /\
     core_selector <$> cores = seqZ 0 (Z.of_nat (length cores)) /\
     cores <> [] /\ last_claimed_core_selector d = core_selector <$> last cores).

Lemma claims_ok_snoc rp offset is_new parent cores core l l' :
  cache_ok l -> (forall l, is_new_relay_parent (L := L) rp parent l = Ok is_new l) ->
  core_for rp parent offset l = Ok (Some core) l' ->
  (if is_new then cores = [] else claims_ok rp offset cores l /\
     (find_core_selector parent = None \/ find_core_selector parent = core_selector <$> last cores)) ->
  claims_ok rp offset (cores ++ [core]) (claim rp core l').
Proof.
  intros Hl Hnew Hc Hcores. destruct (core_for_Ok _ _ _ _ _ _ _ Hl Hnew Hc) as (d & Hl' & Hp & Hor & Ho).
  cbv zeta in Ho. split; [by apply claim_ok|]. eexists. split; [unfold claim; by rewrite peek_set_entry, Hp|]. simpl.
  set (queue := claims_at_depth_for_para (claim_queue d) offset para_id) in *. intros Hq.
  assert (Htried : tried rp parent is_new d = Z.of_nat (length cores) /\
    core_index <$> cores = take (length cores) queue /\
    core_selector <$> cores = seqZ 0 (Z.of_nat (length cores))).
  { destruct is_new; [by subst|]. destruct Hcores as [(_ & d' & Hp' & Hd') Hcs].
    destruct Hor as [Hor|[Hor _]]; [|congruence]. simplify_eq.
    destruct (Hd' Hq) as (Hi & Hlen & Hsel & Hne & Hlast). split; [|done].
    assert (Hl0 : core_selector <$> last cores = Some (Z.of_nat (length cores) - 1)).
    { rewrite <- fmap_last, Hsel, last_lookup, length_seqZ, lookup_seqZ.
      destruct cores; [done|]. simpl. split; lia. }
    unfold tried. rewrite Hl0 in *. destruct Hcs as [-> | ->]; [rewrite Hlast|]; simpl; lia. }
  destruct Htried as (Ht & Hi & Hsel). rewrite Ht in Ho.
  destruct (queue !! Z.to_nat (Z.of_nat (length cores))) as [i|] eqn:Hi'; [|done]. simplify_eq. simpl.
  rewrite Nat2Z.id in Hi'. pose proof (lookup_lt_Some _ _ _ Hi') as Hlt.
  assert (Hw : wrapping 8 (Z.of_nat (length cores)) = Z.of_nat (length cores)).
  { apply wrapping_small. unfold fits, umax. lia. }
  rewrite !fmap_app, Hi, Hsel, !length_app. simpl. rewrite Hw. split_and!.
  - by rewrite Nat.add_1_r, (take_S_r _ _ i).
  - lia.
  - rewrite Nat2Z.inj_add, seqZ_app by lia. simpl. done.
  - by destruct cores.
  - by rewrite last_snoc.
Qed.

(** C32: the cores of a relay parent are claimed one after the other: as long as blocks
    build on the same relay parent and its data stays cached, the collator has claimed an
    initial segment of the cores in its claim queue, in order, with the selectors 0, 1,
    2, ..., so no entry of the queue is claimed twice; the next block on it gets the
    next core or, when all are claimed, none.  This needs at most 256 cores, since
    selectors are bytes. *)
Theorem cores_in_order rp offset cores l parent o l' :
  claimed rp offset cores l -> continues rp parent cores ->
  core_for rp parent offset l = Ok o l' ->
  exists d, peek l (header_hash rp) = Some d /\
    let queue := claims_at_depth_for_para (claim_queue d) offset para_id in
    (Z.of_nat (length queue) <= 256 ->
     core_index <$> cores = take (length cores) queue /\
     core_selector <$> cores = seqZ 0 (Z.of_nat (length cores)) /\
     core_index <$> o = queue !! length cores /\
     (o = None <-> length cores = length queue)).
Proof.
  intros Hcl [Hnew Hsel] Hc.
  assert (Hok : claims_ok rp offset cores l).
  { clear Hnew Hsel Hc. induction Hcl as [parent' core l1 l2 Hl Hn Hd|parent' cores core l1 l2 _ IH [Hn Hs] Hd|
      cores l1 l2 _ IH Hl2 Hp].
    - by apply (claims_ok_snoc rp offset true parent' [] core l1 l2).
    - apply (claims_ok_snoc rp offset false parent' cores core l1 l2); [apply IH|done..].
    - destruct IH as (_ & d & Hd & HQ). split; [done|]. exists d. split; [by rewrite Hp|done]. }
  destruct Hok as (Hl & d & Hp & HQ). exists d. split; [done|]. simpl. intros Hq.
  destruct (HQ Hq) as (Hi & Hlen & Hs & Hne & Hlast). split; [done|]. split; [done|].
  destruct (core_for_Ok _ _ _ _ _ _ _ Hl Hnew Hc) as (d' & _ & _ & Hor & Ho). cbv zeta in Ho.
  destruct Hor as [Hor|[Hor _]]; [|congruence]. assert (d' = d) as -> by congruence. clear Hor.
  assert (Hl0 : core_selector <$> last cores = Some (Z.of_nat (length cores) - 1)).
  { rewrite <- fmap_last, Hs, last_lookup, length_seqZ, lookup_seqZ. destruct cores; [done|]. simpl. split; lia. }
  assert (Ht : tried rp parent false d = Z.of_nat (length cores)).
  { unfold tried. rewrite Hl0 in *. destruct Hsel as [-> | ->]; [rewrite Hlast|]; simpl; lia. }
  rewrite Ht, Nat2Z.id in Ho. subst o. destruct (_ !! length cores) as [i|] eqn:Hi'; simpl.
  - split; [done|]. apply lookup_lt_Some in Hi'. split; [done|lia].
  - split; [done|]. apply lookup_ge_None in Hi'. split; [lia|done].
Qed.
End Properties.

(** ** A concrete LRU map: entries by last use, at most 50 of them. *)
Section AssocLru.
Context {K V : Type} `{EqDecision K}.

Fixpoint assoc (l : list (K * V)) (k : K) : option V :=
  match l with
  | [] => None
  | (k', v) :: l => if decide (k = k') then Some v else assoc l k
  end.

#[export] Instance assoc_lru : LruMap K V (list (K * V)) := {|
  peek := assoc;
  get_or_insert l k o :=
    match from_option Some o (assoc l k) with
    | Some v => Some (v, take 50 ((k, v) :: filter (fun e => e.1 <> k) l))
    | None => None
    end;
  set_entry l k f := map (fun e => if decide (e.1 = k) then (e.1, f e.2) else e) l;
|}.

Lemma assoc_take l n k : assoc (take n l) k = assoc l k \/ assoc (take n l) k = None.
Proof.
  revert n. induction l as [|[k' v] l IH]; intros [|n]; simpl; auto. case_decide; auto.
Qed.

Lemma assoc_filter l k k' : k' <> k -> assoc (filter (fun e => e.1 <> k) l) k' = assoc l k'.
Proof.
  intros Hk. induction l as [|[k2 v] l IH]; [done|]. rewrite filter_cons. simpl.
  destruct (decide (k2 <> k)) as [|Hn%dec_stable]; simpl; [by rewrite IH|].
  rewrite IH. by rewrite decide_False by congruence.
Qed.

#[export] Instance assoc_lru_laws : LruMapLaws K V (list (K * V)).
Proof.
  split; simpl.
  - intros l k o v ->. eexists. split; [done|]. cbn [assoc take].
    split; [by rewrite decide_True|]. intros k' Hk. rewrite decide_False by done. rewrite <- (assoc_filter l k k' Hk). apply assoc_take.
  - intros l k f. induction l as [|[k' v] l IH]; [done|]. simpl.
    destruct (decide (k' = k)); simpl; repeat case_decide; simpl; congruence || done.
  - intros l k k' f Hk. induction l as [|[k2 v] l IH]; [done|]. simpl.
    destruct (decide (k2 = k)); simpl; repeat case_decide; simpl; congruence || done.
Qed.
End AssocLru.

(** ** Concrete instances: relay chain blocks are numbers, every tenth starts an epoch,
    and the claim queue holds the cores 5, 6 and 7; a parachain block is its number and
    its relay parent. *)
Section Witnesses.
#[local] Instance sample_para_header : HeaderOps (Z * Z) Z := {|
  header_hash h := h.1;
  number h := h.1;
  parent_hash h := h.1 - 1;
|}.

#[local] Instance sample_relay_header : HeaderOps Z Z := {|
  header_hash h := h;
  number h := h;
  parent_hash h := h - 1;
|}.

#[local] Instance sample_relay_ops : RelayHeaderOps Z Z := {|
  relay_state_root h := h;
  babe_slot h := Some h;
  contains_epoch_change h := h mod 10 =? 0;
|}.

#[local] Instance sample_digest_ops : ParaDigestOps (Z * Z) Z := {|
  extract_relay_parent h := Some h.2;
  extract_relay_parent_storage_root _ := None;
  find_core_selector _ := None;
|}.

#[local] Instance sample_relay_client : RelayClient unit Z (list Z) := {|
  relay_version _ _ := Some (Some 20);
  relay_scheduling_lookahead _ _ := Some 3;
  relay_claim_queue _ _ := Some [5; 6; 7];
|}.

#[local] Instance sample_relay_chain : RelayChainInterface unit Z Z := {|
  relay_header _ h := Some (if 0 <=? h then Some h else None);
  persisted_max_pov_size _ _ _ := Some (Some 1000);
|}.

#[local] Instance sample_relay_chain_laws : RelayChainLaws unit Z Z.
Proof. split. intros w h hdr. simpl. by destruct (0 <=? h); intros [= <-]. Qed.

#[local] Instance sample_queue : ClaimQueueOps (list Z) := {|
  empty_queue := [];
  claims_at_depth_for_para q _ _ := q;
|}.

Abbreviation SCache := (list (Z * RelayChainData Z (list Z))).

Lemma descendants_chain_witness :
  exists l', offset_relay_parent_find_descendants (RH := Z) (ClaimQueue := list Z) (L := SCache) 2000 tt
    104 3 [] = Ok (Some (mkRelayParentData 101 [102; 103; 104])) l' /\
  cache_ok (ClaimQueue := list Z) (RH := Z) l'.
Proof.
  assert (Hl : cache_ok (RH := Z) (RHash := Z) (ClaimQueue := list Z) (L := SCache) []) by (intros h d Hd; discriminate).
  eexists. split; [vm_compute; reflexivity|].
  pose proof (descendants_chain (ClaimQueue := list Z) 2000 tt 104 3 [] Hl ltac:(lia)) as Hd.
  vm_compute in Hd. destruct Hd as (Hd & _). exact Hd.
Defined.

Lemma cores_in_order_witness :
  exists cores l, claimed (PH := Z * Z) (ClaimQueue := list Z) (RH := Z) (L := SCache) 2000 tt 101 0 cores l /\
    core_index <$> cores = [5; 6] /\
    core_index <$> (match determine_core (PH := Z * Z) (ClaimQueue := list Z) (RH := Z) (L := SCache)
      2000 tt 101 (9, 101) 0 l with Ok o _ => o | _ => None end) = Some 7.
Proof.
  assert (Hl : cache_ok (RH := Z) (RHash := Z) (ClaimQueue := list Z) (L := SCache) []) by (intros h d Hd; discriminate).
  eexists _, _.
  match goal with |- claimed _ _ _ _ ?cs ?l /\ _ =>
    assert (Hc : claimed (PH := Z * Z) (ClaimQueue := list Z) (RH := Z) (L := SCache) 2000 tt 101 0 cs l) end.
  { eapply (claimed_next _ _ _ _ (8, 101)).
    - eapply (claimed_first _ _ _ _ (7, 100)); [exact Hl|reflexivity|vm_compute; reflexivity].
    - split; [reflexivity|left; reflexivity].
    - vm_compute; reflexivity. }
  split; [exact Hc|]. split; [reflexivity|].
  destruct (determine_core (PH := Z * Z) (ClaimQueue := list Z) (RH := Z) (L := SCache) 2000 tt 101
    (9, 101) 0 _) as [o l'|u l'|] eqn:Ho; [|vm_compute in Ho; discriminate..].
  destruct (cores_in_order (PH := Z * Z) 2000 tt 101 0 _ _ (9, 101) o l' Hc) as (d & Hd & HQ);
    [split; [reflexivity|left; reflexivity]|exact Ho|].
  vm_compute in Hd. injection Hd as <-. simpl in HQ.
  destruct HQ as (_ & _ & H3 & _); [lia|]. exact H3.
Defined.
End Witnesses.
