(* ===== verification/BlockBuilder.v ===== *)
(** * The block builder task of the slot-based collator
    ([client/consensus/nimbus-consensus/src/collators/slot_based/block_builder_task.rs])

    [iteration] is the body of the task's loop: wait for the slot, find the relay
    parent, the parent and the core, claim the slot, build the block and send it to the
    collation task.  It runs in [M] over the state of the task; its error is how the
    body is left early.  The world [W] changes only when the task sleeps, builds and
    announces; what is queried in between is read from one world. *)
From Stdlib Require Import ZArith Lia.
From stdpp Require Import prelude.
From S2P Require Import Prelude.
From S2P Require Import Interfaces.
From S2P Require Import NimbusPrimitives.
From S2P Require Import AuthorInherent.
From S2P Require Import SlotTimer.
From S2P Require Import ClaimSlot.
From S2P Require Import BlockImport.
From S2P Require Import BlockProduction.
From S2P Require Import RelayParents.

Local Open Scope Z_scope.

(** ** Interfaces *)

(** The system clock and sleeping. *)
Class Clock (W : Type) := {
  clock : W -> Z;
  sleep : Z -> W -> W;
}.

(** What the task asks the clients: the best blocks, the offset of relay parents
    ([None] is an error), the search for the parent to build on, the code hash, and
    announcing a block. *)
Class TaskClient (W PH Hash RHash CodeHash : Type) := {
  best_block_hash : W -> option RHash;
  best_hash : W -> Hash;
  relay_parent_offset : W -> Hash -> option Z;
  find_parent_for_building : W -> RHash -> Z -> option (option (PH * PH));
  code_hash_at : W -> Hash -> option CodeHash;
  announce_block : Hash -> W -> W;
  encode_header : PH -> list Z;
  (** the receiver of the messages is gone *)
  receiver_closed : W -> bool;
}.

(** [CollatorMessage] *)
Record CollatorMessage (RHash PH Blk Proof CodeHash : Type) := mkMessage {
  msg_relay_parent : RHash;
  msg_parent_header : PH;
  msg_candidate : ParachainCandidate Blk Proof;
  msg_validation_code_hash : CodeHash;
  msg_core_index : Z;
  msg_max_pov_size : Z;
}.
Arguments mkMessage {_ _ _ _ _} _ _ _ _ _ _.
Arguments msg_relay_parent {_ _ _ _ _} _.
Arguments msg_parent_header {_ _ _ _ _} _.
Arguments msg_candidate {_ _ _ _ _} _.
Arguments msg_validation_code_hash {_ _ _ _ _} _.
Arguments msg_core_index {_ _ _ _ _} _.
Arguments msg_max_pov_size {_ _ _ _ _} _.

(** [SubmitCollationParams], without the two fields that are always [None]. *)
Record SubmitCollationParams (RHash Collation CodeHash : Type) := mkSubmit {
  sub_relay_parent : RHash;
  sub_collation : Collation;
  sub_parent_head : list Z;
  sub_validation_code_hash : CodeHash;
  sub_core_index : Z;
}.
Arguments mkSubmit {_ _ _} _ _ _ _ _.
Arguments sub_relay_parent {_ _ _} _.
Arguments sub_collation {_ _ _} _.
Arguments sub_parent_head {_ _ _} _.
Arguments sub_validation_code_hash {_ _ _} _.
Arguments sub_core_index {_ _ _} _.

(** The state of the task. *)
Record Task (W L Msg : Type) := mkTask {
  world : W;
  cache : L;
  slot_timer : SlotTimer;
  connection_helper : ConnectionHelper;
  sent_messages : list Msg;
}.
Arguments mkTask {_ _ _} _ _ _ _ _.
Arguments world {_ _ _} _.
Arguments cache {_ _ _} _.
Arguments slot_timer {_ _ _} _.
Arguments connection_helper {_ _ _} _.
Arguments sent_messages {_ _ _} _.

(** How the body of the loop is left early. *)
Inductive Exit := Continue | Break | Return.

(** The parameters of the task that are data. *)
Record TaskParams (PeerId : Type) := mkTaskParams {
  relay_chain_slot_duration : Z;
  authoring_duration : Z;
  max_pov_percentage : option Z;
  force_authoring : bool;
  additional_relay_state_keys : list (list Z);
  collator_peer_id : PeerId;
}.
Arguments mkTaskParams {_} _ _ _ _ _ _.
Arguments relay_chain_slot_duration {_} _.
Arguments authoring_duration {_} _.
Arguments max_pov_percentage {_} _.
Arguments force_authoring {_} _.
Arguments additional_relay_state_keys {_} _.
Arguments collator_peer_id {_} _.

(** The part of the maximum PoV size that the collator uses; [None] is a panic. *)
Definition allowed_pov_size (oc : bool) (max_pov_percentage : option Z) (max_pov_size : Z) : option Z :=
  product ← op_mul oc 32 max_pov_size (default 85 max_pov_percentage);
  Some (product / 100).

Section Definitions.
Context {W D HeaderRest Hash RH RHash NimbusId NimbusSignature Version ClaimQueue Ext SA Changes Origin : Type}.
Context {Paras InherentData Providers Recorder Extensions Proof PeerId X R CheckParams L CodeHash DP : Type}.
Abbreviation Hdr := (Header D HeaderRest).
Abbreviation Blk := (Block Hdr Ext).
Abbreviation Params := (BlockImportParams Origin Hdr D Ext SA).
Context `{EqDecision Hash} `{EqDecision RHash} `{EqDecision Version}.
Context `{DigestItemOps D} `{Codec NimbusId} `{Codec NimbusSignature} `{HeaderOps Hdr Hash}.
Context `{HeaderOps RH RHash} `{RelayHeaderOps RH RHash} `{ParaDigestOps Hdr RHash}.
Context `{ParaClient W Hdr Hash NimbusId Version} `{RelayClient W RHash ClaimQueue}.
Context `{RelayChainInterface W RH RHash} `{ClaimQueueOps ClaimQueue}.
Context `{LruMap RHash (RelayChainData RH ClaimQueue) L}.
Context `{StateActionOps SA Changes} `{BlockOrigins Origin}.
Context `{ProposerInterface W Hdr Paras InherentData D Recorder Extensions (Proposal Blk Changes) X}.
Context `{InherentProviders W Hash unit Providers InherentData X} `{ReplaceData InherentData}.
Context `{ParasProvider W RHash RH Paras PeerId} `{ProofRecorders W Recorder Proof Extensions}.
Context `{Keystore W NimbusId Hash NimbusSignature} `{ImportParamsOps Params Origin Hdr}.
Context `{DigestsProvider DP NimbusId Hash D} `{SlotOps} `{Clock W}.
Context `{TaskClient W Hdr Hash RHash CodeHash}.
Context (from_slice : list Z -> option NimbusId) (para_id : Z).
Context (block_import : BlockImport W X CheckParams R Params) (additional_digests_provider : DP).
(** overflow checks, and the two constants of the relay chain's primitives *)
Context (oc : bool) (runtime_requirement default_lookahead : Z).
Context (params : TaskParams PeerId).

Abbreviation Msg := (CollatorMessage RHash Hdr Blk Proof CodeHash).
Abbreviation St := (Task W L Msg).
Abbreviation Mo := (M St Exit).

Definition set_world (w : W) (s : St) : St :=
  mkTask w (cache s) (slot_timer s) (connection_helper s) (sent_messages s).
Definition set_cache (l : L) (s : St) : St :=
  mkTask (world s) l (slot_timer s) (connection_helper s) (sent_messages s).
Definition set_timer (t : SlotTimer) (s : St) : St :=
  mkTask (world s) (cache s) t (connection_helper s) (sent_messages s).
Definition set_helper (h : ConnectionHelper) (s : St) : St :=
  mkTask (world s) (cache s) (slot_timer s) h (sent_messages s).

(** A call that works on the cache; its error leaves the body with [Continue]. *)
Definition on_cache {A} (m : M L unit A) : Mo A := zoom cache set_cache (fun _ => Continue) m.

(** A call of the collator, whose error leaves the body with [e]. *)
Definition on_world {A} (e : Exit) (m : M W (CollatorError RHash X) A) : Mo A :=
  zoom world set_world (fun _ => e) m.

(** [wait_until_next_slot] *)
Definition wait : Mo unit :=
  s ← gets id;
  '(d, t) ← expect (wait_until_next_slot oc (clock (world s)) (slot_timer s));
  modify (fun s => set_world (sleep d (world s)) (set_timer t s)).

(** Where the block goes: the relay parent with its descendants, the parachain slot with
    its timestamp, and the included and the parent block. *)
Definition find_target (s : St) : Mo (RelayParentData RH * (Z * Z) * (Hdr * Hdr) * Z) :=
  let w := world s in
  relay_best_hash ← ok_or (best_block_hash (PH := Hdr) (Hash := Hash) (CodeHash := CodeHash) w) Continue;
  let offset := default 0 (relay_parent_offset (PH := Hdr) (RHash := RHash) (CodeHash := CodeHash) w
    (best_hash (PH := Hdr) (RHash := RHash) (CodeHash := CodeHash) w)) in
  let para_slot_duration := slot_duration (slot_timer s) in
  rp_data ← on_cache (offset_relay_parent_find_descendants (ClaimQueue := ClaimQueue) para_id w
    relay_best_hash offset);
  rp_data ← ok_or rp_data Continue;
  para_slot ← expect (adjust_para_to_relay_parent_slot (relay_parent rp_data)
    (relay_chain_slot_duration params) (Z.min (as_millis para_slot_duration) (umax 64)));
  para_slot ← ok_or para_slot Continue;
  parents ← ok_or (find_parent (RHash := RHash) (ClaimQueue := ClaimQueue) runtime_requirement
    default_lookahead (find_parent_for_building (CodeHash := CodeHash)) w
    (header_hash (relay_parent rp_data))) Continue;
  mret (rp_data, para_slot, parents, offset).

(** The core to claim, and what is cached of the relay parent. *)
Definition find_core (w : W) (relay_parent_header : RH) (parent_header : Hdr) (offset : Z) :
    Mo (Core * RelayChainData RH ClaimQueue) :=
  core ← on_cache (determine_core para_id w relay_parent_header parent_header offset);
  core ← ok_or core Continue;
  data ← on_cache (get_mut_relay_chain_data para_id w (header_hash relay_parent_header));
  modify (fun s => set_timer (update_scheduling (total_cores core) (slot_timer s)) s) ;;
  mret (core, data).

(** The claim of the slot, after the connection to the backing groups was updated. *)
Definition claim_for (w : W) (rp : RH) (para_slot : Z * Z) (included_header parent_header : Hdr) :
    Mo (SlotClaim NimbusId) :=
  relay_slot ← ok_or (babe_slot rp) Continue;
  modify (fun s => set_helper (update (keys w) para_slot.1 (connection_helper s)) s) ;;
  ok_or (can_build_upon from_slice w para_slot.1 relay_slot para_slot.2 rp parent_header
    (header_hash included_header) (force_authoring params)) Continue.

(** The adjusted authoring duration; both readings of the clock are of the same world. *)
Definition adjusted_duration : Mo Z :=
  s ← gets id;
  duration ← expect (SlotTimer_adjust_authoring_duration oc (clock (world s)) (clock (world s))
    (authoring_duration params) (slot_timer s));
  ok_or duration Continue.

(** The block: its inherents, its digests, building and announcing it. *)
Definition build_block (w : W) (rp_data : RelayParentData RH) (parent_header : Hdr)
    (slot_claim : SlotClaim NimbusId) (max_pov_size : Z) :
    Mo (ParachainCandidate Blk Proof * CodeHash) :=
  let rp := relay_parent rp_data in
  let parent_hash := header_hash parent_header in
  let validation_data := mkValidationData (encode_header (W := W) (Hash := Hash) (RHash := RHash)
    (CodeHash := CodeHash) parent_header) (number rp) (relay_state_root rp) max_pov_size in
  inherent_data ← on_world Break (create_inherent_data_with_rp_offset (Providers := Providers) para_id
    (header_hash rp) validation_data parent_hash (Some (timestamp slot_claim)) (Some rp_data)
    (additional_relay_state_keys params) (collator_peer_id params) tt);
  validation_code_hash ← ok_or (code_hash_at (PH := Hdr) (RHash := RHash) w parent_hash) Break;
  allowed_pov_size ← expect (allowed_pov_size oc (max_pov_percentage params) max_pov_size);
  adjusted_authoring_duration ← adjusted_duration;
  let additional_pre_digests :=
    provide_digests additional_digests_provider (author_id slot_claim) parent_hash in
  candidate ← on_world Continue (build_block_and_import (Changes := Changes)
    (NimbusSignature := NimbusSignature) block_import parent_header slot_claim
    (Some additional_pre_digests) inherent_data adjusted_authoring_duration allowed_pov_size);
  candidate ← ok_or candidate Continue;
  let new_block_hash := header_hash (candidate_block candidate).1 in
  modify (fun s => set_world (announce_block (PH := Hdr) (RHash := RHash) (CodeHash := CodeHash)
    new_block_hash (world s)) s) ;;
  mret (candidate, validation_code_hash).

(** [unbounded_send] *)
Definition send (m : Msg) : Mo unit :=
  closed ← gets (fun s : St => receiver_closed (PH := Hdr) (Hash := Hash) (RHash := RHash)
    (CodeHash := CodeHash) (world s));
  ensure (negb closed) Return ;;
  modify (fun s => mkTask (world s) (cache s) (slot_timer s) (connection_helper s)
    (sent_messages s ++ [m])).

(** The body of the loop. *)
Definition iteration : Mo unit :=
  wait ;;
  s ← gets id;
  let w := world s in
  '(rp_data, para_slot, parents, offset) ← find_target s;
  let rp := relay_parent rp_data in
  let (included_header, parent_header) := (parents : Hdr * Hdr) in
  '(core, data) ← find_core w rp parent_header offset;
  slot_claim ← claim_for w rp para_slot included_header parent_header;
  '(candidate, validation_code_hash) ← build_block w rp_data parent_header slot_claim (max_pov_size data);
  modify (fun s => set_cache (claim rp core (cache s)) s) ;;
  send (mkMessage (header_hash rp) parent_header candidate validation_code_hash (core_index core)
    (max_pov_size data)).

(** The task: [Break] and [Return] end it, and the number of iterations is given. *)
Fixpoint run_block_builder (iterations : nat) (s : St) : outcome St Exit unit :=
  match iterations with
  | O => Ok tt s
  | S iterations =>
      match iteration s with
      | Ok _ s | Err Continue s => run_block_builder iterations s
      | o => o
      end
  end.

(** ** The collation task ([collation_task.rs]) *)
Context {Collation BlockData : Type}.
Context `{CollatorService W Hdr Hash (ParachainCandidate Blk Proof) Collation BlockData}.

(** [handle_collation_message]: what is submitted, if the collation can be built.  The
    export of the proof of validity to a file is left out. *)
Definition handle_collation_message (w : W) (m : Msg) : option (SubmitCollationParams RHash Collation CodeHash) :=
  let hash := header_hash (candidate_block (msg_candidate m)).1 in
  match build_collation (BlockData := BlockData) w (msg_parent_header m) hash (msg_candidate m) with
  | Some (collation, _) =>
      Some (mkSubmit (msg_relay_parent m) collation
        (encode_header (W := W) (Hash := Hash) (RHash := RHash) (CodeHash := CodeHash) (msg_parent_header m))
        (msg_validation_code_hash m) (msg_core_index m))
  | None => None
  end.

(** [run_collation_task]: the messages in the order received, each with the world in which
    it is handled. *)
Definition run_collation_task (messages : list (W * Msg)) :
    list (SubmitCollationParams RHash Collation CodeHash) :=
  omap (fun wm => handle_collation_message wm.1 wm.2) messages.
End Definitions.

(** ** Lemmas *)

(** The offset is an unsigned integer. *)
Class TaskClientLaws (W PH Hash RHash CodeHash : Type) `{TaskClient W PH Hash RHash CodeHash} : Prop := {
  relay_parent_offset_nonneg w h offset : relay_parent_offset (PH := PH) (RHash := RHash)
    (CodeHash := CodeHash) w h = Some offset -> 0 <= offset;
}.

(** An error keeps [I]. *)
Definition err_keeps {S E A} (I : S -> Prop) (m : M S E A) : Prop :=
  forall s, I s -> match m s with Err _ s' => I s' | _ => True end.

Lemma err_keeps_bind {S E A B} I (m : M S E A) (k : A -> M S E B) :
  preserves I m -> (forall a, err_keeps I (k a)) -> err_keeps I (m ≫= k).
Proof.
  intros Hm Hk s Hs. specialize (Hm s Hs). unfold mbind, M_bind.
  destruct (m s); [by apply Hk|done..].
Qed.

Lemma preserves_modify {S E} (I : S -> Prop) (f : S -> S) :
  (forall s, I s -> I (f s)) -> preserves (E := E) I (modify f).
Proof. intros Hf s Hs. simpl. by apply Hf. Qed.

Section Lemmas.
Context {W D HeaderRest Hash RH RHash NimbusId NimbusSignature Version ClaimQueue Ext SA Changes Origin : Type}.
Context {Paras InherentData Providers Recorder Extensions Proof PeerId X R CheckParams L CodeHash DP : Type}.
Abbreviation Hdr := (Header D HeaderRest).
Abbreviation Blk := (Block Hdr Ext).
Abbreviation Params := (BlockImportParams Origin Hdr D Ext SA).
Context `{!EqDecision Hash} `{!EqDecision RHash} `{!EqDecision Version}.
Context `{!DigestItemOps D} `{!DigestItemLaws D} `{!Codec NimbusId}.
Context `{!Codec NimbusSignature} `{!CodecLaws NimbusSignature} `{!HeaderOps Hdr Hash}.
Context `{!HeaderOps RH RHash} `{!RelayHeaderOps RH RHash} `{!ParaDigestOps Hdr RHash}.
Context `{!ParaClient W Hdr Hash NimbusId Version} `{!RelayClient W RHash ClaimQueue}.
Context `{!RelayChainInterface W RH RHash} `{!RelayChainLaws W RH RHash} `{!ClaimQueueOps ClaimQueue}.
Context `{!LruMap RHash (RelayChainData RH ClaimQueue) L} `{!LruMapLaws RHash (RelayChainData RH ClaimQueue) L}.
Context `{!StateActionOps SA Changes} `{!BlockOrigins Origin}.
Context `{!ProposerInterface W Hdr Paras InherentData D Recorder Extensions (Proposal Blk Changes) X}.
Context `{!ProposerLaws W D HeaderRest Ext Paras InherentData Recorder Extensions Changes X}.
Context `{!InherentProviders W Hash unit Providers InherentData X} `{!ReplaceData InherentData}.
Context `{!ParasProvider W RHash RH Paras PeerId} `{!ProofRecorders W Recorder Proof Extensions}.
Context `{!Keystore W NimbusId Hash NimbusSignature} `{!ImportParamsOps Params Origin Hdr}.
Context `{!ImportParamsLaws Origin D HeaderRest Ext SA}.
Context `{!DigestsProvider DP NimbusId Hash D} `{!SlotOps} `{!Clock W}.
Context `{!TaskClient W Hdr Hash RHash CodeHash} `{!TaskClientLaws W Hdr Hash RHash CodeHash}.
Context (from_slice : list Z -> option NimbusId) (para_id : Z).
Context (verify : NimbusId -> Hash -> NimbusSignature -> bool).
Context `{!KeystoreLaws W NimbusId Hash NimbusSignature from_slice verify}.
Context (block_import : BlockImport W X CheckParams R Params) (additional_digests_provider : DP).
Context (oc : bool) (runtime_requirement default_lookahead : Z).
Context (params : TaskParams PeerId).

Abbreviation Msg := (CollatorMessage RHash Hdr Blk Proof CodeHash).
Abbreviation St := (Task W L Msg).
Abbreviation Mo := (M St Exit).
Abbreviation on_cache := (on_cache (W := W) (Ext := Ext) (D := D) (HeaderRest := HeaderRest) (RHash := RHash)
  (Proof := Proof) (CodeHash := CodeHash) (L := L)).
Abbreviation find_target := (find_target (Hash := Hash) (RH := RH) (ClaimQueue := ClaimQueue) (L := L)
  (Ext := Ext) (Proof := Proof) (CodeHash := CodeHash) para_id runtime_requirement default_lookahead params).
Abbreviation find_core := (find_core (W := W) (RH := RH) (ClaimQueue := ClaimQueue) (L := L)
  (Ext := Ext) (Proof := Proof) (CodeHash := CodeHash) para_id).
Abbreviation claim_for := (claim_for (W := W) (Hash := Hash) (RH := RH) (Version := Version) (L := L)
  (Ext := Ext) (Proof := Proof) (CodeHash := CodeHash) from_slice params).
Abbreviation build_block := (build_block (W := W) (Hash := Hash) (RH := RH) (NimbusSignature := NimbusSignature)
  (Changes := Changes) (Providers := Providers) (Extensions := Extensions) (L := L) (CodeHash := CodeHash)
  para_id block_import additional_digests_provider oc params).
Abbreviation iteration := (iteration (Hash := Hash) (RH := RH) (NimbusSignature := NimbusSignature)
  (Version := Version) (ClaimQueue := ClaimQueue) (Changes := Changes) (Providers := Providers)
  (Extensions := Extensions) (L := L) (CodeHash := CodeHash) (Proof := Proof)
  from_slice para_id block_import additional_digests_provider oc runtime_requirement default_lookahead params).

Abbreviation proposed_from := (BlockProduction.proposed_from (Recorder := Recorder)
  (Extensions := Extensions) (Changes := Changes) (X := X) (Paras := Paras) (InherentData := InherentData)
  from_slice verify).

(** The slot duration that the timer was given. *)
Definition task_slot_duration (s : St) : Z := slot_duration (slot_timer s).

(** The cache is right, nothing was sent, the slot duration is [dur]. *)
Definition quiet (dur : Z) (msgs : list Msg) (s : St) : Prop :=
  sent_messages s = msgs /\ cache_ok (cache s) /\ task_slot_duration s = dur.

Lemma on_cache_quiet {A} dur msgs (m : M L unit A) :
  (forall l, cache_ok l -> match m l with Ok _ l' | Err _ l' => cache_ok l' | Panic => True end) ->
  preserves (quiet dur msgs) (on_cache m).
Proof.
  intros Hm s (Hs & Hc & Hd). specialize (Hm _ Hc). unfold BlockBuilder.on_cache, zoom.
  destruct (m (cache s)); by unfold quiet.
Qed.

Lemma on_world_quiet {A} dur msgs e (m : M W (CollatorError RHash X) A) :
  preserves (quiet dur msgs) (on_world (L := L) (D := D) (HeaderRest := HeaderRest) (Ext := Ext) (Proof := Proof)
    (CodeHash := CodeHash) e m).
Proof. intros s Hs. unfold on_world, zoom. by destruct (m (world s)). Qed.

Lemma find_descendants_ok best offset w l :
  cache_ok l -> 0 <= offset ->
  match offset_relay_parent_find_descendants (ClaimQueue := ClaimQueue) (RH := RH) para_id w best offset l with
  | Ok _ l' | Err _ l' => cache_ok l' | Panic => True end.
Proof.
  intros Hl Ho. pose proof (descendants_chain (ClaimQueue := ClaimQueue) para_id w best offset l Hl Ho) as Hd.
  destruct (offset_relay_parent_find_descendants _ _ _ _ _) as [[|]| |]; naive_solver.
Qed.

Lemma fetch_ok h w l :
  cache_ok l ->
  match get_mut_relay_chain_data (ClaimQueue := ClaimQueue) (RH := RH) para_id w h l with
  | Ok _ l' | Err _ l' => cache_ok l' | Panic => True end.
Proof.
  intros Hl. pose proof (fetch_spec (ClaimQueue := ClaimQueue) para_id w h l Hl) as Hf.
  destruct (get_mut_relay_chain_data _ _ _ _); naive_solver.
Qed.

Lemma determine_core_ok rp (parent : Hdr) offset w l :
  cache_ok l ->
  match determine_core (ClaimQueue := ClaimQueue) (RH := RH) para_id w rp parent offset l with
  | Ok _ l' | Err _ l' => cache_ok l' | Panic => True end.
Proof.
  intros Hl. unfold determine_core. apply (preserves_bind cache_ok); [|intros data|done].
  { intros l' Hl'. by apply (fetch_ok _ w). }
  apply preserves_bind.
  { apply read_only_preserves. unfold is_new_relay_parent. destruct (number parent =? 0); [done|].
    destruct (extract_relay_parent parent); [done|]. intros l'. unfold mbind, M_bind, ok_or.
    by destruct (extract_relay_parent_storage_root _). }
  intros is_new. apply preserves_bind; [|by intros ? ? ?].
  destruct is_new; [by intros ? ?|]. destruct (find_core_selector parent); [by intros ? ?|].
  apply preserves_bind; [intros l' Hl'; by apply (fetch_ok _ w)|by intros ? ? ?].
Qed.

(** The steps before the message is sent keep the cache right and send nothing. *)
Lemma wait_quiet dur msgs : preserves (quiet dur msgs) (wait oc : Mo unit).
Proof.
  intros s (Hs & Hc & Hd). unfold wait. unfold_M. unfold id.
  destruct (wait_until_next_slot _ _ _) as [[d t]|] eqn:Hw; simpl; [|done].
  split; [done|]. split; [done|]. unfold task_slot_duration in *. simpl.
  apply wait_slot_duration in Hw. congruence.
Qed.

Lemma find_target_quiet dur msgs s : preserves (quiet dur msgs) (find_target s).
Proof.
  unfold BlockBuilder.find_target. apply preserves_bind; [apply read_only_preserves, read_only_ok_or|].
  intros best. apply preserves_bind.
  { apply on_cache_quiet. intros l Hl. apply find_descendants_ok; [done|].
    destruct (relay_parent_offset _ _) as [o|] eqn:Ho; simpl; [|done]. by eapply relay_parent_offset_nonneg. }
  intros rp. apply preserves_bind; [apply read_only_preserves, read_only_ok_or|].
  intros rpd. apply preserves_bind; [apply read_only_preserves, read_only_expect|].
  intros o. apply preserves_bind; [apply read_only_preserves, read_only_ok_or|].
  intros slot. apply preserves_bind; [apply read_only_preserves, read_only_ok_or|]. by intros ? ?.
Qed.

Lemma find_core_quiet dur msgs w rp (parent : Hdr) offset :
  preserves (quiet dur msgs) (find_core w rp parent offset).
Proof.
  unfold BlockBuilder.find_core. apply preserves_bind.
  { apply on_cache_quiet. intros l. apply determine_core_ok. }
  intros core. apply preserves_bind; [apply read_only_preserves, read_only_ok_or|].
  intros c. apply preserves_bind; [apply on_cache_quiet; intros l; apply fetch_ok|].
  intros data. apply preserves_bind; [by apply preserves_modify|]. by intros ? ?.
Qed.

Lemma claim_for_quiet dur msgs w rp slot (included parent : Hdr) :
  preserves (quiet dur msgs) (claim_for w rp slot included parent).
Proof.
  unfold BlockBuilder.claim_for. apply preserves_bind; [apply read_only_preserves, read_only_ok_or|].
  intros relay_slot. apply preserves_bind; [by apply preserves_modify|].
  intros u. apply read_only_preserves, read_only_ok_or.
Qed.

Lemma build_block_quiet dur msgs w rp_data (parent : Hdr) claim pov :
  preserves (quiet dur msgs) (build_block w rp_data parent claim pov).
Proof.
  unfold BlockBuilder.build_block. apply preserves_bind; [apply on_world_quiet|].
  intros inh. apply preserves_bind; [apply read_only_preserves, read_only_ok_or|].
  intros code. apply preserves_bind; [apply read_only_preserves, read_only_expect|].
  intros allowed. apply preserves_bind.
  { unfold adjusted_duration. apply read_only_preserves. intros s. unfold_M.
    by destruct (SlotTimer_adjust_authoring_duration _ _ _ _ _) as [[|]|]. }
  intros duration. apply preserves_bind; [apply on_world_quiet|].
  intros c. apply preserves_bind; [apply read_only_preserves, read_only_ok_or|].
  intros cand. apply preserves_bind; [by apply preserves_modify|]. by intros ? ?.
Qed.

Lemma claim_quiet dur msgs rp core :
  preserves (quiet dur msgs) (modify (fun s => set_cache (claim rp core (cache s)) s) : Mo unit).
Proof. apply preserves_modify. intros s (Hs & Hc & Hd). split; [done|]. split; [by apply claim_ok|done]. Qed.

Lemma send_err dur msgs (m : Msg) : err_keeps (quiet dur msgs) (send m : Mo unit).
Proof. intros s Hs. unfold send. unfold_M. by destruct (negb _). Qed.

Lemma iteration_err dur msgs : err_keeps (quiet dur msgs) iteration.
Proof.
  unfold BlockBuilder.iteration. apply err_keeps_bind; [apply wait_quiet|intros _].
  apply err_keeps_bind; [by intros s|]. intros s.
  apply err_keeps_bind; [apply find_target_quiet|]. intros [[[rp_data slot] parents] offset].
  destruct parents as [included parent].
  apply err_keeps_bind; [apply find_core_quiet|]. intros [core data].
  apply err_keeps_bind; [apply claim_for_quiet|]. intros c.
  apply err_keeps_bind; [apply build_block_quiet|]. intros [cand code].
  apply err_keeps_bind; [apply claim_quiet|]. intros _. apply send_err.
Qed.

(** What the successful steps return. *)
Lemma wait_Ok (s s' : St) :
  wait oc s = Ok tt s' -> exists d t, wait_until_next_slot oc (clock (world s)) (slot_timer s) = Some (d, t) /\
    s' = set_world (sleep d (world s)) (set_timer t s).
Proof.
  unfold wait. intros Hw. inv_ok.
  match goal with Hm : (let '(_, _) := ?p in _) _ = Ok _ _ |- _ => destruct p as [d t]; injection Hm as <- end.
  eauto.
Qed.

Lemma find_target_Ok (s0 s s' : St) rp_data slot included parent offset :
  cache_ok (cache s) ->
  find_target s0 s = Ok (rp_data, slot, (included, parent), offset) s' ->
  world s' = world s /\ cache_ok (cache s') /\ sent_messages s' = sent_messages s /\
  offset = default 0 (relay_parent_offset (PH := Hdr) (RHash := RHash) (CodeHash := CodeHash) (world s0)
      (best_hash (PH := Hdr) (RHash := RHash) (CodeHash := CodeHash) (world s0))) /\
  Z.of_nat (length (descendants rp_data)) = offset /\
  chained (relay_parent rp_data :: descendants rp_data) /\
  header_hash <$> last (relay_parent rp_data :: descendants rp_data)
    = best_block_hash (PH := Hdr) (Hash := Hash) (CodeHash := CodeHash) (world s0) /\
  find_parent (RHash := RHash) (ClaimQueue := ClaimQueue) runtime_requirement default_lookahead
    (find_parent_for_building (CodeHash := CodeHash)) (world s0) (header_hash (relay_parent rp_data))
    = Some (included, parent) /\
  adjust_para_to_relay_parent_slot (relay_parent rp_data) (relay_chain_slot_duration params)
    (Z.min (as_millis (task_slot_duration s0)) (umax 64)) = Some (Some slot).
Proof.
  intros Hc Ht. unfold BlockBuilder.find_target in Ht. inv_ok. simplify_eq.
  match goal with Hz : on_cache _ _ = Ok _ _ |- _ => apply zoom_Ok in Hz as (l & Hz & ->) end. simpl.
  match goal with Hz : offset_relay_parent_find_descendants _ _ ?b ?o _ = Ok _ _ |- _ =>
    assert (Ho : 0 <= o) by (destruct (relay_parent_offset _ _) as [o'|] eqn:Ho'; simpl; [|done];
      by eapply relay_parent_offset_nonneg);
    pose proof (descendants_chain (ClaimQueue := ClaimQueue) para_id (world s0) b o _ Hc Ho) as Hd;
    rewrite Hz in Hd end.
  destruct Hd as (Hl & Hlen & Hch & Hlast & _). by split_and!.
Qed.

Lemma determine_core_Some w rp (parent : Hdr) offset core l l' :
  cache_ok l -> determine_core (ClaimQueue := ClaimQueue) (RH := RH) para_id w rp parent offset l = Ok (Some core) l' ->
  exists d, cache_ok l' /\ peek l' (header_hash rp) = Some d /\
    exists selector, core_selector core = wrapping 8 selector /\
      claims_at_depth_for_para (claim_queue d) offset para_id !! Z.to_nat selector = Some (core_index core).
Proof.
  intros Hl Hd. pose proof Hd as Hd'. unfold determine_core in Hd'. inv_ok.
  match goal with Hn : is_new_relay_parent _ _ ?l1 = Ok ?b ?l2 |- _ =>
    assert (Hnew : forall l0, is_new_relay_parent (L := L) rp parent l0 = Ok b l0) end.
  { intros l0. unfold is_new_relay_parent in *. destruct (number parent =? 0); [by inv_ok|].
    destruct (extract_relay_parent parent); [by inv_ok|]. unfold mbind, M_bind, ok_or in *.
    destruct (extract_relay_parent_storage_root parent); [|done]. unfold mret, M_ret in *. by simplify_eq. }
  destruct (core_for_Ok (ClaimQueue := ClaimQueue) para_id w rp parent offset _ l _ l' Hl Hnew Hd)
    as (d & Hl' & Hp & _ & Ho). exists d. split; [done|]. split; [done|]. cbv zeta in Ho.
  eexists. destruct (_ !! _) eqn:Hi in Ho; [|done]. simplify_eq. simpl. split; [done|exact Hi].
Qed.

Lemma find_core_Ok w rp (parent : Hdr) offset core data (s s' : St) :
  cache_ok (cache s) -> find_core w rp parent offset s = Ok (core, data) s' ->
  world s' = world s /\ sent_messages s' = sent_messages s /\ cache_ok (cache s') /\
  peek (cache s') (header_hash rp) = Some data /\
  exists selector, core_selector core = wrapping 8 selector /\
    claims_at_depth_for_para (claim_queue data) offset para_id !! Z.to_nat selector = Some (core_index core).
Proof.
  intros Hc Hf. unfold BlockBuilder.find_core in Hf. inv_ok. simplify_eq.
  repeat match goal with Hz : on_cache _ _ = Ok _ _ |- _ => apply zoom_Ok in Hz as (? & Hz & ->) end.
  simpl in *.
  match goal with Hd : determine_core _ _ _ _ _ _ = Ok (Some ?c) ?l |- _ =>
    destruct (determine_core_Some _ _ _ _ _ _ _ Hc Hd) as (d & Hl & Hp & Hs) end.
  match goal with Hg : get_mut_relay_chain_data _ _ _ _ = Ok _ _ |- _ =>
    pose proof (fetch_cached (ClaimQueue := ClaimQueue) para_id w _ _ _ Hl Hp) as (l' & Hg' & Hl' & Hp');
    rewrite Hg' in Hg end.
  simplify_eq. split_and!; done.
Qed.

Lemma claim_for_Ok w rp slot (included parent : Hdr) c (s s' : St) :
  claim_for w rp slot included parent s = Ok c s' ->
  world s' = world s /\ cache s' = cache s /\ sent_messages s' = sent_messages s /\
  claim_slot from_slice w parent rp (force_authoring params) = inr (Some (author_id c)) /\
  timestamp c = slot.2 /\
  (header_hash parent = header_hash included \/ exists v relay_slot,
     segment_api_version w (header_hash parent) = Some (Some v) /\ babe_slot rp = Some relay_slot /\
     api_can_build_upon w (header_hash parent) (header_hash included)
       (if 1 <? v then relay_slot else slot.1) = Some true).
Proof.
  intros Hc. unfold BlockBuilder.claim_for in Hc. inv_ok. simpl.
  match goal with Hb : can_build_upon _ _ _ _ _ _ _ _ _ = Some _ |- _ =>
    apply can_build_upon_Some in Hb as (Hcl & Hts & Hor) end.
  split_and!; try done. destruct Hor as [|(v & ? & ?)]; [by left|right; eauto].
Qed.

(** The inherents of a block: for the relay parent, its number and storage root, with the
    timestamp of the claim. *)
Definition inherents_for (rp_data : RelayParentData RH) (parent : Hdr) (c : SlotClaim NimbusId)
    (inherents : Paras * InherentData) : Prop :=
  let rp := relay_parent rp_data in
  exists (w : W) pov other, inherents.2 = replace_timestamp (timestamp c) other /\
    create_at w (header_hash rp) (mkValidationData (encode_header (W := W) (Hash := Hash)
        (RHash := RHash) (CodeHash := CodeHash) parent) (number rp) (relay_state_root rp) pov) para_id
      (into_inherent_descendant_list rp_data) (map Top (additional_relay_state_keys params))
      (collator_peer_id params) = Some inherents.1.

Lemma inherents_Ok rp_data (parent : Hdr) c pov (w w' : W) (inherents : Paras * InherentData) :
  create_inherent_data_with_rp_offset (X := X) (Providers := Providers) para_id
    (header_hash (relay_parent rp_data))
    (mkValidationData (encode_header (W := W) (Hash := Hash) (RHash := RHash) (CodeHash := CodeHash) parent)
      (number (relay_parent rp_data)) (relay_state_root (relay_parent rp_data)) pov)
    (header_hash parent) (Some (timestamp c)) (Some rp_data) (additional_relay_state_keys params)
    (collator_peer_id params) tt w = Ok inherents w' ->
  inherents_for rp_data parent c inherents.
Proof.
  unfold create_inherent_data_with_rp_offset. intros Hi. inv_ok. simpl in *.
  repeat match goal with Hx : map_err _ _ _ = Ok _ _ |- _ => apply zoom_id_Ok in Hx end.
  simplify_eq. unfold inherents_for. simpl. eauto.
Qed.

Lemma build_block_Ok w rp_data (parent : Hdr) c pov cand code (s s' : St) :
  build_block w rp_data parent c pov s = Ok (cand, code) s' ->
  cache s' = cache s /\ sent_messages s' = sent_messages s /\
  code_hash_at (PH := Hdr) (RHash := RHash) w (header_hash parent) = Some code /\
  built_by from_slice verify (author_id c)
    (provide_digests additional_digests_provider (author_id c) (header_hash parent)) (candidate_block cand) /\
  (exists inherents, inherents_for rp_data parent c inherents /\
     proposed_from parent inherents (candidate_block cand)) /\
  exists w', imported block_import (candidate_block cand) w' /\
    world s' = announce_block (PH := Hdr) (RHash := RHash) (CodeHash := CodeHash)
      (header_hash (candidate_block cand).1) w'.
Proof.
  intros Hb. unfold BlockBuilder.build_block, adjusted_duration in Hb. inv_ok. simplify_eq.
  repeat match goal with Hz : on_world _ _ _ = Ok _ _ |- _ => apply zoom_Ok in Hz as (? & Hz & ->) end.
  match goal with Hz : build_block_and_import _ _ _ _ _ _ _ _ = Ok _ _ |- _ =>
    apply (build_spec from_slice verify) in Hz as (cand' & Heq & Hby & Himp & Hfrom) end.
  match goal with Hz : create_inherent_data_with_rp_offset _ _ _ _ _ _ _ _ _ _ = Ok _ _ |- _ =>
    apply inherents_Ok in Hz end.
  simplify_eq. simpl in *. split_and!; try done; eauto.
Qed.

(** ** Properties *)

(** A message sent by an iteration that saw the world [w] and ended in [s']. *)
Definition message_for (w : W) (m : Msg) (s' : St) : Prop :=
  exists rp_data included data (c : SlotClaim NimbusId) selector para_slot inherents w',
    let rp := relay_parent rp_data in
    let parent := msg_parent_header m in
    let offset := default 0 (relay_parent_offset (PH := Hdr) (RHash := RHash) (CodeHash := CodeHash) w
      (best_hash (PH := Hdr) (RHash := RHash) (CodeHash := CodeHash) w)) in
    (* the relay parent lies [offset] blocks below the best block *)
    msg_relay_parent m = header_hash rp /\
    Z.of_nat (length (descendants rp_data)) = offset /\ chained (rp :: descendants rp_data) /\
    header_hash <$> last (rp :: descendants rp_data)
      = best_block_hash (PH := Hdr) (Hash := Hash) (CodeHash := CodeHash) w /\
    (* the parent is the one found for it *)
    find_parent (RHash := RHash) (ClaimQueue := ClaimQueue) runtime_requirement default_lookahead
      (find_parent_for_building (CodeHash := CodeHash)) w (header_hash rp) = Some (included, parent) /\
    (* the slot of the relay parent was claimed, and there is room for a block *)
    adjust_para_to_relay_parent_slot rp (relay_chain_slot_duration params)
      (Z.min (as_millis (task_slot_duration s')) (umax 64)) = Some (Some para_slot) /\
    claim_slot from_slice w parent rp (force_authoring params) = inr (Some (author_id c)) /\
    timestamp c = para_slot.2 /\
    (header_hash parent = header_hash included \/ exists v relay_slot,
       segment_api_version w (header_hash parent) = Some (Some v) /\ babe_slot rp = Some relay_slot /\
       api_can_build_upon w (header_hash parent) (header_hash included)
         (if 1 <? v then relay_slot else para_slot.1) = Some true) /\
    (* the core is a claim of the parachain, and its selector is remembered *)
    claims_at_depth_for_para (claim_queue data) offset para_id !! Z.to_nat selector = Some (msg_core_index m) /\
    last_claimed_core_selector data = Some (wrapping 8 selector) /\
    peek (cache s') (header_hash rp) = Some data /\
    (* the block was made on the parent with the inherents of the relay parent and the claim *)
    inherents_for rp_data parent c inherents /\
    proposed_from parent inherents (candidate_block (msg_candidate m)) /\
    (* the block is by the claim's author, and was imported and announced *)
    built_by from_slice verify (author_id c)
      (provide_digests additional_digests_provider (author_id c) (header_hash parent))
      (candidate_block (msg_candidate m)) /\
    imported block_import (candidate_block (msg_candidate m)) w' /\
    world s' = announce_block (PH := Hdr) (RHash := RHash) (CodeHash := CodeHash)
      (header_hash (candidate_block (msg_candidate m)).1) w' /\
    code_hash_at (PH := Hdr) (RHash := RHash) w (header_hash parent) = Some (msg_validation_code_hash m).

(** An iteration that reaches its
    end sends exactly one message, for a relay parent the configured number of blocks
    below the best one, with the parent found for it, a slot claimed for a key of the
    keystore, room in the unincluded segment, a core of the claim queue whose selector is
    remembered, and a sealed block by the claim's author that was imported and announced;
    an iteration that is left early sends nothing.  The cache stays right. *)
Lemma iteration_spec (s : St) :
  cache_ok (cache s) ->
  match iteration s with
  | Ok _ s' => cache_ok (cache s') /\ task_slot_duration s' = task_slot_duration s /\
      exists m d t, wait_until_next_slot oc (clock (world s)) (slot_timer s) = Some (d, t) /\
      sent_messages s' = sent_messages s ++ [m] /\ message_for (sleep d (world s)) m s'
  | Err _ s' => quiet (task_slot_duration s) (sent_messages s) s'
  | Panic => True
  end.
Proof.
  intros Hc. assert (Hq : quiet (task_slot_duration s) (sent_messages s) s) by done.
  pose proof (iteration_err _ _ s Hq) as Herr.
  destruct (iteration s) as [u s'|e s'|] eqn:Hi; [|done..]. clear Herr.
  unfold BlockBuilder.iteration in Hi. apply bind_Ok in Hi as ([] & s1 & Hw & Hi).
  destruct (wait_Ok _ _ Hw) as (d & t & Hwait & Hs1).
  apply (preserves_Ok _ _ _ _ _ (wait_quiet _ _) Hq) in Hw as Hq1.
  apply bind_Ok in Hi as (? & ? & [= <- <-] & Hi). simpl in Hi. unfold id in Hi.
  apply bind_Ok in Hi as ([[[rp_data slot] [included parent]] offset] & s2 & Ht & Hi).
  apply (preserves_Ok _ _ _ _ _ (find_target_quiet _ _ _) Hq1) in Ht as Hq2.
  apply bind_Ok in Hi as ([core data] & s3 & Hcore & Hi).
  apply (preserves_Ok _ _ _ _ _ (find_core_quiet _ _ _ _ _ _) Hq2) in Hcore as Hq3.
  apply bind_Ok in Hi as (c & s4 & Hclaim & Hi).
  apply (preserves_Ok _ _ _ _ _ (claim_for_quiet _ _ _ _ _ _ _) Hq3) in Hclaim as Hq4.
  apply bind_Ok in Hi as ([cand code] & s5 & Hbuild & Hi).
  apply (preserves_Ok _ _ _ _ _ (build_block_quiet _ _ _ _ _ _ _) Hq4) in Hbuild as Hq5.
  apply find_target_Ok in Ht as (Hw2 & Hc2 & _ & Hoff & Hlen & Hch & Hlast & Hpar & Hadj); [|apply Hq1].
  apply find_core_Ok in Hcore as (Hw3 & _ & Hc3 & Hp3 & selector & Hsel & Hcl); [|done].
  apply claim_for_Ok in Hclaim as (Hw4 & Hc4 & _ & Hcs & Hts & Hroom).
  apply build_block_Ok in Hbuild as (Hc5 & _ & Hcode & Hby & (inherents & Hinh & Hfrom) & w' & Himp & Hann).
  destruct Hq5 as (Hs5 & _ & Hd5). assert (Hd1 : task_slot_duration s1 = task_slot_duration s) by apply Hq1.
  unfold send in Hi. inv_ok. simpl in *. rewrite Hc5, Hc4 in *.
  split; [by apply claim_ok|]. split; [exact Hd5|]. eexists _, d, t. split; [done|].
  split; [by rewrite Hs5|].
  exists rp_data, included, (mkRelayChainData (relay_parent_header data) (claim_queue data)
    (max_pov_size data) (Some (core_selector core))), c, selector, slot, inherents, w'.
  assert (Hd : forall tk, task_slot_duration s1 = tk -> task_slot_duration s5 = tk) by congruence.
  subst s1. simpl in *. rewrite <- Hoff. split_and!; try done.
  - unfold task_slot_duration in *. simpl in *. by rewrite Hd5, <- Hd1.
  - by rewrite Hsel.
  - unfold claim. by rewrite peek_set_entry, Hp3.
Qed.

Abbreviation run := (run_block_builder (Hash := Hash) (RH := RH) (NimbusSignature := NimbusSignature)
  (Version := Version) (ClaimQueue := ClaimQueue) (Changes := Changes) (Providers := Providers)
  (Extensions := Extensions) (L := L) (CodeHash := CodeHash) (Proof := Proof)
  from_slice para_id block_import additional_digests_provider oc runtime_requirement default_lookahead params).

(** The messages of a run, however it ends: each was sent by one iteration, with the slot
    duration [dur]. *)
Definition from_iterations (dur : Z) (msgs : list Msg) : Prop :=
  Forall (fun m => exists w s', task_slot_duration s' = dur /\ message_for w m s') msgs.

Lemma run_spec n dur (s : St) :
  cache_ok (cache s) -> task_slot_duration s = dur -> from_iterations dur (sent_messages s) ->
  match run n s with
  | Ok _ s' | Err _ s' => cache_ok (cache s') /\ from_iterations dur (sent_messages s') /\
      (length (sent_messages s') <= length (sent_messages s) + n)%nat
  | Panic => True
  end.
Proof.
  revert s. induction n as [|n IH]; intros s Hc Hd Hm; [cbn; split_and!; [done..|lia]|].
  cbn [run_block_builder]. pose proof (iteration_spec s Hc) as Hi. rewrite Hd in Hi.
  destruct (iteration s) as [u s1|[] s1|]; [..|done].
  - destruct Hi as (Hc1 & Hd1 & m & d & t & _ & Hs & Hmsg).
    assert (Hm1 : from_iterations dur (sent_messages s1)).
    { rewrite Hs. apply Forall_app. split; [done|]. constructor; [|constructor]. eauto. }
    specialize (IH s1 Hc1 Hd1 Hm1). rewrite Hs, length_app in IH. simpl in IH.
    destruct (run n s1); [destruct IH as (? & ? & ?); split_and!; [done..|lia]..|done].
  - destruct Hi as (Hs & Hc1 & Hd1). specialize (IH s1 Hc1 Hd1). rewrite Hs in IH. specialize (IH Hm).
    destruct (run n s1); [destruct IH as (? & ? & ?); split_and!; [done..|lia]..|done].
  - destruct Hi as (-> & Hc1 & _). split_and!; [done..|lia].
  - destruct Hi as (-> & Hc1 & _). split_and!; [done..|lia].
Qed.

Context {Collation BlockData : Type}.
Context `{!CollatorService W Hdr Hash (ParachainCandidate Blk Proof) Collation BlockData}.

(** C8: what the slot-based collator submits is built as it should be: whatever number of
    iterations its block builder runs and however it stops, each iteration sends at most
    one message, and every collation that the collation task submits was made from a
    message that one iteration sent: for the relay parent the configured number of blocks
    below the best one, on the parent found for it, in the slot of that relay parent,
    claimed for a key of the keystore with room in the unincluded segment, for a core of
    the claim queue whose selector is remembered, with a sealed block by the claim's author
    that was proposed with the inherents of the relay parent and the slot's timestamp,
    imported and announced.  The cache of relay chain data stays right. *)
Theorem slot_based_submits n (s : St) :
  cache_ok (cache s) -> sent_messages s = [] ->
  match run n s with
  | Ok _ s' | Err _ s' =>
      cache_ok (cache s') /\ (length (sent_messages s') <= n)%nat /\
      forall (received : list (W * Msg)) submitted, received.*2 `prefix_of` sent_messages s' ->
        submitted ∈ run_collation_task (Collation := Collation) (BlockData := BlockData) received ->
        exists m wm data w s1, m ∈ sent_messages s' /\
          task_slot_duration s1 = task_slot_duration s /\ message_for w m s1 /\
          build_collation wm (msg_parent_header m) (header_hash (candidate_block (msg_candidate m)).1)
            (msg_candidate m) = Some (sub_collation submitted, data : BlockData) /\
          submitted = mkSubmit (msg_relay_parent m) (sub_collation submitted)
            (encode_header (W := W) (Hash := Hash) (RHash := RHash) (CodeHash := CodeHash) (msg_parent_header m))
            (msg_validation_code_hash m) (msg_core_index m)
  | Panic => True
  end.
Proof.
  intros Hc Hs. pose proof (run_spec n _ s Hc eq_refl ltac:(rewrite Hs; constructor)) as Hr.
  rewrite Hs in Hr.
  assert (Hsub : forall (s' : St) (received : list (W * Msg)) submitted,
    from_iterations (task_slot_duration s) (sent_messages s') -> received.*2 `prefix_of` sent_messages s' ->
    submitted ∈ run_collation_task (Collation := Collation) (BlockData := BlockData) received ->
    exists m wm data w s1, m ∈ sent_messages s' /\
      task_slot_duration s1 = task_slot_duration s /\ message_for w m s1 /\
      build_collation wm (msg_parent_header m) (header_hash (candidate_block (msg_candidate m)).1)
        (msg_candidate m) = Some (sub_collation submitted, data : BlockData) /\
      submitted = mkSubmit (msg_relay_parent m) (sub_collation submitted)
        (encode_header (W := W) (Hash := Hash) (RHash := RHash) (CodeHash := CodeHash) (msg_parent_header m))
        (msg_validation_code_hash m) (msg_core_index m)).
  { intros s' received sub Hm [rest Hp] Hin. unfold run_collation_task in Hin.
    apply list_elem_of_omap in Hin as ([wm m] & Hin & Hh). simpl in Hh.
    assert (Hin' : m ∈ sent_messages s').
    { rewrite Hp. apply elem_of_app. left. apply list_elem_of_fmap. by exists (wm, m). }
    unfold from_iterations in Hm. rewrite Forall_forall in Hm.
    destruct (Hm m Hin') as (w & s1 & Hd & Hmsg). unfold handle_collation_message in Hh.
    destruct (build_collation _ _ _ _) as [[col data]|] eqn:Hb; [|done]. injection Hh as <-.
    exists m, wm, data, w, s1. done. }
  destruct (run n s) as [u s'|e s'|]; [..|done]; destruct Hr as (Hc' & Hm & Hlen); (split_and!; [done..|]); eauto.
Qed.
End Lemmas.

(** ** Concrete instances: the worlds of [BlockProduction] and [RelayParents], a best relay
    block 8 with an offset of 2, and a clock that shows one second. *)
Section Witnesses.
#[local] Existing Instance fixed_codec.
#[local] Existing Instance fixed_codec_laws.
#[local] Existing Instance BlockImport.sample_header.
#[local] Existing Instance BlockImport.sample_action.
#[local] Existing Instance BlockImport.sample_providers.
#[local] Existing Instance BlockProduction.sample_origins.
#[local] Existing Instance BlockProduction.sample_environment.
#[local] Existing Instance BlockProduction.sample_environment_laws.
#[local] Existing Instance BlockProduction.sample_paras.
#[local] Existing Instance BlockProduction.sample_recorders.
#[local] Existing Instance BlockProduction.sample_keystore.
#[local] Existing Instance BlockProduction.sample_keystore_laws.
#[local] Existing Instance BlockProduction.sample_import_params.
#[local] Existing Instance BlockProduction.sample_import_params_laws.
#[local] Existing Instance BlockProduction.sample_para_client.
#[local] Existing Instance RelayParents.sample_relay_header.
#[local] Existing Instance RelayParents.sample_relay_ops.
#[local] Existing Instance RelayParents.sample_relay_client.
#[local] Existing Instance RelayParents.sample_relay_chain.
#[local] Existing Instance RelayParents.sample_relay_chain_laws.
#[local] Existing Instance RelayParents.sample_queue.
#[local] Existing Instance SlotTimer.sample_slots.

Abbreviation SHdr := (Header Item Z).
Abbreviation SMsg := (CollatorMessage Z SHdr (Block SHdr Z) Z Z).

#[local] Instance sample_digest_ops : ParaDigestOps SHdr Z := {|
  extract_relay_parent _ := Some 5;
  extract_relay_parent_storage_root _ := None;
  find_core_selector _ := None;
|}.

#[local] Instance sample_paras_provider : ParasProvider unit Z Z Z unit := fun _ _ _ _ _ _ _ => Some 3.

#[local] Instance sample_replace : ReplaceData unit := fun _ d => d.

#[local] Instance sample_clock : Clock unit := {| clock _ := from_millis 1000; sleep _ w := w |}.

#[local] Instance sample_task_client : TaskClient unit SHdr Z Z Z := {|
  best_block_hash _ := Some 8;
  best_hash _ := 8;
  relay_parent_offset _ _ := Some 2;
  find_parent_for_building _ _ _ := Some (Some (mkHeader [] 8, mkHeader [] 8));
  code_hash_at _ _ := Some 99;
  announce_block _ w := w;
  encode_header _ := [];
  receiver_closed _ := false;
|}.

#[local] Instance sample_task_client_laws : TaskClientLaws unit SHdr Z Z Z.
Proof. split. intros w h offset [= <-]. lia. Qed.

Definition sample_task_params : TaskParams unit :=
  mkTaskParams (from_millis 6000) (from_millis 2000) None false [] tt.

Definition sample_task : Task unit (list (Z * RelayChainData Z (list Z))) SMsg :=
  mkTask tt [] (new_with_offset 0 (from_millis 6000) None) new_connection_helper [].

#[local] Existing Instance BlockProduction.sample_service.

Abbreviation sample_run := (run_block_builder (W := unit) (D := Item) (HeaderRest := Z) (Hash := Z) (RH := Z)
  (RHash := Z) (NimbusId := Z) (NimbusSignature := Z) (Version := Z) (ClaimQueue := list Z) (Ext := Z)
  (SA := option Z) (Changes := Z) (Origin := unit) (Paras := Z) (InherentData := unit) (Providers := unit)
  (Recorder := unit) (Extensions := unit) (Proof := Z) (PeerId := unit) (X := unit)
  (L := list (Z * RelayChainData Z (list Z))) (CodeHash := Z) (DP := unit)
  sample_from_slice 2000 sample_import tt true 1 3 sample_task_params).

Lemma slot_based_submits_witness :
  exists s' m, sample_run 1 sample_task = Ok tt s' /\ sent_messages s' = [m] /\
    msg_relay_parent m = 6 /\
    run_collation_task (BlockData := unit) [(tt, m)] = [mkSubmit 6 12 [] 99 5] /\
    exists m', m' ∈ sent_messages s' /\ msg_core_index m' = 5.
Proof.
  assert (Hc : cache_ok (RH := Z) (ClaimQueue := list Z) (cache sample_task)) by (intros h d Hd; discriminate).
  pose proof (slot_based_submits (W := unit) (D := Item) (HeaderRest := Z) (Hash := Z) (RH := Z)
    (RHash := Z) (NimbusId := Z) (NimbusSignature := Z) (Version := Z) (ClaimQueue := list Z) (Ext := Z)
    (SA := option Z) (Changes := Z) (Origin := unit) (Paras := Z) (InherentData := unit) (Providers := unit)
    (Recorder := unit) (Extensions := unit) (Proof := Z) (PeerId := unit) (X := unit)
    (L := list (Z * RelayChainData Z (list Z))) (CodeHash := Z) (DP := unit) (Collation := Z) (BlockData := unit)
    sample_from_slice 2000 sample_verify sample_import tt true 1 3 sample_task_params 1 sample_task Hc eq_refl) as Hi.
  destruct (sample_run 1 sample_task) as [[] s'|e s'|] eqn:He; [|vm_compute in He; discriminate..].
  destruct Hi as (_ & _ & Hi). vm_compute in He. injection He as <-. simpl in Hi.
  eexists _, _. split; [reflexivity|]. split; [reflexivity|]. split; [reflexivity|].
  match goal with |- run_collation_task [(tt, ?m)] = _ /\ _ =>
    assert (Hsub : run_collation_task (BlockData := unit) [(tt, m)] = [mkSubmit 6 12 [] 99 5])
      by (vm_compute; reflexivity);
    destruct (Hi [(tt, m)] (mkSubmit 6 12 [] 99 5)) as (m' & _ & _ & _ & _ & Hin & _ & _ & _ & Heq) end.
  - exists []. reflexivity.
  - rewrite Hsub. left.
  - split; [exact Hsub|]. exists m'. split; [exact Hin|]. injection Heq as _ _ <-. reflexivity.
Defined.
End Witnesses.
