(* ===== verification/Lookahead.v ===== *)
(** * The lookahead collator
    ([client/consensus/nimbus-consensus/src/collators/lookahead.rs])

    For every new relay chain block the collator takes the first core scheduled for the
    parachain, finds the best parent and builds up to two blocks on top of one another,
    each claimed anew, submitting each to its core.  [on_notification] is the body of
    the loop; a [continue] or [break] leaves it, or the inner loop, as an error. *)
From Stdlib Require Import ZArith Lia.
From stdpp Require Import prelude.
From S2P Require Import Prelude.
From S2P Require Import Interfaces.
From S2P Require Import NimbusPrimitives.
From S2P Require Import AuthorInherent.
From S2P Require Import SlotTimer.
From S2P Require Import ClaimSlot.
From S2P Require Import BlockImport.
From S2P Require Import BlockProduction.
From S2P Require Import RelayParents.
From S2P Require Import BlockBuilder.

Local Open Scope Z_scope.

(** [CoreState]: the parachains the code looks at. *)
Inductive CoreState :=
  | Scheduled (para_id : Z)
  | Occupied (next_up_on_available : option Z)
  | Free.

(** [AsyncBackingParams] *)
Record AsyncBackingParams := mkAsyncBackingParams {
  max_candidate_depth : Z;
  allowed_ancestry_len : Z;
}.

(** The relay chain: availability cores ([None] is an error or a dropped answer), the
    host configuration in its storage ([None] is an error, [Some None] missing), and the
    slot and timestamp of a relay block. *)
Class LookaheadRelay (W RH RHash : Type) := {
  availability_cores : W -> RHash -> option (list CoreState);
  host_configuration : W -> RHash -> option (option AsyncBackingParams);
  relay_slot_and_timestamp : RH -> Z -> option (Z * Z);
}.

(** The header of the first block in the data of a collation. *)
Class BlockDataOps (BlockData Hdr : Type) := first_block_header : BlockData -> option Hdr.

(** The state of a relay-chain-driven collator. *)
Record Driven (W Sub : Type) := mkDriven {
  d_world : W;
  d_helper : ConnectionHelper;
  submitted : list Sub;
}.
Arguments mkDriven {_ _} _ _ _.
Arguments d_world {_ _} _.
Arguments d_helper {_ _} _.
Arguments submitted {_ _} _.

(** ** Cores *)
Section Cores.
Context {W RH RHash : Type} `{LookaheadRelay W RH RHash}.

(** [async_backing_params] *)
Definition async_backing_params (w : W) (relay_parent : RHash) : option AsyncBackingParams :=
  default None (host_configuration (RH := RH) w relay_parent).

(** [max_ancestry_lookback] *)
Definition max_ancestry_lookback (w : W) (relay_parent : RHash) : Z :=
  match host_configuration (RH := RH) w relay_parent with
  | Some (Some config) => allowed_ancestry_len config
  | _ => 0
  end.

(** The parachain that will use a core next. *)
Definition core_para_id (max_candidate_depth : Z) (core : CoreState) : option Z :=
  match core with
  | Scheduled para_id => Some para_id
  | Occupied next_up_on_available =>
      if 1 <=? max_candidate_depth then next_up_on_available else None
  | Free => None
  end.

(** [cores_scheduled_for_para] *)
Definition cores_scheduled_for_para (w : W) (relay_parent : RHash) (para_id : Z) : list Z :=
  let max_candidate_depth :=
    from_option max_candidate_depth 0 (async_backing_params w relay_parent) in
  match availability_cores (RH := RH) w relay_parent with
  | Some cores =>
      omap (fun '(index, core) =>
              if decide (core_para_id max_candidate_depth core = Some para_id)
              then Some (wrapping 32 (Z.of_nat index)) else None)
           (imap pair cores)
  | None => []
  end.
End Cores.

(** ** The collator *)
Section Definitions.
Context {W D HeaderRest Hash RH RHash NimbusId NimbusSignature Version Ext SA Changes Origin : Type}.
Context {Paras InherentData Providers Recorder Extensions Proof PeerId X R CheckParams CodeHash DP : Type}.
Context {Collation BlockData : Type}.
Abbreviation Hdr := (Header D HeaderRest).
Abbreviation Blk := (Block Hdr Ext).
Abbreviation Params := (BlockImportParams Origin Hdr D Ext SA).
Abbreviation CIDPContext := (RHash * PersistedValidationData RHash * NimbusId)%type.
Context `{EqDecision Hash} `{EqDecision Version}.
Context `{DigestItemOps D} `{Codec NimbusId} `{Codec NimbusSignature} `{HeaderOps Hdr Hash}.
Context `{HeaderOps RH RHash} `{RelayHeaderOps RH RHash}.
Context `{ParaClient W Hdr Hash NimbusId Version} `{RelayChainInterface W RH RHash}.
Context `{LookaheadRelay W RH RHash}.
Context `{StateActionOps SA Changes} `{BlockOrigins Origin}.
Context `{ProposerInterface W Hdr Paras InherentData D Recorder Extensions (Proposal Blk Changes) X}.
Context `{InherentProviders W Hash CIDPContext Providers InherentData X} `{ReplaceData InherentData}.
Context `{ParasProvider W RHash RH Paras PeerId} `{ProofRecorders W Recorder Proof Extensions}.
Context `{Keystore W NimbusId Hash NimbusSignature} `{ImportParamsOps Params Origin Hdr}.
Context `{CollatorService W Hdr Hash (ParachainCandidate Blk Proof) Collation BlockData}.
Context `{BlockDataOps BlockData Hdr}.
Context `{DigestsProvider DP NimbusId Hash D} `{SlotOps} `{TaskClient W Hdr Hash RHash CodeHash}.
Context (from_slice : list Z -> option NimbusId) (para_id : Z).
Context (block_import : BlockImport W X CheckParams R Params) (additional_digests_provider : DP).
(** overflow checks; the slot duration is [None] if relay slots are used *)
Context (oc : bool) (params : TaskParams PeerId) (slot_duration : option Z).

Abbreviation Sub := (SubmitCollationParams RHash Collation CodeHash).
Abbreviation St := (Driven W Sub).
Abbreviation Mo := (M St Exit).

(** [can_build_upon] *)
Definition lookahead_can_build_upon (w : W) (slot : Z) (parent : Hdr) (relay_parent : RH)
    (included_block : Hash) : option NimbusId :=
  match claim_slot from_slice w parent relay_parent (force_authoring params) with
  | inr (Some nimbus_id) =>
      if decide (header_hash parent <> included_block) then
        match api_can_build_upon w (header_hash parent) included_block slot with
        | Some true => Some nimbus_id
        | _ => None
        end
      else Some nimbus_id
  | _ => None
  end.

(** The slot to author in and its timestamp; the outer option is a panic. *)
Definition slot_and_timestamp (relay_parent_header : RH) : option (option (Z * Z)) :=
  match relay_slot_and_timestamp (W := W) relay_parent_header (relay_chain_slot_duration params) with
  | None => Some None
  | Some (relay_slot, relay_timestamp) =>
      our_slot ← (match slot_duration with
                  | Some slot_duration => from_timestamp relay_timestamp slot_duration
                  | None => Some relay_slot
                  end);
      Some (Some (our_slot, relay_timestamp))
  end.

Definition driven_world {A} (e : Exit) (m : M W (CollatorError RHash X) A) : Mo A :=
  zoom d_world (fun w s => mkDriven w (d_helper s) (submitted s)) (fun _ => e) m.

(** One round of the inner loop: returns the header of the new block. *)
Definition build_one (relay_parent_header : RH) (core_index max_pov_size slot_now timestamp : Z)
    (included_block : Hash) (parent_header : Hdr) : Mo Hdr :=
  s ← gets id;
  let w := d_world s in
  let relay_parent := header_hash relay_parent_header in
  let parent_hash := header_hash parent_header in
  author_id ← ok_or (lookahead_can_build_upon w slot_now parent_header relay_parent_header
    included_block) Break;
  let validation_data := mkValidationData (encode_header (W := W) (Hash := Hash) (RHash := RHash)
    (CodeHash := CodeHash) parent_header) (number relay_parent_header)
    (relay_state_root relay_parent_header) max_pov_size in
  inherent_data ← driven_world Break (create_collator_inherent_data (Providers := Providers) para_id
    relay_parent validation_data parent_hash (Some timestamp) (additional_relay_state_keys params)
    (collator_peer_id params) (relay_parent, validation_data, author_id));
  validation_code_hash ← ok_or (code_hash_at (PH := Hdr) (RHash := RHash) w parent_hash) Break;
  allowed_pov_size ← expect (allowed_pov_size oc (max_pov_percentage params) max_pov_size);
  let slot_claim := mkSlotClaim author_id timestamp in
  let additional_digests := provide_digests additional_digests_provider author_id parent_hash in
  collation ← driven_world Break (collate (Changes := Changes) (NimbusSignature := NimbusSignature)
    (Proof := Proof) (BlockData := BlockData) block_import parent_header slot_claim
    (Some additional_digests) inherent_data (authoring_duration params) allowed_pov_size);
  '(collation, block_data) ← ok_or collation Break;
  new_block_header ← ok_or (first_block_header block_data) Break;
  let new_block_hash := header_hash new_block_header in
  modify (fun s => mkDriven (announce_block (PH := Hdr) (RHash := RHash) (CodeHash := CodeHash)
            new_block_hash (d_world s)) (d_helper s)
    (submitted s ++ [mkSubmit relay_parent collation (parent_head validation_data)
                       validation_code_hash core_index])) ;;
  mret new_block_header.

(** The inner loop, at most [rounds] blocks. *)
Fixpoint build_loop (rounds : nat) (relay_parent_header : RH)
    (core_index max_pov_size slot_now timestamp : Z) (included_block : Hash) (parent_header : Hdr) :
    Mo unit :=
  match rounds with
  | O => mret tt
  | S rounds =>
      new_block_header ← build_one relay_parent_header core_index max_pov_size slot_now timestamp
        included_block parent_header;
      build_loop rounds relay_parent_header core_index max_pov_size slot_now timestamp
        included_block new_block_header
  end.

(** The body of the loop over the import notifications. *)
Definition on_notification (relay_parent_header : RH) : Mo unit :=
  s ← gets id;
  let w := d_world s in
  let relay_parent := header_hash relay_parent_header in
  core_index ← ok_or (head (cores_scheduled_for_para (RH := RH) w relay_parent para_id)) Continue;
  max_pov_size ← ok_or (default None (persisted_max_pov_size (RH := RH) w relay_parent para_id)) Continue;
  slot ← expect (slot_and_timestamp relay_parent_header);
  '(slot_now, timestamp) ← ok_or slot Continue;
  '(included_header, initial_parent_header) ←
    ok_or (default None (find_parent_for_building (Hash := Hash) (CodeHash := CodeHash) w relay_parent
      (max_ancestry_lookback (RH := RH) w relay_parent))) Continue;
  modify (fun s => mkDriven (d_world s) (update (keys w) slot_now (d_helper s)) (submitted s)) ;;
  _ ← attempt (build_loop 2 relay_parent_header core_index max_pov_size slot_now timestamp
    (header_hash included_header) initial_parent_header);
  mret tt.
End Definitions.

(** ** Properties *)

(** The data of a collation starts with the candidate's block. *)
Class CollationLaws (W Hdr Hash Ext Proof Collation BlockData : Type)
    `{CollatorService W Hdr Hash (ParachainCandidate (Block Hdr Ext) Proof) Collation BlockData}
    `{BlockDataOps BlockData Hdr} : Prop := {
  first_block_candidate w parent hash c (collation : Collation) (data : BlockData) hdr :
    build_collation w (parent : Hdr) (hash : Hash)
      (c : ParachainCandidate (Block Hdr Ext) Proof) = Some (collation, data) ->
    first_block_header data = Some hdr -> hdr = (candidate_block c).1;
}.

Section CoresProperties.
Context {W RH RHash : Type} `{!LookaheadRelay W RH RHash}.

(** The core at an index is scheduled for the parachain, or will be when it is available
    and candidates may be built ahead. *)
Definition scheduled_on (w : W) (relay_parent : RHash) (para_id i : Z) : Prop :=
  exists cores n core, availability_cores (RH := RH) w relay_parent = Some cores /\ cores !! n = Some core /\
    i = wrapping 32 (Z.of_nat n) /\
    match core with
    | Scheduled p => p = para_id
    | Occupied next => next = Some para_id /\ exists config,
        host_configuration (RH := RH) w relay_parent = Some (Some config) /\ 1 <= max_candidate_depth config
    | Free => False
    end.

Lemma cores_scheduled_spec (w : W) (relay_parent : RHash) para_id i :
  i ∈ cores_scheduled_for_para (RH := RH) w relay_parent para_id <-> scheduled_on w relay_parent para_id i.
Proof.
  unfold cores_scheduled_for_para, scheduled_on. destruct (availability_cores w relay_parent) as [cores|];
    [|split; [by intros ?%not_elem_of_nil|naive_solver]].
  rewrite list_elem_of_omap. split.
  - intros ([n core] & Hin & Hi). apply elem_of_lookup_imap in Hin as (j & core' & [= -> ->] & Hj).
    case_decide as Hc; [|done]. simplify_eq. exists cores, j, core'. split_and!; try done.
    unfold async_backing_params in Hc. destruct core' as [p|next|]; simpl in Hc; [by simplify_eq| |done].
    destruct (host_configuration w relay_parent) as [[config|]|]; simpl in Hc; [|done..].
    destruct (Z.leb_spec 1 (max_candidate_depth config)); [|done]. eauto.
  - intros (cores' & n & core & [= <-] & Hn & -> & Hc). exists (n, core). split.
    { apply elem_of_lookup_imap. eauto. }
    rewrite decide_True; [done|]. unfold async_backing_params. destruct core as [p|next|]; [by subst| |done].
    destruct Hc as (-> & config & Hh & Hd). rewrite Hh. simpl. by rewrite (proj2 (Z.leb_le _ _) Hd).
Qed.
End CoresProperties.

Section Properties.
Context {W D HeaderRest Hash RH RHash NimbusId NimbusSignature Version Ext SA Changes Origin : Type}.
Context {Paras InherentData Providers Recorder Extensions Proof PeerId X R CheckParams CodeHash DP : Type}.
Context {Collation BlockData : Type}.
Abbreviation Hdr := (Header D HeaderRest).
Abbreviation Blk := (Block Hdr Ext).
Abbreviation Params := (BlockImportParams Origin Hdr D Ext SA).
Abbreviation CIDPContext := (RHash * PersistedValidationData RHash * NimbusId)%type.
Context `{!EqDecision Hash} `{!EqDecision Version}.
Context `{!DigestItemOps D} `{!DigestItemLaws D} `{!Codec NimbusId}.
Context `{!Codec NimbusSignature} `{!CodecLaws NimbusSignature} `{!HeaderOps Hdr Hash}.
Context `{!HeaderOps RH RHash} `{!RelayHeaderOps RH RHash}.
Context `{!ParaClient W Hdr Hash NimbusId Version} `{!RelayChainInterface W RH RHash}.
Context `{!LookaheadRelay W RH RHash}.
Context `{!StateActionOps SA Changes} `{!BlockOrigins Origin}.
Context `{!ProposerInterface W Hdr Paras InherentData D Recorder Extensions (Proposal Blk Changes) X}.
Context `{!ProposerLaws W D HeaderRest Ext Paras InherentData Recorder Extensions Changes X}.
Context `{!InherentProviders W Hash CIDPContext Providers InherentData X} `{!ReplaceData InherentData}.
Context `{!ParasProvider W RHash RH Paras PeerId} `{!ProofRecorders W Recorder Proof Extensions}.
Context `{!Keystore W NimbusId Hash NimbusSignature} `{!ImportParamsOps Params Origin Hdr}.
Context `{!ImportParamsLaws Origin D HeaderRest Ext SA}.
Context `{!CollatorService W Hdr Hash (ParachainCandidate Blk Proof) Collation BlockData}.
Context `{!BlockDataOps BlockData Hdr} `{!CollationLaws W Hdr Hash Ext Proof Collation BlockData}.
Context `{!DigestsProvider DP NimbusId Hash D} `{!SlotOps} `{!TaskClient W Hdr Hash RHash CodeHash}.
Context (from_slice : list Z -> option NimbusId) (para_id : Z).
Context (verify : NimbusId -> Hash -> NimbusSignature -> bool).
Context `{!KeystoreLaws W NimbusId Hash NimbusSignature from_slice verify}.
Context (block_import : BlockImport W X CheckParams R Params) (additional_digests_provider : DP).
Context (oc : bool) (params : TaskParams PeerId) (slot_duration : option Z).

Abbreviation Sub := (SubmitCollationParams RHash Collation CodeHash).
Abbreviation St := (Driven W Sub).
Abbreviation notified := (on_notification (Hash := Hash) (NimbusSignature := NimbusSignature) (Version := Version)
  (Changes := Changes) (Providers := Providers) (Recorder := Recorder) (Extensions := Extensions)
  (Proof := Proof) (CodeHash := CodeHash) (Collation := Collation) (BlockData := BlockData) (RH := RH)
  from_slice para_id block_import additional_digests_provider oc params slot_duration).
Abbreviation one := (build_one (Hash := Hash) (NimbusSignature := NimbusSignature) (Version := Version)
  (Changes := Changes) (Providers := Providers) (Recorder := Recorder) (Extensions := Extensions)
  (Proof := Proof) (CodeHash := CodeHash) (Collation := Collation) (BlockData := BlockData) (RH := RH)
  from_slice para_id block_import additional_digests_provider oc params).
Abbreviation loop := (build_loop (Hash := Hash) (NimbusSignature := NimbusSignature) (Version := Version)
  (Changes := Changes) (Providers := Providers) (Recorder := Recorder) (Extensions := Extensions)
  (Proof := Proof) (CodeHash := CodeHash) (Collation := Collation) (BlockData := BlockData) (RH := RH)
  from_slice para_id block_import additional_digests_provider oc params).

(** A submission for a block built on [parent] at the relay parent [rp]. *)
Definition submission_for (rp : RH) (core_index slot : Z) (included : Hash) (parent : Hdr) (sub : Sub)
    (block : Blk) : Prop :=
  exists author w w1 w2 (c : ParachainCandidate Blk Proof) (data : BlockData) code,
    block = candidate_block c /\
    (* the slot is claimed and there is room for a block *)
    claim_slot from_slice w parent rp (force_authoring params) = inr (Some author) /\
    (header_hash parent = included \/ api_can_build_upon w (header_hash parent) included slot = Some true) /\
    (* the block is by the claim's author, imported, and its collation is what is submitted *)
    built_by from_slice verify author
      (provide_digests additional_digests_provider author (header_hash parent)) block /\
    imported block_import block w1 /\
    build_collation w2 parent (header_hash block.1) c = Some (sub_collation sub, data) /\
    code_hash_at (PH := Hdr) (RHash := RHash) w (header_hash parent) = Some code /\
    sub = mkSubmit (header_hash rp) (sub_collation sub)
      (encode_header (W := W) (Hash := Hash) (RHash := RHash) (CodeHash := CodeHash) parent) code core_index.

(** Submissions of blocks each of which is built on the one before, the first on [parent]. *)
Inductive submission_chain (rp : RH) (core_index slot : Z) (included : Hash) : Hdr -> list Sub -> Prop :=
  | chain_nil parent : submission_chain rp core_index slot included parent []
  | chain_cons parent sub block subs :
      submission_for rp core_index slot included parent sub block ->
      submission_chain rp core_index slot included block.1 subs ->
      submission_chain rp core_index slot included parent (sub :: subs).

Lemma lookahead_can_build_upon_Some w slot parent rp included author :
  lookahead_can_build_upon from_slice params w slot parent rp included = Some author ->
  claim_slot from_slice w parent rp (force_authoring params) = inr (Some author) /\
  (header_hash parent = included \/ api_can_build_upon w (header_hash parent) included slot = Some true).
Proof.
  unfold lookahead_can_build_upon. destruct (claim_slot _ _ _ _ _) as [|[id|]]; [done| |done].
  case_decide as Hi; [|intros [= <-]; auto].
  destruct (api_can_build_upon _ _ _ _) as [[]|]; [|done..]. intros [= <-]. auto.
Qed.

Lemma build_one_spec rp core pov slot ts included parent (s : St) :
  match one rp core pov slot ts included parent s with
  | Ok hdr s' => exists sub block, submitted s' = submitted s ++ [sub] /\ hdr = block.1 /\
      submission_for rp core slot included parent sub block
  | Err _ s' => submitted s' = submitted s
  | Panic => True
  end.
Proof.
  assert (Hquiet : forall {A} e (m : M W (CollatorError RHash X) A),
    preserves (fun s' : St => submitted s' = submitted s) (driven_world e m)).
  { intros A e m s1 Hs1. unfold driven_world, zoom. by destruct (m (d_world s1)). }
  assert (Herr : err_keeps (fun s' : St => submitted s' = submitted s)
    (one rp core pov slot ts included parent)).
  { unfold build_one. apply err_keeps_bind; [by intros s1|]. intros s1.
    apply err_keeps_bind; [apply read_only_preserves, read_only_ok_or|]. intros author.
    apply err_keeps_bind; [apply Hquiet|]. intros inh.
    apply err_keeps_bind; [apply read_only_preserves, read_only_ok_or|]. intros code.
    apply err_keeps_bind; [apply read_only_preserves, read_only_expect|]. intros pov'.
    apply err_keeps_bind; [apply Hquiet|]. intros col.
    apply err_keeps_bind; [apply read_only_preserves, read_only_ok_or|]. intros [col' data].
    apply err_keeps_bind; [apply read_only_preserves, read_only_ok_or|]. intros hdr. by intros ? ?. }
  specialize (Herr s eq_refl). destruct (one _ _ _ _ _ _ _ s) as [hdr s'|e s'|] eqn:Ho; [|done..]. clear Herr.
  unfold build_one in Ho. inv_ok. simpl in *.
  match goal with Hx : (let '(_, _) := ?p in _) _ = Ok _ _ |- _ => destruct p as [col data] end. inv_ok.
  unfold driven_world in *.
  repeat match goal with Hz : zoom _ _ _ _ _ = Ok _ _ |- _ => apply zoom_Ok in Hz as (? & Hz & ->) end.
  simpl in *.
  match goal with Hc : collate _ _ _ _ _ _ _ _ = Ok _ _ |- _ =>
    apply (collate_Ok from_slice verify) in Hc as (cand & coll & Hcoll & Hby & Himp & Hbc) end.
  simpl in *. injection Hcoll as <-.
  match goal with Hl : lookahead_can_build_upon _ _ _ _ _ _ _ = Some _ |- _ =>
    apply lookahead_can_build_upon_Some in Hl as [Hclaim Hroom] end.
  match goal with Hf : first_block_header _ = Some _ |- _ =>
    pose proof (first_block_candidate _ _ _ _ _ _ _ Hbc Hf) as -> end.
  eexists _, (candidate_block cand). split; [done|]. split; [done|].
  unfold submission_for. simpl. eauto 20.
Qed.

Lemma build_loop_spec rounds rp core pov slot ts included parent (s : St) :
  match loop rounds rp core pov slot ts included parent s with
  | Ok _ s' | Err _ s' => exists subs, submitted s' = submitted s ++ subs /\ (length subs <= rounds)%nat /\
      submission_chain rp core slot included parent subs
  | Panic => True
  end.
Proof.
  revert parent s. induction rounds as [|rounds IH]; intros parent s.
  { exists []. rewrite app_nil_r. split_and!; [done..|constructor]. }
  cbn [build_loop]. unfold mbind, M_bind. pose proof (build_one_spec rp core pov slot ts included parent s) as Ho.
  destruct (one rp core pov slot ts included parent s) as [hdr s1|e s1|]; [| |done].
  - destruct Ho as (sub & block & Hs1 & -> & Hsub). specialize (IH block.1 s1).
    assert (Hcons : forall (s' : St) subs, submitted s' = submitted s1 ++ subs -> (length subs <= rounds)%nat ->
      submission_chain rp core slot included block.1 subs ->
      exists subs, submitted s' = submitted s ++ subs /\ (length subs <= S rounds)%nat /\
        submission_chain rp core slot included parent subs).
    { intros s' subs Hs' Hlen Hch. exists (sub :: subs). rewrite Hs', Hs1, <- app_assoc.
      split; [done|]. split; [simpl; lia|]. by eapply chain_cons. }
    destruct (loop rounds rp core pov slot ts included block.1 s1); [destruct IH as (subs & ? & ? & ?); eauto..|done].
  - exists []. rewrite app_nil_r. split_and!; [done|simpl; lia|constructor].
Qed.

(** C11: for every relay block the lookahead collator submits a chain of at most two blocks:
    if no core is scheduled for the parachain, or its data, slot or parent cannot be
    found, nothing happens; otherwise all blocks are submitted to the first core on
    which the parachain is scheduled or next up, each is built on the one before, the
    first on the parent found within the allowed ancestry, and for each the slot was
    claimed anew with room in the unincluded segment, and the block is sealed by the
    claim's author and was imported. *)
Theorem lookahead_builds_chain (rp : RH) (s : St) :
  match notified rp s with
  | Ok _ s' => exists core pov slot ts included parent subs,
      head (cores_scheduled_for_para (RH := RH) (d_world s) (header_hash rp) para_id) = Some core /\
      scheduled_on (RH := RH) (d_world s) (header_hash rp) para_id core /\
      persisted_max_pov_size (RH := RH) (d_world s) (header_hash rp) para_id = Some (Some pov) /\
      slot_and_timestamp (W := W) (RHash := RHash) params slot_duration rp = Some (Some (slot, ts)) /\
      find_parent_for_building (Hash := Hash) (CodeHash := CodeHash) (d_world s) (header_hash rp)
        (max_ancestry_lookback (RH := RH) (d_world s) (header_hash rp)) = Some (Some (included, parent)) /\
      submitted s' = submitted s ++ subs /\ (length subs <= 2)%nat /\
      submission_chain rp core slot (header_hash included) parent subs
  | Err e s' => e = Continue /\ s' = s
  | Panic => True
  end.
Proof.
  unfold on_notification. unfold mbind at 1, M_bind at 1, gets at 1, id at 1.
  destruct (head _) as [core|] eqn:Hcore; [|done]. unfold mbind at 1, M_bind at 1, ok_or at 1.
  assert (Hon : scheduled_on (RH := RH) (d_world s) (header_hash rp) para_id core).
  { apply cores_scheduled_spec. apply head_Some in Hcore as [l Hl]. unfold id in Hl. rewrite Hl. left. }
  destruct (persisted_max_pov_size _ _ _) as [[pov|]|]; [|done..]. unfold mbind at 1, M_bind at 1, ok_or at 1.
  simpl default. destruct (slot_and_timestamp _ _ _) as [[[slot ts]|]|] eqn:Hslot;
    unfold mbind at 1, M_bind at 1, expect at 1; [|done..].
  unfold mbind at 1, M_bind at 1, ok_or at 1.
  destruct (find_parent_for_building _ _ _) as [[[included parent]|]|];
    unfold mbind at 1, M_bind at 1, ok_or at 1; simpl default; [|done..].
  unfold mbind, M_bind, modify, attempt. set (s1 := mkDriven _ _ _).
  pose proof (build_loop_spec 2 rp core pov slot ts (header_hash included) parent s1) as Hl.
  destruct (loop _ _ _ _ _ _ _ _ s1) as [u s'|e s'|]; [..|done];
    destruct Hl as (subs & Hs & Hlen & Hch); unfold mret, M_ret; eauto 20.
Qed.
End Properties.

(** ** Concrete instances: those of [BlockBuilder], a collation that is its block's header,
    and a parachain that is scheduled on the second core and next up on the third. *)
Section Witnesses.
#[local] Existing Instance fixed_codec.
#[local] Existing Instance fixed_codec_laws.
#[local] Existing Instance BlockImport.sample_header.
#[local] Existing Instance BlockImport.sample_action.
#[local] Existing Instance BlockProduction.sample_origins.
#[local] Existing Instance BlockProduction.sample_environment.
#[local] Existing Instance BlockProduction.sample_environment_laws.
#[local] Existing Instance BlockProduction.sample_paras.
#[local] Existing Instance BlockProduction.sample_recorders.
#[local] Existing Instance BlockProduction.sample_keystore.
#[local] Existing Instance BlockProduction.sample_keystore_laws.
#[local] Existing Instance BlockProduction.sample_import_params.
#[local] Existing Instance BlockProduction.sample_import_params_laws.
#[local] Existing Instance BlockProduction.sample_para_client.
#[local] Existing Instance RelayParents.sample_relay_header.
#[local] Existing Instance RelayParents.sample_relay_ops.
#[local] Existing Instance RelayParents.sample_relay_chain.
#[local] Existing Instance SlotTimer.sample_slots.
#[local] Existing Instance BlockBuilder.sample_paras_provider.
#[local] Existing Instance BlockBuilder.sample_replace.
#[local] Existing Instance BlockBuilder.sample_task_client.

Abbreviation SHdr := (Header Item Z).

#[local] Instance sample_lookahead : LookaheadRelay unit Z Z := {|
  availability_cores _ _ := Some [Free; Scheduled 2000; Occupied (Some 2000)];
  host_configuration _ _ := Some (Some (mkAsyncBackingParams 1 2));
  relay_slot_and_timestamp h _ := Some (h, h * 6000);
|}.

#[local] Instance sample_context_providers :
  InherentProviders unit Z (Z * PersistedValidationData Z * Z) unit unit unit := {|
  create_inherent_data_providers _ _ _ := inr tt;
  create_inherent_data _ _ := inr tt;
  try_handle_error _ _ _ _ := None;
|}.

#[local] Instance sample_collations : CollatorService unit SHdr Z (ParachainCandidate (Block SHdr Z) Z) Z SHdr :=
  fun _ _ h c => Some (h, (candidate_block c).1).

#[local] Instance sample_block_data : BlockDataOps SHdr SHdr := Some.

#[local] Instance sample_collation_laws : CollationLaws unit SHdr Z Z Z Z SHdr.
Proof. split. intros w parent hash c collation data hdr [= <- <-] [= <-]. done. Qed.

Lemma lookahead_builds_chain_witness :
  exists subs s', on_notification (W := unit) (D := Item) (HeaderRest := Z) (Hash := Z) (RH := Z)
    (RHash := Z) (NimbusId := Z) (NimbusSignature := Z) (Version := Z) (Ext := Z) (SA := option Z)
    (Changes := Z) (Origin := unit) (Paras := Z) (InherentData := unit) (Providers := unit)
    (Recorder := unit) (Extensions := unit) (Proof := Z) (PeerId := unit) (X := unit) (CodeHash := Z)
    (DP := unit) (Collation := Z) (BlockData := SHdr)
    sample_from_slice 2000 sample_import tt true sample_task_params None 6
    (mkDriven tt new_connection_helper []) = Ok tt s' /\
  submitted s' = subs /\ length subs = 2%nat /\ Forall (fun s => sub_core_index s = 1) subs /\
  exists core, head (cores_scheduled_for_para (RH := Z) tt (header_hash 6) 2000) = Some core.
Proof.
  pose proof (lookahead_builds_chain (W := unit) (D := Item) (HeaderRest := Z) (Hash := Z) (RH := Z)
    (RHash := Z) (NimbusId := Z) (NimbusSignature := Z) (Version := Z) (Ext := Z) (SA := option Z)
    (Changes := Z) (Origin := unit) (Paras := Z) (InherentData := unit) (Providers := unit)
    (Recorder := unit) (Extensions := unit) (Proof := Z) (PeerId := unit) (X := unit) (CodeHash := Z)
    (DP := unit) (Collation := Z) (BlockData := SHdr)
    sample_from_slice 2000 sample_verify sample_import tt true sample_task_params None 6
    (mkDriven tt new_connection_helper [])) as Hn.
  destruct (on_notification _ _ _ _ _ _ _ _ _) as [[] s'|e s'|] eqn:He; [|vm_compute in He; discriminate..].
  destruct Hn as (core & _ & _ & _ & _ & _ & subs & Hcore & _ & _ & _ & _ & Hs & _ & _).
  exists subs, s'. split; [reflexivity|]. split; [exact Hs|].
  vm_compute in He. injection He as <-. simpl in Hs. subst subs.
  split; [reflexivity|]. split; [repeat constructor|]. exists core. exact Hcore.
Defined.
End Witnesses.
