(* ===== verification/Basic.v ===== *)
(** * The basic collator
    ([client/consensus/nimbus-consensus/src/collators/basic.rs])

    The relay chain asks for collations; each request is answered with a collation, with
    nothing, or not at all.  [process] is the body of the loop over the requests:
    [Skip] is a [continue], [Reject] answers with nothing. *)
From Stdlib Require Import ZArith Lia.
From stdpp Require Import prelude sorting.
From S2P Require Import Prelude.
From S2P Require Import Interfaces.
From S2P Require Import NimbusPrimitives.
From S2P Require Import AuthorInherent.
From S2P Require Import SlotTimer.
From S2P Require Import ClaimSlot.
From S2P Require Import BlockImport.
From S2P Require Import BlockProduction.
From S2P Require Import RelayParents.
From S2P Require Import BlockBuilder.
From S2P Require Import Lookahead.

Local Open Scope Z_scope.

(** [CollationRequest] *)
Record CollationRequest (RHash : Type) := mkRequest {
  request_relay_parent : RHash;
  persisted_validation_data : PersistedValidationData RHash;
}.
Arguments mkRequest {_} _ _.
Arguments request_relay_parent {_} _.
Arguments persisted_validation_data {_} _.

(** What the code asks the client: decoding a header, whether the parent block is ready,
    whether its code is stored, and announcing a block with a barrier. *)
Class BasicClient (W Hdr Hash : Type) := {
  decode_header : list Z -> option Hdr;
  check_block_status : W -> Hash -> Hdr -> bool;
  has_code : W -> Hash -> bool;
  announce_with_barrier : Hash -> W -> W;
}.

Inductive Refusal := Skip | Reject.

(** The state of the collator, with the answers given. *)
Record BasicState (W Collation : Type) := mkBasic {
  b_world : W;
  last_processed_slot : Z;
  last_relay_chain_block : Z;
  answers : list (option Collation);
}.
Arguments mkBasic {_ _} _ _ _ _.
Arguments b_world {_ _} _.
Arguments last_processed_slot {_ _} _.
Arguments last_relay_chain_block {_ _} _.
Arguments answers {_ _} _.

Section Definitions.
Context {W D HeaderRest Hash RH RHash NimbusId NimbusSignature Version Ext SA Changes Origin : Type}.
Context {Paras InherentData Providers Recorder Extensions Proof PeerId X R CheckParams DP : Type}.
Context {Collation BlockData : Type}.
Abbreviation Hdr := (Header D HeaderRest).
Abbreviation Blk := (Block Hdr Ext).
Abbreviation Params := (BlockImportParams Origin Hdr D Ext SA).
Abbreviation CIDPContext := (RHash * PersistedValidationData RHash * NimbusId)%type.
Context `{EqDecision Hash} `{EqDecision Version}.
Context `{DigestItemOps D} `{Codec NimbusId} `{Codec NimbusSignature} `{HeaderOps Hdr Hash}.
Context `{HeaderOps RH RHash}.
Context `{ParaClient W Hdr Hash NimbusId Version} `{RelayChainInterface W RH RHash}.
Context `{LookaheadRelay W RH RHash}.
Context `{StateActionOps SA Changes} `{BlockOrigins Origin}.
Context `{ProposerInterface W Hdr Paras InherentData D Recorder Extensions (Proposal Blk Changes) X}.
Context `{InherentProviders W Hash CIDPContext Providers InherentData X} `{ReplaceData InherentData}.
Context `{ParasProvider W RHash RH Paras PeerId} `{ProofRecorders W Recorder Proof Extensions}.
Context `{Keystore W NimbusId Hash NimbusSignature} `{ImportParamsOps Params Origin Hdr}.
Context `{CollatorService W Hdr Hash (ParachainCandidate Blk Proof) Collation BlockData}.
Context `{BlockDataOps BlockData Hdr} `{BasicClient W Hdr Hash}.
Context `{DigestsProvider DP NimbusId Hash D} `{SlotOps}.
Context (from_slice : list Z -> option NimbusId) (para_id : Z).
Context (block_import : BlockImport W X CheckParams R Params) (additional_digests_provider : DP).
Context (oc : bool) (params : TaskParams PeerId) (slot_duration : option Z).

Abbreviation St := (BasicState W Collation).
Abbreviation Mo := (M St Refusal).

Definition basic_world {A} (e : Refusal) (m : M W (CollatorError RHash X) A) : Mo A :=
  zoom b_world (fun w s => mkBasic w (last_processed_slot s) (last_relay_chain_block s) (answers s))
    (fun _ => e) m.

(** [request.complete] *)
Definition complete (answer : option Collation) (s : St) : St :=
  mkBasic (b_world s) (last_processed_slot s) (last_relay_chain_block s) (answers s ++ [answer]).

(** The parent and the relay parent of a request, and the claim for them. *)
Definition prepare (request : CollationRequest RHash) : Mo (Hdr * RH * NimbusId) :=
  s ← gets id;
  let w := b_world s in
  parent_header ← ok_or (decode_header (W := W) (Hash := Hash)
    (parent_head (persisted_validation_data request))) Reject;
  let parent_hash := header_hash parent_header in
  ensure (check_block_status w parent_hash parent_header) Skip ;;
  ensure (has_code (Hdr := Hdr) w parent_hash) Skip ;;
  relay_parent_header ← ok_or (relay_header w (request_relay_parent request)) Reject;
  relay_parent_header ← ok_or relay_parent_header Skip;
  match claim_slot from_slice w parent_header relay_parent_header (force_authoring params) with
  | inr None => fail Skip
  | inr (Some nimbus_id) => mret (parent_header, relay_parent_header, nimbus_id)
  | inl _ => fail Reject
  end.

(** The body of the loop; returns the slot and the relay block number it processed. *)
Definition process (request : CollationRequest RHash) : Mo (Z * Z) :=
  '(parent_header, relay_parent_header, nimbus_id) ← prepare request;
  slot ← expect (slot_and_timestamp (W := W) (RHash := RHash) params slot_duration relay_parent_header);
  '(slot_now, timestamp) ← ok_or slot Skip;
  s ← gets id;
  let w := b_world s in
  ensure (negb ((slot_now <=? last_processed_slot s) &&
                (last_relay_chain_block s <? number relay_parent_header))) Skip ;;
  let validation_data := persisted_validation_data request in
  let parent_hash := header_hash parent_header in
  inherent_data ← basic_world Reject (create_collator_inherent_data (Providers := Providers) para_id
    (request_relay_parent request) validation_data parent_hash (Some timestamp)
    (additional_relay_state_keys params) (collator_peer_id params)
    (request_relay_parent request, validation_data, nimbus_id));
  allowed_pov_size ← expect (allowed_pov_size oc (max_pov_percentage params)
    (BlockProduction.max_pov_size validation_data));
  let slot_claim := mkSlotClaim nimbus_id timestamp in
  let additional_digests := provide_digests additional_digests_provider nimbus_id parent_hash in
  maybe_collation ← basic_world Reject (collate (Changes := Changes) (NimbusSignature := NimbusSignature)
    (Proof := Proof) (BlockData := BlockData) block_import parent_header slot_claim
    (Some additional_digests) inherent_data (authoring_duration params) allowed_pov_size);
  match maybe_collation with
  | Some (collation, block_data) =>
      header ← ok_or (first_block_header block_data) Skip;
      modify (fun s => mkBasic (announce_with_barrier (Hdr := Hdr) (header_hash header) (b_world s))
        (last_processed_slot s) (last_relay_chain_block s) (answers s)) ;;
      modify (complete (Some collation))
  | None => modify (complete None)
  end ;;
  modify (fun s => mkBasic (b_world s) slot_now (number relay_parent_header) (answers s)) ;;
  mret (slot_now, number relay_parent_header).

(** One request, and all of them: the slots and numbers that were processed. *)
Definition handle (request : CollationRequest RHash) : M St Empty_set (option (Z * Z)) :=
  r ← attempt (process request);
  match r with
  | inr processed => mret (Some processed)
  | inl Skip => mret None
  | inl Reject => modify (complete None) ;; mret None
  end.

Fixpoint run_basic (requests : list (CollationRequest RHash)) : M St Empty_set (list (Z * Z)) :=
  match requests with
  | [] => mret []
  | request :: requests =>
      processed ← handle request;
      rest ← run_basic requests;
      mret (match processed with Some p => p :: rest | None => rest end)
  end.
End Definitions.

(** ** Properties *)

(** Each processed request is in a later slot than the one before, or not on a later relay
    block. *)
Fixpoint spaced (last : Z * Z) (processed : list (Z * Z)) : Prop :=
  match processed with
  | [] => True
  | p :: processed => (last.1 < p.1 \/ p.2 <= last.2) /\ spaced p processed
  end.

(** With later and later relay blocks the slots are later and later. *)
Lemma spaced_sorted p processed :
  spaced p processed -> Sorted Z.lt (p :: processed).*2 -> Sorted Z.lt (p :: processed).*1.
Proof.
  revert p. induction processed as [|q processed IH]; intros p Hs Hn; [repeat constructor|].
  destruct Hs as [Hpq Hs]. apply Sorted_inv in Hn as [Hn Hhd]. apply HdRel_inv in Hhd.
  constructor; [by apply IH|]. constructor. destruct Hpq; [done|lia].
Qed.

Section Properties.
Context {W D HeaderRest Hash RH RHash NimbusId NimbusSignature Version Ext SA Changes Origin : Type}.
Context {Paras InherentData Providers Recorder Extensions Proof PeerId X R CheckParams DP : Type}.
Context {Collation BlockData : Type}.
Abbreviation Hdr := (Header D HeaderRest).
Abbreviation Blk := (Block Hdr Ext).
Abbreviation Params := (BlockImportParams Origin Hdr D Ext SA).
Abbreviation CIDPContext := (RHash * PersistedValidationData RHash * NimbusId)%type.
Context `{!EqDecision Hash} `{!EqDecision Version}.
Context `{!DigestItemOps D} `{!DigestItemLaws D} `{!Codec NimbusId}.
Context `{!Codec NimbusSignature} `{!CodecLaws NimbusSignature} `{!HeaderOps Hdr Hash}.
Context `{!HeaderOps RH RHash}.
Context `{!ParaClient W Hdr Hash NimbusId Version} `{!RelayChainInterface W RH RHash}.
Context `{!LookaheadRelay W RH RHash}.
Context `{!StateActionOps SA Changes} `{!BlockOrigins Origin}.
Context `{!ProposerInterface W Hdr Paras InherentData D Recorder Extensions (Proposal Blk Changes) X}.
Context `{!ProposerLaws W D HeaderRest Ext Paras InherentData Recorder Extensions Changes X}.
Context `{!InherentProviders W Hash CIDPContext Providers InherentData X} `{!ReplaceData InherentData}.
Context `{!ParasProvider W RHash RH Paras PeerId} `{!ProofRecorders W Recorder Proof Extensions}.
Context `{!Keystore W NimbusId Hash NimbusSignature} `{!ImportParamsOps Params Origin Hdr}.
Context `{!ImportParamsLaws Origin D HeaderRest Ext SA}.
Context `{!CollatorService W Hdr Hash (ParachainCandidate Blk Proof) Collation BlockData}.
Context `{!BlockDataOps BlockData Hdr} `{!BasicClient W Hdr Hash}.
Context `{!DigestsProvider DP NimbusId Hash D} `{!SlotOps}.
Context (from_slice : list Z -> option NimbusId) (para_id : Z).
Context (verify : NimbusId -> Hash -> NimbusSignature -> bool).
Context `{!KeystoreLaws W NimbusId Hash NimbusSignature from_slice verify}.
Context (block_import : BlockImport W X CheckParams R Params) (additional_digests_provider : DP).
Context (oc : bool) (params : TaskParams PeerId) (slot_duration : option Z).

Abbreviation St := (BasicState W Collation).
Abbreviation prepare := (prepare (Hash := Hash) (RH := RH) (Version := Version) (Collation := Collation)
  from_slice params).
Abbreviation process := (process (Hash := Hash) (NimbusSignature := NimbusSignature) (Version := Version)
  (Changes := Changes) (Providers := Providers) (Recorder := Recorder) (Extensions := Extensions)
  (Proof := Proof) (Collation := Collation) (BlockData := BlockData) (RH := RH)
  from_slice para_id block_import additional_digests_provider oc params slot_duration).
Abbreviation handle := (handle (Hash := Hash) (NimbusSignature := NimbusSignature) (Version := Version)
  (Changes := Changes) (Providers := Providers) (Recorder := Recorder) (Extensions := Extensions)
  (Proof := Proof) (Collation := Collation) (BlockData := BlockData) (RH := RH)
  from_slice para_id block_import additional_digests_provider oc params slot_duration).
Abbreviation run := (run_basic (Hash := Hash) (NimbusSignature := NimbusSignature) (Version := Version)
  (Changes := Changes) (Providers := Providers) (Recorder := Recorder) (Extensions := Extensions)
  (Proof := Proof) (Collation := Collation) (BlockData := BlockData) (RH := RH)
  from_slice para_id block_import additional_digests_provider oc params slot_duration).

(** What a collation answers: it is of a block of the claim's author, built for a relay
    parent in the slot and with the number that were processed. *)
Definition answer_for (processed : Z * Z) (collation : Collation) : Prop :=
  exists w w' (rp : RH) parent author ts (c : ParachainCandidate Blk Proof) (data : BlockData),
    number rp = processed.2 /\
    slot_and_timestamp (W := W) (RHash := RHash) params slot_duration rp = Some (Some (processed.1, ts)) /\
    claim_slot from_slice w parent rp (force_authoring params) = inr (Some author) /\
    built_by from_slice verify author
      (provide_digests additional_digests_provider author (header_hash parent)) (candidate_block c) /\
    imported block_import (candidate_block c) w' /\
    build_collation w' parent (header_hash (candidate_block c).1) c = Some (collation, data).

Definition last_processed (s : St) : Z * Z := (last_processed_slot s, last_relay_chain_block s).

(** Errors answer and remember nothing. *)
Definition same (s s' : St) : Prop := answers s' = answers s /\ last_processed s' = last_processed s.

Lemma prepare_same request s : preserves (same s) (prepare request).
Proof.
  apply read_only_preserves. intros s1. unfold Basic.prepare. unfold_M. unfold id.
  repeat (case_match; simplify_eq/=); done.
Qed.

Lemma basic_world_same {A} s e (m : M W (CollatorError RHash X) A) :
  preserves (same s) (basic_world (Collation := Collation) e m).
Proof. intros s1 Hs1. unfold basic_world, zoom. by destruct (m (b_world s1)). Qed.

Lemma process_err s request : err_keeps (same s) (process request).
Proof.
  unfold Basic.process. apply err_keeps_bind; [apply prepare_same|]. intros [[parent rp] author].
  apply err_keeps_bind; [apply read_only_preserves, read_only_expect|]. intros slot.
  apply err_keeps_bind; [apply read_only_preserves, read_only_ok_or|]. intros [slot_now ts].
  apply err_keeps_bind; [by intros s1|]. intros s1.
  apply err_keeps_bind; [apply read_only_preserves, read_only_ensure|]. intros _.
  apply err_keeps_bind; [apply basic_world_same|]. intros inh.
  apply err_keeps_bind; [apply read_only_preserves, read_only_expect|]. intros pov.
  apply err_keeps_bind; [apply basic_world_same|]. intros [[col data]|].
  - intros s2 Hs2. unfold_M. by destruct (first_block_header data).
  - by intros s2 Hs2.
Qed.

Lemma prepare_Ok request (s s' : St) parent rp author :
  prepare request s = Ok (parent, rp, author) s' ->
  s' = s /\ claim_slot from_slice (b_world s) parent rp (force_authoring params) = inr (Some author).
Proof.
  unfold Basic.prepare. intros Hp. inv_ok. unfold id in *.
  destruct (claim_slot _ _ _ _ _) as [|[id|]] eqn:Hc; inv_ok; [|done..]. simplify_eq.
  done.
Qed.

Lemma process_spec request (s : St) :
  match process request s with
  | Ok p s' => (last_processed_slot s < p.1 \/ p.2 <= last_relay_chain_block s) /\ last_processed s' = p /\
      exists collation, answers s' = answers s ++ [Some collation] /\ answer_for p collation
  | Err _ s' => same s s'
  | Panic => True
  end.
Proof.
  pose proof (process_err s request s (conj eq_refl eq_refl)) as Herr.
  destruct (process request s) as [p s'|e s'|] eqn:Hp; [|done..]. clear Herr.
  unfold Basic.process in Hp. apply bind_Ok in Hp as ([[parent rp] author] & s1 & Hprep & Hp).
  apply prepare_Ok in Hprep as [-> Hclaim]. apply bind_Ok in Hp as (slot & s1 & Hslot & Hp).
  unfold expect in Hslot. destruct (slot_and_timestamp _ _ _) as [o|] eqn:Hst; [|done].
  injection Hslot as <- <-. apply bind_Ok in Hp as ([slot_now ts] & s1 & Ho & Hp).
  unfold ok_or in Ho. destruct o as [[sl t]|]; [|done]. injection Ho as -> -> <-.
  apply bind_Ok in Hp as (? & ? & [= <- <-] & Hp). unfold id in Hp.
  apply bind_Ok in Hp as ([] & s1 & Hens & Hp). unfold ensure in Hens.
  destruct (negb _) eqn:Hguard; [|done]. injection Hens as <-.
  apply bind_Ok in Hp as (inh & s1 & Hinh & Hp). apply zoom_Ok in Hinh as (w1 & _ & ->). simpl in Hp.
  apply bind_Ok in Hp as (pov & s1 & Hpov & Hp). unfold expect in Hpov.
  destruct (allowed_pov_size _ _ _) as [pov'|]; [|done]. injection Hpov as -> <-.
  apply bind_Ok in Hp as (mc & s1 & Hcol & Hp). apply zoom_Ok in Hcol as (w2 & Hcol & ->). simpl in Hcol.
  apply (collate_Ok from_slice verify) in Hcol as (c & [col data] & -> & Hby & Himp & Hbc). simpl in *.
  inv_ok. simpl in *. split.
  { apply negb_true_iff, andb_false_iff in Hguard as [Hg|Hg]; bool_to_prop; simpl; [by left|by right]. }
  split; [done|]. exists col. split; [done|]. unfold answer_for. simpl. eauto 20.
Qed.

(** C28: the basic collator builds one block per slot and fork: whatever requests arrive,
    each processed request is in a later slot than the processed one before it unless it
    is not on a later relay block, so on later and later relay blocks the slots strictly
    increase; and the collations it answered are one for each processed request, in
    order, each of a sealed and imported block of the author that claimed that slot. *)
Theorem one_block_per_slot requests (s s' : St) processed :
  run requests s = Ok processed s' ->
  spaced (last_processed s) processed /\
  (Sorted Z.lt (last_processed s :: processed).*2 -> Sorted Z.lt (last_processed s :: processed).*1) /\
  exists new, answers s' = answers s ++ new /\ (length new <= length requests)%nat /\
    Forall2 answer_for processed (omap id new).
Proof.
  intros Hr. cut (spaced (last_processed s) processed /\
    exists new, answers s' = answers s ++ new /\ (length new <= length requests)%nat /\
      Forall2 answer_for processed (omap id new)).
  { intros [Hs Hn]. split; [done|]. split; [by apply spaced_sorted|done]. }
  revert s processed Hr. induction requests as [|request requests IH]; intros s processed Hr; cbn [run_basic] in Hr.
  { inv_ok. split; [done|]. exists []. rewrite app_nil_r. split_and!; [done..|constructor]. }
  apply bind_Ok in Hr as (o & s1 & Hh & Hr). apply bind_Ok in Hr as (rest & s2 & Hr & Hp).
  injection Hp as <- <-. destruct (IH s1 rest Hr) as (Hsp & new & Hn & Hlen & Hf).
  unfold Basic.handle in Hh. apply bind_Ok in Hh as (r & s3 & Ha & Hh). unfold attempt in Ha.
  pose proof (process_spec request s) as Hps.
  destruct (process request s) as [p s4|e s4|]; [| |done]; injection Ha as <- <-.
  - injection Hh as <- <-. destruct Hps as (Hgap & Hlast & col & Hans & Hcol). rewrite Hlast in Hsp.
    split; [by split|]. exists (Some col :: new). rewrite Hn, Hans, <- app_assoc.
    split; [done|]. split; [simpl; lia|]. by constructor.
  - destruct Hps as [Hans Hlast]. destruct e.
    + injection Hh as <- <-. rewrite Hlast in Hsp. split; [done|]. exists new. rewrite Hn, Hans.
      split; [done|]. split; [simpl; lia|done].
    + apply bind_Ok in Hh as ([] & s5 & Hc & Hh). injection Hc as <-. injection Hh as <- <-.
      assert (Hlast' : last_processed (complete None s4) = last_processed s) by done. rewrite Hlast' in Hsp.
      split; [done|]. exists (None :: new). simpl in Hn. rewrite Hn, Hans, <- app_assoc.
      split; [done|]. split; [simpl; lia|done].
Qed.
End Properties.

(** ** Concrete instances: those of [Lookahead], and a client that knows one parent. *)
Section Witnesses.
#[local] Existing Instance fixed_codec.
#[local] Existing Instance fixed_codec_laws.
#[local] Existing Instance BlockImport.sample_header.
#[local] Existing Instance BlockImport.sample_action.
#[local] Existing Instance BlockProduction.sample_origins.
#[local] Existing Instance BlockProduction.sample_environment.
#[local] Existing Instance BlockProduction.sample_environment_laws.
#[local] Existing Instance BlockProduction.sample_paras.
#[local] Existing Instance BlockProduction.sample_recorders.
#[local] Existing Instance BlockProduction.sample_keystore.
#[local] Existing Instance BlockProduction.sample_keystore_laws.
#[local] Existing Instance BlockProduction.sample_import_params.
#[local] Existing Instance BlockProduction.sample_import_params_laws.
#[local] Existing Instance BlockProduction.sample_para_client.
#[local] Existing Instance RelayParents.sample_relay_header.
#[local] Existing Instance RelayParents.sample_relay_chain.
#[local] Existing Instance SlotTimer.sample_slots.
#[local] Existing Instance BlockBuilder.sample_paras_provider.
#[local] Existing Instance BlockBuilder.sample_replace.
#[local] Existing Instance Lookahead.sample_lookahead.
#[local] Existing Instance Lookahead.sample_context_providers.
#[local] Existing Instance Lookahead.sample_collations.
#[local] Existing Instance Lookahead.sample_block_data.

Abbreviation SHdr := (Header Item Z).

#[local] Instance sample_basic_client : BasicClient unit SHdr Z := {|
  decode_header _ := Some (mkHeader [] 8);
  check_block_status _ _ _ := true;
  has_code _ _ := true;
  announce_with_barrier _ w := w;
|}.

(** Requests on the relay blocks 4, 6 and 6 again, a fork that is processed in the same
    slot because its relay block is not later, and on block 5, for which no key is
    eligible. *)
Definition sample_requests : list (CollationRequest Z) :=
  map (fun n => mkRequest n (mkValidationData [] n n 1000)) [4; 6; 6; 5].

Abbreviation sample_run := (run_basic (W := unit) (D := Item) (HeaderRest := Z) (Hash := Z) (RH := Z)
  (RHash := Z) (NimbusId := Z) (NimbusSignature := Z) (Version := Z) (Ext := Z) (SA := option Z)
  (Changes := Z) (Origin := unit) (Paras := Z) (InherentData := unit) (Providers := unit)
  (Recorder := unit) (Extensions := unit) (Proof := Z) (PeerId := unit) (X := unit)
  (DP := unit) (Collation := Z) (BlockData := SHdr)
  sample_from_slice 2000 sample_import tt true sample_task_params None).

Lemma one_block_per_slot_witness :
  exists s', sample_run sample_requests (mkBasic tt 0 0 []) = Ok [(4, 4); (6, 6); (6, 6)] s' /\
    spaced (0, 0) [(4, 4); (6, 6); (6, 6)] /\ length (omap id (answers s')) = 3%nat.
Proof.
  destruct (sample_run sample_requests (mkBasic tt 0 0 [])) as [p s'|e s'|] eqn:Hr;
    [|vm_compute in Hr; discriminate..].
  pose proof Hr as Hp. vm_compute in Hp. injection Hp as Hp Hs. subst p.
  destruct (one_block_per_slot (W := unit) (D := Item) (HeaderRest := Z) (Hash := Z) (RH := Z)
    (RHash := Z) (NimbusId := Z) (NimbusSignature := Z) (Version := Z) (Ext := Z) (SA := option Z)
    (Changes := Z) (Origin := unit) (Paras := Z) (InherentData := unit) (Providers := unit)
    (Recorder := unit) (Extensions := unit) (Proof := Z) (PeerId := unit) (X := unit)
    (DP := unit) (Collation := Z) (BlockData := SHdr)
    sample_from_slice 2000 sample_verify sample_import tt true sample_task_params None
    sample_requests (mkBasic tt 0 0 []) s' _ Hr) as (Hsp & _ & _).
  exists s'. split; [reflexivity|]. split; [exact Hsp|]. subst s'. reflexivity.
Defined.
End Witnesses.
