(* ===== verification/TemplateNode.v ===== *)
(** * The template node
    ([template/node/src/{cli,command,service,chain_spec}.rs])

    What the node's command line and services decide: the chain specifications, the part
    of the proof of validity a collator uses, the relay chain's arguments, the parameters
    of the slot-based collator and the mocked inherents of the instant-seal node.  The
    services themselves are started by code outside the repository. *)
From Stdlib Require Import ZArith Lia String.
From stdpp Require Import prelude strings sorting.
From S2P Require Import Prelude.
From S2P Require Import Interfaces.
From S2P Require Import SlotTimer.
From S2P Require Import BlockImport.
From S2P Require Import BlockBuilder.
From S2P Require AsyncBacking.
From S2P Require Import TemplateRuntime.

Local Open Scope Z_scope.

(** ** Chain specifications *)
Inductive ChainType := Development | Local.

Inductive Property := PString (s : string) | PNumber (n : Z).

(** [Extensions] *)
Record Extensions := mkExtensions { relay_chain : string; para_id : Z }.

(** A specification: what the builder is given. *)
Record Spec (Genesis : Type) := mkSpec {
  extensions : Extensions;
  name : string;
  id : string;
  properties : list (string * Property);
  protocol_id : option string;
  chain_type : ChainType;
  genesis : Genesis;
}.
Arguments mkSpec {_} _ _ _ _ _ _ _.
Arguments extensions {_} _.
Arguments name {_} _.
Arguments id {_} _.
Arguments properties {_} _.
Arguments protocol_id {_} _.
Arguments chain_type {_} _.
Arguments genesis {_} _.

Definition spec_properties : list (string * Property) :=
  [("tokenSymbol", PString "ROC"); ("tokenDecimals", PNumber 12); ("ss58Format", PNumber 42)]%string.

Section Specs.
Context {AccountId NimbusId Other E : Type}.
Context (get_account_id_from_seed : string -> AccountId) (get_collator_keys_from_seed : string -> NimbusId).

Abbreviation GenesisSpec := (Spec (RuntimeGenesisConfig AccountId NimbusId)).

Definition development_config : GenesisSpec :=
  mkSpec (mkExtensions "rococo-local" 1000) "Development" "dev" spec_properties None Development
    (development_genesis get_account_id_from_seed get_collator_keys_from_seed).

Definition local_testnet_config : GenesisSpec :=
  mkSpec (mkExtensions "rococo-local" 1000) "Local Testnet" "local_testnet" spec_properties
    (Some "template-local"%string) Local
    (local_testnet_genesis get_account_id_from_seed get_collator_keys_from_seed).

(** A specification of the node, or one read from a file. *)
Inductive ChainSpec := BuiltIn (spec : GenesisSpec) | FromFile (spec : Other).

Context (from_json_file : string -> E + Other).

Definition load_spec (spec_id : string) : E + ChainSpec :=
  if bool_decide (spec_id = "dev")%string then inr (BuiltIn development_config)
  else if bool_decide (spec_id = "template-rococo")%string then inr (BuiltIn local_testnet_config)
  else if bool_decide (spec_id = "" \/ spec_id = "local")%string then inr (BuiltIn local_testnet_config)
  else match from_json_file spec_id with inl e => inl e | inr spec => inr (FromFile spec) end.
End Specs.

(** ** The command line *)

(** The two arguments on the proof of validity. *)
Record Cli := mkCli { cli_max_pov_percentage : Z; full_pov_size : bool }.

(** Their parsing: a [u8] that defaults to 50 and conflicts with the flag. *)
Definition parse_pov (max_pov_percentage : option Z) (full_pov_size : bool) : option Cli :=
  match max_pov_percentage with
  | None => Some (mkCli 50 full_pov_size)
  | Some p => if full_pov_size || negb (bool_decide (fits 8 p)) then None else Some (mkCli p false)
  end.

(** What [run] passes to the node. *)
Definition pov_percentage (cli : Cli) : Z :=
  if full_pov_size cli then 100 else cli_max_pov_percentage cli.

(** [RelayChainCli]: the relay chain's arguments, of which the base path and the chain id
    are used; a path is its components. *)
Section RelayChainCli.
Context {E : Type}.

Record RelayRunCmd := mkRelayRunCmd {
  shared_base_path : E + option (list string);
  base_chain_id : bool -> E + string;
}.

Record RelayChainCli := mkRelayChainCli {
  base : RelayRunCmd;
  cli_chain_id : option string;
  cli_base_path : list string;
}.

(** [RelayChainCli::new], from the parachain's specification and base path *)
Definition new_relay_cli (extension : option Extensions) (para_base_path : list string)
    (base : RelayRunCmd) : RelayChainCli :=
  mkRelayChainCli base (relay_chain <$> extension) (para_base_path ++ ["polkadot"%string]).

Definition base_path (cli : RelayChainCli) : E + option (list string) :=
  match shared_base_path (base cli) with
  | inl e => inl e
  | inr (Some p) => inr (Some p)
  | inr None => inr (Some (cli_base_path cli))
  end.

Definition chain_id (cli : RelayChainCli) (is_dev : bool) : E + string :=
  match base_chain_id (base cli) is_dev with
  | inl e => inl e
  | inr chain_id => inr (if bool_decide (chain_id = ""%string) then default ""%string (cli_chain_id cli)
                         else chain_id)
  end.
End RelayChainCli.
Arguments RelayRunCmd : clear implicits.
Arguments RelayChainCli : clear implicits.

Definition p2p_listen_port : Z := 30334.
Definition rpc_listen_port : Z := 9945.
Definition prometheus_listen_port : Z := 9616.

(** ** The collator *)

(** [start_consensus]: the parameters of the slot-based collator, and its timer. *)
Definition collator_params {PeerId} (force_authoring : bool) (max_pov_percentage : Z)
    (collator_peer_id : PeerId) : TaskParams PeerId :=
  mkTaskParams (from_millis 6000) (from_millis 500) (Some max_pov_percentage) force_authoring []
    collator_peer_id.

Definition collator_timer : SlotTimer :=
  new_with_offset (from_millis 6000) (from_millis 6000) (Some (from_millis 6000)).

(** [start_node_impl] starts the collator on validators only. *)
Definition starts_consensus (validator : bool) : bool := validator.

(** The block import of the import queue that [new_partial] builds. *)
Definition import_queue_block_import {W X CheckParams R Origin Hdr D Ext SA}
    `{EqDecision Origin} `{BlockOrigins Origin}
    (client : BlockImport W X CheckParams R (BlockImportParams Origin Hdr D Ext SA)) :
    BlockImport W X CheckParams R (BlockImportParams Origin Hdr D Ext SA) :=
  NimbusBlockImport client false false.

(** ** The instant-seal node

    The numbers of [MockValidationDataInherentDataProvider]; what the node sets. *)
Record MockedNumbers := mkMocked {
  current_para_block : Z;
  relay_offset : Z;
  mocked_relay_parent_offset : Z;
  relay_blocks_per_para_block : Z;
  para_blocks_per_relay_epoch : Z;
}.

Definition instant_seal_mock : MockedNumbers := mkMocked 0 0 0 0 0.

(** [should_send_go_ahead]: [collect_collation_info] of the parent, [None] is an error. *)
Definition should_send_go_ahead {Code} (info : option (option Code)) : bool :=
  match info with
  | Some new_validation_code => bool_decide (is_Some new_validation_code)
  | None => false
  end.

(** ** Properties *)
Section Properties.
Context {AccountId NimbusId Other E : Type}.
Context (get_account_id_from_seed : string -> AccountId) (get_collator_keys_from_seed : string -> NimbusId).
Context (from_json_file : string -> E + Other).

(** The built-in specifications are consistent: they are what [dev], [local], [template-rococo]
    and no argument name, everything else is a file; the parachain id of the extensions is
    that of the genesis, the decimals of the token are those of [UNIT], and every authority
    of the genesis is endowed. *)
Theorem specs_consistent (i : string) :
  match load_spec get_account_id_from_seed get_collator_keys_from_seed from_json_file i with
  | inr (BuiltIn s) => i ∈ ["dev"; "template-rococo"; ""; "local"]%string /\
      para_id (extensions s) = parachain_id (genesis s) /\
      (exists d, ("tokenDecimals"%string, PNumber d) ∈ properties s /\ 10 ^ d = UNIT) /\
      mapping (genesis s) <> [] /\
      Forall (fun p => p.1 ∈ (balances (genesis s)).*1) (mapping (genesis s))
  | inr (FromFile other) => from_json_file i = inr other
  | inl e => from_json_file i = inl e
  end.
Proof.
  assert (Hd : exists d, ("tokenDecimals"%string, PNumber d) ∈ spec_properties /\ 10 ^ d = UNIT).
  { exists 12. split; [right; left|done]. }
  assert (Hlocal : let s := local_testnet_config get_account_id_from_seed get_collator_keys_from_seed in
    Forall (fun p => p.1 ∈ (balances (genesis s)).*1) (mapping (genesis s))).
  { simpl. rewrite !Forall_cons. split_and!; [left|right; left|apply Forall_nil_2]. }
  unfold load_spec. case_bool_decide; [|case_bool_decide; [|case_bool_decide as Hl]].
  - subst. split; [left|]. split_and!; try done. simpl. rewrite Forall_cons.
    split; [left|apply Forall_nil_2].
  - subst. split; [right; left|]. by split_and!.
  - split; [set_solver|]. by split_and!.
  - by destruct (from_json_file i).
Qed.

(** The relay chain's arguments come first, what the parachain's specification and base path
    say is the fallback. *)
Lemma relay_cli_fallback (ext : option Extensions) path (b : RelayRunCmd E) is_dev :
  let cli := new_relay_cli ext path b in
  (forall p, shared_base_path b = inr (Some p) -> base_path cli = inr (Some p)) /\
  (shared_base_path b = inr None -> base_path cli = inr (Some (path ++ ["polkadot"%string]))) /\
  (forall c, base_chain_id b is_dev = inr c -> c <> ""%string -> chain_id cli is_dev = inr c) /\
  (forall e, base_chain_id b is_dev = inr ""%string -> ext = Some e ->
   chain_id cli is_dev = inr (relay_chain e)).
Proof.
  unfold base_path, chain_id. simpl. split_and!.
  - by intros p ->.
  - by intros ->.
  - intros c -> Hc. by rewrite bool_decide_false.
  - by intros e -> ->.
Qed.
End Properties.

(** C19: the part of the proof of validity that the node's collator uses: for every
    accepted command line, build and maximum size up to 16 MiB the size is computed without
    a panic or wrapping, as that percentage of the maximum; it is half of it by default,
    all of it with the deprecated flag, and within the maximum exactly for percentages up
    to 100 (for a maximum of at least 100 bytes), although any percentage up to 255 is
    accepted and the help says 0 to 85. *)
Theorem pov_size_used {PeerId} (peer : PeerId) given full cli oc force max_pov_size :
  parse_pov given full = Some cli -> 0 <= max_pov_size <= 2 ^ 24 ->
  let p := pov_percentage cli in
  let used := max_pov_size * p / 100 in
  allowed_pov_size oc (max_pov_percentage (collator_params force p peer)) max_pov_size = Some used /\
  0 <= p <= 255 /\
  (given = None -> used = if full then max_pov_size else max_pov_size / 2) /\
  (forall q, given = Some q -> p = q) /\
  (p <= 100 -> used <= max_pov_size) /\
  (100 < p -> 100 <= max_pov_size -> max_pov_size < used).
Proof.
  intros Hparse Hmax p used.
  assert (Hp : 0 <= p <= 255 /\ (given = None -> p = if full then 100 else 50) /\
    forall q, given = Some q -> p = q).
  { unfold p, pov_percentage. unfold parse_pov in Hparse. destruct given as [q|].
    - destruct full; simpl in Hparse; [done|]. case_bool_decide as Hf; [|done]. injection Hparse as <-.
      unfold fits, umax in Hf. simpl. split_and!; [lia..|done|congruence].
    - injection Hparse as <-. simpl. destruct full; split_and!; try done; lia. }
  destruct Hp as (Hp & Hdef & Hq). split_and!; try done; try lia.
  - unfold allowed_pov_size. simpl. rewrite op_mul_exact; [done|]. unfold fits, umax. nia.
  - intros Hg. unfold used. rewrite (Hdef Hg). destruct full.
    + by rewrite Z.div_mul.
    + change 100 with (2 * 50). by rewrite Z.div_mul_cancel_r.
  - intros H100. apply Z.div_le_upper_bound; nia.
  - intros H100 Hm. apply Z.lt_le_trans with (max_pov_size + 1); [lia|].
    apply Z.div_le_lower_bound; nia.
Qed.

(** ** Instant seal

    The slot in the mocked proof is a function of the mock's numbers; the timestamp is the
    system's. *)
Section InstantSeal.
Context {Origin Hash Error : Type}.
Context (root : Origin -> bool) (slot_from_timestamp : Z -> Z -> option Z).
Context (size_after : Hash -> Z) (oc : bool).
Context (from_timestamp_spec : forall t d, 0 < d -> slot_from_timestamp t d = Some (t / d)).
Context (mocked_slot : MockedNumbers -> Z).
Abbreviation T := (template_hook (Error := Error) root slot_from_timestamp size_after oc).

(** The blocks of the instant-seal node: the mocked slot, any timestamp, any calls. *)
Definition sealed_instantly (b : AsyncBacking.block (Origin := Origin)) : Prop :=
  relay_slot b = Some (mocked_slot instant_seal_mock) /\ fits 64 (now b).

(** C26: instant seal does not get far on the template runtime: as the numbers of the mock are
    constants, every block has the same relay slot, so that of all the blocks of a chain
    only the first can be accepted, and that only if the system's time lies in that slot. *)
Theorem instant_seal_stalls blocks s :
  Forall sealed_instantly blocks ->
  for_each (AsyncBacking.execute_block T) blocks AsyncBacking.empty_state = Ok tt s ->
  (length blocks <= 1)%nat /\
  Forall (fun b => now b / 6000 = mocked_slot instant_seal_mock) blocks.
Proof.
  intros Hb Hr.
  assert (Hfits : Forall (fun b => fits 64 (now b)) blocks) by (eapply Forall_impl; [exact Hb|]; by intros b [_ ?]).
  destruct (proj1 (chain_accepted (Error := Error) root slot_from_timestamp size_after oc from_timestamp_spec
    blocks AsyncBacking.empty_state I Hfits) (ex_intro _ s Hr)) as [Hslots Hsorted].
  assert (Hsame : Forall (fun b => block_slot b = mocked_slot instant_seal_mock) blocks).
  { rewrite Forall_forall in *. intros b Hin. destruct (Hb b Hin) as [Hm _].
    specialize (Hslots b Hin). congruence. }
  split; [|done]. simpl in Hsorted. destruct blocks as [|b1 [|b2 blocks]]; [simpl; lia..|].
  apply Sorted_inv in Hsorted as [_ Hhd]. apply HdRel_inv in Hhd.
  inversion Hsame as [|? ? H1 Hs2]; subst. inversion Hs2 as [|? ? H2 _]; subst. lia.
Qed.
End InstantSeal.

(** ** Concrete values *)
Lemma pov_size_used_witness :
  allowed_pov_size true (max_pov_percentage (collator_params false 255 tt)) 10485760 = Some 26738688 /\
  10485760 < 26738688.
Proof.
  destruct (pov_size_used tt (Some 255) false (mkCli 255 false) true false 10485760)
    as (Ha & _ & _ & _ & _ & Hlt); [reflexivity|lia|].
  split; [exact Ha|]. apply Hlt; [reflexivity|lia].
Defined.

Lemma instant_seal_stalls_witness :
  Forall (fun b : AsyncBacking.block (Origin := bool) => now b / 6000 = 0) [(Some 0, 5999, [])].
Proof.
  refine (proj2 (instant_seal_stalls (Error := unit) (fun o : bool => o) sample_slot_from_timestamp
    (fun h : Z => h) true sample_slot_from_timestamp_spec (fun _ => 0) [(Some 0, 5999, [])]
    (AsyncBacking.mkState (Some (0, 1)) None) _ _)).
  - constructor; [|constructor]. split; [reflexivity|]. by vm_compute.
  - vm_compute. reflexivity.
Defined.
