(* ===== verification/EndToEnd.v ===== *)
(** * From the collator to the runtime

    The slot-based collator builds on what the runtime API tells it; the runtime checks
    the block again when it executes it.  This file puts the two together for the template
    chain: the collator of [BlockBuilder.v] asks the runtime of [Runtime.v] and
    [TemplateRuntime.v], and every block it sends is executed by that runtime, through the
    block executor, the author inherent and the consensus hook. *)
From Stdlib Require Import ZArith Lia.
From stdpp Require Import prelude gmap fin_maps sorting.
From S2P Require Import Prelude.
From S2P Require Import Interfaces.
From S2P Require Import NimbusPrimitives.
From S2P Require Import SlotFilter.
From S2P Require Import AuthorInherent.
From S2P Require AsyncBacking.
From S2P Require Import SlotTimer.
From S2P Require Import ClaimSlot.
From S2P Require Import BlockImport.
From S2P Require Import BlockProduction.
From S2P Require Import RelayParents.
From S2P Require Import BlockBuilder.
From S2P Require Runtime.
From S2P Require Import TemplateRuntime.
From S2P Require Import TemplateNode.

Local Open Scope Z_scope.

(** ** Blocks and their inherents *)

(** The parachain inherent: the relay parent's number and the slot in its storage proof. *)
Class ParasContents (Paras : Type) := {
  paras_number : Paras -> Z;
  paras_slot : Paras -> option Z;
}.

(** The timestamp in inherent data. *)
Class TimestampData (InherentData : Type) := data_timestamp : InherentData -> Z.

(** What the runtime reads in a block: the inherents and the calls of the two pallets. *)
Class BlockContents (Ext Paras RtOrigin : Type) := {
  block_paras : list Ext -> Paras;
  block_timestamp : list Ext -> Z;
  author_calls : list Ext -> list (RtOrigin * AuthorInherent.Call);
  backing_calls : list Ext -> list (RtOrigin * Z);
}.

(** The storage of the template runtime that decides about a block. *)
Record Storage (AccountId NimbusId Percent : Type) `{Countable NimbusId} := mkStorage {
  authorship : Runtime.World AccountId NimbusId Percent;
  inherent_state : AuthorInherent.State AccountId;
  backing : AsyncBacking.State;
}.
Arguments mkStorage {_ _ _ _ _} _ _ _.
Arguments authorship {_ _ _ _ _} _.
Arguments inherent_state {_ _ _ _ _} _.
Arguments backing {_ _ _ _ _} _.

(** ** Executing a block *)
Section Execution.
Context {D HeaderRest Hash NimbusId NimbusSignature Ext Paras : Type}.
Context {RtOrigin AccountId Percent : Type}.
Abbreviation Hdr := (Header D HeaderRest).
Abbreviation Blk := (Block Hdr Ext).
Context `{EqDecision AccountId} `{Countable NimbusId} `{Codec NimbusId} `{Codec NimbusSignature} `{Codec Z}.
Context `{DigestItemOps D} `{HeaderOps Hdr Hash} `{ParasContents Paras} `{BlockContents Ext Paras RtOrigin}.
Context (from_slice : list Z -> option NimbusId) (verify : NimbusId -> Hash -> NimbusSignature -> bool).
(** the runtime's parameters, as in [Runtime.v] and [TemplateRuntime.v] *)
Context (root : RtOrigin -> bool) (ceil : Percent -> Z -> Z) (percent : Z -> Percent).
Context (TI : AuthorInherent.Config RtOrigin).
Context (flip : Z -> Hash -> (list Z -> list Z) -> list Z -> list Z).
Context (slot_from_timestamp : Z -> Z -> option Z) (size_after : Hash -> Z) (oc : bool).

Abbreviation Store := (Storage AccountId NimbusId Percent).
(** What the pallets outside the repository (system, timestamp, parachain-system, the
    transactions) require of a block on its parent's state. *)
Context (others_accept : Hdr -> Blk -> Store -> bool).
Abbreviation hook := (template_hook (Error := unit) root slot_from_timestamp size_after oc).

(** The block executor strips and checks the seal, then the pallets execute the block on
    the storage of its parent; [None] is a panic. *)
Definition execute_sealed_block (parent : Hdr) (block : Blk) (st : Store) : option Store :=
  header ← verify_and_remove_seal header_hash from_slice verify block.1;
  execute_verified_block (HeaderRest := HeaderRest) (fun header : Hdr =>
    let paras := block_paras (RtOrigin := RtOrigin) block.2 in
    let w := Runtime.world_on ClaimSlot.number header_hash flip parent (paras_number paras)
               (authorship st) in
    let now := block_timestamp (Paras := Paras) (RtOrigin := RtOrigin) block.2 in
    match Runtime.execute_logs root ceil percent TI (logs header) (author_calls (Paras := Paras) block.2)
            w (inherent_state st) with
    | Ok _ a =>
        match AsyncBacking.execute_block hook
                (paras_slot paras, now, backing_calls (Paras := Paras) block.2) (backing st) with
        | Ok _ b => if others_accept parent block st then Some (mkStorage w a b) else None
        | _ => None
        end
    | _ => None
    end) header.
End Execution.

(** ** The documented behaviour of the interfaces *)

(** The proposer executes the inherents it is given: those of the parachain and the
    timestamp, and the inherent of author-inherent before all other calls, which are not of
    the none origin. *)
Class ContentsLaws (W D HeaderRest Ext Paras InherentData Recorder Extensions Changes X RtOrigin : Type)
    `{ProposerInterface W (Header D HeaderRest) Paras InherentData D Recorder Extensions
        (Proposal (Block (Header D HeaderRest) Ext) Changes) X}
    `{TimestampData InherentData} `{ReplaceData InherentData} `{BlockContents Ext Paras RtOrigin}
    (TI : AuthorInherent.Config RtOrigin) : Prop := {
  proposal_contents parent paras inherents digests duration limit recorder extensions w header body changes w' :
    propose (Recorder := Recorder) (Extensions := Extensions) (X := X) (parent : Header D HeaderRest)
      (paras : Paras) (inherents : InherentData) digests duration limit recorder extensions w
      = Ok (mkProposal ((header, body) : Block (Header D HeaderRest) Ext) (changes : Changes)) w' ->
    block_paras (RtOrigin := RtOrigin) body = paras /\
    block_timestamp (Paras := Paras) (RtOrigin := RtOrigin) body = data_timestamp inherents /\
    exists none c others, create_inherent = Some c /\ AuthorInherent.ensure_none TI none = true /\
      author_calls (Paras := Paras) body = (none, c) :: others /\
      Forall (fun oc => AuthorInherent.ensure_none TI oc.1 = false) others;
  replaced_timestamp t (data : InherentData) : data_timestamp (replace_timestamp t data) = t;
}.

(** The parachain inherent is of the relay parent it was created for: it has the number of
    the validation data, and the storage of a relay block holds the slot of its header. *)
Class ParasLaws (W RH RHash Paras PeerId : Type) `{HeaderOps RH RHash} `{RelayHeaderOps RH RHash}
    `{ParasContents Paras} `{ParasProvider W RHash RH Paras PeerId} : Prop := {
  created_paras (w : W) (rp : RH) validation_data para_id descendants keys (peer : PeerId) (paras : Paras) :
    create_at w (header_hash rp) validation_data para_id descendants keys peer = Some paras ->
    paras_number paras = relay_parent_number validation_data /\ paras_slot paras = babe_slot rp;
  babe_slot_unsigned (rp : RH) sl : babe_slot rp = Some sl -> 0 <= sl;
}.

(** ** The collator of the template chain and its runtime *)
#[local] Existing Instance Runtime.account_set_lookup.

Section Pipeline.
Context {W D HeaderRest Hash RH RHash NimbusId NimbusSignature Version ClaimQueue Ext SA Changes Origin : Type}.
Context {Paras InherentData Providers Recorder Extensions Proof PeerId X R CheckParams L CodeHash DP : Type}.
Context {RtOrigin AccountId Percent : Type}.
Abbreviation Hdr := (Header D HeaderRest).
Abbreviation Blk := (Block Hdr Ext).
Abbreviation Params := (BlockImportParams Origin Hdr D Ext SA).
Context `{!EqDecision Hash} `{!EqDecision RHash} `{!EqDecision Version}.
Context `{!EqDecision AccountId} `{Countable NimbusId}.
Context `{!DigestItemOps D} `{!DigestItemLaws D} `{!Codec NimbusId} `{!CodecLaws NimbusId} `{!Codec Z}.
Context `{!Codec NimbusSignature} `{!CodecLaws NimbusSignature} `{!HeaderOps Hdr Hash}.
Context `{!HeaderOps RH RHash} `{!RelayHeaderOps RH RHash} `{!ParaDigestOps Hdr RHash}.
Context `{!ParaClient W Hdr Hash NimbusId Version} `{!RelayClient W RHash ClaimQueue}.
Context `{!RelayChainInterface W RH RHash} `{!RelayChainLaws W RH RHash} `{!ClaimQueueOps ClaimQueue}.
Context `{!LruMap RHash (RelayChainData RH ClaimQueue) L} `{!LruMapLaws RHash (RelayChainData RH ClaimQueue) L}.
Context `{!StateActionOps SA Changes} `{!BlockOrigins Origin}.
Context `{!ProposerInterface W Hdr Paras InherentData D Recorder Extensions (Proposal Blk Changes) X}.
Context `{!ProposerLaws W D HeaderRest Ext Paras InherentData Recorder Extensions Changes X}.
Context `{!InherentProviders W Hash unit Providers InherentData X} `{!ReplaceData InherentData}.
Context `{!ParasProvider W RHash RH Paras PeerId} `{!ProofRecorders W Recorder Proof Extensions}.
Context `{!Keystore W NimbusId Hash NimbusSignature} `{!ImportParamsOps Params Origin Hdr}.
Context `{!ImportParamsLaws Origin D HeaderRest Ext SA}.
Context `{!DigestsProvider DP NimbusId Hash D} `{!SlotOps} `{!SlotLaws} `{!Clock W}.
Context `{!TaskClient W Hdr Hash RHash CodeHash} `{!TaskClientLaws W Hdr Hash RHash CodeHash}.
Context `{!ParasContents Paras} `{!TimestampData InherentData} `{!BlockContents Ext Paras RtOrigin}.
Context `{!ParasLaws W RH RHash Paras PeerId}.
Context (from_slice : list Z -> option NimbusId) (the_para_id : Z).
Context (verify : NimbusId -> Hash -> NimbusSignature -> bool).
Context `{!KeystoreLaws W NimbusId Hash NimbusSignature from_slice verify}.
Context (block_import : BlockImport W X CheckParams R Params) (additional_digests_provider : DP).
Context (runtime_requirement default_lookahead max_pov_percentage : Z) (peer : PeerId).
Context (root : RtOrigin -> bool) (ceil : Percent -> Z -> Z) (percent : Z -> Percent).
Context (TI : AuthorInherent.Config RtOrigin).
Context `{!ContentsLaws W D HeaderRest Ext Paras InherentData Recorder Extensions Changes X RtOrigin TI}.
Context (flip : Z -> Hash -> (list Z -> list Z) -> list Z -> list Z).
Context (slot_from_timestamp : Z -> Z -> option Z) (oc client_oc : bool).
(** the unincluded segment in a state, after a block was included *)
Context (size_after : Storage AccountId NimbusId Percent -> Hash -> Z).
Context (others_accept : Hdr -> Blk -> Storage AccountId NimbusId Percent -> bool).
Context (slot_from_timestamp_spec : forall t d, 0 < d -> slot_from_timestamp t d = Some (t / d)).

Abbreviation Store := (Storage AccountId NimbusId Percent).
Abbreviation hook st := (template_hook (Error := unit) root slot_from_timestamp (size_after st) oc).
Abbreviation execute := (fun (parent : Hdr) (block : Blk) (st : Store) =>
  execute_sealed_block (Paras := Paras) from_slice verify root ceil percent TI flip
    slot_from_timestamp (size_after st) oc others_accept parent block st).

(** The state of each block, and that the client's API is the runtime's in that state. *)
Context (state_at : W -> Hash -> Store).
Context (client_is_runtime : forall w h n sl parent, api_can_author w h n sl parent =
  Runtime.api_can_author root ceil percent ClaimSlot.number header_hash flip oc n sl parent
    (authorship (state_at w h))).
Context (client_has_room : forall w h included sl, api_can_build_upon w h included sl =
  AsyncBacking.can_build_upon (hook (state_at w h)) included sl (backing (state_at w h))).

(** The consensus hook's part of a state is that of some chain of the template. *)
Definition template_state (st : Store) : Prop := exists blocks,
  Forall (fun b => fits 64 (TemplateRuntime.now b)) blocks /\
  for_each (AsyncBacking.execute_block (hook st)) blocks AsyncBacking.empty_state = Ok tt (backing st).

Lemma template_state_one_each st : template_state st -> one_each (backing st).
Proof.
  intros (blocks & Hb & Hr). apply (chain_slot_info (Error := unit)) in Hr; [|done..].
  unfold one_each. rewrite Hr. by destruct (last blocks).
Qed.

(** The slot and the timestamp that the collator takes from the relay parent. *)
Lemma template_slot (rp : RH) para_slot :
  adjust_para_to_relay_parent_slot rp (from_millis 6000)
    (Z.min (as_millis (from_millis 6000)) (umax 64)) = Some (Some para_slot) ->
  exists rs, babe_slot rp = Some rs /\ para_slot = (rs, rs * 6000) /\ rs * 6000 <= umax 64.
Proof.
  unfold adjust_para_to_relay_parent_slot. destruct (babe_slot rp) as [rs|]; [|done].
  change (wrapping 64 (as_millis (from_millis 6000))) with 6000.
  change (Z.min (as_millis (from_millis 6000)) (umax 64)) with 6000.
  rewrite !timestamp_spec. destruct (Z.leb_spec (rs * 6000) (umax 64)); [|done].
  rewrite from_timestamp_spec by done. rewrite Z.div_mul by done. simpl. rewrite timestamp_spec.
  rewrite (proj2 (Z.leb_le _ _)) by done. simpl. intros [= <-]. eauto.
Qed.

(** The block of a claim that the runtime's API allowed, with the inherents of the relay
    parent and a later slot, is executed; without a later slot it panics. *)
Lemma claimed_block_executes (parent : Hdr) (block : Blk) (st : Store) proposed author additional more
    number rs none others :
  verify_and_remove_seal header_hash from_slice verify block.1 = Some proposed ->
  logs proposed = nimbus_pre_digest author :: additional ++ more ->
  paras_number (block_paras (RtOrigin := RtOrigin) block.2) = number ->
  paras_slot (block_paras (RtOrigin := RtOrigin) block.2) = Some rs -> 0 <= rs -> rs * 6000 <= umax 64 ->
  block_timestamp (Paras := Paras) (RtOrigin := RtOrigin) block.2 = rs * 6000 ->
  author_calls (Paras := Paras) block.2 = (none, kick_off_authorship_validation_call) :: others ->
  AuthorInherent.ensure_none TI none = true ->
  Forall (fun oc => AuthorInherent.ensure_none TI oc.1 = false) others ->
  fits 32 (ClaimSlot.number parent + 1) -> one_each (backing st) ->
  Runtime.api_can_author root ceil percent ClaimSlot.number header_hash flip oc author number parent
    (authorship st) = Some true ->
  exists a, lookup_account (Runtime.PotentialAuthorSet (authorship st)) author = Some a /\
    (later rs (backing st) -> others_accept parent block st = true -> exists st',
       execute parent block st = Some st' /\
       Author (inherent_state st') = Some a /\ AsyncBacking.SlotInfo (backing st') = Some (rs, 1)) /\
    (~ later rs (backing st) \/ others_accept parent block st = false ->
       execute parent block st = None).
Proof.
  intros Hseal Hlogs Hnum Hslot Hrs Hmax Hts Hcalls Hnone Hothers Hfits Hone Hapi.
  apply Runtime.api_can_author_true in Hapi as (a & Hl & Hc); [|done].
  exists a. split; [exact Hl|]. unfold execute_sealed_block. rewrite Hseal. simpl.
  unfold execute_verified_block. rewrite Hnum, Hslot, Hts, Hlogs, Hcalls.
  rewrite (Runtime.execute_accepted root ceil percent TI author _ none others _ _ a) by done.
  assert (Hnow : fits 64 (rs * 6000)) by (unfold fits; lia). split.
  - intros Hlater Hoth. destruct (execute_block_accepts (Error := unit) root slot_from_timestamp (size_after st) oc
      slot_from_timestamp_spec (Some rs, rs * 6000, backing_calls (Paras := Paras) block.2) (backing st)
      Hone Hnow) as (b & -> & Hi).
    + exists rs. split; [done|]. split; [done|]. unfold TemplateRuntime.now. simpl. by rewrite Z.div_mul.
    + rewrite Hoth. eexists. split; [done|]. simpl. split; [done|]. rewrite Hi. unfold TemplateRuntime.now. simpl.
      by rewrite Z.div_mul.
  - destruct (AsyncBacking.execute_block _ _ _) as [[] b|e b|] eqn:He; [|done..].
    intros [Hn| ->]; [|done]. exfalso.
    apply (execute_block_follows (Error := unit)) in He as (sl & Hsl & Hlater & _); [|done..].
    unfold relay_slot in Hsl. simpl in Hsl. injection Hsl as <-. done.
Qed.

(** A block the collator sent, on the storage of its parent. *)
Definition block_executes (w : W) (rs : Z) (author : NimbusId)
    (m : CollatorMessage RHash Hdr Blk Proof CodeHash) : Prop :=
  let parent := msg_parent_header m in
  let block := candidate_block (msg_candidate m) in
  let st := state_at w (header_hash parent) in
  exists a, lookup_account (Runtime.PotentialAuthorSet (authorship st)) author = Some a /\
    (later rs (backing st) -> others_accept parent block st = true ->
       exists st', execute parent block st = Some st' /\
         Author (inherent_state st') = Some a /\ AsyncBacking.SlotInfo (backing st') = Some (rs, 1)) /\
    (~ later rs (backing st) \/ others_accept parent block st = false -> execute parent block st = None).

(** The room that the runtime saw on a parent that is not included: nothing is unincluded,
    and the slot is not before the parent's. *)
Definition room_on (st : Store) (rs : Z) (included : Hash) : Prop :=
  forall last authored, AsyncBacking.SlotInfo (backing st) = Some (last, authored) ->
    size_after st included < 1 /\ last <= rs.

Lemma room_seen w h included rs :
  template_state (state_at w h) -> api_can_build_upon w h included rs = Some true ->
  room_on (state_at w h) rs included.
Proof.
  intros Ht%template_state_one_each. rewrite client_has_room. intros Hroom last authored Hi.
  unfold one_each in Ht. rewrite Hi in Ht. subst authored.
  rewrite (template_room (Error := unit) _ _ _ _ _ _ _ last Hi) in Hroom.
  injection Hroom as [? ?]%andb_true_iff. split; [by apply Z.ltb_lt|by apply Z.leb_le].
Qed.

Abbreviation message_for := (message_for (ClaimQueue := ClaimQueue) (Version := Version)
  (NimbusSignature := NimbusSignature) (Changes := Changes) (Recorder := Recorder)
  (Extensions := Extensions) (Proof := Proof) (L := L) (CodeHash := CodeHash)
  from_slice the_para_id verify block_import additional_digests_provider runtime_requirement
  default_lookahead (collator_params false max_pov_percentage peer)).

Lemma message_executes (w : W) m s' :
  task_slot_duration s' = from_millis 6000 -> message_for w m s' ->
  exists (rp : RH) rs author included,
    msg_relay_parent m = header_hash rp /\ babe_slot rp = Some rs /\
    claim_slot from_slice w (msg_parent_header m) rp false = inr (Some author) /\
    (template_state (state_at w (header_hash (msg_parent_header m))) ->
     header_hash (msg_parent_header m) = header_hash (included : Hdr) \/
     room_on (state_at w (header_hash (msg_parent_header m))) rs (header_hash included)) /\
    (template_state (state_at w (header_hash (msg_parent_header m))) ->
     ~ just_upgraded w (msg_parent_header m) -> fits 32 (ClaimSlot.number (msg_parent_header m) + 1) ->
     block_executes w rs author m).
Proof.
  intros Hdur (rp_data & included & data & c & selector & para_slot & inherents & w' & Hrp & _ & _ & _ & _ &
    Hadj & Hclaim & Hts & Hroom & _ & _ & _ & Hinh & Hfrom & Hby & _).
  rewrite Hdur in Hadj. apply template_slot in Hadj as (rs & Hrs & -> & Hmax). simpl in *.
  exists (relay_parent rp_data), rs, (author_id c), included. split_and!; try done.
  { intros Hst. destruct Hroom as [|(v & rs' & _ & Hrs' & Hr)]; [by left|right].
    apply room_seen; [done|]. assert (rs' = rs) as -> by congruence. by destruct (1 <? v). }
  intros Hst Hup Hfits. apply template_state_one_each in Hst.
  destruct Hby as (proposed & more & sd & Hlogs & _ & _ & Hseal).
  destruct Hfrom as (proposed' & ch & dg & du & li & re & ex & w1 & w2 & Hprop & Hseal').
  rewrite Hseal in Hseal'. injection Hseal' as <-.
  apply (proposal_contents (TI := TI)) in Hprop as (Hparas & Hnow & none & call & others & Hcr & Hnone & Hcalls & Hothers).
  clear Hcr. destruct call.
  destruct Hinh as (wi & pov & other & Hdata & Hcreate).
  apply created_paras in Hcreate as [Hnumber Hslot]. simpl in Hnumber.
  rewrite Hdata, replaced_timestamp, Hts in Hnow. simpl in Hnow.
  apply claim_slot_Some in Hclaim as (ks & key & _ & _ & _ & [Hf|[Hj|Hapi]]); [done|done|].
  rewrite client_is_runtime in Hapi.
  eapply claimed_block_executes; [exact Hseal|exact Hlogs|..]; try done.
  - by rewrite Hparas, Hslot.
  - by eapply babe_slot_unsigned.
  - by rewrite Hparas, Hnumber.
Qed.

Abbreviation run := (run_block_builder (Hash := Hash) (RH := RH) (NimbusSignature := NimbusSignature)
  (Version := Version) (ClaimQueue := ClaimQueue) (Changes := Changes) (Providers := Providers)
  (Recorder := Recorder) (Extensions := Extensions) (L := L) (CodeHash := CodeHash) (Proof := Proof)
  from_slice the_para_id block_import additional_digests_provider client_oc runtime_requirement
  default_lookahead (collator_params false max_pov_percentage peer)).

End Pipeline.

(** ** A concrete collator and runtime

    Relay blocks are numbers; a block's body is the relay parent's number, its slot and the
    timestamp; the authors 4 and 6 have the accounts 40 and 60 and are both drawn. *)
Section Witnesses.
#[local] Existing Instance fixed_codec.
#[local] Existing Instance fixed_codec_laws.
#[local] Existing Instance BlockImport.sample_header.
#[local] Existing Instance BlockImport.sample_action.
#[local] Existing Instance BlockProduction.sample_origins.
#[local] Existing Instance BlockProduction.sample_recorders.
#[local] Existing Instance BlockProduction.sample_keystore.
#[local] Existing Instance BlockProduction.sample_keystore_laws.
#[local] Existing Instance BlockProduction.sample_import_params.
#[local] Existing Instance BlockProduction.sample_import_params_laws.
#[local] Existing Instance RelayParents.sample_relay_header.
#[local] Existing Instance RelayParents.sample_relay_client.
#[local] Existing Instance RelayParents.sample_relay_chain.
#[local] Existing Instance RelayParents.sample_relay_chain_laws.
#[local] Existing Instance RelayParents.sample_queue.
#[local] Existing Instance SlotTimer.sample_slots.
#[local] Existing Instance SlotTimer.sample_slots_laws.
#[local] Existing Instance BlockBuilder.sample_digest_ops.
#[local] Existing Instance BlockBuilder.sample_clock.
#[local] Existing Instance BlockBuilder.sample_task_client.
#[local] Existing Instance BlockBuilder.sample_task_client_laws.

Abbreviation SHdr := (Header Item Z).
Abbreviation SBlk := (Block SHdr Z).
Abbreviation SMsg := (CollatorMessage Z SHdr SBlk Z Z).
Abbreviation SStore := (Storage Z Z Z).

#[local] Instance unsigned_slots : RelayHeaderOps Z Z := {|
  relay_state_root h := h;
  babe_slot h := Some (Z.max 0 h);
  contains_epoch_change _ := false;
|}.

#[local] Instance pair_contents : ParasContents (Z * Z) := {|
  paras_number p := p.1;
  paras_slot p := Some (Z.max 0 p.2);
|}.

#[local] Instance pair_provider : ParasProvider unit Z Z (Z * Z) unit :=
  fun _ h v _ _ _ _ => Some (relay_parent_number v, h).

#[local] Instance pair_laws : ParasLaws unit Z Z (Z * Z) unit.
Proof. split; [by intros w rp v i d k peer paras [= <-]|]. intros rp sl [= <-]. lia. Qed.

#[local] Instance timestamp_data : TimestampData Z := fun t => t.
#[local] Instance timestamp_replace : ReplaceData Z := fun t _ => t.

#[local] Instance timestamp_providers : InherentProviders unit Z unit unit Z unit := {|
  create_inherent_data_providers _ _ _ := inr tt;
  create_inherent_data _ _ := inr 0;
  try_handle_error _ _ _ _ := None;
|}.

#[local] Instance listed_contents : BlockContents Z (Z * Z) bool := {|
  block_paras b := (nth 0 b 0, nth 1 b 0);
  block_timestamp b := nth 2 b 0;
  author_calls _ := [(true, kick_off_authorship_validation_call)];
  backing_calls _ := [];
|}.

#[local] Instance listing_proposer :
  ProposerInterface unit SHdr (Z * Z) Z Item unit unit (Proposal SBlk Z) unit :=
  fun _ paras now digests _ _ _ _ =>
    mret (mkProposal (mkHeader (digests ++ [ICons [1] [2]]) 9, [paras.1; paras.2; now]) 9).

#[local] Instance listing_proposer_laws : ProposerLaws unit Item Z Z (Z * Z) Z unit unit Z unit.
Proof. split. intros p pa i dg du li re ex w proposal w' [= <- <-]. simpl. eauto. Qed.

#[local] Instance listing_contents_laws :
  ContentsLaws unit Item Z Z (Z * Z) Z unit unit Z unit bool Runtime.sample_inherent.
Proof.
  split; [|done]. intros p [x y] i dg du li re ex w h b ch w' [= <- <- <- <-]. split; [done|]. split; [done|].
  exists true, kick_off_authorship_validation_call, []. by split_and!.
Qed.

Definition sample_storage : SStore := mkStorage
  (Runtime.mkWorld (Runtime.set_genesis_build [(40, 4); (60, 6)])
     (final_state (genesis_build default_eligibility) empty_state) (fun _ => [0; 0; 0; 0]) 5)
  (AuthorInherent.mkState None false) AsyncBacking.empty_state.

Definition sample_keep (number hash : Z) (old : list Z -> list Z) : list Z -> list Z := old.

(** The client asks the runtime. *)
#[local] Instance runtime_client : ParaClient unit SHdr Z Z Z := {|
  keys _ := Some [[4]; [6]];
  runtime_version _ _ := Some 1;
  api_can_author _ _ n sl parent :=
    Runtime.api_can_author (fun o : bool => o) Runtime.sample_ceil (fun p => p) ClaimSlot.number header_hash
      sample_keep true n sl parent (authorship sample_storage);
  segment_api_version _ _ := Some (Some 2);
  api_can_build_upon _ _ h sl := AsyncBacking.can_build_upon
    (template_hook (Error := unit) (fun o : bool => o) sample_slot_from_timestamp (fun _ : Z => 0) true)
    h sl AsyncBacking.empty_state;
|}.

Definition sample_task : Task unit (list (Z * RelayChainData Z (list Z))) SMsg :=
  mkTask tt [] collator_timer new_connection_helper [].

Definition sample_import : BlockImport unit unit unit unit (BlockImportParams unit SHdr Item Z (option Z)) :=
  mkBlockImport (fun _ => mret tt) (fun _ => mret tt).

Abbreviation sample_run := (run_block_builder (W := unit) (D := Item) (HeaderRest := Z) (Hash := Z) (RH := Z)
  (RHash := Z) (NimbusId := Z) (NimbusSignature := Z) (Version := Z) (ClaimQueue := list Z) (Ext := Z)
  (SA := option Z) (Changes := Z) (Origin := unit) (Paras := Z * Z) (InherentData := Z) (Providers := unit)
  (Recorder := unit) (Extensions := unit) (Proof := Z) (PeerId := unit) (X := unit)
  (L := list (Z * RelayChainData Z (list Z))) (CodeHash := Z) (DP := unit)
  sample_from_slice 2000 sample_import tt true 1 3 (collator_params false 50 tt)).

(** Those of the template require relay parents that are not older than the last one. *)
Definition sample_others (parent : SHdr) (block : SBlk) (st : SStore) : bool :=
  Runtime.relay_chain_block_number (authorship st) <=? paras_number (block_paras (RtOrigin := bool) block.2).

Abbreviation sample_execute := (execute_sealed_block (NimbusSignature := Z) (Paras := Z * Z) sample_from_slice sample_verify
  (fun o : bool => o) Runtime.sample_ceil (fun p => p) Runtime.sample_inherent sample_keep
  sample_slot_from_timestamp (fun _ : Z => 0) true sample_others).

End Witnesses.
