(* ===== verification/TemplateChain.v ===== *)
(** * The template chain from its genesis

    Chains of blocks as the template runtime executes them, from the genesis that
    [testnet_genesis] makes: which chains are accepted, and that the collators of the
    authorities can always extend them.  The storage is that of [EndToEnd.v]; no call of
    the template runtime changes the account set, and [construct_runtime!] lists the filter
    without its calls, so that only root calls of the system pallet that write storage or
    replace the code, which are not modelled, could change the number of eligible authors. *)
From Stdlib Require Import ZArith Lia.
From stdpp Require Import prelude gmap fin_maps sorting.
From S2P Require Import Prelude.
From S2P Require Import Interfaces.
From S2P Require Import NimbusPrimitives.
From S2P Require Import SlotFilter.
From S2P Require Import AuthorInherent.
From S2P Require AsyncBacking.
From S2P Require Import ClaimSlot.
From S2P Require Import BlockImport.
From S2P Require Import BlockProduction.
From S2P Require Import RelayParents.
From S2P Require Runtime.
From S2P Require Import TemplateRuntime.
From S2P Require Import EndToEnd.

Local Open Scope Z_scope.

#[local] Existing Instance Runtime.account_set_lookup.

Section Chain.
Context {D HeaderRest Hash NimbusId NimbusSignature Ext Paras : Type}.
Context {RtOrigin AccountId Percent : Type}.
Abbreviation Hdr := (Header D HeaderRest).
Abbreviation Blk := (Block Hdr Ext).
Context `{!EqDecision AccountId} `{Countable NimbusId} `{!Codec NimbusId} `{!CodecLaws NimbusId}.
Context `{!Codec NimbusSignature} `{!CodecLaws NimbusSignature} `{!Codec Z}.
Context `{!DigestItemOps D} `{!DigestItemLaws D} `{!HeaderOps Hdr Hash}.
Context `{!ParasContents Paras} `{!BlockContents Ext Paras RtOrigin}.
Context (from_slice : list Z -> option NimbusId) (verify : NimbusId -> Hash -> NimbusSignature -> bool).
(** An id is its bytes. *)
Context (from_slice_Some : forall b n, from_slice b = Some n -> b = encode n).
Context (root : RtOrigin -> bool) (ceil : Percent -> Z -> Z) (percent : Z -> Percent).
Context (TI : AuthorInherent.Config RtOrigin).
Context (flip : Z -> Hash -> (list Z -> list Z) -> list Z -> list Z).
Context (slot_from_timestamp : Z -> Z -> option Z) (size_after : Hash -> Z) (oc : bool).
Context (others_accept : Hdr -> Blk -> Storage AccountId NimbusId Percent -> bool).
Context (slot_from_timestamp_spec : forall t d, 0 < d -> slot_from_timestamp t d = Some (t / d)).

Abbreviation Store := (Storage AccountId NimbusId Percent).
Abbreviation hook := (template_hook (Error := unit) root slot_from_timestamp size_after oc).
Abbreviation execute := (execute_sealed_block (Paras := Paras) from_slice verify root ceil percent TI flip
  slot_from_timestamp size_after oc others_accept).
Abbreviation timestamp_of b := (block_timestamp (Paras := Paras) (RtOrigin := RtOrigin) (snd (b : Blk))).
Abbreviation paras_of b := (block_paras (Paras := Paras) (RtOrigin := RtOrigin) (snd (b : Blk))).

(** The storage at genesis, with some randomness. *)
Definition genesis_storage (g : RuntimeGenesisConfig AccountId NimbusId) (random : list Z -> list Z) : Store :=
  mkStorage (Runtime.mkWorld (genesis_authors g) (genesis_filter g) random 0)
    (AuthorInherent.mkState None false) AsyncBacking.empty_state.

(** Blocks, each with the header of its parent, of which the runtime uses the number and
    the hash. *)
Fixpoint execute_chain (blocks : list (Hdr * Blk)) (st : Store) : option Store :=
  match blocks with
  | [] => Some st
  | (parent, block) :: blocks => st' ← execute parent block st; execute_chain blocks st'
  end.

(** The block was signed with the key of an account of the set that may author. *)
Definition signed_by (w : Runtime.World AccountId NimbusId Percent) (block : Blk) (n : NimbusId)
    (a : AccountId) : Prop :=
  exists proposed item sig,
    logs block.1 = logs proposed ++ [item] /\ as_nimbus_seal item = Some sig /\
    claimed_author (logs proposed) = Some (encode n) /\ verify n (header_hash proposed) sig = true /\
    lookup_account (Runtime.PotentialAuthorSet w) n = Some a /\
    can_author (Runtime.filter_config root ceil percent w, Runtime.AuthorFilter w) a
      (Runtime.relay_chain_block_number w) = Some true.

(** The world in which a block on [parent] with relay parent number [number] is executed. *)
Abbreviation world_on parent number st :=
  (Runtime.world_on ClaimSlot.number header_hash flip parent number (authorship (st : Store))).

Lemma execute_Some (parent : Hdr) (block : Blk) (st st' : Store) :
  InherentIncluded (inherent_state st) = false -> one_each (backing st) -> fits 64 (timestamp_of block) ->
  execute parent block st = Some st' ->
  authorship st' = world_on parent (paras_number (paras_of block)) st /\
  InherentIncluded (inherent_state st') = false /\
  (exists n a, signed_by (authorship st') block n a /\ Author (inherent_state st') = Some a) /\
  paras_slot (paras_of block) = Some (timestamp_of block / 6000) /\
  later (timestamp_of block / 6000) (backing st) /\
  AsyncBacking.SlotInfo (backing st') = Some (timestamp_of block / 6000, 1).
Proof.
  intros Hf Hone Hfit. unfold execute_sealed_block.
  destruct (verify_and_remove_seal header_hash from_slice verify block.1) as [h|] eqn:Hv; [|done]. simpl.
  unfold execute_verified_block.
  destruct (Runtime.execute_logs _ _ _ _ _ _ _ _) as [[] a| |] eqn:Ha; [|done..].
  destruct (AsyncBacking.execute_block _ _ _) as [[] b| |] eqn:Hb; [|done..].
  destruct (others_accept _ _ _); [|done]. intros [= <-]. simpl.
  apply Runtime.execute_logs_Ok in Ha as (Hi & acc & Hauth & Hcan & Hdig); [|done].
  apply verify_and_remove_seal_Some in Hv as (item & bytes & n & sig & Hlogs & _ & Hsig & Hcl & Hn & Hver).
  apply from_slice_Some in Hn as ->.
  assert (Hlook : lookup_account (Runtime.PotentialAuthorSet (authorship st)) n = Some acc).
  { unfold claimed_author in Hcl. destruct (filter _ _) as [|[i data] l]; [done|]. simpl in Hcl.
    injection Hcl as ->. destruct Hdig as (n' & r & Hd & Hl).
    rewrite <- (app_nil_r (encode n)), decode_encode in Hd. injection Hd as <- <-. exact Hl. }
  split; [done|]. split; [done|]. split.
  { exists n, acc. split; [|done]. exists h, item, sig. by split_and!. }
  apply (execute_block_follows (Error := unit)) in Hb as Hfol; [|done..].
  destruct Hfol as (sl & Hsl & Hlater & Hnow). unfold relay_slot, now in *. simpl in *. subst sl.
  split; [done|]. split; [done|].
  by apply (execute_block_slot (Error := unit)) in Hb as Hi'.
Qed.

(** What every chain from a genesis keeps. *)
Record chain_state (g : RuntimeGenesisConfig AccountId NimbusId) (st : Store) : Prop := mkChainState {
  cs_authors : Runtime.PotentialAuthorSet (authorship st) = genesis_authors g;
  cs_filter : Runtime.AuthorFilter (authorship st) = genesis_filter g;
  cs_included : InherentIncluded (inherent_state st) = false;
  cs_one_each : one_each (backing st);
}.

Lemma genesis_chain_state g random : chain_state g (genesis_storage g random).
Proof. by split. Qed.

Lemma execute_chain_state g (parent : Hdr) (block : Blk) st st' :
  chain_state g st -> fits 64 (timestamp_of block) -> execute parent block st = Some st' ->
  chain_state g st'.
Proof.
  intros [Ha Hfi Hinc Hone] Hfit He. apply execute_Some in He as (Hw & Hi & _ & _ & _ & Hs); [|done..].
  split; [by rewrite Hw|by rewrite Hw|done|]. unfold one_each. by rewrite Hs.
Qed.

Lemma execute_chain_app l1 l2 st :
  execute_chain (l1 ++ l2) st = execute_chain l1 st ≫= execute_chain l2.
Proof.
  revert st. induction l1 as [|[p b] l1 IH]; intros st; [done|]. simpl.
  destruct (execute p b st); [|done]. simpl. apply IH.
Qed.

(** The chain that the consensus hook sees. *)
Definition backing_block (pb : Hdr * Blk) : AsyncBacking.block (Origin := RtOrigin) :=
  (paras_slot (paras_of pb.2), timestamp_of pb.2, backing_calls (Paras := Paras) pb.2.2).

Lemma chain_backing blocks st st' :
  execute_chain blocks st = Some st' ->
  for_each (AsyncBacking.execute_block hook) (map backing_block blocks) (backing st) = Ok tt (backing st').
Proof.
  revert st. induction blocks as [|[p b] blocks IH]; intros st; cbn [execute_chain map for_each].
  { by intros [= ->]. }
  destruct (execute p b st) as [st1|] eqn:He; [|done]. simpl. intros Hc%IH.
  apply bind_Ok. exists tt, (backing st1). split; [|done]. clear IH Hc. unfold execute_sealed_block in He.
  destruct (verify_and_remove_seal _ _ _ _); [|done]. simpl in He. unfold execute_verified_block in He.
  destruct (Runtime.execute_logs _ _ _ _ _ _ _ _) as [[] a| |]; [|done..].
  unfold backing_block. simpl.
  destruct (AsyncBacking.execute_block _ _ _) as [[] b'| |] eqn:Hb; [|done..].
  destruct (others_accept _ _ _); [|done]. injection He as <-. done.
Qed.

Definition block_slot_of (pb : Hdr * Blk) : Z := timestamp_of pb.2 / 6000.

Lemma chain_keeps g blocks st st' :
  chain_state g st -> Forall (fun pb => fits 64 (timestamp_of pb.2)) blocks ->
  execute_chain blocks st = Some st' -> chain_state g st'.
Proof.
  intros Hst Hb. revert st Hst. induction Hb as [|[p b] blocks Hf _ IH]; intros st Hst; cbn [execute_chain].
  { by intros [= <-]. }
  destruct (execute p b st) as [st1|] eqn:He; [|done]. simpl. apply IH. by eapply execute_chain_state.
Qed.

Lemma chain_slots blocks g random st :
  Forall (fun pb => fits 64 (timestamp_of pb.2)) blocks ->
  execute_chain blocks (genesis_storage g random) = Some st ->
  Forall (fun pb => paras_slot (paras_of pb.2) = Some (block_slot_of pb)) blocks /\
  Sorted Z.lt (map block_slot_of blocks) /\
  AsyncBacking.SlotInfo (backing st)
    = match last blocks with Some pb => Some (block_slot_of pb, 1) | None => None end.
Proof.
  intros Hb Hc%chain_backing.
  assert (Hb' : Forall (fun b => fits 64 (now b)) (map backing_block blocks)) by (by apply Forall_map).
  destruct (proj1 (chain_accepted (Error := unit) root slot_from_timestamp size_after oc
    slot_from_timestamp_spec _ AsyncBacking.empty_state I Hb') (ex_intro _ _ Hc)) as [Hs Hsort].
  split; [by apply Forall_map in Hs|]. split; [by rewrite map_map in Hsort|].
  apply (chain_slot_info (Error := unit)) in Hc; [|done..]. rewrite Hc.
  change (map backing_block blocks) with (backing_block <$> blocks). rewrite fmap_last.
  by destruct (last blocks).
Qed.

(** The accounts of a genesis are its list. *)
Lemma chain_accounts g st a n :
  NoDup (mapping g).*2 -> chain_state g st ->
  lookup_account (Runtime.PotentialAuthorSet (authorship st)) n = Some a <-> (a, n) ∈ mapping g.
Proof. intros Hnd [-> _ _ _]. unfold genesis_authors. by apply Runtime.genesis_accounts. Qed.

(** C2: the chain is in the hands of its genesis authorities: in every chain of blocks that
    the template runtime accepts from a genesis with distinct ids, each block is signed
    with the key of an authority of the genesis that may author in the state left by the
    blocks before it, carries its relay parent's slot in its proof and a timestamp in that
    slot, and comes in a later slot than every block before it, so that no two blocks share
    a slot; the stored author is the one who signed the last block. *)
Theorem chain_by_authorities g random blocks st before parent block after :
  NoDup (mapping g).*2 -> Forall (fun pb => fits 64 (timestamp_of pb.2)) blocks ->
  execute_chain blocks (genesis_storage g random) = Some st ->
  blocks = before ++ (parent, block) :: after ->
  exists st0 n a, execute_chain before (genesis_storage g random) = Some st0 /\
    (a, n) ∈ mapping g /\ signed_by (world_on parent (paras_number (paras_of block)) st0) block n a /\
    paras_slot (paras_of block) = Some (block_slot_of (parent, block)) /\
    Forall (fun pb => block_slot_of pb < block_slot_of (parent, block)) before /\
    (after = [] -> Author (inherent_state st) = Some a).
Proof.
  intros Hnd Hb Hc ->. pose proof (chain_slots _ _ _ _ Hb Hc) as (_ & Hs & _).
  apply Sorted_StronglySorted in Hs; [|intros x y z; lia].
  rewrite map_app in Hs.
  apply Forall_app in Hb as [Hb0 Hb]. inversion Hb as [|? ? Hf _]; subst.
  rewrite execute_chain_app in Hc. destruct (execute_chain before _) as [st0|] eqn:H0; [|done]. simpl in Hc.
  destruct (execute parent block st0) as [st1|] eqn:He; [|done].
  pose proof (chain_keeps g _ _ _ (genesis_chain_state g random) Hb0 H0) as Hst0.
  apply execute_Some in He as (Hw & _ & (n & a & Hsig & Ha) & Hslot & _); [|apply Hst0..|done].
  rewrite Hw in Hsig. exists st0, n, a. split_and!; try done.
  - destruct Hsig as (? & ? & ? & _ & _ & _ & _ & Hl & _). by apply (chain_accounts g st0).
  - apply Forall_forall. intros pb Hin. eapply StronglySorted_app_1_elem_of; [exact Hs|by apply (list_elem_of_fmap_2 block_slot_of)|left].
  - intros ->. simpl in Hc. by injection Hc as <-.
Qed.
End Chain.

(** ** The collators of the authorities *)
Section Collators.
Context {W RH RHash Version ClaimQueue : Type}.
Context {D HeaderRest Hash NimbusId NimbusSignature Ext Paras : Type}.
Context {RtOrigin AccountId Percent : Type}.
Abbreviation Hdr := (Header D HeaderRest).
Abbreviation Blk := (Block Hdr Ext).
Context `{!EqDecision Hash} `{!EqDecision Version}.
Context `{!EqDecision AccountId} `{Countable NimbusId} `{!Codec NimbusId} `{!CodecLaws NimbusId}.
Context `{!Codec NimbusSignature} `{!CodecLaws NimbusSignature} `{!Codec Z}.
Context `{!DigestItemOps D} `{!DigestItemLaws D} `{!HeaderOps Hdr Hash}.
Context `{!HeaderOps RH RHash} `{!RelayHeaderOps RH RHash} `{!ParaClient W Hdr Hash NimbusId Version}.
Context `{!ParasContents Paras} `{!BlockContents Ext Paras RtOrigin}.
Context (from_slice : list Z -> option NimbusId) (verify : NimbusId -> Hash -> NimbusSignature -> bool).
Context (from_slice_Some : forall b n, from_slice b = Some n -> b = encode n).
Context (from_slice_encode : forall n, from_slice (encode n) = Some n).
Context (root : RtOrigin -> bool) (ceil : Percent -> Z -> Z) (percent : Z -> Percent).
Context (TI : AuthorInherent.Config RtOrigin).
Context (flip : Z -> Hash -> (list Z -> list Z) -> list Z -> list Z).
Context (slot_from_timestamp : Z -> Z -> option Z) (size_after : Hash -> Z) (oc : bool).
Context (others_accept : Hdr -> Blk -> Storage AccountId NimbusId Percent -> bool).
Context (slot_from_timestamp_spec : forall t d, 0 < d -> slot_from_timestamp t d = Some (t / d)).
Context (decode_fits : forall l n rest, decode l = Some (n, rest) -> fits 32 n).
Context (ceil_fits : forall p n, fits 32 (ceil p n)).

Abbreviation timestamp_of b := (block_timestamp (Paras := Paras) (RtOrigin := RtOrigin) (snd (b : Blk))).
Abbreviation paras_of b := (block_paras (Paras := Paras) (RtOrigin := RtOrigin) (snd (b : Blk))).
Abbreviation run_chain := (execute_chain (Paras := Paras) from_slice verify root ceil percent TI flip
  slot_from_timestamp size_after oc others_accept).

(** The client's runtime on [parent] is that of the state [st]. *)
Definition client_on (parent : Hdr) (st : Storage AccountId NimbusId Percent) (w : W) : Prop :=
  runtime_upgraded w parent = inr false /\
  forall n sl, api_can_author w (header_hash parent) n sl parent =
    Runtime.api_can_author root ceil percent ClaimSlot.number header_hash flip oc n sl parent (authorship st).

(** The block has the inherents that the collator makes for a relay parent. *)
Definition for_relay_parent (rp : RH) (block : Blk) : Prop :=
  paras_number (paras_of block) = ClaimSlot.number rp /\ paras_slot (paras_of block) = babe_slot rp /\
  (forall rs, babe_slot rp = Some rs -> timestamp_of block = rs * 6000) /\
  exists none others,
    author_calls (Paras := Paras) block.2 = (none, kick_off_authorship_validation_call) :: others /\
    AuthorInherent.ensure_none TI none = true /\
    Forall (fun oc => AuthorInherent.ensure_none TI oc.1 = false) others.

(** Some authority may author in every relay parent's slot. *)
Lemma drawn_authority (parent : Hdr) (g : RuntimeGenesisConfig AccountId NimbusId) st sl :
  chain_state g st -> eligible_count g = default_eligibility -> mapping g <> [] -> NoDup (mapping g).*2 ->
  fits 32 (ClaimSlot.number parent + 1) ->
  exists a n, (a, n) ∈ mapping g /\
    Runtime.api_can_author root ceil percent ClaimSlot.number header_hash flip oc n sl parent (authorship st)
      = Some true.
Proof.
  intros Hst He Hne Hnd Hp.
  set (w' := Runtime.world_on ClaimSlot.number header_hash flip parent sl (authorship st)).
  set (T := Runtime.filter_config root ceil percent w').
  assert (Hacc : PotentialAuthors T = (mapping g).*1).
  { change (PotentialAuthors T) with (Runtime.StoredAccounts (Runtime.PotentialAuthorSet (authorship st))).
    rewrite (cs_authors _ _ Hst). unfold genesis_authors. apply Runtime.genesis_accounts. }
  destruct (author_exists T decode_fits ceil_fits (Runtime.AuthorFilter w') sl) as (a & Ha & Hca).
  - change (Runtime.AuthorFilter w') with (Runtime.AuthorFilter (authorship st)). rewrite (cs_filter _ _ Hst).
    unfold genesis_filter. rewrite He. eapply (reachable_genesis T 50); [|reflexivity..].
    by apply (bool_decide_unpack _).
  - rewrite Hacc. by destruct (mapping g).
  - rewrite Hacc in Ha. apply list_elem_of_fmap in Ha as ([a' n] & -> & Hin). exists a', n. split; [done|].
    eapply (Runtime.api_can_author_intro root ceil percent _ _ _ _ _ _ sl); [done| |exact Hca].
    by apply (chain_accounts g st).
Qed.

(** C5: the chain can always go on, whatever blocks it has: after every chain from a
    [testnet_genesis] with authorities of distinct ids, on every parent whose state it
    leaves and for every relay parent in a later slot than the last block, some collator
    among those that hold the authorities' keys claims the slot, and whatever block it
    builds with the inherents of the relay parent, if the pallets from outside the
    repository accept it, extends the chain and makes the collator's account the stored
    author. *)
Theorem chain_goes_on authorities endowed id random blocks st (parent : Hdr) (rp : RH) rs (ws : list W) :
  let g := testnet_genesis authorities endowed id in
  authorities <> [] -> NoDup authorities.*2 ->
  Forall (fun pb => fits 64 (timestamp_of pb.2)) blocks ->
  run_chain blocks (genesis_storage g random) = Some st ->
  fits 32 (ClaimSlot.number parent + 1) ->
  babe_slot rp = Some rs -> 0 <= rs -> rs * 6000 <= umax 64 ->
  (forall pb, last blocks = Some pb ->
     block_slot_of (Paras := Paras) (RtOrigin := RtOrigin) pb < rs) ->
  Forall (client_on parent st) ws ->
  (forall a n, (a, n) ∈ authorities -> exists w ks, w ∈ ws /\ keys w = Some ks /\ encode n ∈ ks) ->
  exists w n a, w ∈ ws /\ (a, n) ∈ authorities /\
    claim_slot from_slice w parent rp false = inr (Some n) /\
    forall block additional,
      built_by from_slice verify n additional block -> for_relay_parent rp block ->
      others_accept parent block st = true ->
      exists st', run_chain (blocks ++ [(parent, block)]) (genesis_storage g random) = Some st' /\
        Author (inherent_state st') = Some a.
Proof.
  intros g Hne Hnd Hb Hc Hp Hrs Hrs0 Hmax Hlast Hws Hkeys. rewrite Forall_forall in Hws.
  pose proof (chain_keeps from_slice verify from_slice_Some root ceil percent TI flip slot_from_timestamp
    size_after oc others_accept slot_from_timestamp_spec g blocks _ st (genesis_chain_state g random) Hb Hc) as Hst.
  assert (Hlater : later rs (backing st)).
  { destruct (chain_slots from_slice verify root ceil percent TI flip slot_from_timestamp size_after oc
      others_accept slot_from_timestamp_spec blocks g random st Hb Hc) as (_ & _ & Hi). unfold later. rewrite Hi.
    destruct (last blocks); [by apply Hlast|done]. }
  destruct (drawn_authority parent g st (ClaimSlot.number rp) Hst eq_refl Hne Hnd Hp) as (a0 & n0 & Hin0 & Hapi0).
  destruct (Hkeys a0 n0 Hin0) as (w & ks & Hw & Hks & Hk). destruct (Hws w Hw) as [Hup Hapi].
  destruct (claim_slot_eligible (RH := RH) from_slice w parent rp ks (encode n0) Hup Hks Hk) as [n Hcl].
  { apply key_eligible_true. exists n0. split; [done|]. by rewrite Hapi. }
  apply claim_slot_Some in Hcl as Hs. destruct Hs as (_ & _ & _ & _ & _ & [Hf|[Hj|Hn]]); [done|..].
  { by apply (runtime_upgraded_inr _ _ _ Hup) in Hj. }
  rewrite Hapi in Hn. exists w, n.
  destruct (Runtime.api_can_author_true root ceil percent _ _ _ _ _ _ _ _ Hp Hn) as (a & Hl & _).
  change (lookup_account (Runtime.PotentialAuthorSet (authorship st)) n = Some a) in Hl.
  exists a. split; [done|]. split; [by apply (chain_accounts g st)|]. split; [done|].
  intros block additional (proposed & more & sd & Hlogs & _ & _ & Hseal) (Hnum & Hslot & Hts & none & others & Hcalls & Hnone & Hothers) Hacc.
  rewrite Hrs in Hslot. specialize (Hts rs Hrs).
  destruct (claimed_block_executes from_slice verify root ceil percent TI flip slot_from_timestamp oc
    (fun _ => size_after) others_accept slot_from_timestamp_spec parent block st proposed n additional more
    (ClaimSlot.number rp) rs none others) as (a' & Hl' & Hyes & _); try done; [apply Hst|].
  assert (a' = a) as -> by congruence. destruct (Hyes Hlater Hacc) as (st' & He & Ha & _). exists st'.
  split; [|done]. rewrite execute_chain_app, Hc. simpl. by rewrite He.
Qed.
End Collators.

(** ** Two authorities and a chain of two blocks

    Ids and signatures are booleans; a block's body is the relay parent's number, its slot
    and the timestamp. *)
Section Witnesses.
#[local] Existing Instance Runtime.u32_codec.
#[local] Existing Instance Runtime.id_codec.
#[local] Existing Instance Runtime.id_codec_laws.
#[local] Existing Instance BlockImport.sample_header.
#[local] Existing Instance RelayParents.sample_relay_header.
#[local] Existing Instance EndToEnd.unsigned_slots.
#[local] Existing Instance EndToEnd.pair_contents.
#[local] Existing Instance EndToEnd.listed_contents.

Abbreviation SHdr := (Header Item Z).
Abbreviation SBlk := (Block SHdr Z).

Definition one_byte (b : list Z) : option bool :=
  match b with [0] => Some false | [1] => Some true | _ => None end.

Lemma one_byte_Some b n : one_byte b = Some n -> b = encode n.
Proof.
  unfold one_byte. destruct b as [|[|[]|] [|]]; intros Hb; try discriminate; injection Hb as <-; reflexivity.
Qed.

Lemma one_byte_encode n : one_byte (encode n) = Some n.
Proof. by destruct n. Qed.

Definition bit_verify (n : bool) (hash : Z) (sig : bool) : bool := Bool.eqb sig (xorb n (Z.even hash)).

Definition sample_block (n : bool) (height rp : Z) : SBlk :=
  let proposed := mkHeader [nimbus_pre_digest n] height in
  (mkHeader (logs proposed ++ [nimbus_seal (xorb n (Z.even (header_hash proposed)))]) height,
   [rp; rp; rp * 6000]).

(** The relay chain's block number does not decrease. *)
Definition sample_others (parent : SHdr) (block : SBlk) (st : Storage Z bool Z) : bool :=
  Runtime.relay_chain_block_number (authorship st) <=? paras_number (block_paras (RtOrigin := bool) block.2).

Definition sample_parent (height : Z) : SHdr := mkHeader [] height.

Abbreviation sample_g := (testnet_genesis Runtime.sample_mapping [10; 20] 1000).
Abbreviation sample_run := (execute_chain (NimbusSignature := bool) (Paras := Z * Z) one_byte bit_verify
  (fun o : bool => o) Runtime.sample_ceil (fun p => p) Runtime.sample_inherent EndToEnd.sample_keep
  sample_slot_from_timestamp (fun _ : Z => 0) true sample_others).

Definition sample_blocks : list (SHdr * SBlk) :=
  [(sample_parent 8, sample_block false 9 7); (sample_parent 9, sample_block true 10 8)].

Definition sample_start : Storage Z bool Z := genesis_storage sample_g (fun _ => [0; 0; 0; 0]).

Definition sample_end : Storage Z bool Z := default sample_start (sample_run sample_blocks sample_start).

Lemma sample_blocks_run : sample_run sample_blocks sample_start = Some sample_end.
Proof. unfold sample_end. by destruct (sample_run sample_blocks sample_start) eqn:He; [|vm_compute in He]. Qed.

Lemma sample_blocks_fit : Forall (fun pb => fits 64 (block_timestamp (RtOrigin := bool) (Paras := Z * Z) (snd (snd pb))))
  sample_blocks.
Proof. repeat constructor; by apply (bool_decide_unpack _). Qed.

Lemma chain_by_authorities_witness : exists st0 n a,
  sample_run [(sample_parent 8, sample_block false 9 7)] sample_start = Some st0 /\
  (a, n) ∈ Runtime.sample_mapping /\ Author (inherent_state sample_end) = Some a.
Proof.
  destruct (chain_by_authorities (NimbusSignature := bool) (Paras := Z * Z) one_byte bit_verify one_byte_Some
    (fun o : bool => o) Runtime.sample_ceil (fun p => p) Runtime.sample_inherent EndToEnd.sample_keep
    sample_slot_from_timestamp (fun _ : Z => 0) true sample_others sample_slot_from_timestamp_spec sample_g
    (fun _ => [0; 0; 0; 0]) sample_blocks sample_end [(sample_parent 8, sample_block false 9 7)]
    (sample_parent 9) (sample_block true 10 8) [])
    as (st0 & n & a & H0 & Hin & _ & _ & _ & Ha).
  - by apply (bool_decide_unpack _).
  - exact sample_blocks_fit.
  - exact sample_blocks_run.
  - reflexivity.
  - exists st0, n, a. split; [exact H0|]. split; [exact Hin|by apply Ha].
Defined.

(** Both authorities' keys are in one keystore. *)
#[local] Instance chain_client : ParaClient unit SHdr Z bool Z := {|
  keys _ := Some [[0]; [1]];
  runtime_version _ _ := Some 1;
  api_can_author _ _ n sl parent :=
    Runtime.api_can_author (fun o : bool => o) Runtime.sample_ceil (fun p => p) ClaimSlot.number header_hash
      EndToEnd.sample_keep true n sl parent (authorship sample_end);
  segment_api_version _ _ := Some (Some 2);
  api_can_build_upon _ _ h sl := Some true;
|}.

Lemma chain_goes_on_witness : exists a,
  claim_slot (RH := Z) one_byte tt (sample_parent 10) 9 false = inr (Some false) /\
  exists st', sample_run (sample_blocks ++ [(sample_parent 10, sample_block false 11 9)]) sample_start = Some st' /\
    Author (inherent_state st') = Some a.
Proof.
  destruct (chain_goes_on (RH := Z) (RHash := Z) (NimbusSignature := bool) (Paras := Z * Z) one_byte bit_verify
    one_byte_Some one_byte_encode (fun o : bool => o) Runtime.sample_ceil (fun p => p) Runtime.sample_inherent
    EndToEnd.sample_keep sample_slot_from_timestamp (fun _ : Z => 0) true sample_others sample_slot_from_timestamp_spec
    Runtime.sample_decode_fits Runtime.sample_ceil_fits Runtime.sample_mapping [10; 20] 1000
    (fun _ => [0; 0; 0; 0]) sample_blocks sample_end (sample_parent 10) 9 9 [tt])
    as (w & n & a & _ & _ & Hcl & Hex).
  - discriminate.
  - by apply (bool_decide_unpack _).
  - exact sample_blocks_fit.
  - exact sample_blocks_run.
  - by apply (bool_decide_unpack _).
  - reflexivity.
  - done.
  - by apply (bool_decide_unpack _).
  - intros pb [= <-]. by vm_compute.
  - constructor; [by split|constructor].
  - intros a n Hin. exists tt, [[0]; [1]]. split; [left|]. split; [done|].
    destruct n; [right; left|left].
  - vm_compute in Hcl. destruct w. injection Hcl as <-. exists a. split; [by vm_compute|].
    apply (Hex (sample_block false 11 9) []).
    + exists (mkHeader [nimbus_pre_digest false] 11), [], (nimbus_seal (xorb false (Z.even 12))). by split_and!.
    + split_and!; [done..|by intros rs [= <-]|]. exists true, []. by split_and!.
    + reflexivity.
Defined.
End Witnesses.
