(* ===== verification/PrecompileSet.v ===== *)
(** * The precompiles together

    The batch, call-permit, proxy and ERC-20 precompiles as one EVM runs them: each may
    call the others and arbitrary contracts, which call back.  The EVM is the interface
    [EvmLaws], a caller per depth of the call stack; the precompiles are those of
    [Batch.v], [CallPermit.v], [Proxy.v] and [Erc20.v], on one state. *)
From Stdlib Require Import ZArith Lia.
From stdpp Require Import prelude gmap fin_maps.
From S2P Require Import Prelude.
From S2P Require Import Evm.
From S2P Require Batch.
From S2P Require Erc20.
From S2P Require CallPermit.
From S2P Require Proxy.

Local Open Scope Z_scope.

(** ** One state for all precompiles *)

(** The gas meter of a part of the state. *)
Definition lift_op {S G Ex} (get : S -> G) (put : G -> S -> S) (op : G -> Ex + G) (s : S) : Ex + S :=
  match op (get s) with inl e => inl e | inr g => inr (put g s) end.

Definition lift_meter {S G Addr Ex} `{GasMeter G Addr Ex} (get : S -> G) (put : G -> S -> S) :
    GasMeter S Addr Ex := {|
  OutOfGas := OutOfGas (S := G) (Addr := Addr);
  remaining_gas s := remaining_gas (get s);
  record c := lift_op get put (record c);
  compute_cost := compute_cost (S := G);
  record_log_costs l := lift_op get put (record_log_costs l);
  record_log l := lift_op get put (record_log l);
|}.

Section World.
Context {Addr A PT G Ex Fa : Type} `{Countable Addr} `{Countable A}.
Context `{GasMeter G Addr Ex} `{Proxy.ProxyPallet G Addr A PT Ex Fa}.
Context `{Dispatcher G A (Proxy.RuntimeCall A PT) Ex Fa}.

(** The nonces of call permits around the ERC-20 token's storage around the rest. *)
Definition World := CallPermit.State Addr (Erc20.State Addr A G).

Definition tokens (w : World) : Erc20.State Addr A G := CallPermit.env w.
Definition base (w : World) : G := Erc20.env (tokens w).
Definition put_base (g : G) (w : World) : World := CallPermit.put_env (Erc20.put_env g (tokens w)) w.

#[export] Instance token_meter : GasMeter (Erc20.State Addr A G) Addr Ex :=
  lift_meter Erc20.env Erc20.put_env.

#[export] Instance world_meter : GasMeter World Addr Ex := lift_meter base put_base.

#[export] Instance world_proxies : Proxy.ProxyPallet World Addr A PT Ex Fa := {|
  Proxy.proxies w := Proxy.proxies (base w);
  Proxy.find_proxy w := Proxy.find_proxy (base w);
  Proxy.get_address_type a w :=
    match Proxy.get_address_type (A := A) (PT := PT) a (base w) with
    | inl e => inl e
    | inr (type, g) => inr (type, put_base g w)
    end;
  Proxy.account_code_len w := Proxy.account_code_len (A := A) (PT := PT) (base w);
|}.

#[export] Instance world_dispatcher : Dispatcher World A (Proxy.RuntimeCall A PT) Ex Fa :=
  fun o c n => lift_op base put_base (dispatch_with_growth o c n).
End World.
Arguments World Addr A G {_ _ _ _}.

(** A decoded call of one of the precompiles; [now] is the block's time. *)
Inductive PrecompileCall (Addr : Type) :=
  | to_batch (mode : Batch.Mode) (tos : list Addr) (values : list Z) (datas : list (list Z)) (limits : list Z)
  | to_call_permit (now : Z) (p : CallPermit.Permit Addr)
  | to_proxy (c : Proxy.Call Addr)
  | to_token (now : Z) (c : Erc20.Call Addr).
Arguments to_batch {Addr} _ _ _ _ _.
Arguments to_call_permit {Addr} _ _.
Arguments to_proxy {Addr} _.
Arguments to_token {Addr} _ _.

Section Run.
Context {Addr A PT G Ex Fa : Type} `{Countable Addr} `{Countable A} `{EqDecision PT}.
Context `{GasMeter G Addr Ex} `{Proxy.ProxyPallet G Addr A PT Ex Fa}.
Context `{Dispatcher G A (Proxy.RuntimeCall A PT) Ex Fa}.
Context `{Proxy.EvmProxyCallFilter Addr PT Ex Fa} `{Erc20.TokenBalances G A Ex Fa}.
(** the configurations of the four precompiles *)
Context (TB : Batch.Config) (TC : CallPermit.Config Addr) (TE : Erc20.Config Addr A).
Context (TP : Proxy.Config (Addr := Addr) (A := A) (PT := PT)).

Abbreviation W := (World Addr A G).

(** A precompile at [target] runs a call; its subcalls go to [C]. *)
Definition run (C : Caller W Addr Ex Fa) (target : Addr) (ctx : Context Addr) (c : PrecompileCall Addr) :
    M W (PrecompileFailure Ex Fa) unit :=
  match c with
  | to_batch mode tos values datas limits =>
      Batch.inner_batch (H0 := C) TB target ctx mode tos values datas limits
  | to_call_permit now p => _ ← CallPermit.dispatch (H1 := C) TC ctx now p; mret tt
  | to_proxy c => _ ← Proxy.dispatch (Ca := C) TP ctx c; mret tt
  | to_token now c =>
      zoom CallPermit.env (fun ts w => CallPermit.put_env ts w) (fun e => e)
        (Erc20.dispatch TE (Erc20.mkTx ctx now c))
  end.

(** Solidity's integers are unsigned. *)
Definition unsigned_call (ctx : Context Addr) (c : PrecompileCall Addr) : Prop :=
  match c with
  | to_token now c => Erc20.amounts_ok (Erc20.mkTx ctx now c)
  | _ => True
  end.
End Run.

(** ** The interface of the EVM *)
Section Interface.
Context {Addr A PT G Ex Fa : Type} `{Countable Addr} `{Countable A} `{EqDecision PT}.
Context `{GasMeter G Addr Ex} `{Proxy.ProxyPallet G Addr A PT Ex Fa}.
Context `{Dispatcher G A (Proxy.RuntimeCall A PT) Ex Fa}.
Context `{Proxy.EvmProxyCallFilter Addr PT Ex Fa} `{Erc20.TokenBalances G A Ex Fa}.

(** Charging, logging and looking at an address's code leave funds and registrations
    alone; a dispatched runtime call takes funds of its origin only; the token's transfers
    leave registrations alone. *)
Class WorldLaws : Prop := {
  costs_funds l (g g' : G) (a : A) : record_log_costs l g = inr g' ->
    Erc20.balance g' a = Erc20.balance g a /\ Proxy.proxies g' a = Proxy.proxies g a;
  log_proxies l (g g' : G) (a : A) : record_log l g = inr g' -> Proxy.proxies g' a = Proxy.proxies g a;
  type_funds x type (g g' : G) (a : A) :
    Proxy.get_address_type (A := A) (PT := PT) x g = inr (type, g') -> Erc20.balance g' a = Erc20.balance g a;
  runtime_funds o c n (g g' : G) (a : A) :
    dispatch_with_growth o c n g = inr g' -> o <> a -> Erc20.balance g a <= Erc20.balance g' a;
  transfer_proxies x y v n (g g' : G) (a : A) :
    Erc20.transfer_allow_death x y v n g = inr g' -> Proxy.proxies g' a = Proxy.proxies g a;
}.

Context (TB : Batch.Config) (TC : CallPermit.Config Addr) (TE : Erc20.Config Addr A).
Context (TP : Proxy.Config (Addr := Addr) (A := A) (PT := PT)).
(** the addresses of the precompiles, and those that have or may get contract code *)
Context (precompile_at code_at : Addr -> bool).

Abbreviation W := (World Addr A G).
Abbreviation funds w a := (Erc20.balance (Ex := Ex) (Fa := Fa) (base (w : W)) a).
Abbreviation registrations w a := (Proxy.proxies (base (w : W)) a).

(** Nothing that belongs to an account changed: gas, logs and contracts' own storage may. *)
Definition quiet (w w' : W) : Prop :=
  CallPermit.Nonces w' = CallPermit.Nonces w /\ Erc20.Approves (tokens w') = Erc20.Approves (tokens w) /\
  Erc20.Nonces (tokens w') = Erc20.Nonces (tokens w) /\
  forall a, funds w' a = funds w a /\ registrations w' a = registrations w a.

(** A value sent along: nobody but its source has less. *)
Definition paid (t : option (Transfer Addr)) (w w' : W) : Prop :=
  CallPermit.Nonces w' = CallPermit.Nonces w /\ Erc20.Approves (tokens w') = Erc20.Approves (tokens w) /\
  Erc20.Nonces (tokens w') = Erc20.Nonces (tokens w) /\
  forall a, registrations w' a = registrations w a /\
    (funds w a <= funds w' a \/ exists tr, t = Some tr /\ Erc20.into_account_id TE (source _ tr) = a).

(** The context of a call that a contract makes: in its own name, or with the caller and
    the address of its own context ([DELEGATECALL], [CALLCODE]). *)
Definition sub_context (ctx : Context Addr) (target : Addr) (ctx' : Context Addr) : Prop :=
  (caller ctx' = address ctx \/ caller ctx' = caller ctx) /\
  (address ctx' = target \/ address ctx' = address ctx).

(** What the code at [target] does in a context: a precompile runs, a contract computes,
    pays and calls; an account without code does nothing. *)
Inductive code_run (C : Caller W Addr Ex Fa) (target : Addr) (ctx : Context Addr) : W -> W -> Prop :=
  | code_done w : code_run C target ctx w w
  | code_precompile c u w w' :
      precompile_at target = true -> unsigned_call ctx c ->
      run TB TC TE TP C target ctx c w = Ok u w' -> code_run C target ctx w w'
  | code_local w w1 w' :
      code_at target = true -> quiet w w1 -> code_run C target ctx w1 w' -> code_run C target ctx w w'
  | code_pays t w w1 w' :
      code_at target = true -> source _ t = address ctx -> paid (Some t) w w1 ->
      code_run C target ctx w1 w' -> code_run C target ctx w w'
  | code_calls a t d gas static ctx' r o w w1 w' :
      code_at target = true -> sub_context ctx a ctx' ->
      (forall tr, t = Some tr -> source _ tr = address ctx) ->
      call (Caller := C) a t d gas static ctx' w = (r, o, w1) ->
      code_run C target ctx w1 w' -> code_run C target ctx w w'.

(** A call: its effects are discarded, or the value is paid and the code runs. *)
Inductive call_run (C : Caller W Addr Ex Fa) (target : Addr) (t : option (Transfer Addr))
    (ctx : Context Addr) : W -> W -> Prop :=
  | call_fails w w' : quiet w w' -> call_run C target t ctx w w'
  | call_succeeds w w1 w' :
      paid t w w1 -> code_run C target ctx w1 w' -> call_run C target t ctx w w'.

(** The EVM with [n] frames left on its call stack. *)
Class EvmLaws (evm : nat -> Caller W Addr Ex Fa) : Prop := {
  depth_exceeded a t d gas static ctx w r o w' :
    call (Caller := evm O) a t d gas static ctx w = (r, o, w') -> quiet w w';
  frame n a t d gas static ctx w r o w' :
    call (Caller := evm (S n)) a t d gas static ctx w = (r, o, w') -> call_run (evm n) a t ctx w w';
}.

(** ** What nested calls keep

    A property of states is kept by whatever the [good] addresses do, however deep the
    calls nest, if it is by each precompile's own effects and acting in another name needs
    a good address's leave. *)
Context `{!Proxy.ProxyLaws G Addr A PT Ex Fa} `{!Erc20.TokenLaws G A Addr Ex Fa} `{!WorldLaws}.
Context (same_accounts : forall a, Proxy.into_account_id TP a = Erc20.into_account_id TE a).
Context (evm : nat -> Caller W Addr Ex Fa) `{!EvmLaws evm}.
Context (I : W -> Prop) (good : Addr -> Prop).

Definition good_context (target : Addr) (ctx : Context Addr) : Prop :=
  good (caller ctx) /\ (address ctx = target \/ good (address ctx)).

Definition good_transfer (t : option (Transfer Addr)) : Prop :=
  forall tr, t = Some tr -> good (source _ tr).

(** All calls of good contexts through [C] keep [I]. *)
Definition calls_keep (C : Caller W Addr Ex Fa) : Prop :=
  forall a t d gas static ctx w r o w', good_context a ctx -> good_transfer t -> I w ->
    call (Caller := C) a t d gas static ctx w = (r, o, w') -> I w'.

Context (code_good : forall a, precompile_at a = true \/ code_at a = true -> good a).
Context (keeps_quiet : forall w w', I w -> quiet w w' -> I w').
Context (keeps_paid : forall t w w', I w -> good_transfer t -> paid t w w' -> I w').
Context (keeps_runtime : forall x c n w w', I w -> good x ->
  dispatch_with_growth (Erc20.into_account_id TE x) c n w = inr w' -> I w').
Context (keeps_token : forall ctx now c w ts u, I w -> good (caller ctx) -> good (address ctx) ->
  Erc20.amounts_ok (Erc20.mkTx ctx now c) ->
  Erc20.dispatch TE (Erc20.mkTx ctx now c) (tokens w) = Ok u ts -> I (CallPermit.put_env ts w)).
Context (keeps_proxied : forall n real a t d gas v def w r o w', calls_keep (evm n) -> I w ->
  def ∈ registrations w (Erc20.into_account_id TE real) -> Proxy.delay def = 0 ->
  (forall tr, t = Some tr -> source _ tr = real) ->
  call (Caller := evm n) a t d gas false (mkContext real a v) w = (r, o, w') -> I w').
Context (keeps_permit : forall n ctx now p w o w', calls_keep (evm n) -> I w -> good (caller ctx) ->
  good (address ctx) -> CallPermit.dispatch (H1 := evm n) TC ctx now p w = Ok o w' -> I w').

Lemma record_quiet c w w' : record c w = inr w' -> quiet w w'.
Proof.
  unfold record, world_meter, lift_meter, lift_op. destruct (Evm.record c (base w)) as [|g] eqn:Hr; [done|].
  intros [= <-]. split_and!; try done. intros a. split; [by eapply Erc20.record_balance|].
  by eapply Proxy.record_proxies.
Qed.

Lemma costs_quiet l w w' : record_log_costs l w = inr w' -> quiet w w'.
Proof.
  unfold record_log_costs, world_meter, lift_meter, lift_op.
  destruct (Evm.record_log_costs l (base w)) as [|g] eqn:Hr; [done|].
  intros [= <-]. split_and!; try done. intros a. by eapply costs_funds.
Qed.

Lemma log_leaves_quiet l w w' : record_log l w = inr w' -> quiet w w'.
Proof.
  unfold record_log, world_meter, lift_meter, lift_op.
  destruct (Evm.record_log l (base w)) as [|g] eqn:Hr; [done|].
  intros [= <-]. split_and!; try done. intros a. split; [by eapply Erc20.record_log_balance|].
  by eapply log_proxies.
Qed.

Lemma type_quiet x type w w' :
  Proxy.get_address_type (A := A) (PT := PT) x w = inr (type, w') -> quiet w w'.
Proof.
  unfold Proxy.get_address_type at 1, world_proxies.
  destruct (Proxy.get_address_type x (base w)) as [|[ty g]] eqn:Ht; [done|].
  intros [= <- <-]. split_and!; try done. intros a. split; [by eapply type_funds|].
  by eapply Proxy.address_type_proxies.
Qed.

#[export] Instance world_proxy_laws : Proxy.ProxyLaws W Addr A PT Ex Fa.
Proof.
  split.
  - intros w. exact (Proxy.find_proxy_spec (base w)).
  - intros c w w' a Hr. apply record_quiet in Hr as (_ & _ & _ & Hq). apply Hq.
  - intros x type w w' a Hr. apply type_quiet in Hr as (_ & _ & _ & Hq). apply Hq.
  - intros o c n w w' a. unfold dispatch_with_growth at 1, world_dispatcher, lift_op.
    destruct (Evm.dispatch_with_growth o c n (base w)) as [|g] eqn:Hd; [done|]. intros [= <-].
    exact (Proxy.dispatch_proxies _ _ _ _ _ a Hd).
Qed.

Lemma batch_keeps C target ctx mode tos values datas limits :
  calls_keep C -> good (caller ctx) ->
  keeps I (Batch.inner_batch (H0 := C) TB target ctx mode tos values datas limits).
Proof.
  intros HC Hg. apply (Batch.inner_batch_keeps (Caller0 := C)).
  - intros l w w' Hw Hr. by eapply keeps_quiet, costs_quiet.
  - intros l w w' Hw Hr. by eapply keeps_quiet, log_leaves_quiet.
  - intros a v d g w r o w' Hw Hr. eapply HC; [..|exact Hr]; [|..|done].
    + split; [done|by left].
    + intros tr. case_match; [done|]. by intros [= <-].
Qed.

Lemma proxy_keeps n ctx c :
  calls_keep (evm n) -> good (caller ctx) -> good (address ctx) ->
  keeps I (Proxy.dispatch (Ca := evm n) TP ctx c).
Proof.
  intros HC Hg Ha. apply (Proxy.dispatch_keeps (Ca := evm n)).
  - intros x w w' Hw Hr. by eapply keeps_quiet, record_quiet.
  - intros x type w w' Hw Hr. by eapply keeps_quiet, type_quiet.
  - intros x rc k w w' Hw Hx Hr. rewrite same_accounts in Hr. eapply keeps_runtime; [exact Hw| |exact Hr].
    by destruct Hx as [->| ->].
  - intros real a t d gas def w r o w' Hw Hin Hd Ht Hr. rewrite same_accounts in Hin.
    eapply keeps_proxied; [exact HC|exact Hw|exact Hin|exact Hd|exact Ht|exact Hr].
Qed.

Lemma run_keeps n target ctx c :
  calls_keep (evm n) -> good (caller ctx) -> good (address ctx) -> unsigned_call ctx c ->
  keeps I (run TB TC TE TP (evm n) target ctx c).
Proof.
  intros HC Hg Ha Hc w u w' Hw Hr. destruct c as [mode tos values datas limits|now p|c|now c]; simpl in *.
  - by eapply batch_keeps.
  - apply bind_Ok in Hr as (o & w1 & Hr & [= _ <-]). by eapply keeps_permit.
  - apply bind_Ok in Hr as (o & w1 & Hr & [= _ <-]). by eapply proxy_keeps.
  - apply zoom_Ok in Hr as (ts & Hr & ->). by eapply keeps_token.
Qed.

Lemma code_keeps n target ctx w w' :
  calls_keep (evm n) -> good_context target ctx -> code_run (evm n) target ctx w w' -> I w -> I w'.
Proof.
  intros HC [Hg Ha] Hrun.
  assert (Hcode : precompile_at target = true \/ code_at target = true -> good (address ctx)).
  { intros Hx. destruct Ha as [->|]; [by apply code_good|done]. }
  induction Hrun as [w|c u w w' Hp Hu Hr|w w1 w' Hat Hq _ IH|t w w1 w' Hat Hs Hp _ IH
    |a t d gas static ctx' r o w w1 w' Hat [Hcl Had] Ht Hr _ IH]; intros Hw; [done|..].
  - eapply run_keeps; [done|done|by apply Hcode; left|done|exact Hw|exact Hr].
  - apply IH. by eapply keeps_quiet.
  - apply IH. eapply keeps_paid; [exact Hw| |exact Hp]. intros tr [= <-]. rewrite Hs. apply Hcode. by right.
  - specialize (Hcode (or_intror Hat)). apply IH. eapply HC; [..|exact Hw|exact Hr].
    + split; [by destruct Hcl as [->| ->]|]. destruct Had as [->| ->]; [by left|by right].
    + intros tr Htr. by rewrite (Ht tr Htr).
Qed.

(** However many frames the call stack has. *)
Lemma evm_keeps n : calls_keep (evm n).
Proof.
  induction n as [|n IH]; intros a t d gas static ctx w r o w' Hctx Ht Hw Hr.
  - by eapply keeps_quiet, depth_exceeded.
  - apply frame in Hr. destruct Hr as [w w' Hq|w w1 w' Hp Hrun]; [by eapply keeps_quiet|].
    eapply code_keeps; [exact IH|exact Hctx|exact Hrun|]. by eapply keeps_paid.
Qed.
End Interface.

(** ** An account that nobody acts for *)
Section Safety.
Context {Addr A PT G Ex Fa : Type} `{Countable Addr} `{Countable A} `{EqDecision PT}.
Context `{GasMeter G Addr Ex} `{Proxy.ProxyPallet G Addr A PT Ex Fa}.
Context `{Dispatcher G A (Proxy.RuntimeCall A PT) Ex Fa}.
Context `{Proxy.EvmProxyCallFilter Addr PT Ex Fa} `{Erc20.TokenBalances G A Ex Fa}.
Context (TB : Batch.Config) (TC : CallPermit.Config Addr) (TE : Erc20.Config Addr A).
Context (TP : Proxy.Config (Addr := Addr) (A := A) (PT := PT)).
Context (precompile_at code_at : Addr -> bool).
Context `{!Proxy.ProxyLaws G Addr A PT Ex Fa} `{!Erc20.TokenLaws G A Addr Ex Fa}.
Context `{Laws : !WorldLaws (Addr := Addr) (G := G) (Ex := Ex) (Fa := Fa)}.
Context (same_accounts : forall a, Proxy.into_account_id TP a = Erc20.into_account_id TE a).
Context (bits_nonneg : 0 <= Erc20.balance_bits TE).

Abbreviation W := (World Addr A G).
Abbreviation funds w a := (Erc20.balance (Ex := Ex) (Fa := Fa) (base (w : W)) a).
Abbreviation registrations w a := (Proxy.proxies (base (w : W)) a).
Abbreviation account := (Erc20.into_account_id TE).
Abbreviation ed := (Erc20.existential_deposit (G := G) (A := A) (Ex := Ex) (Fa := Fa)).
Abbreviation quiet := (quiet (PT := PT) (Ex := Ex) (Fa := Fa)).
Abbreviation permit_nonce x w := (CallPermit.get_nonce x (w : W)).
Abbreviation token_nonce x w := (Erc20.get_nonce x (tokens (w : W))).

Context (evm : nat -> Caller W Addr Ex Fa) `{!EvmLaws TB TC TE TP precompile_at code_at evm}.

(** Charging and logging around the token's storage. *)
Lemma charged_quiet w (ts : Erc20.State Addr A G) :
  CallPermit.charged (tokens w) ts -> quiet w (CallPermit.put_env ts w).
Proof.
  intros Hc. remember (tokens w) as t0 eqn:Ht. revert w Ht.
  induction Hc as [ts|t1 t2 ts (c & Hr) _ IH]; intros w ->.
  { by destruct w. }
  specialize (IH (CallPermit.put_env t2 w) eq_refl).
  assert (Hq : quiet w (CallPermit.put_env t2 w)).
  { eapply (record_quiet (PT := PT) c). unfold record, world_meter, token_meter, lift_meter, lift_op in *.
    unfold base. destruct (Evm.record c (Erc20.env (tokens w))); [done|]. by injection Hr as <-. }
  destruct Hq as (H1' & H2' & H3' & H4'), IH as (H5' & H6' & H7' & H8').
  split_and!; [done|by etransitivity|by etransitivity|].
  intros a. destruct (H4' a) as [Hf Hp], (H8' a) as [Hf' Hp']. split; etransitivity; eassumption.
Qed.

(** The state in which the subcall of a call permit starts: its signer's nonce is used. *)
Lemma permit_starts n ctx now p w o w' :
  CallPermit.dispatch (H1 := evm n) TC ctx now p w = Ok o w' ->
  exists w1 w2 t gas, quiet w w1 /\ tokens w2 = tokens w1 /\
    CallPermit.Nonces w2 = <[CallPermit.from p := permit_nonce (CallPermit.from p) w + 1]> (CallPermit.Nonces w) /\
    (forall tr, t = Some tr -> source _ tr = CallPermit.from p) /\
    call (Caller := evm n) (CallPermit.to p) t (CallPermit.data p) gas false
      (mkContext (CallPermit.from p) (CallPermit.to p) (CallPermit.value p)) w2 = (Succeed, o, w').
Proof.
  intros (_ & ts & Hc & _ & Hcall)%CallPermit.dispatch_Ok.
  exists (CallPermit.put_env ts w). do 3 eexists. split; [by apply charged_quiet|].
  split; [|split; [|split; [|exact Hcall]]]; [done..|].
  intros tr. case_match; [done|]. by intros [= <-].
Qed.

Lemma token_execute tx (ts ts' : Erc20.State Addr A G) u :
  Erc20.dispatch (Ex := Ex) (Fa := Fa) TE tx ts = Ok u ts' -> Erc20.execute (Ex := Ex) (Fa := Fa) TE ts tx = ts'.
Proof. intros Hd. unfold Erc20.execute, final_state, transactional. by rewrite Hd. Qed.

(** ** Nonces *)
Lemma token_nonce_grows x tx (ts ts' : Erc20.State Addr A G) u :
  Erc20.amounts_ok tx -> Erc20.dispatch (Ex := Ex) (Fa := Fa) TE tx ts = Ok u ts' ->
  Erc20.get_nonce x ts <= Erc20.get_nonce x ts'.
Proof.
  intros Hok Hd. pose proof (Erc20.execute_nonce (Ex := Ex) (Fa := Fa) TE x ts tx Hok) as Hn.
  rewrite (token_execute _ _ _ _ Hd) in Hn. destruct (Erc20.tx_call tx); try lia. case_match; lia.
Qed.

Lemma permit_nonce_same x w w' : CallPermit.Nonces w' = CallPermit.Nonces w -> permit_nonce x w' = permit_nonce x w.
Proof. intros Hn. unfold CallPermit.get_nonce. by rewrite Hn. Qed.

Lemma token_nonce_same x w w' :
  Erc20.Nonces (tokens w') = Erc20.Nonces (tokens w) -> token_nonce x w' = token_nonce x w.
Proof. intros Hn. unfold Erc20.get_nonce. by rewrite Hn. Qed.

Definition nonces_from (x : Addr) (m n : Z) (w : W) : Prop := m <= permit_nonce x w /\ n <= token_nonce x w.

Lemma nonces_quiet x m n w w' :
  CallPermit.Nonces w' = CallPermit.Nonces w -> Erc20.Nonces (tokens w') = Erc20.Nonces (tokens w) ->
  nonces_from x m n w -> nonces_from x m n w'.
Proof.
  intros H1' H2'. unfold nonces_from.
  by rewrite (permit_nonce_same x w w' H1'), (token_nonce_same x w w' H2').
Qed.

(** Nested calls, whoever makes them, take no nonce back. *)
Lemma nonces_grow x m n k : calls_keep (nonces_from x m n) (fun _ => True) (evm k).
Proof.
  apply (evm_keeps TB TC TE TP precompile_at code_at same_accounts evm (nonces_from x m n)); try done.
  - intros w w' Hw (H1' & _ & H3' & _). by eapply nonces_quiet.
  - intros t w w' Hw _ (H1' & _ & H3' & _). by eapply nonces_quiet.
  - intros y c g w w' Hw _. unfold dispatch_with_growth, world_dispatcher, lift_op.
    destruct (Evm.dispatch_with_growth _ c g (base w)); [done|]. by intros [= <-].
  - intros ctx now c w ts u [Hm Hn] _ _ Hok Hd. split; [done|].
    eapply token_nonce_grows in Hd; [|done]. etransitivity; [exact Hn|exact Hd].
  - intros j real a t d gas v def w r o w' HC Hw _ _ _ Hr. eapply HC; [..|exact Hw|exact Hr]; [|done].
    split; [done|by left].
  - intros j ctx now p w o w' HC [Hm Hn] _ _ (w1 & w2 & t & gas & Hq & Ht & Hp & _ & Hr)%permit_starts.
    destruct Hq as (Hq1 & _ & Hq3 & _). eapply HC; [..|exact Hr]; [split; [done|by left]|done|].
    unfold nonces_from, CallPermit.get_nonce, Erc20.get_nonce in *. rewrite Hp, Ht, Hq3. split; [|done].
    destruct (decide (CallPermit.from p = x)) as [->|Hne]; [|by rewrite lookup_insert_ne].
    rewrite lookup_insert_eq. simpl. lia.
Qed.

(** What the call-permit precompile asks of its EVM. *)
#[export] Instance evm_nonce_laws k : CallPermit.NonceLaws (Ca := evm k).
Proof.
  intros a t d g st c w r o w' x Hr.
  eapply (nonces_grow x (permit_nonce x w) (token_nonce x w) k); [split; [done|by right]| | |exact Hr].
  - by intros tr _.
  - split; reflexivity.
Qed.

(** ** Funds, allowances and registrations *)

(** The account's registrations are the same, its allowances did not grow, and what it lost
    is covered by what they fell ([Erc20.covered], which counts dust). *)
Definition left_alone (o : Addr) (w0 w : W) : Prop :=
  registrations w (account o) = registrations w0 (account o) /\
  (forall p, p <> account o -> default 0 (Erc20.get_approve (account o) p (tokens w))
     <= default 0 (Erc20.get_approve (account o) p (tokens w0))) /\
  Erc20.covered (Ex := Ex) (Fa := Fa) (account o) (tokens w0) (tokens w).

(** Unless a nonce was used, the account was left alone. *)
Definition guarded (o : Addr) (w0 w : W) : Prop :=
  nonces_from o (permit_nonce o w0) (token_nonce o w0) w /\
  (permit_nonce o w = permit_nonce o w0 -> token_nonce o w = token_nonce o w0 ->
   Erc20.approvals_nonneg (tokens w) /\ left_alone o w0 w).

Lemma left_alone_trans o w0 w1 w2 : left_alone o w0 w1 -> left_alone o w1 w2 -> left_alone o w0 w2.
Proof.
  intros (Hr & Ha & Hf) (Hr' & Ha' & Hf'). split; [congruence|].
  split; [|by eapply Erc20.covered_trans]. intros p Hp. etransitivity; [by apply Ha'|by apply Ha].
Qed.

(** A step that uses no nonce and leaves the account alone. *)
Lemma guarded_step o w0 w w' :
  guarded o w0 w -> permit_nonce o w <= permit_nonce o w' -> token_nonce o w <= token_nonce o w' ->
  (permit_nonce o w' = permit_nonce o w -> token_nonce o w' = token_nonce o w ->
   Erc20.approvals_nonneg (tokens w) -> Erc20.approvals_nonneg (tokens w') /\ left_alone o w w') ->
  guarded o w0 w'.
Proof.
  intros [[Hm Hn] Hg] Hm' Hn' Hstep. split; [split; lia|]. intros He1 He2.
  destruct Hg as [Hnn Ha]; [lia..|]. destruct Hstep as [Hnn' Ha']; [lia|lia|done|].
  split; [done|]. by eapply left_alone_trans.
Qed.

(** A step that leaves approvals and nonces alone and takes no funds of the account. *)
Lemma guarded_other o w0 w w' :
  guarded o w0 w -> permit_nonce o w' = permit_nonce o w ->
  Erc20.Approves (tokens w') = Erc20.Approves (tokens w) -> token_nonce o w' = token_nonce o w ->
  registrations w' (account o) = registrations w (account o) -> funds w (account o) <= funds w' (account o) ->
  guarded o w0 w'.
Proof.
  intros Hg Hp Ha Hn Hr Hf. apply (guarded_step o w0 w); [done|by rewrite Hp|by rewrite Hn|].
  - intros _ _ Hnn. split; [by eapply Erc20.approvals_same|]. split; [done|]. split.
    + intros p _. by rewrite (Erc20.get_approve_same _ p _ _ Ha).
    + by apply Erc20.covered_same.
Qed.

Context (o : Addr) (distinct : forall x, account x = account o -> x = o).

Lemma guarded_quiet w0 w w' : guarded o w0 w -> quiet w w' -> guarded o w0 w'.
Proof.
  intros Hg (Hp & Ha & Hn & Hrest). destruct (Hrest (account o)) as [Hf Hr].
  apply (guarded_other o w0 w); try done; [by apply permit_nonce_same|by apply token_nonce_same|by rewrite Hf].
Qed.

Lemma guarded_paid w0 t w w' :
  guarded o w0 w -> (forall tr, t = Some tr -> source _ tr <> o) -> paid (PT := PT) TE t w w' -> guarded o w0 w'.
Proof.
  intros Hg Ht (Hp & Ha & Hn & Hrest). destruct (Hrest (account o)) as [Hr Hf].
  apply (guarded_other o w0 w); try done; [by apply permit_nonce_same|by apply token_nonce_same|].
  destruct Hf as [|(tr & Htr & Hs%distinct)]; [done|].
  by destruct (Ht tr Htr).
Qed.

Lemma guarded_runtime w0 x c n w w' :
  guarded o w0 w -> x <> o -> dispatch_with_growth (account x) c n w = inr w' -> guarded o w0 w'.
Proof.
  intros Hg Hx. unfold dispatch_with_growth, world_dispatcher, lift_op.
  destruct (Evm.dispatch_with_growth _ c n (base w)) as [|g] eqn:Hd; [done|]. intros [= <-].
  assert (Hne : account x <> account o) by (intros ?%distinct; done).
  apply (guarded_other o w0 w); try done.
  - pose proof (Proxy.dispatch_proxies _ _ _ _ _ (account o) Hd) as Hr. by case_decide.
  - by eapply runtime_funds.
Qed.

(** A call of the token by somebody else. *)
Lemma guarded_token w0 ctx now c w ts u :
  guarded o w0 w -> caller ctx <> o -> address ctx <> o ->
  Erc20.amounts_ok (Erc20.mkTx ctx now c) ->
  Erc20.dispatch TE (Erc20.mkTx ctx now c) (tokens w) = Ok u ts -> guarded o w0 (CallPermit.put_env ts w).
Proof.
  intros Hg Hc Ha Hok Hd. set (tx := Erc20.mkTx ctx now c) in *.
  pose proof (token_nonce_grows o _ _ _ _ Hok Hd) as Hgrow.
  apply (guarded_step o w0 w); [done|done|exact Hgrow|]. intros _ Hn Hnn.
  change (tokens (CallPermit.put_env ts w)) with ts in *.
  assert (Hnot : ~ Erc20.acts_as TE (account o) tx).
  { pose proof (Erc20.execute_nonce (Ex := Ex) (Fa := Fa) TE o (tokens w) tx Hok) as Hx.
    rewrite (token_execute _ _ _ _ Hd) in Hx. intros [?%distinct|[?%distinct|Hact]]; [done..|].
    unfold tx in *. simpl in Hact, Hx. destruct c; try done. apply distinct in Hact as ->.
    unfold Erc20.succeeds in Hx. rewrite Hd, bool_decide_true in Hx by done. simpl in Hx. destruct Hx as [Hx _].
    pose proof (eq_trans (eq_sym Hx) Hn) as Hz. exact (Z.neq_succ_diag_r _ (eq_sym Hz)). }
  destruct (Erc20.execute_owner TE bits_nonneg (account o) (tokens w) tx Hok Hnot Hnn) as [Hnn' Hf].
  rewrite (token_execute _ _ _ _ Hd) in Hnn', Hf. split; [done|]. split; [|split].
  - eapply (Erc20.dispatch_env_keeps TE (fun g => Proxy.proxies g (account o) = registrations w (account o)));
      [..|exact Hd]; [..|done]; cbn beta.
    + intros ch g g' <- Hr. by eapply Proxy.record_proxies.
    + intros l g g' <- Hr. by eapply log_proxies.
    + intros x y v n g g' <- Hr. by eapply transfer_proxies.
  - intros p Hp.
    destruct (Erc20.allowance_spent (Ex := Ex) (Fa := Fa) TE (account o) p (tokens w) [tx]) as (Hs1 & Hs2 & _).
    + by intros ?.
    + constructor; [|constructor]. split; [done|]. intros Happ. apply Hnot. unfold Erc20.approves in Happ.
      unfold Erc20.acts_as. destruct (Erc20.tx_call tx); try done; destruct Happ as [? _]; [by left|by right; right].
    + simpl in Hs2. rewrite (token_execute _ _ _ _ Hd) in Hs2. simpl in Hs1.
      change (tokens (CallPermit.put_env ts w)) with ts. lia.
  - exact Hf.
Qed.

(** Once a nonce is used, nothing is left to guard. *)
Lemma used_guarded w0 k a t d gas static ctx w r out w' :
  nonces_from o (permit_nonce o w0) (token_nonce o w0) w ->
  (permit_nonce o w = permit_nonce o w0 -> token_nonce o w = token_nonce o w0 -> False) ->
  good_context (fun _ => True) a ctx ->
  call (Caller := evm k) a t d gas static ctx w = (r, out, w') -> guarded o w0 w'.
Proof.
  intros [Hm Hn] Hused Hctx Hr.
  assert (Hw' : nonces_from o (permit_nonce o w) (token_nonce o w) w').
  { eapply (nonces_grow o (permit_nonce o w) (token_nonce o w) k); [exact Hctx| |split; reflexivity|exact Hr].
    by intros tr _. }
  destruct Hw' as [Hm' Hn']. split; [split; lia|]. intros He1 He2. exfalso. apply Hused; lia.
Qed.

Context (inert : precompile_at o = false /\ code_at o = false).

Lemma nested_guarded w0 k :
  (forall def, def ∈ registrations w0 (account o) -> Proxy.delay def <> 0) ->
  calls_keep (guarded o w0) (fun x => x <> o) (evm k).
Proof.
  intros Hdelay. apply (evm_keeps TB TC TE TP precompile_at code_at same_accounts evm (guarded o w0)).
  - intros a Ha ->. destruct inert as [Hi Hi']. by destruct Ha as [Ha|Ha]; rewrite Ha in *.
  - apply guarded_quiet.
  - intros t w w' Hw Ht. by apply guarded_paid.
  - intros x c n w w' Hw Hx. by apply guarded_runtime.
  - intros ctx now c w ts u. apply guarded_token.
  - intros j real a t d gas v def w r out w' HC Hw Hin Hd Ht Hr.
    destruct (decide (real = o)) as [->|Hne].
    + eapply used_guarded; [apply Hw| | |exact Hr].
      * intros He1 He2. destruct Hw as [_ Hw]. destruct (Hw He1 He2) as (_ & Hreg & _).
        rewrite Hreg in Hin. by apply (Hdelay def).
      * split; [done|by left].
    + eapply HC; [..|exact Hw|exact Hr].
      * split; [done|by left].
      * intros tr Htr. by rewrite (Ht tr Htr).
  - intros j ctx now p w out w' HC Hw _ _ (w1 & w2 & t & gas & Hq & Htok & Hp & Ht & Hr)%permit_starts.
    apply (guarded_quiet w0 w w1 Hw) in Hq as Hw1.
    destruct Hq as (Hq1 & _).
    destruct (decide (CallPermit.from p = o)) as [Hfrom|Hne].
    + assert (Hp2 : permit_nonce o w2 = permit_nonce o w + 1).
      { unfold CallPermit.get_nonce at 1. by rewrite Hp, Hfrom, lookup_insert_eq. }
      assert (Ht2 : token_nonce o w2 = token_nonce o w1) by (by rewrite Htok).
      destruct Hw as [[Hm _] _], Hw1 as [[_ Hn1] _].
      eapply used_guarded; [split; [rewrite Hp2; lia|by rewrite Ht2]|..|exact Hr].
      * rewrite Hp2. lia.
      * split; [done|by left].
    + eapply HC; [..|exact Hr]; [split; [done|by left]|intros tr Htr; by rewrite (Ht tr Htr)|].
      apply (guarded_other o w0 w1); [done|..]; unfold base; rewrite ?Htok; try done.
      unfold CallPermit.get_nonce. by rewrite Hp, lookup_insert_ne, Hq1.
Qed.

(** What others do: they call any address, precompile or contract, with any input and
    value, and they pay, for instance fees. *)
Inductive foreign_step (frames : nat) : relation W :=
  | foreign_call sender a v d gas r out w w' :
      sender <> o ->
      call (Caller := evm frames) a (if v =? 0 then None else Some (mkTransfer sender a v)) d gas false
        (mkContext sender a v) w = (r, out, w') -> foreign_step frames w w'
  | foreign_pays t w w' : source _ t <> o -> paid (PT := PT) TE (Some t) w w' -> foreign_step frames w w'.

(** C3: an account that signs nothing is out of everybody's reach: let it be an account
    that is no precompile and has no contract code, to which no other address maps.
    Whatever others call, through the batch, call-permit, proxy and ERC-20 precompiles and
    any contracts, nested and reentered in any way, as long as no permit uses a nonce of
    the account, which takes its signature, and it has no proxy registered without a
    delay, its registrations stay the same and none of its allowances grows.  Its balance
    falls by no more than its allowances do if it held the existential deposit beyond
    them; otherwise, since transfers that leave less take the dust too, by at most the
    existential deposit for every unit of them.  No nonce is ever taken back. *)
Theorem strangers_leave_alone frames w0 w :
  Erc20.approvals_nonneg (tokens w0) ->
  (forall def, def ∈ registrations w0 (account o) -> Proxy.delay def <> 0) ->
  rtc (foreign_step frames) w0 w ->
  nonces_from o (permit_nonce o w0) (token_nonce o w0) w /\
  (permit_nonce o w = permit_nonce o w0 -> token_nonce o w = token_nonce o w0 ->
   left_alone o w0 w /\
   (ed <= funds w0 (account o) - Erc20.allowances_of (account o) (tokens w0) ->
    funds w0 (account o) - Erc20.allowances_of (account o) (tokens w0) <= funds w (account o)) /\
   funds w0 (account o) - Z.max 1 ed * Erc20.allowances_of (account o) (tokens w0) <= funds w (account o)).
Proof.
  intros Hnn Hdelay Hsteps. assert (Hg : guarded o w0 w).
  { apply (rtc_invariant (foreign_step frames) (guarded o w0) w0 w); [|done|].
    2: { split; [split; reflexivity|]. intros _ _. split; [done|]. split; [done|]. split; [done|apply Erc20.covered_refl]. }
    intros w1 w2 Hw Hstep. destruct Hstep as [sender a v d gas r out w1 w2 Hs Hr|t w1 w2 Hs Hp].
    - eapply (nested_guarded w0 frames Hdelay); [..|exact Hw|exact Hr].
      + split; [done|by left].
      + intros tr. case_match; [done|]. by intros [= <-].
    - eapply guarded_paid; [done| |exact Hp]. by intros tr [= <-]. }
  destruct Hg as [Hmono Hg]. split; [done|]. intros H1' H2'. destruct (Hg H1' H2') as [Hnn' Ha].
  split; [done|]. destruct Ha as (_ & _ & Hf & He). unfold base.
  pose proof (Erc20.allowances_nonneg (account o) _ Hnn'). split; [|nia]. intros Hed. specialize (He Hed). lia.
Qed.
End Safety.

(** ** A concrete EVM

    The four precompiles have the addresses 100 to 103, the contract at 200 forwards its
    input to the batch precompile, which calls the token once with each part of it. *)
Section Witnesses.
Record Base := mkBase { coin : Erc20.Token; regs : Z -> list (Proxy.ProxyDefinition Z Z) }.

Definition put_coin (t : Erc20.Token) (g : Base) : Base := mkBase t (regs g).

#[local] Existing Instance Erc20.token_balances.
#[local] Existing Instance Erc20.token_laws.
#[local] Existing Instance Erc20.token_meter.
#[local] Existing Instance Proxy.world_filter.

#[local] Instance base_meter : GasMeter Base Z unit := {|
  OutOfGas := tt;
  remaining_gas g := Erc20.gas (coin g);
  record c := lift_op coin put_coin (record c);
  compute_cost _ := Some 10;
  record_log_costs _ := inr;
  record_log l := lift_op coin put_coin (record_log l);
|}.

#[local] Instance base_balances : Erc20.TokenBalances Base Z unit unit := {|
  Erc20.existential_deposit := Erc20.existential_deposit (G := Erc20.Token) (A := Z) (Ex := unit) (Fa := unit);
  Erc20.total_issuance g := Erc20.total_issuance (A := Z) (Ex := unit) (Fa := unit) (coin g);
  Erc20.usable_balance g := Erc20.usable_balance (Ex := unit) (Fa := unit) (coin g);
  Erc20.balance g := Erc20.balance (Ex := unit) (Fa := unit) (coin g);
  Erc20.transfer_allow_death x y v n := lift_op coin put_coin (Erc20.transfer_allow_death x y v n);
|}.

#[local] Instance base_proxies : Proxy.ProxyPallet Base Z Z Z unit unit := {|
  Proxy.proxies := regs;
  Proxy.find_proxy g real who force :=
    head (filter (fun pd => Proxy.delegate pd = who /\ default (Proxy.proxy_type pd) force = Proxy.proxy_type pd)
      (regs g real));
  Proxy.get_address_type a g := inr (if a <? 100 then Proxy.EOA else Proxy.Contract, g);
  Proxy.account_code_len _ a := if a <? 200 then None else Some 10;
|}.

Definition with_regs (g : Base) (x : Z) (l : list (Proxy.ProxyDefinition Z Z)) : Base :=
  mkBase (coin g) (fun a => if decide (x = a) then l else regs g a).

#[local] Instance base_dispatcher : Dispatcher Base Z (Proxy.RuntimeCall Z Z) unit unit :=
  fun x c n g => match c with
  | Proxy.Proxy_add_proxy d t k => inr (with_regs g x (Proxy.mkProxyDefinition d t k :: regs g x))
  | Proxy.Proxy_remove_proxy d t k => inl (FailRevert [])
  | Proxy.Proxy_remove_proxies => inr (with_regs g x [])
  | Proxy.Balances_transfer_allow_death dest v =>
      if 0 <=? v then Erc20.transfer_allow_death x dest v n g else inl (FailRevert [])
  end.

Lemma lift_coin op g g' :
  lift_op (Ex := unit) coin put_coin op g = inr g' -> exists t, op (coin g) = inr t /\ g' = put_coin t g.
Proof. unfold lift_op. destruct (op (coin g)) as [|t]; [done|]. intros [= <-]. by exists t. Qed.

Lemma lift_failure op g g' :
  lift_op (Ex := PrecompileFailure unit unit) coin put_coin op g = inr g' ->
  exists t, op (coin g) = inr t /\ g' = put_coin t g.
Proof. unfold lift_op. destruct (op (coin g)) as [|t]; [done|]. intros [= <-]. by exists t. Qed.

#[local] Instance base_token_laws : Erc20.TokenLaws Base Z Z unit unit.
Proof.
  split.
  - intros g a. exact (Erc20.balance_nonneg (coin g) a).
  - intros c g g' a (t & Hr & ->)%lift_coin. exact (Erc20.record_balance _ _ _ a Hr).
  - intros l g g' a (t & Hr & ->)%lift_coin. exact (Erc20.record_log_balance _ _ _ a Hr).
  - intros x y v n g g' Hv (t & Hr & ->)%lift_failure. exact (Erc20.transfer_balance _ _ _ _ _ _ Hv Hr).
Qed.

#[local] Instance base_proxy_laws : Proxy.ProxyLaws Base Z Z Z unit unit.
Proof.
  split; [done|..].
  - by intros c g g' a (t & _ & ->)%lift_coin.
  - by intros x type g g' a [= _ <-].
  - intros x c n g g' a. unfold dispatch_with_growth, base_dispatcher. destruct c as [d t k|d t k| |dest v].
    + intros [= <-]. simpl. by destruct (decide (x = a)) as [->|].
    + done.
    + intros [= <-]. simpl. by destruct (decide (x = a)).
    + destruct (0 <=? v); [|done]. intros (t & _ & ->)%lift_failure. by destruct (decide (x = a)).
Qed.

#[local] Instance base_laws : WorldLaws (Addr := Z) (A := Z) (PT := Z) (G := Base) (Ex := unit) (Fa := unit).
Proof.
  split.
  - by intros l g g' a [= <-].
  - by intros l g g' a (t & _ & ->)%lift_coin.
  - by intros x type g g' a [= _ <-].
  - intros x c n g g' a. unfold dispatch_with_growth, base_dispatcher. destruct c as [d t k|d t k| |dest v].
    + by intros [= <-].
    + done.
    + by intros [= <-].
    + destruct (Z.leb_spec 0 v) as [Hv|]; [|done]. intros Hr Hne.
      exact (Erc20.transferred_other _ _ _ _ _ _ (Erc20.transfer_balance _ _ _ _ _ _ Hv Hr) a Hv Hne).
  - by intros x y v n g g' a (t & _ & ->)%lift_failure.
Qed.

Abbreviation SW := (World Z Z Base).
Abbreviation squiet := (quiet (A := Z) (PT := Z) (G := Base) (Ex := unit) (Fa := unit)).

Definition sample_batch : Batch.Config :=
  {| Batch.LOG_SUBCALL_SUCCEEDED := [1]; Batch.LOG_SUBCALL_FAILED := [0];
     Batch.encode_event_data n := [n]; Batch.call_cost _ := 5; Batch.revert _ := [] |}.

Definition is_precompile (a : Z) : bool := (100 <=? a) && (a <=? 103).
Definition is_contract (a : Z) : bool := a =? 200.

Definition decode_token (d : list Z) : option (Erc20.Call Z) :=
  match d with
  | [1; p; v; _] => Some (Erc20.approve_call p (Z.max 0 v))
  | [2; x; y; v] => Some (Erc20.transfer_from_call x y (Z.max 0 v))
  | [3; y; v; _] => Some (Erc20.transfer_call y (Z.max 0 v))
  | _ => None
  end.

Definition decode_call (a : Z) (d : list Z) : option (PrecompileCall Z) :=
  if a =? 100 then Some (to_batch Batch.BatchSome [103; 103] [] [take 4 d; drop 4 d] [])
  else if a =? 101 then
    match d with
    | x :: y :: d => Some (to_call_permit 0 (CallPermit.mkPermit x y 0 d 1000 10 0 [] []))
    | _ => None
    end
  else if a =? 102 then
    match d with x :: y :: d => Some (to_proxy (Proxy.proxy_call x y d)) | _ => None end
  else to_token 0 <$> decode_token d.

Lemma decoded_unsigned a d ctx c :
  0 <= apparent_value ctx -> decode_call a d = Some c -> unsigned_call ctx c.
Proof.
  intros Hv Hd. unfold decode_call in Hd.
  destruct (a =? 100); [by injection Hd as <-|].
  destruct (a =? 101); [destruct d as [|x [|y d]]; [done..|by injection Hd as <-]|].
  destruct (a =? 102); [destruct d as [|x [|y d]]; [done..|by injection Hd as <-]|].
  destruct (decode_token d) as [tc|] eqn:Ht; [|done]. injection Hd as <-. split; [done|].
  unfold decode_token in Ht. repeat case_match; simplify_eq/=; lia.
Qed.

Definition sample_pay (t : option (Transfer Z)) (w : SW) : option SW :=
  match t with
  | None => Some w
  | Some tr =>
      if 0 <=? amount _ tr then
        match Erc20.transfer_allow_death (Ex := unit) (Fa := unit) (source _ tr) (target _ tr) (amount _ tr) 0 (base w) with
        | inr g => Some (put_base g w)
        | inl _ => None
        end
      else None
  end.

Abbreviation sample_run C := (run (Ex := unit) (Fa := unit) sample_batch CallPermit.sample_config
  Erc20.sample_config Proxy.sample_config C).

(** The code of an address, with its subcalls going to [C]. *)
Definition sample_code (C : Caller SW Z unit unit) (a : Z) (d : list Z) (ctx : Context Z) (w : SW) :
    ExitReason unit unit * list Z * SW :=
  if is_precompile a then
    match decode_call a d with
    | Some c =>
        match sample_run C a ctx c w with
        | Ok _ w' => (Succeed, [], w')
        | Err (FailRevert o) _ => (Revert, o, w)
        | _ => (Error tt, [], w)
        end
    | None => (Revert, [], w)
    end
  else if is_contract a then
    let '(_, o, w') := call (Caller := C) 100 None d None false (mkContext (address ctx) 100 0) w in
    (Succeed, o, w')
  else (Succeed, [], w).

Fixpoint sample_evm (n : nat) : Caller SW Z unit unit := fun a t d gas static ctx w =>
  match n with
  | O => (Error tt, [], w)
  | S n =>
      if 0 <=? apparent_value ctx then
        match sample_pay t w with
        | Some w1 =>
            let '(r, o, w') := sample_code (sample_evm n) a d ctx w1 in
            match r with Succeed => (r, o, w') | _ => (r, o, w) end
        | None => (Error tt, [], w)
        end
      else (Error tt, [], w)
  end.

Lemma world_quiet_refl w : squiet w w.
Proof. by split_and!. Qed.

Lemma sample_paid t w w' : sample_pay t w = Some w' -> paid (PT := Z) Erc20.sample_config t w w'.
Proof.
  unfold sample_pay. destruct t as [tr|].
  - destruct (Z.leb_spec 0 (amount _ tr)); [|done].
    destruct (Erc20.transfer_allow_death _ _ _ _ (base w)) as [|g] eqn:Ht; [done|]. intros [= <-].
    split_and!; try done. intros a.
    split; [exact (transfer_proxies (Addr := Z) (PT := Z) _ _ _ _ _ _ a Ht)|].
    pose proof (Erc20.transfer_balance (Addr := Z) _ _ _ _ _ _ ltac:(done) Ht) as Hb.
    destruct (decide (source _ tr = a)) as [Hs|Hs]; [right; by exists tr|left].
    by apply (Erc20.transferred_other _ _ _ _ _ _ Hb a).
  - intros [= <-]. split_and!; try done. intros a. split; [done|]. left. lia.
Qed.

Lemma sample_code_runs C a d ctx w r o w' :
  0 <= apparent_value ctx -> sample_code C a d ctx w = (r, o, w') ->
  code_run sample_batch CallPermit.sample_config Erc20.sample_config Proxy.sample_config
    is_precompile is_contract C a ctx w w'.
Proof.
  intros Hv. unfold sample_code. destruct (is_precompile a) eqn:Hp.
  - destruct (decode_call a d) as [c|] eqn:Hd; [|intros [= _ _ <-]; apply code_done].
    destruct (sample_run C a ctx c w) as [u w1|e w1|] eqn:Hr.
    + intros [= _ _ <-]. by eapply code_precompile; [|eapply decoded_unsigned|].
    + destruct e; intros [= _ _ <-]; apply code_done.
    + intros [= _ _ <-]; apply code_done.
  - destruct (is_contract a) eqn:Hc; [|intros [= _ _ <-]; apply code_done].
    destruct (call _ _ _ _ _ _ w) as [[r1 o1] w1] eqn:Hr. intros [= _ _ <-].
    eapply code_calls; [done| | |exact Hr|apply code_done]; [|done].
    split; by left.
Qed.

#[local] Instance sample_evm_laws : EvmLaws sample_batch CallPermit.sample_config Erc20.sample_config
  Proxy.sample_config is_precompile is_contract sample_evm.
Proof.
  split.
  - intros a t d gas static ctx w r o w' [= _ _ <-]. apply world_quiet_refl.
  - intros n a t d gas static ctx w r o w'. unfold call. cbn [sample_evm].
    destruct (Z.leb_spec 0 (apparent_value ctx)); [|intros [= _ _ <-]; apply call_fails, world_quiet_refl].
    destruct (sample_pay t w) as [w1|] eqn:Hp; [|intros [= _ _ <-]; apply call_fails, world_quiet_refl].
    destruct (sample_code (sample_evm n) a d ctx w1) as [[r1 o1] w2] eqn:Hc.
    destruct r1; intros [= _ _ <-]; try (apply call_fails, world_quiet_refl).
    eapply call_succeeds; [by eapply sample_paid|by eapply sample_code_runs].
Qed.

(** Account 1 owns 100, lets the contract spend 40 and has an announced proxy. *)
Definition sample_world : SW :=
  CallPermit.mkState ∅ (Erc20.mkState {[(1, 200) := 40]} ∅
    (mkBase (Erc20.mkToken 1000000 {[1 := 100; 2 := 50]} [])
      (fun a => if decide (a = 1) then [Proxy.mkProxyDefinition 2 0 10] else []))).

(** Account 2 has the contract spend 30 of account 1's funds and then 20 more, which is too
    much, then it tries the proxy precompile. *)
Definition after_contract : SW :=
  (sample_evm 5 200 None [2; 1; 2; 30; 2; 1; 2; 20] None false (mkContext 2 200 0) sample_world).2.

Definition after_proxy : SW :=
  (sample_evm 5 102 None [1; 103; 3; 2; 50; 0] None false (mkContext 2 102 0) after_contract).2.

Lemma triple_eta {X Y Z'} (p : X * Y * Z') : p = (p.1.1, p.1.2, p.2).
Proof. by destruct p as [[? ?] ?]. Qed.

Lemma sample_steps : rtc (foreign_step (PT := Z) Erc20.sample_config sample_evm 1 5) sample_world after_proxy.
Proof.
  eapply rtc_l; [|eapply rtc_once].
  - eapply (foreign_call _ _ _ _ 2 200 0 [2; 1; 2; 30; 2; 1; 2; 20] None _ _ _ after_contract); [done|].
    unfold call, after_contract. apply triple_eta.
  - eapply (foreign_call _ _ _ _ 2 102 0 [1; 103; 3; 2; 50; 0] None _ _ _ after_proxy); [done|].
    unfold call, after_proxy. apply triple_eta.
Qed.

Lemma strangers_leave_alone_witness :
  left_alone (PT := Z) (Ex := unit) (Fa := unit) Erc20.sample_config 1 sample_world after_proxy /\
  Erc20.balance (Ex := unit) (Fa := unit) (base after_proxy) 1 = 70 /\
  Erc20.get_approve 1 200 (tokens after_proxy) = Some 10.
Proof.
  assert (Hnn : Erc20.approvals_nonneg (tokens sample_world)).
  { intros k v. simpl. intros [_ <-]%lookup_singleton_Some. lia. }
  assert (Hp : forall def, def ∈ Proxy.proxies (base sample_world) (Erc20.into_account_id Erc20.sample_config 1) ->
    Proxy.delay def <> 0).
  { intros def ->%list_elem_of_singleton. done. }
  destruct (strangers_leave_alone (PT := Z) sample_batch CallPermit.sample_config Erc20.sample_config
    Proxy.sample_config is_precompile is_contract (fun _ => eq_refl) ltac:(done) sample_evm 1
    (fun x Hx => Hx) (conj eq_refl eq_refl) 5 sample_world after_proxy Hnn Hp sample_steps) as [_ Hl].
  split; [|split; vm_compute; reflexivity]. apply Hl; vm_compute; reflexivity.
Defined.
End Witnesses.
