(* ===== verification/TokenStorage.v ===== *)
(** * Where the precompiles keep their data ([balances-erc20/src/lib.rs],
      [assets-erc20/src/eip2612.rs], [call-permit/src/lib.rs])

    The precompiles are not pallets: each names the storage of its approvals and nonces
    by hand, with one prefix for every instance of the token pallets.  Here these items
    lie in the one key-value store of the chain, below keys built from the prefixes and
    the hashed arguments, and every instance has its own maps again: those of [Erc20.v],
    [AssetsErc20.v] and [CallPermit.v]. *)
From Stdlib Require Import ZArith Lia String.
From stdpp Require Import prelude gmap fin_maps strings vector.
From S2P Require Import Prelude.
From S2P Require Import Interfaces.
From S2P Require Import Evm.
From S2P Require Import Erc20.
From S2P Require Import CallPermit.
From S2P Require Import AssetsErc20.

Local Open Scope Z_scope.

(** ** Names *)

(** [StorageInstance] *)
Record StorageInstance := mkStorageInstance {
  pallet_prefix : string;
  STORAGE_PREFIX : string;
}.

(** [Instance0] is [()], the others are those of FRAME. *)
Inductive Instance :=
  | Instance0 | Instance1 | Instance2 | Instance3 | Instance4 | Instance5 | Instance6
  | Instance7 | Instance8 | Instance9 | Instance10 | Instance11 | Instance12
  | Instance13 | Instance14 | Instance15 | Instance16.

#[export] Instance instance_eq_dec : EqDecision Instance.
Proof. solve_decision. Defined.

(** [impl_prefix!] of the balances precompile *)
Definition balances_name (i : Instance) : string :=
  match i with
  | Instance0 => "Erc20Instance0Balances"
  | Instance1 => "Erc20Instance1Balances"
  | Instance2 => "Erc20Instance2Balances"
  | Instance3 => "Erc20Instance3Balances"
  | Instance4 => "Erc20Instance4Balances"
  | Instance5 => "Erc20Instance5Balances"
  | Instance6 => "Erc20Instance6Balances"
  | Instance7 => "Erc20Instance7Balances"
  | Instance8 => "Erc20Instance8Balances"
  | Instance9 => "Erc20Instance9Balances"
  | Instance10 => "Erc20Instance10Balances"
  | Instance11 => "Erc20Instance11Balances"
  | Instance12 => "Erc20Instance12Balances"
  | Instance13 => "Erc20Instance13Balances"
  | Instance14 => "Erc20Instance14Balances"
  | Instance15 => "Erc20Instance15Balances"
  | Instance16 => "Erc20Instance16Balances"
  end.

(** [impl_prefix!] of the assets precompile *)
Definition assets_name (i : Instance) : string :=
  match i with
  | Instance0 => "Erc20Instance0Assets"
  | Instance1 => "Erc20Instance1Assets"
  | Instance2 => "Erc20Instance2Assets"
  | Instance3 => "Erc20Instance3Assets"
  | Instance4 => "Erc20Instance4Assets"
  | Instance5 => "Erc20Instance5Assets"
  | Instance6 => "Erc20Instance6Assets"
  | Instance7 => "Erc20Instance7Assets"
  | Instance8 => "Erc20Instance8Assets"
  | Instance9 => "Erc20Instance9Assets"
  | Instance10 => "Erc20Instance10Assets"
  | Instance11 => "Erc20Instance11Assets"
  | Instance12 => "Erc20Instance12Assets"
  | Instance13 => "Erc20Instance13Assets"
  | Instance14 => "Erc20Instance14Assets"
  | Instance15 => "Erc20Instance15Assets"
  | Instance16 => "Erc20Instance16Assets"
  end.

(** [ApprovesPrefix] and [NoncesPrefix] *)
Definition ApprovesPrefix (i : Instance) : StorageInstance :=
  mkStorageInstance (balances_name i) "Approves".
Definition NoncesPrefix (i : Instance) : StorageInstance :=
  mkStorageInstance (balances_name i) "Nonces".
Definition AssetsNoncesPrefix (i : Instance) : StorageInstance :=
  mkStorageInstance (assets_name i) "Nonces".
(** [Nonces] of the call-permit precompile *)
Definition PermitNoncesPrefix : StorageInstance :=
  mkStorageInstance "PrecompileCallPermit" "Nonces".

(** The storage items of all precompiles of a runtime. *)
Inductive Slot :=
  | ApprovesSlot (i : Instance)
  | NoncesSlot (i : Instance)
  | AssetsNoncesSlot (i : Instance)
  | PermitNoncesSlot.

#[export] Instance slot_eq_dec : EqDecision Slot.
Proof. solve_decision. Defined.

Definition storage_instance (slot : Slot) : StorageInstance :=
  match slot with
  | ApprovesSlot i => ApprovesPrefix i
  | NoncesSlot i => NoncesPrefix i
  | AssetsNoncesSlot i => AssetsNoncesPrefix i
  | PermitNoncesSlot => PermitNoncesPrefix
  end.

(** ** The framework's storage

    [twox_128] and [blake2_128] are hash functions, [encode_uint] and [decode_uint] the
    encoding of an unsigned integer of so many bytes. *)
Class FrameStorage := {
  twox_128 : string -> list Z;
  blake2_128 : list Z -> list Z;
  encode_uint : nat -> Z -> list Z;
  decode_uint : nat -> list Z -> option Z;
}.

(** Hashes have 16 bytes and do not collide on the names that are used. *)
Class FrameStorageLaws `{FrameStorage} : Prop := {
  length_twox_128 s : length (twox_128 s) = 16%nat;
  length_blake2_128 bs : length (blake2_128 bs) = 16%nat;
  twox_128_pallets s t :
    twox_128 (pallet_prefix (storage_instance s)) = twox_128 (pallet_prefix (storage_instance t)) ->
    pallet_prefix (storage_instance s) = pallet_prefix (storage_instance t);
  twox_128_items s t :
    twox_128 (STORAGE_PREFIX (storage_instance s)) = twox_128 (STORAGE_PREFIX (storage_instance t)) ->
    STORAGE_PREFIX (storage_instance s) = STORAGE_PREFIX (storage_instance t);
  length_encode_uint n v : length (encode_uint n v) = n;
  decode_encode_uint n v : 0 <= v < 256 ^ Z.of_nat n -> decode_uint n (encode_uint n v) = Some v;
}.

(** ** Keys *)

Section Keys.
Context `{FrameStorage}.

(** [storage_prefix]: the common part of all keys of an item *)
Definition storage_prefix (s : StorageInstance) : list Z :=
  twox_128 (pallet_prefix s) ++ twox_128 (STORAGE_PREFIX s).

(** [Blake2_128Concat] *)
Definition blake2_128_concat (bs : list Z) : list Z := blake2_128 bs ++ bs.

(** [StorageMap] and [StorageDoubleMap] with these hashers *)
Definition map_key {K} `{Codec K} (s : StorageInstance) (k : K) : list Z :=
  storage_prefix s ++ blake2_128_concat (encode k).
Definition double_map_key {K L} `{Codec K} `{Codec L} (s : StorageInstance) (k : K * L) : list Z :=
  storage_prefix s ++ blake2_128_concat (encode k.1) ++ blake2_128_concat (encode k.2).

(** The key that a raw key stands for. *)
Definition map_unkey {K} `{Codec K} (s : StorageInstance) (bs : list Z) : option K :=
  '(k, _) ← decode (drop 48 bs);
  if decide (map_key s k = bs) then Some k else None.
Definition double_map_unkey {K L} `{Codec K} `{Codec L} (s : StorageInstance) (bs : list Z) :
  option (K * L) :=
  '(k, rest) ← decode (drop 48 bs);
  '(l, _) ← decode (drop 16 rest);
  if decide (double_map_key s (k, l) = bs) then Some (k, l) else None.

Context `{!FrameStorageLaws}.

Lemma length_storage_prefix s : length (storage_prefix s) = 32%nat.
Proof. unfold storage_prefix. by rewrite length_app, !length_twox_128. Qed.

Lemma drop_blake2 bs rest : drop 16 (blake2_128_concat bs ++ rest) = bs ++ rest.
Proof. unfold blake2_128_concat. rewrite <- app_assoc. apply drop_app_length'. by rewrite length_blake2_128. Qed.

Lemma drop_prefix s bs rest : drop 48 (storage_prefix s ++ blake2_128_concat bs ++ rest) = bs ++ rest.
Proof.
  change 48%nat with (32 + 16)%nat. rewrite <- drop_drop, drop_app_length' by (symmetry; apply length_storage_prefix).
  apply drop_blake2.
Qed.

Lemma drop_map_key {K} `{Codec K} s (k : K) : drop 48 (map_key s k) = encode k ++ [].
Proof. unfold map_key. rewrite <- (app_nil_r (blake2_128_concat _)). apply drop_prefix. Qed.

Lemma drop_double_map_key {K L} `{Codec K} `{Codec L} s (k : K * L) :
  drop 48 (double_map_key s k) = encode k.1 ++ blake2_128_concat (encode k.2) ++ [].
Proof. unfold double_map_key. rewrite app_nil_r. apply drop_prefix. Qed.

Lemma map_unkey_spec {K} `{CodecLaws K} s bs (k : K) :
  map_unkey s bs = Some k <-> bs = map_key s k.
Proof.
  unfold map_unkey. split.
  - destruct (decode _) as [[k' r]|]; simpl; [|done]. case_decide; intros [= ->]. done.
  - intros ->. rewrite drop_map_key, decode_encode. simpl. by rewrite decide_True.
Qed.

Lemma double_map_unkey_spec {K L} `{CodecLaws K} `{CodecLaws L} s bs (k : K * L) :
  double_map_unkey s bs = Some k <-> bs = double_map_key s k.
Proof.
  unfold double_map_unkey. split.
  - destruct (decode (drop 48 bs)) as [[k' r]|]; simpl; [|done].
    destruct (decode (drop 16 r)) as [[l' r']|]; simpl; [|done]. case_decide; intros [= <-]. done.
  - destruct k as [k l]. intros ->. rewrite drop_double_map_key. simpl. rewrite decode_encode. simpl.
    rewrite drop_blake2, decode_encode. simpl. by rewrite decide_True.
Qed.

(** No two items of the precompiles have the same name or share a key. *)
Lemma storage_instance_inj s t : storage_instance s = storage_instance t -> s = t.
Proof. destruct s as [i|i|i|], t as [j|j|j|]; try destruct i; try destruct j; done. Qed.

Lemma storage_prefix_inj s t bs cs :
  storage_prefix (storage_instance s) ++ bs = storage_prefix (storage_instance t) ++ cs -> s = t.
Proof.
  intros Heq. apply app_inj_1 in Heq as [Heq _]; [|by rewrite !length_storage_prefix].
  unfold storage_prefix in Heq.
  apply app_inj_1 in Heq as [Hp%twox_128_pallets Hi%twox_128_items]; [|by rewrite !length_twox_128].
  apply storage_instance_inj. by destruct (storage_instance s), (storage_instance t); simpl in *; subst.
Qed.

End Keys.

(** ** A map in the store *)

(** The raw store of the chain. *)
Abbreviation Raw := (gmap (list Z) (list Z)).

(** An item of the store with keys [K] and integers as values: its keys, what its raw
    keys stand for, the width of its values. *)
Section Item.
Context `{FrameStorage} `{!FrameStorageLaws} `{Countable K}.
Context (key : K -> list Z) (unkey : list Z -> option K) (width : nat).

(** [get] ([None]: not in storage), [insert] *)
Definition item_get (k : K) (raw : Raw) : option Z := raw !! key k ≫= decode_uint width.
Definition item_insert (k : K) (v : Z) (raw : Raw) : Raw := <[key k := encode_uint width v]> raw.

(** All entries of the item. *)
Definition items (raw : Raw) : gmap K Z :=
  map_fold (fun bs v acc => default acc (k ← unkey bs; x ← decode_uint width v; Some (<[k := x]> acc)))
    ∅ raw.

Context (unkey_spec : forall bs k, unkey bs = Some k <-> bs = key k).

Lemma key_inj k l : key k = key l -> k = l.
Proof. intros Heq. apply unkey_spec in Heq. rewrite (proj2 (unkey_spec (key k) k) eq_refl) in Heq. by simplify_eq. Qed.

Lemma lookup_items raw k : items raw !! k = item_get k raw.
Proof.
  unfold item_get, items. revert k. induction raw as [|bs v raw Hbs Hfold IH] using map_first_key_ind.
  { intros k. by rewrite map_fold_empty, !lookup_empty. }
  intros k. rewrite map_fold_insert_first_key by done. destruct (unkey bs) as [k'|] eqn:Hk; simpl.
  - apply unkey_spec in Hk as ->. destruct (decide (k = k')) as [->|Hne].
    + rewrite lookup_insert_eq. simpl. destruct (decode_uint width v); simpl.
      { by rewrite lookup_insert_eq. }
      rewrite IH, Hbs. done.
    + rewrite (lookup_insert_ne _ (key k')) by (intros Heq; by apply Hne, key_inj).
      destruct (decode_uint width v); simpl; [rewrite lookup_insert_ne by done|]; apply IH.
  - rewrite lookup_insert_ne; [apply IH|]. intros ->. by rewrite (proj2 (unkey_spec _ _) eq_refl) in Hk.
Qed.

Lemma items_insert k v raw :
  0 <= v < 256 ^ Z.of_nat width -> items (item_insert k v raw) = <[k := v]> (items raw).
Proof.
  intros Hv. apply map_eq. intros l. rewrite lookup_items. unfold item_get, item_insert.
  destruct (decide (l = k)) as [->|Hne].
  - rewrite !lookup_insert_eq. simpl. by apply decode_encode_uint.
  - rewrite !lookup_insert_ne by (done || intros Heq; by apply Hne, key_inj). by rewrite lookup_items.
Qed.

Lemma items_insert_other bs v raw : (forall k, bs <> key k) -> items (<[bs := v]> raw) = items raw.
Proof.
  intros Hbs. apply map_eq. intros l. rewrite !lookup_items. unfold item_get.
  by rewrite lookup_insert_ne by apply Hbs.
Qed.

End Item.

(** ** The precompiles' items *)

Section Layout.
Context `{FrameStorage}.
Context {H160 AccountId : Type} `{Countable H160} `{Countable AccountId} `{Codec H160} `{Codec AccountId}.
(** The bytes of a balance of the token pallets, of a [U256]. *)
Context (balance_bytes : nat).
Definition u256_bytes : nat := 32.

(** [ApprovesStorage] *)
Definition approves_get (i : Instance) (owner spender : AccountId) : Raw -> option Z :=
  item_get (double_map_key (ApprovesPrefix i)) balance_bytes (owner, spender).
Definition approves_insert (i : Instance) (owner spender : AccountId) : Z -> Raw -> Raw :=
  item_insert (double_map_key (ApprovesPrefix i)) balance_bytes (owner, spender).
(** [NoncesStorage] of the balances precompile, a [ValueQuery] *)
Definition nonces_get (i : Instance) (owner : H160) (raw : Raw) : Z :=
  default 0 (item_get (map_key (NoncesPrefix i)) u256_bytes owner raw).
Definition nonces_insert (i : Instance) (owner : H160) : Z -> Raw -> Raw :=
  item_insert (map_key (NoncesPrefix i)) u256_bytes owner.
(** [NoncesStorage] of the assets precompile *)
Definition assets_nonces_get (i : Instance) (contract owner : H160) (raw : Raw) : Z :=
  default 0 (item_get (double_map_key (AssetsNoncesPrefix i)) u256_bytes (contract, owner) raw).
Definition assets_nonces_insert (i : Instance) (contract owner : H160) : Z -> Raw -> Raw :=
  item_insert (double_map_key (AssetsNoncesPrefix i)) u256_bytes (contract, owner).
(** [NoncesStorage] of the call-permit precompile *)
Definition permit_nonces_get (from : H160) (raw : Raw) : Z :=
  default 0 (item_get (map_key PermitNoncesPrefix) u256_bytes from raw).
Definition permit_nonces_insert (from : H160) : Z -> Raw -> Raw :=
  item_insert (map_key PermitNoncesPrefix) u256_bytes from.

(** What the precompiles of all instances do with their items, in any order. *)
Inductive Access :=
  | GetApprove (i : Instance) (owner spender : AccountId)
  | SetApprove (i : Instance) (owner spender : AccountId) (amount : Z)
  | GetNonce (i : Instance) (owner : H160)
  | SetNonce (i : Instance) (owner : H160) (nonce : Z)
  | GetAssetsNonce (i : Instance) (contract owner : H160)
  | SetAssetsNonce (i : Instance) (contract owner : H160) (nonce : Z)
  | GetPermitNonce (from : H160)
  | SetPermitNonce (from : H160) (nonce : Z).

Definition access_raw (a : Access) (raw : Raw) : Raw * option Z :=
  match a with
  | GetApprove i o p => (raw, approves_get i o p raw)
  | SetApprove i o p v => (approves_insert i o p v raw, None)
  | GetNonce i o => (raw, Some (nonces_get i o raw))
  | SetNonce i o n => (nonces_insert i o n raw, None)
  | GetAssetsNonce i c o => (raw, Some (assets_nonces_get i c o raw))
  | SetAssetsNonce i c o n => (assets_nonces_insert i c o n raw, None)
  | GetPermitNonce f => (raw, Some (permit_nonces_get f raw))
  | SetPermitNonce f n => (permit_nonces_insert f n raw, None)
  end.

(** The same on the precompiles' own states, one for every instance. *)
Record Tables := mkTables {
  balances : Instance -> Erc20.State H160 AccountId unit;
  assets : Instance -> AssetsErc20.State H160 unit;
  permits : CallPermit.State H160 unit;
}.

Definition at_instance {T} (i : Instance) (f : T -> T) (t : Instance -> T) : Instance -> T :=
  fun j => if decide (j = i) then f (t j) else t j.

Definition access_tables (a : Access) (t : Tables) : Tables * option Z :=
  match a with
  | GetApprove i o p => (t, Erc20.get_approve o p (balances t i))
  | SetApprove i o p v =>
      (mkTables (at_instance i (Erc20.update_approves <[(o, p) := v]>) (balances t)) (assets t) (permits t), None)
  | GetNonce i o => (t, Some (Erc20.get_nonce o (balances t i)))
  | SetNonce i o n =>
      (mkTables (at_instance i (Erc20.update_nonces <[o := n]>) (balances t)) (assets t) (permits t), None)
  | GetAssetsNonce i c o => (t, Some (AssetsErc20.get_nonce c o (assets t i)))
  | SetAssetsNonce i c o n =>
      (mkTables (balances t) (at_instance i (AssetsErc20.update_nonces <[(c, o) := n]>) (assets t)) (permits t), None)
  | GetPermitNonce f => (t, Some (CallPermit.get_nonce f (permits t)))
  | SetPermitNonce f n => (mkTables (balances t) (assets t) (CallPermit.put_nonce f n (permits t)), None)
  end.

(** Several accesses, and what they read. *)
Fixpoint accesses {T} (step : Access -> T -> T * option Z) (l : list Access) (t : T) : T * list (option Z) :=
  match l with
  | [] => (t, [])
  | a :: l' =>
      let '(t1, r) := step a t in
      let '(t2, rs) := accesses step l' t1 in
      (t2, r :: rs)
  end.

(** What is written is a value of its type. *)
Definition access_fits (a : Access) : Prop :=
  match a with
  | SetApprove _ _ _ v => 0 <= v < 256 ^ Z.of_nat balance_bytes
  | SetNonce _ _ n | SetAssetsNonce _ _ _ n | SetPermitNonce _ n => 0 <= n < 256 ^ Z.of_nat u256_bytes
  | _ => True
  end.

(** The states the store stands for. *)
Definition tables_of (raw : Raw) : Tables := {|
  balances i := Erc20.mkState
    (items (double_map_unkey (ApprovesPrefix i)) balance_bytes raw)
    (items (map_unkey (NoncesPrefix i)) u256_bytes raw) tt;
  assets i := AssetsErc20.mkState (items (double_map_unkey (AssetsNoncesPrefix i)) u256_bytes raw) tt;
  permits := CallPermit.mkState (items (map_unkey PermitNoncesPrefix) u256_bytes raw) tt;
|}.

(** Two descriptions of the same states. *)
Record same_tables (t u : Tables) : Prop := {
  same_balances i : balances t i = balances u i;
  same_assets i : assets t i = assets u i;
  same_permits : permits t = permits u;
}.

(** Keys below none of the prefixes *)
Definition foreign (bs : list Z) : Prop := forall slot, ~ storage_prefix (storage_instance slot) `prefix_of` bs.
End Layout.

(** ** The items of the precompiles are apart *)

Section Apart.
Context `{FrameStorage} `{!FrameStorageLaws}.

Definition below (slot : Slot) (bs : list Z) : Prop := storage_prefix (storage_instance slot) `prefix_of` bs.

Lemma below_map {K} `{Codec K} slot (k : K) : below slot (map_key (storage_instance slot) k).
Proof. by eexists. Qed.
Lemma below_double_map {K L} `{Codec K} `{Codec L} slot (k : K * L) :
  below slot (double_map_key (storage_instance slot) k).
Proof. by eexists. Qed.

Lemma below_inj s t bs : below s bs -> below t bs -> s = t.
Proof. intros [r ->] [r' Heq]. by eapply storage_prefix_inj. Qed.

Lemma foreign_insert (slot : Slot) (bs cs v : list Z) (raw : Raw) :
  below slot bs -> foreign cs -> (<[bs := v]> raw) !! cs = raw !! cs.
Proof. intros Hb Hf. apply lookup_insert_ne. intros ->. by eapply Hf. Qed.

Lemma map_items_other {K} `{Countable K} `{CodecLaws K} (width : nat) (s t : Slot) (bs v : list Z) (raw : Raw) :
  below t bs -> s <> t ->
  items (map_unkey (K := K) (storage_instance s)) width (<[bs := v]> raw)
  = items (map_unkey (storage_instance s)) width raw.
Proof.
  intros Hb Hne. apply (items_insert_other (map_key (storage_instance s))); [intros; apply map_unkey_spec|].
  intros k ->. eapply Hne, below_inj, Hb. apply below_map.
Qed.

Lemma double_map_items_other {K L} `{Countable K} `{Countable L} `{CodecLaws K} `{CodecLaws L} (width : nat) (s t : Slot) (bs v : list Z) (raw : Raw) :
  below t bs -> s <> t ->
  items (double_map_unkey (K := K) (L := L) (storage_instance s)) width (<[bs := v]> raw)
  = items (double_map_unkey (storage_instance s)) width raw.
Proof.
  intros Hb Hne. apply (items_insert_other (double_map_key (storage_instance s))); [intros; apply double_map_unkey_spec|].
  intros k ->. eapply Hne, below_inj, Hb. apply below_double_map.
Qed.

Lemma map_items_insert {K} `{Countable K} `{CodecLaws K} (width : nat) (s : StorageInstance) (k : K) (v : Z) (raw : Raw) :
  0 <= v < 256 ^ Z.of_nat width ->
  items (map_unkey s) width (<[map_key s k := encode_uint width v]> raw)
  = <[k := v]> (items (map_unkey s) width raw).
Proof. eapply (items_insert (map_key s)). intros. apply map_unkey_spec. Qed.

Lemma double_map_items_insert {K L} `{Countable K} `{Countable L} `{CodecLaws K} `{CodecLaws L} (width : nat) (s : StorageInstance) (k : K * L) (v : Z) (raw : Raw) :
  0 <= v < 256 ^ Z.of_nat width ->
  items (double_map_unkey s) width (<[double_map_key s k := encode_uint width v]> raw)
  = <[k := v]> (items (double_map_unkey s) width raw).
Proof. eapply (items_insert (double_map_key s)). intros. apply double_map_unkey_spec. Qed.

Lemma map_get_items {K} `{Countable K} `{CodecLaws K} (width : nat) (s : StorageInstance) (k : K) (raw : Raw) :
  item_get (map_key s) width k raw = items (map_unkey s) width raw !! k.
Proof. symmetry. apply lookup_items. intros. apply map_unkey_spec. Qed.

Lemma double_map_get_items {K L} `{Countable K} `{Countable L} `{CodecLaws K} `{CodecLaws L} (width : nat) (s : StorageInstance) (k : K * L) (raw : Raw) :
  item_get (double_map_key s) width k raw = items (double_map_unkey s) width raw !! k.
Proof. symmetry. apply lookup_items. intros. apply double_map_unkey_spec. Qed.

Context {H160 AccountId : Type} `{Countable H160} `{Countable AccountId} `{CodecLaws H160} `{CodecLaws AccountId}.
Context (balance_bytes : nat).

Abbreviation tables := (tables_of (H160 := H160) (AccountId := AccountId) balance_bytes).

(** Writing below one prefix leaves the items of the others. *)
Lemma approves_other (i : Instance) (slot : Slot) (bs v : list Z) (raw : Raw) :
  below slot bs -> slot <> ApprovesSlot i ->
  Erc20.Approves (balances (tables (<[bs := v]> raw)) i) = Erc20.Approves (balances (tables raw) i).
Proof. intros Hb Hne. by apply (double_map_items_other balance_bytes (ApprovesSlot i) slot). Qed.

Lemma nonces_other (i : Instance) (slot : Slot) (bs v : list Z) (raw : Raw) :
  below slot bs -> slot <> NoncesSlot i ->
  Erc20.Nonces (balances (tables (<[bs := v]> raw)) i) = Erc20.Nonces (balances (tables raw) i).
Proof. intros Hb Hne. by apply (map_items_other u256_bytes (NoncesSlot i) slot). Qed.

Lemma assets_other (i : Instance) (slot : Slot) (bs v : list Z) (raw : Raw) :
  below slot bs -> slot <> AssetsNoncesSlot i ->
  assets (tables (<[bs := v]> raw)) i = assets (tables raw) i.
Proof.
  intros Hb Hne. simpl. f_equal. by apply (double_map_items_other u256_bytes (AssetsNoncesSlot i) slot).
Qed.

Lemma permits_other (slot : Slot) (bs v : list Z) (raw : Raw) :
  below slot bs -> slot <> PermitNoncesSlot ->
  permits (tables (<[bs := v]> raw)) = permits (tables raw).
Proof. intros Hb Hne. simpl. f_equal. by apply (map_items_other u256_bytes PermitNoncesSlot slot). Qed.

Lemma balances_other (i : Instance) (slot : Slot) (bs v : list Z) (raw : Raw) :
  below slot bs -> slot <> ApprovesSlot i -> slot <> NoncesSlot i ->
  balances (tables (<[bs := v]> raw)) i = balances (tables raw) i.
Proof.
  intros Hb Ha Hn. pose proof (approves_other i slot bs v raw Hb Ha) as He.
  pose proof (nonces_other i slot bs v raw Hb Hn) as He'. simpl in *. by f_equal.
Qed.

(** One write: the state of the item's instance changes as the code means it to, the
    others do not, nor does anything else in the store. *)
Lemma approves_step i o p v raw :
  0 <= v < 256 ^ Z.of_nat balance_bytes ->
  same_tables (tables (approves_insert balance_bytes i o p v raw))
    (access_tables (SetApprove i o p v) (tables raw)).1.
Proof.
  intros Hv. pose proof (below_double_map (ApprovesSlot i) (o, p)) as Hb.
  unfold approves_insert, item_insert. split; [intros j; unfold access_tables, at_instance; simpl|..].
  - case_decide as Hj; [subst j|by eapply balances_other; [done|congruence|done]].
    unfold Erc20.update_approves. simpl. f_equal; [by apply double_map_items_insert|].
    by apply (nonces_other i (ApprovesSlot i)).
  - intros j. by apply (assets_other j (ApprovesSlot i)).
  - by apply (permits_other (ApprovesSlot i)).
Qed.

Lemma nonces_step i o n raw :
  0 <= n < 256 ^ Z.of_nat u256_bytes ->
  same_tables (tables (nonces_insert i o n raw)) (access_tables (SetNonce i o n) (tables raw)).1.
Proof.
  intros Hn. pose proof (below_map (NoncesSlot i) o) as Hb.
  unfold nonces_insert, item_insert. split; [intros j; unfold access_tables, at_instance; simpl|..].
  - case_decide as Hj; [subst j|by eapply balances_other; [done|done|congruence]].
    unfold Erc20.update_nonces. simpl. f_equal; [by apply (approves_other i (NoncesSlot i))|].
    by apply map_items_insert.
  - intros j. by apply (assets_other j (NoncesSlot i)).
  - by apply (permits_other (NoncesSlot i)).
Qed.

Lemma assets_nonces_step i c o n raw :
  0 <= n < 256 ^ Z.of_nat u256_bytes ->
  same_tables (tables (assets_nonces_insert i c o n raw))
    (access_tables (SetAssetsNonce i c o n) (tables raw)).1.
Proof.
  intros Hn. pose proof (below_double_map (AssetsNoncesSlot i) (c, o)) as Hb.
  unfold assets_nonces_insert, item_insert. split.
  - intros j. by apply (balances_other j (AssetsNoncesSlot i)).
  - intros j. unfold access_tables, at_instance; simpl.
    case_decide as Hj; [subst j|eapply (assets_other j (AssetsNoncesSlot i)); [done|congruence]].
    unfold AssetsErc20.update_nonces. simpl. f_equal. by apply double_map_items_insert.
  - by apply (permits_other (AssetsNoncesSlot i)).
Qed.

Lemma permit_nonces_step f n raw :
  0 <= n < 256 ^ Z.of_nat u256_bytes ->
  same_tables (tables (permit_nonces_insert f n raw)) (access_tables (SetPermitNonce f n) (tables raw)).1.
Proof.
  intros Hn. pose proof (below_map PermitNoncesSlot f) as Hb.
  unfold permit_nonces_insert, item_insert. split.
  - intros j. by apply (balances_other j PermitNoncesSlot).
  - intros j. by apply (assets_other j PermitNoncesSlot).
  - simpl. unfold CallPermit.put_nonce. simpl. f_equal. by apply map_items_insert.
Qed.

(** Equal states are read and written alike. *)
Lemma access_same a (t u : Tables (H160 := H160) (AccountId := AccountId)) :
  same_tables t u ->
  (access_tables a t).2 = (access_tables a u).2 /\ same_tables (access_tables a t).1 (access_tables a u).1.
Proof.
  intros [Hb Ha Hp]. destruct a; simpl; (split; [by rewrite ?Hb, ?Ha, ?Hp|]); split; simpl;
    try intros j; unfold at_instance; try case_decide; by rewrite ?Hb, ?Ha, ?Hp.
Qed.

Lemma same_tables_trans (t u w : Tables (H160 := H160) (AccountId := AccountId)) :
  same_tables t u -> same_tables u w -> same_tables t w.
Proof. intros [Hb Ha Hp] [Hb' Ha' Hp']. split; intros; congruence. Qed.

Lemma access_foreign (a : Access (H160 := H160) (AccountId := AccountId)) (raw : Raw) (bs : list Z) : foreign bs -> (access_raw balance_bytes a raw).1 !! bs = raw !! bs.
Proof.
  intros Hf. destruct a; try done; simpl; eapply foreign_insert; try done.
  - apply (below_double_map (ApprovesSlot i)).
  - apply (below_map (NoncesSlot i)).
  - apply (below_double_map (AssetsNoncesSlot i)).
  - apply (below_map PermitNoncesSlot).
Qed.

Lemma access_step (a : Access (H160 := H160) (AccountId := AccountId)) (raw : Raw) :
  access_fits balance_bytes a ->
  (access_raw balance_bytes a raw).2 = (access_tables a (tables raw)).2 /\
  same_tables (tables (access_raw balance_bytes a raw).1) (access_tables a (tables raw)).1.
Proof.
  intros Hf. destruct a; simpl; (split; [try done|]); try done.
  - by apply double_map_get_items.
  - by apply approves_step.
  - f_equal. unfold nonces_get. by rewrite map_get_items.
  - by apply nonces_step.
  - f_equal. unfold assets_nonces_get. by rewrite double_map_get_items.
  - by apply assets_nonces_step.
  - f_equal. unfold permit_nonces_get. by rewrite map_get_items.
  - by apply permit_nonces_step.
Qed.
End Apart.

Section Refinement.
Context `{FrameStorageLaws}.
Context {H160 AccountId : Type} `{Countable H160} `{Countable AccountId} `{CodecLaws H160} `{CodecLaws AccountId}.
Context (balance_bytes : nat).

(** C21: The precompiles of all 17 instances of the token pallets and the call-permit
    precompile keep their data in one store, below prefixes written out by hand.
    Whatever sequence of reads and writes they make, in any interleaving, the reads
    answer what each instance's own approvals and nonces would answer, the store
    stands for those states afterwards, and no other key of the chain changes. *)
Theorem storage_apart (l : list (Access (H160 := H160) (AccountId := AccountId))) raw t raw' t' out out' :
  Forall (access_fits balance_bytes) l ->
  same_tables (tables_of balance_bytes raw) t ->
  accesses (access_raw balance_bytes) l raw = (raw', out) ->
  accesses access_tables l t = (t', out') ->
  out = out' /\ same_tables (tables_of balance_bytes raw') t' /\
  forall bs, foreign bs -> raw' !! bs = raw !! bs.
Proof.
  intros Hf. revert raw t out out'. induction Hf as [|a l Ha _ IH]; intros raw t out out' Ht; simpl.
  { intros [= <- <-] [= <- <-]. done. }
  destruct (access_step balance_bytes a raw Ha) as [Hr Hs].
  destruct (access_same a _ _ Ht) as [Hr' Hs']. pose proof (same_tables_trans _ _ _ Hs Hs') as Ht1.
  pose proof (access_foreign balance_bytes a raw) as Hfo.
  destruct (access_raw balance_bytes a raw) as [raw1 r], (access_tables a t) as [t1 r'].
  destruct (accesses (access_raw balance_bytes) l raw1) as [raw2 rs] eqn:Hraw.
  destruct (accesses access_tables l t1) as [t2 rs'] eqn:Htab. simpl in *.
  intros [= <- <-] [= <- <-]. destruct (IH _ _ _ _ Ht1 Hraw Htab) as (-> & Hs2 & Hfo2).
  split; [congruence|split; [done|]]. intros bs Hbs. by rewrite Hfo2, Hfo.
Qed.

(** What a read of an item proves: the key below the prefix and the value. *)
Definition read_size (key : list Z) (value : nat) : Z := Z.of_nat (length key - 32 + value).

(** The sizes that the precompiles record for their reads: 88 for an approval and 104
    for a nonce.  With accounts of 20 bytes and balances of 16 they are exact for
    approvals and for the nonces of assets; for the nonces of the balances and
    call-permit precompiles, whose keys have no contract, they are 36 too many. *)
Lemma recorded_reads `{!FixedSize H160} `{!FixedSize AccountId} i (o p : AccountId) (c a : H160) :
  encoded_size H160 = 20%nat -> encoded_size AccountId = 20%nat -> balance_bytes = 16%nat ->
  read_size (double_map_key (ApprovesPrefix i) (o, p)) balance_bytes = 88 /\
  read_size (double_map_key (AssetsNoncesPrefix i) (c, a)) u256_bytes = 104 /\
  read_size (map_key (NoncesPrefix i) a) u256_bytes = 104 - 36 /\
  read_size (map_key PermitNoncesPrefix a) u256_bytes = 104 - 36.
Proof.
  intros Hh Ha ->. unfold read_size, double_map_key, map_key, blake2_128_concat.
  rewrite !length_app, !length_storage_prefix, !length_blake2_128, !length_encode, Hh, Ha. done.
Qed.
End Refinement.

(** ** A concrete store

    [twox_128] is two rounds of XXH64, with the seeds 0 and 1; written out for inputs
    of less than 32 bytes, which all the names are.  The digest of [blake2_128] does
    not matter, only that it has 16 bytes. *)
Definition prime1 : Z := 11400714785074694791.
Definition prime2 : Z := 14029467366897019727.
Definition prime3 : Z := 1609587929392839161.
Definition prime4 : Z := 9650029242287828579.
Definition prime5 : Z := 2870177450012600261.

Definition mul64 (a b : Z) : Z := wrapping 64 (a * b).
Definition rotl64 (a n : Z) : Z := wrapping 64 (Z.lor (Z.shiftl a n) (Z.shiftr a (64 - n))).

Definition xx_round (lane : Z) : Z := mul64 (rotl64 (mul64 lane prime2) 31) prime1.

Definition xx_byte (h b : Z) : Z := mul64 (rotl64 (Z.lxor h (mul64 b prime5)) 11) prime1.
Definition xx_four (h lane : Z) : Z :=
  wrapping 64 (mul64 (rotl64 (Z.lxor h (mul64 lane prime1)) 23) prime2 + prime3).
Definition xx_eight (h lane : Z) : Z :=
  wrapping 64 (mul64 (rotl64 (Z.lxor h (xx_round lane)) 27) prime1 + prime4).

(** The input in lanes of eight bytes, one of four, and single bytes. *)
Fixpoint xx_consume (fuel : nat) (h : Z) (bs : list Z) : Z :=
  match fuel with
  | O => h
  | S fuel' =>
      if decide (8 <= length bs)%nat then
        xx_consume fuel' (xx_eight h (from_le_bytes (take 8 bs))) (drop 8 bs)
      else if decide (4 <= length bs)%nat then
        xx_consume fuel' (xx_four h (from_le_bytes (take 4 bs))) (drop 4 bs)
      else fold_left xx_byte bs h
  end.

Definition xx_avalanche (h : Z) : Z :=
  let h := mul64 (Z.lxor h (Z.shiftr h 33)) prime2 in
  let h := mul64 (Z.lxor h (Z.shiftr h 29)) prime3 in
  Z.lxor h (Z.shiftr h 32).

Definition xxh64 (seed : Z) (bs : list Z) : Z :=
  xx_avalanche (xx_consume 8 (wrapping 64 (seed + prime5 + Z.of_nat (length bs))) bs).

Fixpoint bytes_of_string (s : string) : list Z :=
  match s with
  | EmptyString => []
  | String c s' => Z.of_N (Ascii.N_of_ascii c) :: bytes_of_string s'
  end.

Definition sample_twox_128 (s : string) : list Z :=
  to_le_bytes 8 (xxh64 0 (bytes_of_string s)) ++ to_le_bytes 8 (xxh64 1 (bytes_of_string s)).

(** The well-known prefix [26aa394eea5630e07c48ae0c9558cef7] of the system pallet. *)
Example twox_128_system :
  sample_twox_128 "System" = [38; 170; 57; 78; 234; 86; 48; 224; 124; 72; 174; 12; 149; 88; 206; 247].
Proof. vm_compute. reflexivity. Qed.

#[export] Instance sample_frame_storage : FrameStorage := {|
  twox_128 := sample_twox_128;
  blake2_128 bs := replicate 16 0;
  encode_uint n v := to_le_bytes n v;
  decode_uint n bs := if decide (n <= length bs)%nat then Some (from_le_bytes (take n bs)) else None;
|}.

(** A hash without collisions on some names. *)
Definition collision_free (f : string -> list Z) (l : list string) : bool :=
  let hashed := map (fun a => (a, f a)) l in
  forallb (fun p => forallb (fun q =>
    implb (bool_decide (p.2 = q.2)) (bool_decide (p.1 = q.1))) hashed) hashed.

Lemma collision_free_inj f l a b :
  collision_free f l = true -> a ∈ l -> b ∈ l -> f a = f b -> a = b.
Proof.
  unfold collision_free. intros Hc Ha Hb Heq. rewrite forallb_forall in Hc.
  rewrite list_elem_of_In in Ha, Hb. apply (in_map (fun a => (a, f a))) in Ha, Hb.
  specialize (Hc _ Ha). rewrite forallb_forall in Hc. specialize (Hc _ Hb). simpl in Hc.
  rewrite (bool_decide_true (f a = f b)) in Hc by done. by apply bool_decide_eq_true in Hc.
Qed.

Definition all_instances : list Instance :=
  [Instance0; Instance1; Instance2; Instance3; Instance4; Instance5; Instance6; Instance7; Instance8;
   Instance9; Instance10; Instance11; Instance12; Instance13; Instance14; Instance15; Instance16].
Definition all_names : list string :=
  map balances_name all_instances ++ map assets_name all_instances ++ ["PrecompileCallPermit"].
Definition all_items : list string := ["Approves"; "Nonces"].

Lemma slot_name slot : pallet_prefix (storage_instance slot) ∈ all_names.
Proof. destruct slot as [i|i|i|]; try destruct i; apply (bool_decide_unpack _); vm_compute; exact I. Qed.

Lemma slot_item slot : STORAGE_PREFIX (storage_instance slot) ∈ all_items.
Proof. destruct slot; apply (bool_decide_unpack _); vm_compute; exact I. Qed.

(** XXH64 itself does not collide on the names of the code. *)
Lemma twox_128_distinct :
  collision_free sample_twox_128 all_names = true /\ collision_free sample_twox_128 all_items = true.
Proof. split; vm_compute; reflexivity. Qed.

Lemma length_sample_twox_128 s : length (sample_twox_128 s) = 16%nat.
Proof. unfold sample_twox_128. by rewrite length_app, !length_to_le_bytes. Qed.

#[export] Instance sample_frame_storage_laws : FrameStorageLaws (H := sample_frame_storage).
Proof.
  split.
  - apply length_sample_twox_128.
  - done.
  - intros s t. exact (collision_free_inj sample_twox_128 all_names _ _ (proj1 twox_128_distinct) (slot_name s) (slot_name t)).
  - intros s t. exact (collision_free_inj sample_twox_128 all_items _ _ (proj2 twox_128_distinct) (slot_item s) (slot_item t)).
  - apply length_to_le_bytes.
  - intros n v Hv. simpl. rewrite decide_True by (by rewrite length_to_le_bytes).
    rewrite take_ge by (by rewrite length_to_le_bytes). by rewrite from_to_le_bytes, Z.mod_small.
Qed.

(** An address is its 20 bytes. *)
Abbreviation Address := (vec Z 20).

Fixpoint decode_bytes (n : nat) (bs : list Z) : option (vec Z n * list Z) :=
  match n with
  | O => Some ([#], bs)
  | S n' =>
      match bs with
      | [] => None
      | b :: bs' => '(v, rest) ← decode_bytes n' bs'; Some (b ::: v, rest)
      end
  end.

Lemma decode_bytes_app n (v : vec Z n) rest : decode_bytes n (vec_to_list v ++ rest) = Some (v, rest).
Proof. induction v as [|b n v IH]; simpl; [done|]. by rewrite IH. Qed.

#[export] Instance address_countable : Countable Address.
Proof.
  apply (inj_countable vec_to_list (fun bs => fst <$> decode_bytes 20 bs)).
  intros v. by rewrite <- (app_nil_r (vec_to_list v)), decode_bytes_app.
Defined.

#[export] Instance address_codec : Codec Address :=
  {| encode := vec_to_list; decode := decode_bytes 20 |}.

#[export] Instance address_codec_laws : CodecLaws Address.
Proof. split. apply decode_bytes_app. Qed.

#[export] Instance address_size : FixedSize Address := {| encoded_size := 20; length_encode := length_vec_to_list |}.

(** Two accounts, a chain whose store holds something else. *)
Definition alice : Address := vreplicate 20 10.
Definition bob : Address := vreplicate 20 11.
Definition sample_raw : Raw := {[ [1; 2; 3] := [4] ]}.
Definition no_tables : Tables (H160 := Address) (AccountId := Address) := {|
  balances _ := Erc20.mkState ∅ ∅ tt;
  assets _ := AssetsErc20.mkState ∅ tt;
  permits := CallPermit.mkState ∅ tt;
|}.

(** The same accounts in two instances, the assets precompile and call-permit. *)
Definition sample_accesses : list (Access (H160 := Address) (AccountId := Address)) :=
  [SetApprove Instance1 alice bob 100; SetApprove Instance10 alice bob 7; SetNonce Instance1 alice 1;
   SetAssetsNonce Instance1 bob alice 5; GetApprove Instance1 alice bob; GetApprove Instance10 alice bob;
   GetApprove Instance0 alice bob; GetNonce Instance1 alice; GetPermitNonce alice;
   SetPermitNonce alice 3; GetAssetsNonce Instance1 bob alice; GetPermitNonce alice; GetNonce Instance1 alice].

Lemma sample_tables : same_tables (tables_of 16 sample_raw) no_tables.
Proof. split; [intros i; destruct i; vm_compute; reflexivity..|vm_compute; reflexivity]. Qed.

Lemma storage_apart_witness :
  (accesses (access_raw 16) sample_accesses sample_raw).2
    = [None; None; None; None; Some 100; Some 7; None; Some 1; Some 0; None; Some 5; Some 3; Some 1] /\
  (accesses (access_raw 16) sample_accesses sample_raw).1 !! [1; 2; 3] = Some [4].
Proof.
  assert (Hf : Forall (access_fits 16) sample_accesses).
  { repeat constructor; vm_compute; congruence. }
  destruct (accesses (access_raw 16) sample_accesses sample_raw) as [raw out] eqn:Hraw.
  destruct (accesses access_tables sample_accesses no_tables) as [t out'] eqn:Ht.
  pose proof (storage_apart 16 sample_accesses _ _ _ _ _ _ Hf sample_tables Hraw Ht) as (-> & _ & Hfo).
  simpl. split; [apply (f_equal snd) in Ht; vm_compute in Ht; by rewrite <- Ht|].
  rewrite Hfo; [vm_compute; reflexivity|].
  intros slot [rest Heq]. apply (f_equal length) in Heq.
  rewrite length_app, length_storage_prefix in Heq. simpl in Heq. lia.
Defined.
