(* ===== verification/Weights.v ===== *)
(** * The weights of the pallets ([pallets/*/src/weights.rs])

    Each pallet declares what its calls and hooks cost in a trait [WeightInfo] with two
    implementations: [SubstrateWeight] charges storage accesses at the runtime's costs,
    the one for the unit type at those of RocksDB.  The arithmetic of weights is the
    interface [WeightOps], extended here. *)
From Stdlib Require Import ZArith Lia.
From stdpp Require Import prelude.
From S2P Require Import Prelude.
From S2P Require Import Interfaces.
From S2P Require AuthorMapping.
From S2P Require AuthorInherent.
From S2P Require ForeignAssets.
From S2P Require RandomnessHooks.
From S2P Require TemplateRuntime.

Local Open Scope Z_scope.

(** ** Building weights *)
Class WeightBuild (Weight : Type) := {
  from_parts : Z -> Z -> Weight;
  weight_saturating_mul : Weight -> Z -> Weight;
}.

Class WeightBuildLaws (Weight : Type) `{WeightOps Weight} `{WeightBuild Weight} : Prop := {
  ref_time_parts r p : fits 64 r -> fits 64 p -> ref_time (from_parts r p : Weight) = r;
  proof_size_parts r p : fits 64 r -> fits 64 p -> proof_size (from_parts r p : Weight) = p;
  ref_time_mul (w : Weight) n : fits 64 n ->
    ref_time (weight_saturating_mul w n) = saturating_mul 64 (ref_time w) n;
  proof_size_mul (w : Weight) n : fits 64 n ->
    proof_size (weight_saturating_mul w n) = saturating_mul 64 (proof_size w) n;
}.

(** [RuntimeDbWeight]: what a number of reads and of writes costs. *)
Record DbWeight (Weight : Type) := mkDbWeight { reads : Z -> Weight; writes : Z -> Weight }.
Arguments mkDbWeight {_} _ _.
Arguments reads {_} _ _.
Arguments writes {_} _ _.

(** The database charges [read] and [write] per access, and no proof size. *)
Record db_costs {Weight} `{WeightOps Weight} (db : DbWeight Weight) (read write : Z) : Prop := mkDbCosts {
  read_fits : fits 64 read;
  write_fits : fits 64 write;
  ref_time_reads n : fits 64 n -> ref_time (reads db n) = saturating_mul 64 read n;
  ref_time_writes n : fits 64 n -> ref_time (writes db n) = saturating_mul 64 write n;
  proof_size_reads n : fits 64 n -> proof_size (reads db n) = 0;
  proof_size_writes n : fits 64 n -> proof_size (writes db n) = 0;
}.

(** ** The traits [WeightInfo] *)
Record RandomnessWeightInfo (Weight : Type) := mkRandomnessWeightInfo {
  set_babe_randomness_results : Weight;
  on_initialize : Weight;
  request_randomness : Weight;
  prepare_fulfillment : Z -> Weight;
  finish_fulfillment : Weight;
  increase_fee : Weight;
  execute_request_expiration : Weight;
}.
Arguments set_babe_randomness_results {_} _.
Arguments on_initialize {_} _.
Arguments request_randomness {_} _.
Arguments prepare_fulfillment {_} _ _.
Arguments finish_fulfillment {_} _.
Arguments increase_fee {_} _.
Arguments execute_request_expiration {_} _.

Record AuthorMappingWeightInfo (Weight : Type) := mkAuthorMappingWeightInfo {
  add_association : Weight;
  update_association : Weight;
  clear_association : Weight;
  remove_keys : Weight;
  set_keys : Weight;
}.
Arguments add_association {_} _.
Arguments update_association {_} _.
Arguments clear_association {_} _.
Arguments remove_keys {_} _.
Arguments set_keys {_} _.

Record ForeignAssetWeightInfo (Weight : Type) := mkForeignAssetWeightInfo {
  create_foreign_asset : Weight;
  change_existing_asset_type : Weight;
  remove_existing_asset_type : Weight;
  destroy_foreign_asset : Weight;
}.
Arguments create_foreign_asset {_} _.
Arguments change_existing_asset_type {_} _.
Arguments remove_existing_asset_type {_} _.
Arguments destroy_foreign_asset {_} _.

Record SlotFilterWeightInfo (Weight : Type) := mkSlotFilterWeightInfo { set_eligible : Weight }.
Arguments set_eligible {_} _.

Record AuthorInherentWeightInfo (Weight : Type) := mkAuthorInherentWeightInfo {
  kick_off_authorship_validation : Weight;
}.
Arguments kick_off_authorship_validation {_} _.

Record RelayRootsWeightInfo (Weight : Type) := mkRelayRootsWeightInfo { set_relay_storage_root : Weight }.
Arguments set_relay_storage_root {_} _.

Section Weights.
Context {Weight : Type} `{WeightOps Weight} `{WeightBuild Weight}.
(** [T::DbWeight::get()] and [RocksDbWeight::get()] *)
Context (TDbWeight RocksDbWeight : DbWeight Weight).

#[local] Infix "⊞" := weight_saturating_add (at level 50, left associativity).

(** ** [SubstrateWeight<T>] *)
Definition randomness_SubstrateWeight : RandomnessWeightInfo Weight := {|
  set_babe_randomness_results := from_parts 22704000 9405 ⊞ reads TDbWeight 4 ⊞ writes TDbWeight 3;
  on_initialize := from_parts 1191969000 14980 ⊞ reads TDbWeight 5 ⊞ writes TDbWeight 2;
  request_randomness := from_parts 57236000 12448 ⊞ reads TDbWeight 4 ⊞ writes TDbWeight 5;
  prepare_fulfillment x := from_parts 13619602 7754 ⊞
    weight_saturating_mul (from_parts 301030 0) x ⊞ reads TDbWeight 2;
  finish_fulfillment := from_parts 43277000 11049 ⊞ reads TDbWeight 3 ⊞ writes TDbWeight 4;
  increase_fee := from_parts 40462000 10429 ⊞ reads TDbWeight 3 ⊞ writes TDbWeight 3;
  execute_request_expiration := from_parts 45761000 14704 ⊞ reads TDbWeight 4 ⊞ writes TDbWeight 4;
|}.

Definition author_mapping_SubstrateWeight : AuthorMappingWeightInfo Weight := {|
  add_association := from_parts 39892000 7798 ⊞ reads TDbWeight 2 ⊞ writes TDbWeight 3;
  update_association := from_parts 30445000 6590 ⊞ reads TDbWeight 2 ⊞ writes TDbWeight 3;
  clear_association := from_parts 40798000 7952 ⊞ reads TDbWeight 2 ⊞ writes TDbWeight 3;
  remove_keys := from_parts 44830000 11605 ⊞ reads TDbWeight 3 ⊞ writes TDbWeight 3;
  set_keys := from_parts 34125000 10243 ⊞ reads TDbWeight 3 ⊞ writes TDbWeight 3;
|}.

Definition foreign_asset_SubstrateWeight : ForeignAssetWeightInfo Weight := {|
  create_foreign_asset := from_parts 17366000 3673 ⊞ reads TDbWeight 2 ⊞ writes TDbWeight 3;
  change_existing_asset_type := from_parts 14153000 3654 ⊞ reads TDbWeight 1 ⊞ writes TDbWeight 3;
  remove_existing_asset_type := from_parts 12184000 3654 ⊞ reads TDbWeight 1 ⊞ writes TDbWeight 2;
  destroy_foreign_asset := from_parts 18635000 3894 ⊞ reads TDbWeight 2 ⊞ writes TDbWeight 3;
|}.

Definition slot_filter_SubstrateWeight : SlotFilterWeightInfo Weight := {|
  set_eligible := from_parts 12823000 0 ⊞ writes TDbWeight 1;
|}.

Definition author_inherent_SubstrateWeight : AuthorInherentWeightInfo Weight := {|
  kick_off_authorship_validation := from_parts 26398000 10418 ⊞ reads TDbWeight 6 ⊞ writes TDbWeight 2;
|}.

Definition relay_roots_SubstrateWeight : RelayRootsWeightInfo Weight := {|
  set_relay_storage_root := from_parts 35800000 3987 ⊞ reads TDbWeight 3 ⊞ writes TDbWeight 3;
|}.

(** ** [impl WeightInfo for ()] *)
Definition randomness_unit : RandomnessWeightInfo Weight := {|
  set_babe_randomness_results := from_parts 22704000 9405 ⊞ reads RocksDbWeight 4 ⊞ writes RocksDbWeight 3;
  on_initialize := from_parts 1191969000 14980 ⊞ reads RocksDbWeight 5 ⊞ writes RocksDbWeight 2;
  request_randomness := from_parts 57236000 12448 ⊞ reads RocksDbWeight 4 ⊞ writes RocksDbWeight 5;
  prepare_fulfillment x := from_parts 13619602 7754 ⊞
    weight_saturating_mul (from_parts 301030 0) x ⊞ reads RocksDbWeight 2;
  finish_fulfillment := from_parts 43277000 11049 ⊞ reads RocksDbWeight 3 ⊞ writes RocksDbWeight 4;
  increase_fee := from_parts 40462000 10429 ⊞ reads RocksDbWeight 3 ⊞ writes RocksDbWeight 3;
  execute_request_expiration := from_parts 45761000 14704 ⊞ reads RocksDbWeight 4 ⊞ writes RocksDbWeight 4;
|}.

Definition author_mapping_unit : AuthorMappingWeightInfo Weight := {|
  add_association := from_parts 39892000 7798 ⊞ reads RocksDbWeight 2 ⊞ writes RocksDbWeight 3;
  update_association := from_parts 30445000 6590 ⊞ reads RocksDbWeight 2 ⊞ writes RocksDbWeight 3;
  clear_association := from_parts 40798000 7952 ⊞ reads RocksDbWeight 2 ⊞ writes RocksDbWeight 3;
  remove_keys := from_parts 44830000 11605 ⊞ reads RocksDbWeight 3 ⊞ writes RocksDbWeight 3;
  set_keys := from_parts 34125000 10243 ⊞ reads RocksDbWeight 3 ⊞ writes RocksDbWeight 3;
|}.

Definition foreign_asset_unit : ForeignAssetWeightInfo Weight := {|
  create_foreign_asset := from_parts 17366000 3673 ⊞ reads RocksDbWeight 2 ⊞ writes RocksDbWeight 3;
  change_existing_asset_type := from_parts 14153000 3654 ⊞ reads RocksDbWeight 1 ⊞ writes RocksDbWeight 3;
  remove_existing_asset_type := from_parts 12184000 3654 ⊞ reads RocksDbWeight 1 ⊞ writes RocksDbWeight 2;
  destroy_foreign_asset := from_parts 18635000 3894 ⊞ reads RocksDbWeight 2 ⊞ writes RocksDbWeight 3;
|}.

Definition slot_filter_unit : SlotFilterWeightInfo Weight := {|
  set_eligible := from_parts 12823000 0 ⊞ writes RocksDbWeight 1;
|}.

Definition author_inherent_unit : AuthorInherentWeightInfo Weight := {|
  kick_off_authorship_validation := from_parts 26398000 10418 ⊞ reads RocksDbWeight 6 ⊞ writes RocksDbWeight 1;
|}.

Definition relay_roots_unit : RelayRootsWeightInfo Weight := {|
  set_relay_storage_root := from_parts 35800000 3987 ⊞ reads RocksDbWeight 3 ⊞ writes RocksDbWeight 3;
|}.

(** ** What the calls and hooks of the pallets declare
 *)

(** [RuntimeDbWeight::reads_writes] *)
Definition reads_writes (db : DbWeight Weight) (r w : Z) : Weight := reads db r ⊞ writes db w.

Definition author_mapping_weight {NimbusId} (W : AuthorMappingWeightInfo Weight)
    (c : AuthorMapping.Call NimbusId) : Weight :=
  match c with
  | AuthorMapping.add_association _ => add_association W
  | AuthorMapping.update_association _ _ => update_association W
  | AuthorMapping.clear_association _ => clear_association W
  | AuthorMapping.remove_keys => remove_keys W
  | AuthorMapping.set_keys _ => set_keys W
  end.

Definition foreign_asset_weight {A I F} (W : ForeignAssetWeightInfo Weight)
    (c : ForeignAssets.Call A I F) : Weight :=
  match c with
  | ForeignAssets.create_foreign_asset_call _ _ _ _ _ => create_foreign_asset W
  | ForeignAssets.change_existing_asset_type_call _ _ => change_existing_asset_type W
  | ForeignAssets.remove_existing_asset_type_call _ => remove_existing_asset_type W
  | ForeignAssets.destroy_foreign_asset_call _ => destroy_foreign_asset W
  end.

Definition author_inherent_weight (W : AuthorInherentWeightInfo Weight) (c : AuthorInherent.Call) : Weight :=
  match c with AuthorInherent.kick_off_authorship_validation_call => kick_off_authorship_validation W end.

Definition randomness_inherent_weight (W : RandomnessWeightInfo Weight) (c : RandomnessHooks.Call) : Weight :=
  match c with RandomnessHooks.set_babe_randomness_results_call => set_babe_randomness_results W end.

(** [on_initialize] of the randomness pallet: the first block is cheaper. *)
Definition randomness_hook_weight (W : RandomnessWeightInfo Weight) (not_first_block : bool) : Weight :=
  if not_first_block then on_initialize W else reads_writes TDbWeight 1 2.

Definition author_inherent_hook_weight : Weight := reads_writes TDbWeight 1 2.

Definition slot_filter_hook_weight : Weight := writes TDbWeight 1.

Definition relay_roots_hook_weight (W : RelayRootsWeightInfo Weight) : Weight := set_relay_storage_root W.

Definition emergency_hook_weight : Weight := reads_writes TDbWeight 1 1.

Definition consensus_hook_weight : Weight := reads_writes TDbWeight 1 1.
End Weights.

(** ** Lemmas *)
Section Lemmas.
Context {Weight : Type} `{!WeightOps Weight} `{!WeightLaws Weight}.
Context `{!WeightBuild Weight} `{!WeightBuildLaws Weight}.
Context (db : DbWeight Weight) (read write : Z) (Hdb : db_costs db read write).

Abbreviation cost t p r w :=
  (weight_saturating_add (weight_saturating_add (from_parts t p) (reads db r)) (writes db w)).

Lemma saturating_sum a b c :
  0 <= a -> 0 <= b -> 0 <= c ->
  saturating_add 64 (saturating_add 64 a (Z.min b (umax 64))) (Z.min c (umax 64)) = Z.min (a + b + c) (umax 64).
Proof. unfold saturating_add. pose proof (umax_nonneg 64 ltac:(done)). lia. Qed.

(** A declared weight: saturated only once, at the end. *)
Lemma cost_ref_time t p r w :
  fits 64 t -> fits 64 p -> fits 64 r -> fits 64 w ->
  ref_time (cost t p r w) = Z.min (t + read * r + write * w) (umax 64).
Proof.
  intros Ht Hp Hr Hw. rewrite !ref_time_add, ref_time_parts by done.
  rewrite (ref_time_reads db read write Hdb), (ref_time_writes db read write Hdb) by done.
  unfold saturating_mul. pose proof (read_fits db read write Hdb) as Hrd. pose proof (write_fits db read write Hdb) as Hwr.
  unfold fits in *.
  apply saturating_sum; [lia|apply Z.mul_nonneg_nonneg; lia..].
Qed.

Lemma cost_proof_size t p r w :
  fits 64 t -> fits 64 p -> fits 64 r -> fits 64 w -> proof_size (cost t p r w) = p.
Proof.
  intros Ht Hp Hr Hw. rewrite !proof_size_add, proof_size_parts by done.
  rewrite (proof_size_reads db read write Hdb), (proof_size_writes db read write Hdb) by done.
  unfold saturating_add, fits in *. change (umax 64) with 18446744073709551615 in *. lia.
Qed.

Lemma db_ref_time r w :
  fits 64 r -> fits 64 w ->
  ref_time (reads_writes db r w) = Z.min (read * r + write * w) (umax 64).
Proof.
  intros Hr Hw. unfold reads_writes. rewrite ref_time_add.
  rewrite (ref_time_reads db read write Hdb), (ref_time_writes db read write Hdb) by done.
  unfold saturating_add, saturating_mul. pose proof (read_fits db read write Hdb) as Hrd.
  pose proof (write_fits db read write Hdb) as Hwr.
  pose proof (saturating_sum 0 (read * r) (write * w)) as Hsum. unfold saturating_add, fits in *.
  pose proof (Z.mul_nonneg_nonneg read r). pose proof (Z.mul_nonneg_nonneg write w). lia.
Qed.

(** The two implementations of every trait agree over the same database, but for that of
    the author inherent: for the unit type one write less is charged. *)
Theorem weights_agree :
  randomness_SubstrateWeight db = randomness_unit db /\
  author_mapping_SubstrateWeight db = author_mapping_unit db /\
  foreign_asset_SubstrateWeight db = foreign_asset_unit db /\
  slot_filter_SubstrateWeight db = slot_filter_unit db /\
  relay_roots_SubstrateWeight db = relay_roots_unit db /\
  (26398000 + read * 6 + write * 2 <= umax 64 ->
   ref_time (kick_off_authorship_validation (author_inherent_SubstrateWeight db)) =
   ref_time (kick_off_authorship_validation (author_inherent_unit db)) + write).
Proof.
  split_and!; try reflexivity. intros Hs. simpl.
  rewrite !cost_ref_time by done. pose proof (write_fits db read write Hdb) as Hwr. unfold fits in *. lia.
Qed.

(** Preparing the fulfilment of a request for more words costs more, and nothing
    overflows for the words a request can ask for. *)
Theorem prepare_fulfillment_weight x :
  0 <= x <= umax 8 -> 2 * read <= 10 ^ 12 ->
  ref_time (prepare_fulfillment (randomness_SubstrateWeight db) x) = 13619602 + 301030 * x + 2 * read /\
  proof_size (prepare_fulfillment (randomness_SubstrateWeight db) x) = 7754.
Proof.
  intros Hx Hr. assert (Hf : fits 64 x) by (unfold fits; change (umax 8) with 255 in Hx;
    change (umax 64) with 18446744073709551615; lia).
  simpl. rewrite !ref_time_add, !proof_size_add, ref_time_mul, proof_size_mul, !ref_time_parts, !proof_size_parts by done.
  rewrite (ref_time_reads db read write Hdb), (proof_size_reads db read write Hdb) by done.
  pose proof (read_fits db read write Hdb) as Hrd.
  unfold saturating_add, saturating_mul, fits in *. change (umax 8) with 255 in Hx.
  change (umax 64) with 18446744073709551615 in *. lia.
Qed.

(** What a block of the template runtime must spend on authorship (the hooks of
    author-inherent, author-slot-filter and the consensus hook, and the mandatory inherent)
    takes, at the documented costs of RocksDB, less than a five-hundredth part of the block's
    time and less than the twentieth part that its limits assume for initialisation. *)
Theorem template_authorship_weight (MAX_POV_SIZE : Z) :
  read = 25000 * 1000 -> write = 100000 * 1000 ->
  let spent := ref_time (author_inherent_hook_weight db) + ref_time (slot_filter_hook_weight db)
    + ref_time (consensus_hook_weight db)
    + ref_time (author_inherent_weight (author_inherent_unit db) AuthorInherent.kick_off_authorship_validation_call) in
  spent = 726398000 /\
  500 * spent < (TemplateRuntime.MAXIMUM_BLOCK_WEIGHT (10 ^ 12) MAX_POV_SIZE).1 /\
  100 * spent < TemplateRuntime.AVERAGE_ON_INITIALIZE_RATIO *
    (TemplateRuntime.MAXIMUM_BLOCK_WEIGHT (10 ^ 12) MAX_POV_SIZE).1.
Proof.
  intros Hr Hw. simpl. unfold author_inherent_hook_weight, slot_filter_hook_weight, consensus_hook_weight.
  rewrite !db_ref_time by done. rewrite cost_ref_time by done. rewrite (ref_time_writes _ _ _ Hdb) by done.
  unfold saturating_mul. clear Hdb. subst read write. split_and!; reflexivity.
Qed.
End Lemmas.

(** ** Concrete weights and the costs of RocksDB *)
#[local] Instance pair_weight_build : WeightBuild PairWeight := {|
  from_parts r p := (r, p);
  weight_saturating_mul w n :=
    (saturating_mul 64 (u64_clamp w.1) n, saturating_mul 64 (u64_clamp w.2) n);
|}.

#[local] Instance pair_weight_build_laws : WeightBuildLaws PairWeight.
Proof.
  split; simpl; intros; try (by apply u64_clamp_id); apply u64_clamp_id; unfold saturating_mul, fits in *.
  - pose proof (u64_clamp_fits w.1) as Hw. unfold fits in Hw. split; [|lia].
    apply Z.min_glb; [apply Z.mul_nonneg_nonneg|]; lia.
  - pose proof (u64_clamp_fits w.2) as Hw. unfold fits in Hw. split; [|lia].
    apply Z.min_glb; [apply Z.mul_nonneg_nonneg|]; lia.
Qed.

Definition sample_db : DbWeight PairWeight :=
  mkDbWeight (fun n => (saturating_mul 64 25000000 n, 0)) (fun n => (saturating_mul 64 100000000 n, 0)).

Lemma sample_db_costs : db_costs sample_db 25000000 100000000.
Proof.
  split; try done; unfold sample_db; simpl; intros n Hn; apply u64_clamp_id; unfold saturating_mul, fits in *; lia.
Qed.

Example sample_authorship : 500 * 726398000 < (TemplateRuntime.MAXIMUM_BLOCK_WEIGHT (10 ^ 12) 5).1.
Proof.
  destruct (template_authorship_weight sample_db 25000000 100000000 sample_db_costs 5 eq_refl eq_refl) as (<- & H & _).
  exact H.
Qed.
