(* ===== verification/Benchmarks.v ===== *)
(** * The benchmarks of the pallets ([pallets/*/src/benchmarks.rs])

    A benchmark prepares the storage, runs a call or hook once, which is what is measured
    for [weights.rs], and verifies the outcome.  Here each is a handler over the pallet's
    own storage; a failed assertion is a panic, a failed call is an error.  The theorems
    say for which configurations the benchmarks of a pallet run through: only then are
    its weights those of the calls they are declared for. *)
From Stdlib Require Import ZArith Lia.
From stdpp Require Import prelude gmap fin_maps.
From S2P Require Import Prelude.
From S2P Require Import Interfaces.
From S2P Require Import NimbusPrimitives.
From S2P Require AuthorMapping.
From S2P Require AuthorInherent.
From S2P Require SlotFilter.
From S2P Require ForeignAssets.
From S2P Require RelayRoots.
From S2P Require Randomness.
From S2P Require RandomnessHooks.

Local Open Scope Z_scope.

(** ** What benchmarks need of the runtime *)

(** [assert_ok!(m)] and [assert!(m.is_ok())]; [_] discards the result. *)
Definition assert_ok {S E A} (m : M S E A) : M S E A :=
  r ← attempt m;
  match r with inr a => mret a | inl _ => panic end.

Definition ignore_result {S E A} (m : M S E A) : M S E unit :=
  _ ← attempt m; mret tt.

(** [Currency::make_free_balance_be], and the amount of the imbalance that
    [Currency::issue] returns; dropping the imbalance undoes the issuance. *)
Class BenchCurrency (A L : Type) := {
  make_free_balance_be : L -> A -> Z -> L;
  issue : L -> Z -> Z;
  total_issuance : L -> Z;
  free : L -> A -> Z;
}.

Class BenchCurrencyLaws (A L : Type) `{EqDecision A} `{BenchCurrency A L} (existential_deposit : Z) : Prop := {
  make_free_spec c a v b : existential_deposit <= v ->
    free (make_free_balance_be c a v) b = (if decide (a = b) then v else free c b);
  make_issuance c a v : existential_deposit <= v ->
    total_issuance (make_free_balance_be c a v : L) = total_issuance c + v - free c a;
  issue_spec (c : L) v : 0 <= v -> total_issuance c + v <= umax 128 -> issue c v = v;
}.

Lemma runs_assert_ok {S E A} (m : M S E A) Q s : runs (assert_ok m) Q s <-> runs m Q s.
Proof. unfold runs, assert_ok, mbind, M_bind, attempt. by destruct (m s). Qed.

Lemma runs_and {S E A} (m : M S E A) (P Q : A -> S -> Prop) s :
  runs m P s -> runs m Q s -> runs m (fun a s' => P a s' /\ Q a s') s.
Proof. unfold runs. by destruct (m s). Qed.

Lemma runs_ignore_Ok {S E A} (m : M S E A) (Q : unit -> S -> Prop) s :
  runs m (fun _ => Q tt) s -> runs (ignore_result m) Q s.
Proof. unfold runs, ignore_result, mbind, M_bind, attempt. by destruct (m s). Qed.

(** Run a benchmark step by step. *)
Ltac run_step :=
  match goal with
  | |- runs (_ ≫= _) _ _ => apply runs_bind
  | |- runs (assert_ok _) _ _ => apply runs_assert_ok
  | |- runs (transactional _) _ _ => apply runs_transactional
  | |- runs (gets _) _ _ => red; simpl
  | |- runs (modify _) _ _ => red; simpl
  | |- runs (mret _) _ _ => red; simpl
  | |- runs (expect _) _ _ => apply runs_expect
  | |- runs (assert _) _ _ => apply runs_assert
  | |- runs (ensure _ _) _ _ => apply runs_ensure
  | |- runs (ok_or _ _) _ _ => apply runs_ok_or
  end.

(** ** The author-mapping pallet *)
#[local] Existing Instance AuthorMapping.mapping_keys_lookup.

Section AuthorMappingBenchmarks.
Context {Origin AccountId NimbusId Keys L : Type}.
Context `{Countable AccountId} `{Countable NimbusId} `{EqDecision Keys}.
Context `{!Codec NimbusId} `{!Codec Keys} `{!ReservableCurrency AccountId L} `{!BenchCurrency AccountId L}.
Context (T : AuthorMapping.Config Origin AccountId NimbusId Keys).
(** the existential deposit, [account], [RawOrigin::Signed], the build's overflow checks *)
Context (ExistentialDeposit : Z) (user : AccountId) (Signed : AccountId -> Origin) (oc : bool).

Abbreviation State := (AuthorMapping.State AccountId NimbusId Keys L).
Abbreviation Mo := (M State (dispatch_error AuthorMapping.Error unit)).

(** [create_funded_user] *)
Definition create_funded_user : Mo AccountId :=
  amount ← expect (op_add oc 128 ExistentialDeposit (AuthorMapping.DepositAmount T));
  modify (fun s => AuthorMapping.set_currency
    (make_free_balance_be (AuthorMapping.currency s) user amount) s) ;;
  peek ← gets (fun s => issue (A := AccountId) (AuthorMapping.currency s) amount);
  assert (bool_decide (peek = amount)) ;;
  mret user.

(** [nimbus_id] *)
Definition nimbus_id (seed : Z) : Mo NimbusId := expect (fst <$> decode (replicate 32 seed)).

Abbreviation dispatch origin c := (transactional (AuthorMapping.dispatch T origin c : Mo unit)).

Definition bench_add_association : Mo unit :=
  caller ← create_funded_user;
  id ← nimbus_id 1;
  dispatch (Signed caller) (AuthorMapping.add_association id) ;;
  a ← gets (AuthorMapping.account_id_of id);
  assert (bool_decide (a = Some caller)).

Definition bench_update_association : Mo unit :=
  caller ← create_funded_user;
  first_id ← nimbus_id 1;
  second_id ← nimbus_id 2;
  assert_ok (AuthorMapping.dispatch T (Signed caller) (AuthorMapping.add_association first_id)) ;;
  dispatch (Signed caller) (AuthorMapping.update_association first_id second_id) ;;
  a ← gets (AuthorMapping.account_id_of first_id);
  assert (bool_decide (a = None)) ;;
  b ← gets (AuthorMapping.account_id_of second_id);
  assert (bool_decide (b = Some caller)).

Definition bench_clear_association : Mo unit :=
  caller ← create_funded_user;
  first_id ← nimbus_id 1;
  assert_ok (AuthorMapping.dispatch T (Signed caller) (AuthorMapping.add_association first_id)) ;;
  dispatch (Signed caller) (AuthorMapping.clear_association first_id) ;;
  a ← gets (AuthorMapping.account_id_of first_id);
  assert (bool_decide (a = None)).

Definition bench_remove_keys : Mo unit :=
  caller ← create_funded_user;
  id ← nimbus_id 1;
  third ← nimbus_id 3;
  let keys := AuthorMapping.keys_from T third in
  assert_ok (AuthorMapping.dispatch T (Signed caller)
    (AuthorMapping.set_keys (AuthorMapping.keys_wrapper id keys))) ;;
  dispatch (Signed caller) AuthorMapping.remove_keys ;;
  a ← gets (AuthorMapping.account_id_of id);
  assert (bool_decide (a = None)) ;;
  b ← gets (AuthorMapping.nimbus_id_of caller);
  assert (bool_decide (b = None)).

Definition bench_set_keys : Mo unit :=
  caller ← create_funded_user;
  id ← nimbus_id 2;
  third ← nimbus_id 3;
  let keys := AuthorMapping.keys_from T third in
  dispatch (Signed caller) (AuthorMapping.set_keys (AuthorMapping.keys_wrapper id keys)) ;;
  a ← gets (AuthorMapping.account_id_of id);
  assert (bool_decide (a = Some caller)) ;;
  k ← gets (AuthorMapping.keys_of id);
  assert (bool_decide (k = Some keys)).

(** [KeysLookup::set_keys]: without a deposit and without the reverse lookup. *)
Definition mapping_set_keys (id : NimbusId) (account : AccountId) (keys : Keys) : State -> State :=
  AuthorMapping.set_mapping <[id := AuthorMapping.mkInfo account 0 keys]>.

Lemma mapping_set_keys_spec id account keys s :
  lookup_keys (mapping_set_keys id account keys s) id = Some keys /\
  (AuthorMapping.MappingWithDeposit s !! id = None -> AuthorMapping.wf s ->
   AuthorMapping.wf (mapping_set_keys id account keys s)).
Proof.
  split.
  { unfold lookup_keys, AuthorMapping.mapping_keys_lookup, AuthorMapping.keys_of. simpl. by rewrite lookup_insert_eq. }
  intros Hn [Hl Hd Hb]. split; simpl.
  - intros a n Ha. apply Hl in Ha. unfold AuthorMapping.account_id_of in *. simpl.
    destruct (decide (id = n)) as [->|]; [by rewrite Hn in Ha|by rewrite lookup_insert_ne].
  - intros n i [[<- <-]|[_ Hi]]%lookup_insert_Some; [done|by eapply Hd].
  - intros a. unfold AuthorMapping.deposits_of in *. simpl. rewrite map_sum_insert by done. simpl.
    specialize (Hb a). case_decide; lia.
Qed.

Definition author_mapping_benchmarks : list (Mo unit) :=
  [bench_add_association; bench_update_association; bench_clear_association; bench_remove_keys;
   bench_set_keys].

(** *** They run through *)
Context `{!CodecLaws NimbusId} `{!CodecLaws Keys} `{!BenchCurrencyLaws AccountId L ExistentialDeposit}.
Context (signed : forall a, AuthorMapping.ensure_signed T (Signed a) = Some a).
(** a [NimbusId] is its 32 bytes *)
Context (id_bytes : forall seed, 0 <= seed < 256 -> exists n : NimbusId, encode n = replicate 32 seed).
(** keys are encoded in as many bytes as the types have in memory *)
Context (keys_fit : forall (n : NimbusId) k, length (AuthorMapping.keys_wrapper n k) = AuthorMapping.keys_size T).
(** who has more than the existential deposit can reserve the rest *)
Context (reserve_free : forall (c : L) a v,
  0 <= v -> ExistentialDeposit + v <= free c a -> is_Some (reserve c a v)).
Context (existential_nonneg : 0 <= ExistentialDeposit) (deposit_nonneg : 0 <= AuthorMapping.DepositAmount T).

Lemma decode_id seed : 0 <= seed < 256 ->
  exists n, encode n = replicate 32 seed /\ fst <$> decode (A := NimbusId) (replicate 32 seed) = Some n.
Proof.
  intros Hs. destruct (id_bytes seed Hs) as [n Hn]. exists n. split; [done|].
  rewrite <- Hn, <- (app_nil_r (encode n)), decode_encode. done.
Qed.

Lemma runs_nimbus_id seed Q s : 0 <= seed < 256 ->
  (forall n, encode n = replicate 32 seed -> Q n s) -> runs (nimbus_id seed) Q s.
Proof.
  intros Hs HQ. apply runs_expect. destruct (decode_id seed Hs) as (n & Hn & Hd). eauto.
Qed.

(** The funded user: it can pay the deposit. *)
Lemma runs_create_funded_user Q s :
  total_issuance (A := AccountId) (AuthorMapping.currency s)
    - free (AuthorMapping.currency s) user
    + 2 * (ExistentialDeposit + AuthorMapping.DepositAmount T) <= umax 128 ->
  0 <= total_issuance (A := AccountId) (AuthorMapping.currency s) - free (AuthorMapping.currency s) user ->
  (forall c, is_Some (reserve c user (AuthorMapping.DepositAmount T)) ->
    Q user (AuthorMapping.set_currency c s)) ->
  runs create_funded_user Q s.
Proof.
  intros Hi Hi' HQ. unfold create_funded_user. run_step. run_step.
  rewrite op_add_exact by (unfold fits; lia). eexists; split; [done|].
  run_step. run_step. run_step. run_step. run_step. run_step.
  rewrite (issue_spec (A := AccountId) (existential_deposit := ExistentialDeposit)); [|lia|].
  - split; [by apply bool_decide_eq_true|]. run_step. apply HQ. apply reserve_free; [done|].
    rewrite (make_free_spec (existential_deposit := ExistentialDeposit)), decide_True by (done || lia). lia.
  - rewrite (make_issuance (existential_deposit := ExistentialDeposit)) by lia. lia.
Qed.

Lemma runs_signed a c Q s :
  runs (match c with
        | AuthorMapping.add_association n => AuthorMapping.register_keys T n a (AuthorMapping.keys_from T n)
        | AuthorMapping.update_association old new =>
            AuthorMapping.rotate_keys old new a (AuthorMapping.keys_from T new)
        | AuthorMapping.clear_association n => AuthorMapping.rm_keys n a
        | AuthorMapping.remove_keys => AuthorMapping.remove_keys_inner a
        | AuthorMapping.set_keys bytes => AuthorMapping.set_keys_inner T a bytes
        end : Mo unit) Q s ->
  runs (AuthorMapping.dispatch T (Signed a) c) Q s.
Proof. intros HQ. unfold AuthorMapping.dispatch. run_step. run_step. eauto. Qed.

Lemma runs_register n a k (Q : unit -> State -> Prop) s :
  AuthorMapping.MappingWithDeposit s !! n = None ->
  is_Some (reserve (AuthorMapping.currency s) a (AuthorMapping.DepositAmount T)) ->
  (forall c e, Q tt (AuthorMapping.mkState
     (<[n := AuthorMapping.mkInfo a (AuthorMapping.DepositAmount T) k]> (AuthorMapping.MappingWithDeposit s))
     (<[a := n]> (AuthorMapping.NimbusLookup s)) c e)) ->
  runs (AuthorMapping.register_keys T n a k) Q s.
Proof.
  intros Hn [c Hc] HQ. apply runs_Ok. do 2 eexists. split; [|by apply HQ].
  apply AuthorMapping.register_keys_Ok. eauto.
Qed.

Lemma runs_set_keys n a k (Q : unit -> State -> Prop) s :
  AuthorMapping.NimbusLookup s !! a = None ->
  runs (AuthorMapping.register_keys T n a k) Q s ->
  runs (AuthorMapping.set_keys_inner T a (AuthorMapping.keys_wrapper n k)) Q s.
Proof.
  intros Ha HQ. unfold AuthorMapping.set_keys_inner, AuthorMapping.keys_wrapper.
  run_step. run_step. split.
  { apply bool_decide_eq_true. apply keys_fit. }
  run_step. run_step. rewrite decode_encode. eexists; split; [done|].
  cbn beta iota. run_step. run_step. rewrite <- (app_nil_r (encode k)), decode_encode. eexists; split; [done|].
  cbn beta iota.
  run_step. run_step. unfold AuthorMapping.nimbus_id_of. by rewrite Ha.
Qed.

Lemma ids_differ n m i j :
  0 <= i < j -> encode n = replicate 32 i -> encode m = replicate 32 j -> (n : NimbusId) <> m.
Proof. intros Hij Hn Hm ->. rewrite Hn in Hm. injection Hm as ->. lia. Qed.

(** The registration of a first key by the funded user. *)
Ltac funded_user :=
  run_step; apply runs_create_funded_user; [done..|]; intros ? ?;
  repeat (run_step; apply runs_nimbus_id; [done|]; intros ? ?);
  run_step; run_step; apply runs_signed.

Ltac verify :=
  repeat run_step; repeat (split; [apply bool_decide_eq_true|]; repeat run_step); [..|done];
  unfold AuthorMapping.account_id_of, AuthorMapping.keys_of, AuthorMapping.nimbus_id_of; simpl;
  simplify_map_eq; try done.

(** Every benchmark runs through on a chain on which nothing is registered, whatever the
    deposit is. *)
Theorem author_mapping_benchmarks_run c bench :
  total_issuance (A := AccountId) c - free c user
    + 2 * (ExistentialDeposit + AuthorMapping.DepositAmount T) <= umax 128 ->
  0 <= total_issuance (A := AccountId) c - free c user ->
  bench ∈ author_mapping_benchmarks ->
  runs bench (fun _ _ => True) (AuthorMapping.empty_state c).
Proof.
  intros Hi Hi' Hin. unfold author_mapping_benchmarks in Hin. rewrite !elem_of_cons, elem_of_nil in Hin.
  destruct Hin as [->|[->|[->|[->|[->|[]]]]]].
  - unfold bench_add_association. funded_user. apply runs_register; [done..|]. intros c2 e. verify.
  - unfold bench_update_association. funded_user.
    match goal with H1 : encode ?n = _, H2 : encode ?m = _ |- _ =>
      assert (n <> m) by (eapply ids_differ; [|exact H1|exact H2]; lia) end.
    apply runs_register; [done..|]. intros c2 e. run_step. run_step. apply runs_signed. apply runs_Ok.
    do 2 eexists. split.
    { apply AuthorMapping.rotate_keys_Ok. eexists. simpl. split; [apply lookup_insert_eq|].
      split; [done|]. split; [right|done]. by rewrite lookup_insert_ne. }
    verify.
  - unfold bench_clear_association. funded_user. apply runs_register; [done..|]. intros c2 e.
    run_step. run_step. apply runs_signed. apply runs_Ok.
    do 2 eexists. split.
    { apply AuthorMapping.rm_keys_Ok. eexists. simpl. split; [apply lookup_insert_eq|done]. }
    verify.
  - unfold bench_remove_keys. funded_user. apply runs_set_keys; [done|].
    apply runs_register; [done..|]. intros c2 e.
    run_step. run_step. apply runs_signed. unfold AuthorMapping.remove_keys_inner.
    run_step. run_step. run_step. run_step. unfold AuthorMapping.nimbus_id_of. simpl.
    eexists. split; [apply lookup_insert_eq|]. apply runs_Ok. do 2 eexists. split.
    { apply AuthorMapping.rm_keys_Ok. eexists. simpl. split; [apply lookup_insert_eq|done]. }
    verify.
  - unfold bench_set_keys. funded_user. apply runs_set_keys; [done|].
    apply runs_register; [done..|]. intros c2 e. verify.
Qed.
End AuthorMappingBenchmarks.

(** ** The author-slot-filter pallet *)
Section SlotFilterBenchmarks.
Context {Origin AccountId Percent : Type} `{!EqDecision AccountId}.
Context (T : SlotFilter.Config Origin AccountId Percent) (Root : Origin).

Abbreviation State := (SlotFilter.State Percent).

Definition bench_set_eligible : M State (dispatch_error unit unit) unit :=
  let count := SlotFilter.new_unchecked 34 in
  transactional (SlotFilter.set_eligible T Root count) ;;
  n ← gets SlotFilter.eligible_count;
  assert (bool_decide (SlotFilter.get n = SlotFilter.get count)).

(** [get_authors] *)
Definition slot_filter_get_authors (sl : Z) (s : State) : option (list AccountId) :=
  fst <$> SlotFilter.compute_pseudo_random_subset T (SlotFilter.PotentialAuthors T) sl s.

Lemma set_eligible_benchmark s :
  runs bench_set_eligible (fun _ _ => True) s <-> SlotFilter.ensure_root T Root = true.
Proof.
  unfold bench_set_eligible, SlotFilter.set_eligible. rewrite runs_bind, runs_transactional, runs_bind, runs_ensure.
  split; [by intros [? _]|]. intros Hr. split; [done|]. repeat run_step. by split.
Qed.
End SlotFilterBenchmarks.

(** ** The author-inherent pallet *)

(** The parts of [CanAuthor] and [SlotBeacon] that exist for benchmarks; [None] is a panic. *)
Class BenchAuthors (W AuthorId : Type) := {
  get_authors : W -> Z -> option (list AuthorId);
  set_slot : Z -> W -> W;
}.

Section AuthorInherentBenchmarks.
Context {Origin W AuthorId : Type} `{!CanAuthor W AuthorId} `{!SlotBeacon W} `{!BenchAuthors W AuthorId}.
Context (T : AuthorInherent.Config Origin) (RawNone : Origin).

Abbreviation State := (AuthorInherent.State AuthorId).
Abbreviation Mo := (M State (dispatch_error AuthorInherent.Error unit)).

(** [set_eligible_author] *)
Definition set_eligible_author (w : W) (sl : Z) : Mo unit :=
  eligible_authors ← expect (get_authors w sl);
  match head eligible_authors with
  | Some author => modify (fun s => AuthorInherent.mkState (Some author) (AuthorInherent.InherentIncluded s))
  | None => mret tt
  end.

Definition bench_kick_off_authorship_validation (w : W) : Mo unit :=
  let w := set_slot 100 w in
  set_eligible_author w (slot w) ;;
  transactional (AuthorInherent.dispatch T w RawNone AuthorInherent.kick_off_authorship_validation_call).

(** *** When it runs through *)
Context (authors_eligible : forall w sl l a,
  get_authors w sl = Some l -> a ∈ l -> can_author w a sl = Some true).

(** The benchmark runs through exactly if the author check names an eligible author, or
    the author left in the storage happens to be eligible. *)
Theorem kick_off_benchmark w s :
  let w' := set_slot 100 w in
  runs (bench_kick_off_authorship_validation w) (fun _ s' => AuthorInherent.InherentIncluded s' = true) s <->
  AuthorInherent.ensure_none T RawNone = true /\
  exists l, get_authors w' (slot w') = Some l /\
    (l <> [] \/ exists a, AuthorInherent.Author s = Some a /\ can_author w' a (slot w') = Some true).
Proof.
  intros w'. unfold bench_kick_off_authorship_validation, set_eligible_author. cbv zeta. fold w'.
  rewrite !runs_bind, runs_expect.
  unfold AuthorInherent.dispatch, AuthorInherent.kick_off_authorship_validation, AuthorInherent.get, transactional.
  split.
  - intros (l & Hl & Hr). destruct l as [|a l]; simpl in Hr.
    + unfold runs in Hr. unfold_M. destruct (AuthorInherent.ensure_none T RawNone) eqn:Hn; [|done].
      split; [done|]. exists []. split; [done|]. right.
      destruct (AuthorInherent.Author s) as [a|]; [|done]. exists a. split; [done|].
      by destruct (can_author w' a (slot w')) as [[]|].
    + unfold runs in Hr. unfold_M. simpl in Hr. destruct (AuthorInherent.ensure_none T RawNone); [|done].
      split; [done|]. exists (a :: l). split; [done|]. by left.
  - intros (Hn & l & Hl & Ha). exists l. split; [done|]. unfold runs. unfold_M.
    destruct l as [|a l]; simpl.
    + destruct Ha as [?|(a & Ha & Hc)]; [done|]. rewrite Hn, Ha. cbn iota beta. by rewrite Hc.
    + rewrite Hn. simpl. by rewrite (authors_eligible _ _ _ a Hl) by left.
Qed.
End AuthorInherentBenchmarks.

(** With the slot filter as the author check the benchmark runs through wherever somebody
    may author; with any check that leaves [get_authors] at its default, such as the
    aura-style filter, it panics unless an author is left in the storage. *)
Section AuthorChecks.
Context {Origin Percent AccountId : Type} `{!EqDecision AccountId} `{!Codec Z}.
Context (F : SlotFilter.Config Origin AccountId Percent).

(** the filter's storage and a slot that benchmarks may set *)
Abbreviation Filtered := (SlotFilter.State Percent * Z)%type.
#[local] Instance filtered_can_author : CanAuthor Filtered AccountId :=
  fun w a sl => SlotFilter.slot_can_author F a sl w.1.
#[local] Instance filtered_slot : SlotBeacon Filtered := snd.
#[local] Instance filtered_authors : BenchAuthors Filtered AccountId := {|
  get_authors w sl := slot_filter_get_authors F sl w.1;
  set_slot sl w := (w.1, sl);
|}.

Lemma filtered_eligible (w : Filtered) sl l a :
  get_authors w sl = Some l -> a ∈ l -> can_author w a sl = Some true.
Proof.
  unfold get_authors, can_author. simpl. unfold filtered_can_author, SlotFilter.slot_can_author,
    slot_filter_get_authors. intros Hl Ha. destruct (SlotFilter.is_fake_author w.1); [done|].
  destruct (SlotFilter.compute_pseudo_random_subset _ _ _ _) as [[ch rest]|]; [|done].
  simpl in *. simplify_eq. by rewrite bool_decide_true.
Qed.

Lemma kick_off_benchmark_filtered (T : AuthorInherent.Config Origin) RawNone f sl s :
  AuthorInherent.ensure_none T RawNone = true -> SlotFilter.count_ok f ->
  SlotFilter.PotentialAuthors F <> [] ->
  runs (bench_kick_off_authorship_validation T RawNone ((f, sl) : Filtered))
    (fun _ s' => AuthorInherent.InherentIncluded s' = true) s.
Proof.
  intros Hn Hc Hp. apply kick_off_benchmark; [exact filtered_eligible|]. split; [done|].
  unfold SlotFilter.count_ok in Hc.
  destruct (SlotFilter.subset_spec F (SlotFilter.PotentialAuthors F) 100 f) as (ch & rest & Hs & _ & Hl); [lia|].
  exists ch. split; [exact (f_equal (fmap fst) Hs)|].
  left. intros ->. destruct (SlotFilter.PotentialAuthors F); [done|]. simpl in Hl. lia.
Qed.
End AuthorChecks.

Lemma kick_off_benchmark_default {Origin W AuthorId} `{!CanAuthor W AuthorId} `{!SlotBeacon W} (T : AuthorInherent.Config Origin) RawNone (next : Z -> W -> W) w :
  let authors : BenchAuthors W AuthorId := {| get_authors _ _ := Some []; set_slot := next |} in
  ~ runs (bench_kick_off_authorship_validation (BenchAuthors0 := authors) T RawNone w) (fun _ _ => True)
      (AuthorInherent.mkState None false).
Proof.
  intros authors Hr. unfold bench_kick_off_authorship_validation, runs, set_eligible_author, transactional,
    AuthorInherent.dispatch, AuthorInherent.kick_off_authorship_validation, AuthorInherent.get in Hr.
  unfold_M. simpl in Hr. by destruct (AuthorInherent.ensure_none T RawNone).
Qed.

(** ** The relay-storage-roots pallet *)
Lemma runs_for_each_modify {S E A} (f : A -> S -> S) (l : list A) (Q : unit -> S -> Prop) s :
  runs (E := E) (for_each (fun x => modify (f x)) l) Q s <-> Q tt (foldl (fun s x => f x s) s l).
Proof. revert s. induction l as [|x l IH]; intros s; [done|]. apply IH. Qed.

Section RelayRootsBenchmarks.
Context {H256 E : Type} `{!EqDecision H256} (MaxStorageRoots : Z) (default_hash : H256).

(** The pallet's storage and the relay chain state that its provider returns. *)
Abbreviation Rs := (RelayRoots.State H256 * (Z * H256))%type.
Abbreviation Mo := (M Rs E).

(** [RelaychainStateProvider::set_current_relay_chain_state] *)
Definition set_current_relay_chain_state (relay_state : Z * H256) : Mo unit :=
  modify (fun s => (s.1, relay_state)).

Definition measured_set_relay_storage_root : Mo unit :=
  modify (fun s => (RelayRoots.set_relay_storage_root MaxStorageRoots s.2.1 s.2.2 s.1, s.2)).

(** [fill_relay_storage_roots] *)
Definition fill_relay_storage_roots : Mo unit :=
  for_each (fun i =>
    set_current_relay_chain_state (i, default_hash) ;; measured_set_relay_storage_root)
    (seqZ 0 MaxStorageRoots) ;;
  len ← gets (fun s => length (RelayRoots.stored_keys s.1));
  assert (MaxStorageRoots <=? RelayRoots.len_u32 len).

Definition relay_roots_setup : Mo unit :=
  fill_relay_storage_roots ;; set_current_relay_chain_state (1000, default_hash).

Definition bench_set_relay_storage_root : Mo unit :=
  relay_roots_setup ;;
  measured_set_relay_storage_root ;;
  r ← gets (fun s => RelayRoots.RelayStorageRoot s.1 !! 1000);
  assert (bool_decide (r = Some default_hash)).

(** *** When it runs through, and what it measures *)
Context (max_u32 : 0 <= MaxStorageRoots < umax 32).

Definition fill_step (i : Z) (s : Rs) : Rs :=
  (RelayRoots.set_relay_storage_root MaxStorageRoots i default_hash s.1, (i, default_hash)).

(** The first [n] relay blocks are stored. *)
Definition filled (n : Z) (s : RelayRoots.State H256) : Prop :=
  RelayRoots.stored_keys s = seqZ 0 n /\
  forall k, RelayRoots.RelayStorageRoot s !! k = if decide (0 <= k < n) then Some default_hash else None.

Lemma fill_one n s : 0 <= n < MaxStorageRoots -> filled n s ->
  filled (n + 1) (RelayRoots.set_relay_storage_root MaxStorageRoots n default_hash s).
Proof.
  intros Hn [Hk Hm]. rewrite RelayRoots.insert_spec; [..|lia| |].
  - rewrite decide_False by (rewrite Hk, length_seqZ; lia). split; simpl.
    + rewrite Hk, seqZ_app by lia. by rewrite Z.add_0_l.
    + intros k. destruct (decide (n = k)) as [->|Hne].
      * rewrite lookup_insert_eq, decide_True by lia. done.
      * rewrite lookup_insert_ne, Hm by done. repeat case_decide; done || lia.
  - by rewrite Hm, decide_False by lia.
  - rewrite Hk, length_seqZ. lia.
Qed.

Lemma fill_all n r : 0 <= n <= MaxStorageRoots ->
  filled n (foldl (fun s i => fill_step i s) (RelayRoots.empty_state, r) (seqZ 0 n)).1.
Proof.
  intros Hn. replace n with (Z.of_nat (Z.to_nat n)) in * by lia.
  induction (Z.to_nat n) as [|k IH].
  - split; [done|]. intros i. rewrite decide_False by lia. done.
  - replace (Z.of_nat (S k)) with (Z.of_nat k + 1) in * by lia. rewrite seqZ_app, foldl_app by lia.
    apply fill_one; [lia|]. apply IH. lia.
Qed.

Lemma runs_setup Q r :
  (forall s, filled MaxStorageRoots s -> Q tt (s, (1000, default_hash))) ->
  runs relay_roots_setup Q (RelayRoots.empty_state, r).
Proof.
  intros HQ. unfold relay_roots_setup, fill_relay_storage_roots. run_step. run_step.
  apply (runs_for_each_modify fill_step). destruct (fill_all MaxStorageRoots r) as [Hk Hm]; [lia|].
  run_step. run_step. run_step. split.
  - apply Z.leb_le. rewrite Hk, length_seqZ. unfold RelayRoots.len_u32. case_match; lia.
  - apply HQ. by split.
Qed.

(** The oldest root makes way for that of block 1000. *)
Lemma insert_1000 s : 1 <= MaxStorageRoots <= 1000 -> filled MaxStorageRoots s ->
  let s' := RelayRoots.set_relay_storage_root MaxStorageRoots 1000 default_hash s in
  RelayRoots.RelayStorageRoot s' !! 1000 = Some default_hash /\ RelayRoots.RelayStorageRoot s' !! 0 = None.
Proof.
  intros Hm [Hk Hl]. rewrite RelayRoots.insert_spec; [..|lia| |].
  - rewrite Hk, decide_True by (rewrite length_seqZ; lia).
    rewrite seqZ_cons by lia. simpl. rewrite lookup_delete_ne, lookup_insert_eq by lia.
    by rewrite lookup_delete_eq.
  - by rewrite Hl, decide_False by lia.
  - rewrite Hk, length_seqZ. lia.
Qed.

(** With no room for a root none stays. *)
Lemma insert_none s : MaxStorageRoots = 0 -> filled 0 s ->
  RelayRoots.RelayStorageRoot (RelayRoots.set_relay_storage_root MaxStorageRoots 1000 default_hash s) !! 1000 = None.
Proof.
  intros -> [Hk Hl]. rewrite RelayRoots.insert_spec; [..|lia| |].
  - rewrite Hk. simpl. by rewrite lookup_delete_eq.
  - by rewrite Hl, decide_False by lia.
  - by rewrite Hk.
Qed.

(** The benchmark runs through exactly if the pallet may store a root at all.  It is the
    worst case it means to be, the storage full and the oldest root removed, only for a
    bound of at most 1000: beyond, relay block 1000 is already stored and what is measured
    returns at once. *)
Theorem relay_roots_benchmark r :
  (runs bench_set_relay_storage_root (fun _ _ => True) (RelayRoots.empty_state, r) <-> 1 <= MaxStorageRoots) /\
  (1 <= MaxStorageRoots -> runs relay_roots_setup (fun _ s =>
    Z.of_nat (length (RelayRoots.stored_keys s.1)) = MaxStorageRoots /\
    (runs (E := E) measured_set_relay_storage_root (fun _ s' => s' = s) s <-> 1000 < MaxStorageRoots))
    (RelayRoots.empty_state, r)).
Proof.
  split; [split|].
  - intros Hr. unfold bench_set_relay_storage_root in Hr. apply runs_bind in Hr.
    destruct (decide (1 <= MaxStorageRoots)) as [|Hmax]; [done|]. exfalso.
    assert (H0 : MaxStorageRoots = 0) by lia.
    assert (Hs : runs (E := E) relay_roots_setup (fun _ s => filled 0 s.1 /\ s.2 = (1000, default_hash))
      (RelayRoots.empty_state, r)) by (apply runs_setup; rewrite H0; by split).
    destruct (proj1 (runs_Ok _ _ _) (runs_and _ _ _ _ Hs Hr)) as (u & [s rs] & _ & [Hf Hrs] & Ha).
    simpl in *. subst rs. apply runs_bind in Ha. unfold runs at 1 in Ha. simpl in Ha.
    apply runs_bind, runs_assert in Ha as [Ha%bool_decide_eq_true _]. simpl in Ha.
    rewrite insert_none in Ha by done. discriminate Ha.
  - intros Hmax. unfold bench_set_relay_storage_root, measured_set_relay_storage_root.
    run_step. apply runs_setup. intros s Hs. repeat run_step.
    split; [|done]. apply bool_decide_eq_true. simpl. destruct (decide (MaxStorageRoots <= 1000)).
    + by apply insert_1000.
    + unfold RelayRoots.set_relay_storage_root. destruct Hs as [_ Hm]. by rewrite Hm, decide_True, Hm, decide_True by lia.
  - intros Hmax. apply runs_setup. intros s Hs. split; [cbn [fst]; rewrite (proj1 Hs), length_seqZ; lia|].
    unfold runs, measured_set_relay_storage_root, modify. simpl. split.
    + intros [= Heq]. destruct (decide (1000 < MaxStorageRoots)) as [|Hm]; [done|].
      destruct (insert_1000 s) as [_ H0]; [lia|done|]. rewrite Heq in H0. destruct Hs as [_ Hm'].
      rewrite Hm', decide_True in H0 by lia. done.
    + intros Hm. unfold RelayRoots.set_relay_storage_root. destruct Hs as [_ Hl]. by rewrite Hl, decide_True by lia.
Qed.
End RelayRootsBenchmarks.

(** ** The foreign-asset-creator pallet *)
Section ForeignAssetsBenchmarks.
Context {Origin AccountId AssetId ForeignAsset F X : Type}.
Context `{Countable AssetId} `{Countable ForeignAsset} `{!ForeignAssets.Fungibles AccountId AssetId ForeignAsset F X}.
Context (T : ForeignAssets.Config Origin).
(** [RawOrigin::Root], [account("manager", 0, 1)], the ids [0u16.into()] and [1u16.into()],
    [ForeignAsset::default()] and [Location::new(0, [GeneralIndex(0)]).into()] *)
Context (Root : Origin) (manager : AccountId) (id0 id1 : AssetId) (default_asset index_asset : ForeignAsset).

Abbreviation State := (ForeignAssets.State AssetId ForeignAsset F).
Abbreviation Mo := (M State (dispatch_error ForeignAssets.Error X)).
Abbreviation dispatch c := (transactional (ForeignAssets.dispatch T Root c : Mo unit)).

Definition bench_create_foreign_asset : Mo unit :=
  dispatch (ForeignAssets.create_foreign_asset_call default_asset id1 manager true 1) ;;
  a ← gets (ForeignAssets.convert_back id1);
  assert (bool_decide (a = Some default_asset)).

(** What the other benchmarks start with. *)
Definition setup_foreign_asset : Mo unit :=
  ForeignAssets.create_foreign_asset T Root index_asset id0 manager true 1.

Definition bench_change_existing_asset_type : Mo unit :=
  setup_foreign_asset ;;
  dispatch (ForeignAssets.change_existing_asset_type_call id0 default_asset) ;;
  a ← gets (ForeignAssets.convert_back id0);
  assert (bool_decide (a = Some default_asset)).

Definition bench_remove_existing_asset_type : Mo unit :=
  setup_foreign_asset ;;
  dispatch (ForeignAssets.remove_existing_asset_type_call id0) ;;
  a ← gets (ForeignAssets.convert_back id0);
  assert (bool_decide (a = None)).

Definition bench_destroy_foreign_asset : Mo unit :=
  setup_foreign_asset ;;
  dispatch (ForeignAssets.destroy_foreign_asset_call id0) ;;
  a ← gets (ForeignAssets.convert_back id0);
  assert (bool_decide (a = None)).

(** *** When they run through *)

(** On [x] an asset can be created, and its destruction started. *)
Context (x : F).
Context (creates : forall id fa, exists x',
  ForeignAssets.create (ForeignAsset := ForeignAsset) id manager true 1 x = Ok tt x' /\
  exists x'', ForeignAssets.start_destroy (AccountId := AccountId) (ForeignAsset := ForeignAsset) id
    (ForeignAssets.on_asset_created (AccountId := AccountId) (X := X) fa id 1 x') = Ok tt x'').

Abbreviation creator := (ForeignAssets.ForeignAssetCreatorOrigin T Root).
Abbreviation modifier := (ForeignAssets.ForeignAssetModifierOrigin T Root).
Abbreviation destroyer := (ForeignAssets.ForeignAssetDestroyerOrigin T Root).

Lemma runs_create fa id (Q : unit -> State -> Prop) :
  runs (ForeignAssets.create_foreign_asset T Root fa id manager true 1) Q (ForeignAssets.empty_state x) <->
  creator = true /\ exists x', ForeignAssets.create (ForeignAsset := ForeignAsset) id manager true 1 x = Ok tt x' /\
    Q tt (ForeignAssets.mkState {[id := fa]} {[fa := id]}
      (ForeignAssets.on_asset_created (AccountId := AccountId) (X := X) fa id 1 x')
      [ForeignAssets.ForeignAssetCreated id fa]).
Proof.
  unfold ForeignAssets.create_foreign_asset. rewrite runs_bind, runs_ensure.
  apply and_iff_compat_l. rewrite runs_bind. unfold runs at 1. simpl. rewrite runs_bind, runs_ensure.
  unfold ForeignAssets.call_fungibles, ForeignAssets.update_forward, ForeignAssets.update_reverse,
    ForeignAssets.call_hook, ForeignAssets.deposit_event, runs, zoom. unfold_M. simpl.
  destruct (creates id fa) as (x' & -> & _). split.
  - intros [_ HQ]. by exists x'.
  - intros (x2 & [= <-] & HQ). split; [by apply bool_decide_eq_true|done].
Qed.

(** Evaluate the measured call and the verification. *)
Ltac evaluate H :=
  unfold runs, transactional, ForeignAssets.dispatch, ForeignAssets.change_existing_asset_type,
    ForeignAssets.remove_existing_asset_type, ForeignAssets.destroy_foreign_asset,
    ForeignAssets.call_fungibles, ForeignAssets.update_forward, ForeignAssets.update_reverse,
    ForeignAssets.call_hook, ForeignAssets.deposit_event, ForeignAssets.convert_back, zoom in H;
  unfold_M; simpl in H.

Lemma runs_after_setup (m : Mo unit) (b : bool) :
  (forall s : State, runs m (fun _ _ => True) s -> b = true) ->
  (forall x' e, (exists x'', ForeignAssets.start_destroy (AccountId := AccountId) (ForeignAsset := ForeignAsset) id0 x' = Ok tt x'') ->
    b = true -> runs m (fun _ _ => True) (ForeignAssets.mkState {[id0 := index_asset]} {[index_asset := id0]} x' e)) ->
  runs (setup_foreign_asset ;; m) (fun _ _ => True) (ForeignAssets.empty_state x) <-> creator = true /\ b = true.
Proof.
  intros Hb Hm. unfold setup_foreign_asset. rewrite runs_bind, runs_create. apply and_iff_compat_l. split.
  - intros (x' & _ & Hr). by eapply Hb.
  - intros Ht. destruct (creates id0 index_asset) as (x' & Hx & Hd). exists x'. split; [done|]. by apply Hm.
Qed.

(** Each benchmark runs through exactly if the root origin is accepted for the calls it
    makes. *)
Theorem foreign_asset_benchmarks :
  let s := ForeignAssets.empty_state x in
  let ok := fun _ _ => True in
  (runs bench_create_foreign_asset ok s <-> creator = true) /\
  (runs bench_change_existing_asset_type ok s <-> creator = true /\ modifier = true) /\
  (runs bench_remove_existing_asset_type ok s <-> creator = true /\ destroyer = true) /\
  (runs bench_destroy_foreign_asset ok s <-> creator = true /\ destroyer = true).
Proof.
  intros s ok. subst s ok. split; [|split; [|split]].
  - unfold bench_create_foreign_asset, ForeignAssets.dispatch. rewrite runs_bind, runs_transactional, runs_create.
    split; [by intros [? _]|]. intros Hc. split; [done|]. destruct (creates id1 default_asset) as (x' & Hx & _).
    exists x'. split; [done|]. run_step. run_step. run_step. split; [|done].
    apply bool_decide_eq_true, lookup_singleton_eq.
  - apply runs_after_setup.
    + intros s Hr. evaluate Hr. by destruct modifier.
    + intros x' e _ Hm. unfold runs, transactional, ForeignAssets.dispatch, ForeignAssets.change_existing_asset_type.
      unfold_M. simpl. rewrite Hm. simpl. rewrite lookup_singleton_eq. simpl. unfold ForeignAssets.convert_back. simpl.
      by rewrite lookup_insert_eq, bool_decide_true.
  - apply runs_after_setup.
    + intros s Hr. evaluate Hr. by destruct destroyer.
    + intros x' e _ Hm. unfold runs, transactional, ForeignAssets.dispatch, ForeignAssets.remove_existing_asset_type.
      unfold_M. simpl. rewrite Hm. simpl. rewrite lookup_singleton_eq. simpl. unfold ForeignAssets.convert_back. simpl.
      by rewrite lookup_delete_eq, bool_decide_true.
  - apply runs_after_setup.
    + intros s Hr. evaluate Hr. by destruct destroyer.
    + intros x' e [x'' Hd] Hm. unfold runs, transactional, ForeignAssets.dispatch, ForeignAssets.destroy_foreign_asset,
        ForeignAssets.call_fungibles, zoom.
      unfold_M. simpl. rewrite Hm. simpl. rewrite lookup_singleton_eq. simpl. rewrite Hd. simpl. unfold ForeignAssets.convert_back. simpl.
      by rewrite lookup_delete_eq, bool_decide_true.
Qed.
End ForeignAssetsBenchmarks.
