(* ===== verification/RandomnessBenchmarks.v ===== *)
(** * The benchmarks of the randomness pallet ([pallets/randomness/src/benchmarks.rs])

    As in [Benchmarks.v]: each benchmark is a handler over the pallet's storage, and the
    theorem says for which configurations of the pallet they run through. *)
From Stdlib Require Import ZArith Lia.
From stdpp Require Import prelude gmap fin_maps.
From S2P Require Import Prelude.
From S2P Require Import Interfaces.
From S2P Require Import NimbusPrimitives.
From S2P Require Import Randomness.
From S2P Require Import RandomnessHooks.
From S2P Require Import Benchmarks.
From S2P Require AuthorMapping.

Local Open Scope Z_scope.

(** [KeysLookup::set_keys], which exists for benchmarks. *)
Class BenchKeys (W NimbusId AccountId Keys : Type) := set_lookup_keys : NimbusId -> AccountId -> Keys -> W -> W.

#[local] Existing Instance AuthorMapping.mapping_keys_lookup.

(** [impl KeysLookup for Pallet<T>] of author-mapping *)
#[export] Instance mapping_bench_keys {AccountId NimbusId Keys L : Type} `{Countable AccountId} `{Countable NimbusId} :
    BenchKeys (AuthorMapping.State AccountId NimbusId Keys L) NimbusId AccountId Keys := mapping_set_keys.

(** The benchmark of the hook finds the keys that it set there. *)
Lemma mapping_bench_lookup {AccountId NimbusId Keys L : Type} `{Countable AccountId} `{Countable NimbusId}
    (n : NimbusId) (a : AccountId) (k : Keys) (w : AuthorMapping.State AccountId NimbusId Keys L) :
  lookup_keys (set_lookup_keys n a k w) n = Some k.
Proof.
  unfold lookup_keys, AuthorMapping.mapping_keys_lookup, AuthorMapping.keys_of. simpl. by rewrite lookup_insert_eq.
Qed.

Section Benchmarks.
Context {Origin AccountId H160 Hash L X : Type}.
Context {W NimbusId VrfId PublicKey Output Proof D : Type}.
Context `{!EqDecision AccountId} `{!EqDecision H160} `{!EqDecision Hash}.
Context `{!Currency AccountId L X} `{!BenchCurrency AccountId L}.
Context `{!Codec NimbusId} `{!Codec (Output * Proof)} `{!Codec Hash} `{!DigestItemOps D}.
Context `{!KeysLookup W NimbusId VrfId} `{!VrfScheme VrfId PublicKey Hash Output Proof}.
Context `{!BenchKeys W NimbusId AccountId VrfId}.
Context (T : Config Origin AccountId H160 Hash).
(** the existential deposit, [RawOrigin::None], [H160::default()], [H256::default()],
    [account("key", 0, 0)], the build's overflow checks *)
Context (ExistentialDeposit : Z) (RawNone : Origin) (default_address : H160) (zero_salt : list Z).
Context (dummy_account : AccountId) (oc : bool).

Abbreviation State := (State H160 Hash L).
Abbreviation Mo := (M State (dispatch_error Error X)).

(** [fund_user] *)
Definition fund_user (user : H160) (f : Z) : Mo unit :=
  with_fee ← expect (op_add oc 128 ExistentialDeposit f);
  total_minted ← expect (op_add oc 128 with_fee (Deposit T));
  modify (fun s => put_currency (make_free_balance_be (currency s) (AddressMapping T user) total_minted) s) ;;
  peek ← gets (fun s => issue (A := AccountId) (currency s) total_minted);
  assert (bool_decide (peek = total_minted)).

(** [fund_pallet_account_with_existential_deposit] *)
Definition fund_pallet_account : Mo unit :=
  modify (fun s => put_currency (make_free_balance_be (currency s) (account_id T) ExistentialDeposit) s) ;;
  peek ← gets (fun s => issue (A := AccountId) (currency s) ExistentialDeposit);
  assert (bool_decide (peek = ExistentialDeposit)).

(** The request all benchmarks make, for [n] words. *)
Definition bench_request (n : Z) : Request H160 RequestType :=
  mkRequest default_address default_address 0 100 n zero_salt (Local 10).

(** [let mut result = RandomnessResults::get(..).expect(..); result.randomness = ..] *)
Definition fill_bench_result (count : option Z) : Mo unit :=
  results ← gets RandomnessResults;
  result ← expect (results !! Local 10);
  modify (update_results <[Local 10 :=
    mkResult (Some (default_hash T)) (default (request_count result) count)]>).

Definition BENCHMARKING_OLD_EPOCH : Z := 9.

Definition bench_set_babe_randomness_results (epoch_index : Z) (epoch_randomness : option Hash) : Mo unit :=
  modify (put_relay_epoch BENCHMARKING_OLD_EPOCH) ;;
  let new_epoch := saturating_add 64 BENCHMARKING_OLD_EPOCH 1 in
  modify (update_results <[BabeEpoch new_epoch := new_result]>) ;;
  transactional (set_babe_randomness_results T RawNone epoch_index epoch_randomness) ;;
  results ← gets RandomnessResults;
  r ← expect (results !! BabeEpoch new_epoch);
  assert (bool_decide (randomness r = Some (default_hash T))) ;;
  included ← gets InherentIncluded;
  assert included ;;
  epoch ← gets RelayEpoch;
  assert (epoch =? new_epoch).

(** The ids, the previous output and the digest are constants of the code, from a test
    network's storage. *)
Definition bench_on_initialize (nimbus_id : NimbusId) (vrf_id : VrfId) (last_vrf_output : Hash)
    (pre_digest : Output * Proof) (w : W) : Mo unit :=
  modify (put_local_vrf_output (Some last_vrf_output)) ;;
  modify put_not_first_block ;;
  n ← gets block_number;
  block_num ← expect (op_add oc BLOCK_BITS n 1);
  modify (update_results <[Local block_num := increment_request_count new_result]>) ;;
  let logs : list D := [nimbus_pre_digest nimbus_id; vrf_pre_digest pre_digest] in
  modify (put_block_number block_num) ;;
  let w := set_lookup_keys nimbus_id dummy_account vrf_id w in
  on_initialize T false w logs ;;
  pubkey ← expect (from_bytes vrf_id);
  vrf_output ← expect (make_bytes (Proof := Proof) pubkey last_vrf_output pre_digest.1);
  randomness_output ← expect (fst <$> decode vrf_output);
  out ← gets LocalVrfOutput;
  assert (bool_decide (out = Some randomness_output)) ;;
  results ← gets RandomnessResults;
  r ← expect (results !! Local block_num);
  assert (bool_decide (randomness r = Some randomness_output)).

Definition bench_request_randomness : Mo unit :=
  fund_user default_address (Deposit T) ;;
  modify (put_request_count 0) ;;
  modify (update_results <[Local 10 := new_result]>) ;;
  assert_ok (request_randomness T (bench_request 100)) ;;
  requests ← gets Requests;
  assert (bool_decide (is_Some (requests !! 0))) ;;
  assert (bool_decide (requests !! 1 = None)).

Definition bench_prepare_fulfillment (x : Z) : Mo unit :=
  fund_user default_address (Deposit T) ;;
  ignore_result (request_randomness T (bench_request (wrapping 8 x))) ;;
  fill_bench_result None ;;
  modify (put_block_number 10) ;;
  args ← assert_ok (prepare_fulfillment T 0);
  assert (bool_decide (Z.of_nat (length (f_randomness args)) = x)).

Definition bench_finish_fulfillment : Mo unit :=
  fund_user default_address (Deposit T) ;;
  fund_pallet_account ;;
  ignore_result (request_randomness T (bench_request 100)) ;;
  fill_bench_result (Some 2) ;;
  modify (put_block_number 10) ;;
  assert_ok (prepare_fulfillment T 0) ;;
  r ← gets (request_with_info T (bench_request 100));
  finish_fulfillment T 0 r (Deposit T) default_address 0 ;;
  requests ← gets Requests;
  assert (bool_decide (requests !! 0 = None)) ;;
  results ← gets RandomnessResults;
  result ← expect (results !! Local 10);
  assert (request_count result =? 1).

Definition bench_increase_fee : Mo unit :=
  fund_user default_address (Deposit T) ;;
  ignore_result (request_randomness T (bench_request 100)) ;;
  assert_ok (increase_request_fee T default_address 0 1).

Definition bench_execute_request_expiration : Mo unit :=
  fund_user default_address (Deposit T) ;;
  fund_pallet_account ;;
  ignore_result (request_randomness T (bench_request 100)) ;;
  fill_bench_result (Some 2) ;;
  modify (put_block_number 10001) ;;
  assert_ok (execute_request_expiration T default_address 0) ;;
  results ← gets RandomnessResults;
  result ← expect (results !! Local 10);
  assert (request_count result =? 1).
End Benchmarks.

(** ** When they run through *)

(** Step over a handler whose outcome is known. *)
Lemma bind_run {S E A B} (m : M S E A) (k : A -> M S E B) s a s' :
  m s = Ok a s' -> (m ≫= k) s = k a s'.
Proof. unfold mbind, M_bind. by intros ->. Qed.

Lemma runs_run {S E A B} (m : M S E A) (k : A -> M S E B) Q s a s' :
  m s = Ok a s' -> runs (m ≫= k) Q s <-> runs (k a) Q s'.
Proof. unfold runs. intros Hm. by rewrite (bind_run _ _ _ _ _ Hm). Qed.

Section Setup.
Context {Origin AccountId H160 Hash L X : Type}.
Context `{!EqDecision AccountId} `{!EqDecision H160} `{!EqDecision Hash}.
Context `{!Currency AccountId L X} `{!CurrencyLaws AccountId L X} `{!BenchCurrency AccountId L}.
Context (T : Config Origin AccountId H160 Hash).
Context (ExistentialDeposit : Z) (default_address : H160) (zero_salt : list Z) (oc : bool).
Context `{!BenchCurrencyLaws AccountId L ExistentialDeposit}.

(** The two views of the currency agree; a transfer that keeps its source alive and does
    not leave its target below the existential deposit succeeds. *)
Context (free_is : forall (c : L) (a : AccountId), free c a = free_balance (X := X) c a).
Context (transfer_ok : forall (c : L) (a b : AccountId) v, 0 <= v -> a <> b ->
  v + ExistentialDeposit <= free_balance (X := X) c a ->
  v = 0 \/ ExistentialDeposit <= free_balance (X := X) c b + v ->
  exists c', transfer (X := X) c a b v = inr c').
Context (account_id_apart : AddressMapping T default_address <> account_id T).

Abbreviation user := (AddressMapping T default_address).
Abbreviation pallet := (account_id T).
Abbreviation balance c a := (free_balance (X := X) (c : L) a).
Abbreviation St := (State H160 Hash L).

(** The chain on which the benchmarks run: in block [b], nothing requested, room for the
    money they make, a positive deposit that is at least the existential one (which may be
    zero). *)
Record benchmark_chain (b : Z) (c : L) : Prop := mkChain {
  chain_existential : 0 <= ExistentialDeposit <= Deposit T /\ 1 <= Deposit T;
  chain_fits : ExistentialDeposit + 2 * Deposit T <= umax 128;
  chain_issuance : total_issuance (A := AccountId) c + 2 * (ExistentialDeposit + 2 * Deposit T)
    + 2 * ExistentialDeposit <= umax 128;
  chain_funds : 0 <= total_issuance (A := AccountId) c - balance c user - balance c pallet;
  chain_block : 0 <= b;
  chain_limits : 0 <= MaxBlockDelay T <= umax 32 /\ 0 <= MinBlockDelay T <= umax 32 /\
    0 <= BlockExpirationDelay T <= umax 32;
}.

Definition start (b : Z) (h : Hash) (c : L) : St := put_block_number b (genesis h c).

(** The currency after the user, and then the pallet, was funded. *)
Definition fund (c : L) : L := make_free_balance_be c user (ExistentialDeposit + 2 * Deposit T).
Definition fund_both (c : L) : L := make_free_balance_be (fund c) pallet ExistentialDeposit.

Context (b : Z) (c : L) (Hchain : benchmark_chain b c).

Lemma fund_balance a : balance (fund c) a = if decide (user = a) then ExistentialDeposit + 2 * Deposit T else balance c a.
Proof.
  destruct Hchain. unfold fund. rewrite <- !free_is.
  by rewrite (make_free_spec (existential_deposit := ExistentialDeposit)) by lia.
Qed.

Lemma fund_both_balance a :
  balance (fund_both c) a = if decide (pallet = a) then ExistentialDeposit else balance (fund c) a.
Proof.
  unfold fund_both. rewrite <- !free_is.
  by rewrite (make_free_spec (existential_deposit := ExistentialDeposit)) by lia.
Qed.

Lemma fund_user_run s : currency s = c ->
  fund_user (X := X) T ExistentialDeposit oc default_address (Deposit T) s = Ok tt (put_currency (fund c) s).
Proof.
  intros Hs. destruct Hchain as [H1 H2 H3 H4 _ _]. unfold fund_user.
  rewrite op_add_exact by (unfold fits; lia). erewrite bind_run by done.
  rewrite op_add_exact by (unfold fits; lia). erewrite bind_run by done. erewrite bind_run by done.
  replace (ExistentialDeposit + Deposit T + Deposit T) with (ExistentialDeposit + 2 * Deposit T) by lia.
  erewrite bind_run by done. simpl. rewrite Hs. fold (fund c).
  pose proof (free_balance_nonneg (X := X) c user). pose proof (free_balance_nonneg (X := X) c pallet).
  unfold assert. rewrite bool_decide_true; [done|].
  apply (issue_spec (A := AccountId) (existential_deposit := ExistentialDeposit)); [lia|].
  unfold fund. rewrite (make_issuance (existential_deposit := ExistentialDeposit)) by lia.
  rewrite free_is. lia.
Qed.

Lemma fund_pallet_run s : currency s = fund c ->
  fund_pallet_account (X := X) T ExistentialDeposit s = Ok tt (put_currency (fund_both c) s).
Proof.
  intros Hs. pose proof (fund_balance pallet) as Hp. rewrite decide_False in Hp by done.
  destruct Hchain as [H1 H2 H3 H4 _ _]. unfold fund_pallet_account.
  erewrite bind_run by done. erewrite bind_run by done. simpl. rewrite Hs. fold (fund_both c).
  pose proof (free_balance_nonneg (X := X) c user). pose proof (free_balance_nonneg (X := X) c pallet).
  unfold assert. rewrite bool_decide_true; [done|].
  apply (issue_spec (A := AccountId) (existential_deposit := ExistentialDeposit)); [lia|].
  unfold fund_both. rewrite (make_issuance (existential_deposit := ExistentialDeposit)) by lia.
  rewrite free_is, Hp. unfold fund. rewrite (make_issuance (existential_deposit := ExistentialDeposit)) by lia.
  rewrite free_is. lia.
Qed.

(** The request is accepted exactly if the words and the block are within the limits. *)
Definition request_valid (n : Z) : Prop :=
  1 <= n <= MaxRandomWords T /\ b + MaxBlockDelay T <= umax BLOCK_BITS /\
  b + MinBlockDelay T <= 10 <= b + MaxBlockDelay T.

Abbreviation req n := (bench_request default_address zero_salt n).

Lemma validate_run n (s : St) : block_number s = b ->
  (request_valid n /\ validate (X := X) T (request_with_info T (req n) s) s = Ok tt s) \/
  (~ request_valid n /\ exists e, validate (X := X) T (request_with_info T (req n) s) s = Err e s).
Proof.
  intros Hb. destruct Hchain as [_ _ _ _ _ (Hmax & Hmin & _)].
  unfold validate, request_valid, checked_add, BLOCK_BITS. unfold_M. simpl.
  destruct (Z.leb_spec n (MaxRandomWords T)); [|right; split; [lia|by eexists]].
  destruct (Z.leb_spec 1 n); [|right; split; [lia|by eexists]]. simpl. rewrite Hb.
  destruct (Z.leb_spec (b + MaxBlockDelay T) (umax 32)); [|right; split; [lia|by eexists]].
  destruct (Z.leb_spec 10 (b + MaxBlockDelay T)); [|right; split; [lia|by eexists]].
  destruct (Z.leb_spec (b + MinBlockDelay T) (umax 32)); [|right; split; [|by eexists]].
  - destruct (Z.leb_spec (b + MinBlockDelay T) 10); [left; split; [lia|done]|right; split; [lia|by eexists]].
  - change (umax 32) with 4294967295 in *. lia.
Qed.

(** What a request leaves, from a state [s] without requests. *)
Record requested (n : Z) (s s' : St) : Prop := mkRequested {
  requested_one : Requests s' = {[0 := mkRequestState (request_with_info T (req n) s) (Deposit T)]};
  requested_result : exists r, RandomnessResults s' !! Local 10 = Some r /\
    (RandomnessResults s !! Local 10 = None -> r = new_result);
  requested_block : block_number s' = b;
  requested_user : balance (currency s') user = balance (currency s) user - Deposit T;
  requested_pallet : balance (currency s') pallet = balance (currency s) pallet + Deposit T;
}.

Lemma request_run n (s : St) :
  block_number s = b -> Requests s = ∅ -> RequestCount s = 0 ->
  ExistentialDeposit + Deposit T <= balance (currency s) user ->
  0 <= balance (currency s) pallet ->
  (request_valid n /\ exists s', request_randomness (X := X) T (req n) s = Ok 0 s' /\ requested n s s') \/
  (~ request_valid n /\ exists e, request_randomness (X := X) T (req n) s = Err e s).
Proof.
  intros Hb HR HC Hu Hp. destruct (Hchain) as [H1 H2 H3 H4 _ _].
  destruct (validate_run n s Hb) as [[Hv Hrun]|[Hv [e Hrun]]].
  2: { right. split; [done|]. exists e. unfold request_randomness. erewrite bind_run by done.
       unfold new_request_state, mbind, M_bind. by rewrite Hrun. }
  left. split; [done|]. assert (Hsat : saturating_add BALANCE_BITS (Deposit T) 0 = Deposit T).
  { rewrite saturating_add_exact; unfold BALANCE_BITS; lia. }
  destruct (transfer_ok (currency s) user pallet (Deposit T)) as [c' Ht]; [lia|done|lia|right; lia|].
  assert (Hok : exists id s', request_randomness (X := X) T (req n) s = Ok id s').
  { unfold request_randomness, new_request_state. erewrite bind_run by done.
    rewrite (bind_run _ _ s (mkRequestState (request_with_info T (req n) s) (Deposit T)) s)
      by (unfold mbind, M_bind; by rewrite Hrun).
    cbv zeta beta. erewrite bind_run by done. cbv beta. rewrite HC. erewrite bind_run by done. cbv beta.
    rewrite (bind_run _ _ s tt (put_currency c' s))
      by (apply transfer_keep_alive_Ok; exists c'; simpl; by rewrite Hsat).
    by eexists _, _. }
  destruct Hok as (id & s' & Hok). exists s'.
  destruct (request_randomness_Ok _ _ _ _ _ Hok)
    as (c2 & Ht2 & -> & _ & _ & HR' & _ & HRes & Hcur & Hbl & _). clear Hrun.
  rewrite HC in *. split; [done|]. simpl in Ht2, HRes. rewrite Hsat, Ht in Ht2. injection Ht2 as <-.
  pose proof (transfer_spec (X := X) _ user pallet (Deposit T) _ user ltac:(lia) Ht) as Hu'.
  pose proof (transfer_spec (X := X) _ user pallet (Deposit T) _ pallet ltac:(lia) Ht) as Hp'.
  rewrite decide_True, decide_False in Hu' by done. rewrite decide_False, decide_True in Hp' by done.
  split.
  - by rewrite HR', HR.
  - rewrite HRes. eexists. rewrite lookup_insert_eq. split; [done|]. by intros ->.
  - by rewrite Hbl.
  - rewrite Hcur. lia.
  - rewrite Hcur. lia.
Qed.

Lemma ignore_Ok {A} (m : M St (dispatch_error Error X) A) s a s' : m s = Ok a s' -> ignore_result m s = Ok tt s'.
Proof. intros Hm. unfold ignore_result, attempt, mbind, M_bind. by rewrite Hm. Qed.

Lemma ignore_Err {A} (m : M St (dispatch_error Error X) A) s e s' : m s = Err e s' -> ignore_result m s = Ok tt s'.
Proof. intros Hm. unfold ignore_result, attempt, mbind, M_bind. by rewrite Hm. Qed.

Lemma assert_ok_Ok {A} (m : M St (dispatch_error Error X) A) s a s' : m s = Ok a s' -> assert_ok m s = Ok a s'.
Proof. intros Hm. unfold assert_ok, attempt, mbind, M_bind. by rewrite Hm. Qed.

(** A benchmark that needs the request fails if it is refused: no result is there to fill. *)
Lemma fill_none {B} count (k : M St (dispatch_error Error X) B) Q (s : St) :
  RandomnessResults s !! Local 10 = None -> ~ runs (fill_bench_result (X := X) T count ;; k) Q s.
Proof.
  intros Hn Hr. apply runs_bind in Hr. unfold fill_bench_result, runs in Hr. unfold_M. by rewrite Hn in Hr.
Qed.

(** The result after the setup: filled by hand. *)
Definition filled_state (s' : St) (r : RandomnessResult Hash) : St := update_results <[Local 10 := r]> s'.

Lemma fill_run n s s' count : requested n s s' ->
  exists k, fill_bench_result (X := X) T count s' =
      Ok tt (filled_state s' (mkResult (Some (default_hash T)) k)) /\
    (forall j, count = Some j -> k = j).
Proof.
  intros [_ (r & Hr & _) _ _ _]. exists (default (request_count r) count). split.
  - unfold fill_bench_result. unfold_M. by rewrite Hr.
  - by intros j ->.
Qed.

Lemma prepare_run n s s' k :
  requested n s s' ->
  prepare_fulfillment (X := X) T 0 (put_block_number 10 (filled_state s' (mkResult (Some (default_hash T)) k))) =
  Ok (mkFulfillArgs (request_with_info T (req n) s) (Deposit T)
       (compute_random_words T (Z.to_nat n) 0 (default_hash T) zero_salt))
     (put_block_number 10 (filled_state s' (mkResult (Some (default_hash T)) k))).
Proof.
  intros [HR _ _ _ _]. unfold prepare_fulfillment, prepare_fulfill, get_random_words. unfold_M. simpl.
  rewrite HR, lookup_singleton_eq. simpl. by rewrite lookup_insert_eq.
Qed.

(** One request less for the key, whose count was set to two. *)
Lemma release_two v (s : St) :
  RandomnessResults s !! Local 10 = Some (mkResult v 2) ->
  exists s', release_result (X := X) (Local 10) s = Ok tt s' /\ Requests s' = Requests s /\
    RandomnessResults s' !! Local 10 = Some (mkResult v 1).
Proof.
  intros Hs. destruct (release_result_spec (X := X) (Local 10) s) as (s' & Hr & Hs' & Hl).
  exists s'. split; [done|]. split; [by rewrite Hs'|]. by rewrite Hl, decide_True, Hs.
Qed.

Abbreviation ok := (fun _ _ => True).
Abbreviation chain h := (start b h c).

Lemma fund_user_start h :
  fund_user (X := X) T ExistentialDeposit oc default_address (Deposit T) (chain h) = Ok tt (put_currency (fund c) (chain h)).
Proof. by apply fund_user_run. Qed.

Lemma user_funds : balance (fund c) user = ExistentialDeposit + 2 * Deposit T.
Proof. by rewrite fund_balance, decide_True. Qed.

Lemma request_benchmark h :
  runs (bench_request_randomness (X := X) T ExistentialDeposit default_address zero_salt oc) ok (chain h)
  <-> request_valid 100.
Proof.
  unfold bench_request_randomness. rewrite (runs_run _ _ _ _ _ _ (fund_user_start h)).
  rewrite !(runs_run (modify _) _ _ _ tt _ eq_refl), runs_bind, runs_assert_ok.
  set (s := update_results _ _). destruct Hchain as [H1 _ _ _ _ _].
  destruct (request_run 100 s) as [[Hv (s' & Hr & Hreq)]|[Hv [e Hr]]]; [done..|simpl; rewrite user_funds; lia|
    apply free_balance_nonneg| |].
  - split; [done|]. intros _. unfold runs at 1. rewrite Hr. run_step. run_step. rewrite (requested_one _ _ _ Hreq).
    run_step. run_step. rewrite lookup_singleton_eq. split; [by apply bool_decide_eq_true|].
    run_step. split; [by apply bool_decide_eq_true|done].
  - unfold runs at 1. rewrite Hr. by split.
Qed.

(** The part that the other benchmarks share: fund, request, whatever the answer. *)
Lemma after_request {B} n (k : M St (dispatch_error Error X) B) (P : Prop) (s : St) :
  block_number s = b -> Requests s = ∅ -> RequestCount s = 0 ->
  ExistentialDeposit + Deposit T <= balance (currency s) user ->
  (~ runs k ok s) ->
  (forall s', requested n s s' -> runs k ok s' <-> P) ->
  runs (ignore_result (request_randomness (X := X) T (req n)) ;; k) ok s <-> request_valid n /\ P.
Proof.
  intros Hb HR HC Hu Hbad Hgood.
  destruct (request_run n s Hb HR HC Hu) as [[Hv (s' & Hr & Hreq)]|[Hv [e Hr]]]; [apply free_balance_nonneg| |].
  - rewrite (runs_run _ _ _ _ _ _ (ignore_Ok _ _ _ _ Hr)), (Hgood s' Hreq). tauto.
  - rewrite (runs_run _ _ _ _ _ _ (ignore_Err _ _ _ _ Hr)). tauto.
Qed.

Lemma prepare_benchmark h x : 1 <= x <= MaxRandomWords T -> MaxRandomWords T <= umax 8 ->
  runs (bench_prepare_fulfillment (X := X) T ExistentialDeposit default_address zero_salt oc x) ok (chain h)
  <-> request_valid x.
Proof.
  intros Hx Hmax. unfold bench_prepare_fulfillment. rewrite wrapping_small by (unfold fits; lia).
  rewrite (runs_run _ _ _ _ _ _ (fund_user_start h)). destruct (Hchain) as [H1 _ _ _ _ _].
  rewrite (after_request x _ True); [tauto|done|done|done|simpl; rewrite user_funds; lia|by apply fill_none|].
  intros s' Hreq. destruct (fill_run x _ _ None Hreq) as (k & Hf & _).
  rewrite (runs_run _ _ _ _ _ _ Hf), (runs_run (modify _) _ _ _ tt _ eq_refl).
  rewrite (runs_run _ _ _ _ _ _ (assert_ok_Ok _ _ _ _ (prepare_run _ _ _ _ Hreq))), runs_assert.
  simpl. rewrite length_random_words. split; [done|]. intros _. split; [|done].
  apply bool_decide_eq_true. lia.
Qed.

Lemma increase_benchmark h :
  runs (bench_increase_fee (X := X) T ExistentialDeposit default_address zero_salt oc) ok (chain h)
  <-> request_valid 100.
Proof.
  unfold bench_increase_fee. rewrite (runs_run _ _ _ _ _ _ (fund_user_start h)).
  destruct (Hchain) as [H1 H2 _ _ _ _].
  rewrite (after_request 100 _ True); [tauto|done|done|done|simpl; rewrite user_funds; lia| |].
  - rewrite runs_assert_ok. intros Hr. apply runs_bind in Hr. apply runs_bind, runs_ok_or in Hr as (rs & Hrs & _).
    discriminate Hrs.
  - intros s' [HR _ _ Hu Hp]. simpl in Hu, Hp. rewrite user_funds in Hu. split; [done|]. intros _.
    pose proof (free_balance_nonneg (X := X) (fund c) pallet).
    destruct (transfer_ok (currency s') user pallet 1) as [c' Ht]; [lia|done|lia|right; lia|].
    apply runs_assert_ok. unfold increase_request_fee, increase_fee. run_step. run_step. run_step. run_step.
    rewrite HR, lookup_singleton_eq. eexists; split; [done|]. run_step. run_step. run_step. split; [by apply bool_decide_eq_true|].
    run_step. run_step. simpl. eexists; split; [by apply checked_add_Some|].
    run_step. apply runs_Ok. exists tt, (put_currency c' s'). split; [|done].
    apply transfer_keep_alive_Ok. by exists c'.
Qed.

(** Fulfilling for the refund address at no cost only pays. *)
Lemma finish_same r (s : St) : refund_address r = default_address ->
  exists c', finish_fulfill (X := X) T r (Deposit T) default_address 0 s = Ok tt (put_currency c' s).
Proof.
  intros Hr. unfold finish_fulfill, checked_sub.
  pose proof (saturating_add_bound BALANCE_BITS (Deposit T) (fee r)).
  destruct (Z.leb_spec 0 (saturating_add BALANCE_BITS (Deposit T) (fee r))).
  - rewrite bool_decide_true by done. unfold try_transfer, modify.
    destruct (transfer _ _ _ _) as [|c']; [|by exists c']. exists (currency s). by destruct s.
  - unfold try_transfer, modify. destruct (transfer _ _ _ _) as [|c']; [|by exists c'].
    exists (currency s). by destruct s.
Qed.

Lemma finish_benchmark h :
  runs (bench_finish_fulfillment (X := X) T ExistentialDeposit default_address zero_salt oc) ok (chain h)
  <-> request_valid 100.
Proof.
  unfold bench_finish_fulfillment. rewrite (runs_run _ _ _ _ _ _ (fund_user_start h)).
  rewrite (runs_run _ _ _ _ _ _ (fund_pallet_run (put_currency (fund c) (chain h)) eq_refl)).
  destruct (Hchain) as [H1 H2 _ _ _ _].
  rewrite (after_request 100 _ True); [tauto|done|done|done| |by apply fill_none|].
  { simpl. rewrite fund_both_balance, decide_False, user_funds by done. lia. }
  intros s' Hreq. destruct (fill_run 100 _ _ (Some 2) Hreq) as (k & Hf & Hk).
  rewrite (Hk 2 eq_refl) in Hf. clear k Hk. split; [done|]. intros _.
  rewrite (runs_run _ _ _ _ _ _ Hf), (runs_run (modify _) _ _ _ tt _ eq_refl).
  rewrite (runs_run _ _ _ _ _ _ (assert_ok_Ok _ _ _ _ (prepare_run _ _ _ _ Hreq))).
  set (s2 := put_block_number _ _). rewrite (runs_run (gets _) _ _ _ _ _ eq_refl).
  destruct (finish_same (request_with_info T (req 100) s2) s2) as (c' & Hfin); [done|].
  unfold finish_fulfillment. run_step. rewrite (runs_run _ _ _ _ _ _ Hfin).
  destruct (release_two (Some (default_hash T)) (put_currency c' s2)) as (s3 & Hrel & HR & Hres);
    [simpl; by rewrite lookup_insert_eq|].
  rewrite (runs_run _ _ _ _ _ _ Hrel). run_step. run_step. run_step. run_step. run_step. run_step. run_step.
  rewrite lookup_delete_eq. split; [by apply bool_decide_eq_true|]. run_step. run_step. run_step. run_step.
  simpl. rewrite Hres. eexists. split; [done|]. by run_step.
Qed.

Lemma expiration_benchmark h :
  runs (bench_execute_request_expiration (X := X) T ExistentialDeposit default_address zero_salt oc) ok (chain h)
  <-> request_valid 100 /\ b + BlockExpirationDelay T <= 10001.
Proof.
  unfold bench_execute_request_expiration. rewrite (runs_run _ _ _ _ _ _ (fund_user_start h)).
  rewrite (runs_run _ _ _ _ _ _ (fund_pallet_run (put_currency (fund c) (chain h)) eq_refl)).
  destruct (Hchain) as [H1 H2 _ _ Hb (_ & _ & Hexp)].
  apply after_request; [done|done|done| |by apply fill_none|].
  { simpl. rewrite fund_both_balance, decide_False, user_funds by done. lia. }
  intros s' Hreq. destruct (fill_run 100 _ _ (Some 2) Hreq) as (k & Hf & Hk).
  rewrite (Hk 2 eq_refl) in Hf. clear k Hk.
  rewrite (runs_run _ _ _ _ _ _ Hf), (runs_run (modify _) _ _ _ tt _ eq_refl), runs_bind, runs_assert_ok.
  set (s2 := put_block_number _ _).
  unfold execute_request_expiration. rewrite (runs_run (gets _) _ _ _ _ _ eq_refl).
  assert (HR : Requests s2 !! 0 = Some (mkRequestState (request_with_info T (req 100)
    (put_currency (fund_both c) (put_currency (fund c) (chain h)))) (Deposit T))).
  { simpl. by rewrite (requested_one _ _ _ Hreq), lookup_singleton_eq. }
  rewrite HR, (runs_run (ok_or (Some _) _) _ _ _ _ _ eq_refl), runs_bind. unfold execute_expiration.
  rewrite (runs_run (gets _) _ _ _ _ _ eq_refl), runs_bind, runs_ensure.
  assert (He : is_expired (request (mkRequestState (request_with_info T (req 100)
    (put_currency (fund_both c) (put_currency (fund c) (chain h)))) (Deposit T))) s2 = true <->
    b + BlockExpirationDelay T <= 10001).
  { unfold is_expired. simpl. rewrite Z.leb_le. unfold saturating_add. change (umax BLOCK_BITS) with 4294967295. lia. }
  rewrite He. split; [by intros [? _]|]. intros Hle. split; [done|].
  rewrite bool_decide_true by done. simpl request. simpl fee. simpl deposit.
  rewrite saturating_add_exact by (unfold BALANCE_BITS; lia). rewrite Z.add_0_r.
  destruct Hreq as [_ _ _ Hu Hp]. simpl in Hu, Hp.
  rewrite fund_both_balance, decide_True in Hp by done.
  rewrite fund_both_balance, decide_False, user_funds in Hu by done.
  destruct (transfer_ok (currency s') pallet user (Deposit T)) as [c' Ht]; [lia|done|lia|right; lia|].
  apply runs_Ok. exists tt, (put_currency c' s2). split; [apply transfer_keep_alive_Ok; by exists c'|].
  destruct (release_two (Some (default_hash T)) (put_currency c' s2)) as (s3 & Hrel & HR3 & Hres);
    [simpl; by rewrite lookup_insert_eq|].
  rewrite (runs_run _ _ _ _ _ _ Hrel). run_step. run_step. run_step. run_step. run_step. run_step. run_step.
  simpl. rewrite Hres. eexists. split; [done|]. by run_step.
Qed.
End Setup.

(** ** The benchmarks of the hooks, and all of them together *)
Section All.
Context {Origin AccountId H160 Hash L X : Type}.
Context {W NimbusId VrfId PublicKey Output Proof D : Type}.
Context `{!EqDecision AccountId} `{!EqDecision H160} `{!EqDecision Hash}.
Context `{!Currency AccountId L X} `{!CurrencyLaws AccountId L X} `{!BenchCurrency AccountId L}.
Context `{!Codec NimbusId} `{!Codec (Output * Proof)} `{!Codec Hash} `{!DigestItemOps D}.
Context `{!CodecLaws NimbusId} `{!CodecLaws (Output * Proof)} `{!DigestItemLaws D}.
Context `{!KeysLookup W NimbusId VrfId} `{!VrfScheme VrfId PublicKey Hash Output Proof}.
Context `{!BenchKeys W NimbusId AccountId VrfId}.
Context (T : Config Origin AccountId H160 Hash).
Context (ExistentialDeposit : Z) (RawNone : Origin) (default_address : H160) (zero_salt : list Z).
Context (dummy_account : AccountId) (oc : bool) `{!BenchCurrencyLaws AccountId L ExistentialDeposit}.
(** keys that were set are found *)
Context (lookup_set_keys : forall (n : NimbusId) (a : AccountId) (k : VrfId) (w : W),
  lookup_keys (set_lookup_keys n a k w) n = Some k).

Abbreviation St := (State H160 Hash L).

Lemma set_babe_benchmark epoch_index epoch_randomness (s : St) :
  runs (bench_set_babe_randomness_results (X := X) T RawNone epoch_index epoch_randomness) (fun _ _ => True) s <->
  ensure_none T RawNone = true /\ epoch_index = 10 /\ epoch_randomness = Some (default_hash T).
Proof.
  unfold bench_set_babe_randomness_results. rewrite !(runs_run (modify _) _ _ _ tt _ eq_refl).
  rewrite runs_bind, runs_transactional. unfold set_babe_randomness_results.
  rewrite runs_bind, runs_ensure. apply and_iff_compat_l.
  rewrite (runs_run (gets _) _ _ _ _ _ eq_refl). change (saturating_add 64 BENCHMARKING_OLD_EPOCH 1) with 10.
  simpl. destruct (decide (epoch_index = 10)) as [->|Hne].
  - unfold BENCHMARKING_OLD_EPOCH, fill_result. destruct epoch_randomness as [v|]; unfold runs; unfold_M; simpl.
    + rewrite lookup_insert_eq. simpl. rewrite lookup_insert_eq. simpl.
      case_bool_decide; naive_solver.
    + rewrite lookup_insert_eq. simpl. naive_solver.
  - split; [|naive_solver]. intros Hr. exfalso.
    unfold runs, fill_result in Hr. unfold_M. simpl in Hr.
    destruct (BENCHMARKING_OLD_EPOCH <? epoch_index), epoch_randomness; simpl in Hr;
      repeat (case_match; simplify_eq/=; try done); by apply Hne, Z.eqb_eq.
Qed.

(** The signature in the constants verifies, and its output is a hash. *)
Definition vrf_valid (vrf_id : VrfId) (last_vrf_output : Hash) (pre_digest : Output * Proof) : Prop :=
  exists pk bytes, from_bytes vrf_id = Some pk /\
    vrf_verify pk last_vrf_output pre_digest.1 pre_digest.2 = true /\
    make_bytes (Proof := Proof) pk last_vrf_output pre_digest.1 = Some bytes /\ is_Some (decode (A := Hash) bytes).

Lemma scan_bench_digests (w : W) nimbus_id pre_digest vrf_id :
  lookup_keys w nimbus_id = Some vrf_id ->
  scan_digests (NimbusId := NimbusId) (VrfId := VrfId) (Output := Output) (Proof := Proof) w
    (omap (as_pre_runtime (D := D)) [nimbus_pre_digest nimbus_id; vrf_pre_digest pre_digest]) None =
  Some (pre_digest, Some vrf_id).
Proof.
  intros Hk. unfold nimbus_pre_digest, vrf_pre_digest. simpl. rewrite !as_pre_runtime_PreRuntime. simpl.
  rewrite <- (app_nil_r (encode nimbus_id)), decode_encode. simpl. rewrite Hk. simpl.
  by rewrite <- (app_nil_r (encode pre_digest)), decode_encode.
Qed.

Lemma initialize_benchmark nimbus_id vrf_id last_vrf_output pre_digest (w : W) (s : St) :
  0 <= block_number s < umax BLOCK_BITS ->
  runs (bench_on_initialize (X := X) (D := D) T dummy_account oc nimbus_id vrf_id last_vrf_output pre_digest w)
    (fun _ _ => True) s <-> vrf_valid vrf_id last_vrf_output pre_digest.
Proof.
  intros Hb. unfold bench_on_initialize. rewrite !(runs_run (modify _) _ _ _ tt _ eq_refl).
  rewrite (runs_run (gets _) _ _ _ _ _ eq_refl). simpl block_number.
  rewrite op_add_exact by (unfold fits; lia). rewrite (runs_run (expect (Some _)) _ _ _ _ _ eq_refl).
  rewrite !(runs_run (modify _) _ _ _ tt _ eq_refl). set (s1 := put_block_number _ _).
  unfold on_initialize, verify_and_set_output. rewrite runs_bind, (runs_run (gets _) _ _ _ _ _ eq_refl). simpl NotFirstBlock.
  cbv iota. rewrite (runs_run (gets _) _ _ _ _ _ eq_refl), runs_bind, runs_expect.
  unfold get_and_verify_randomness. rewrite (scan_bench_digests _ _ _ vrf_id) by apply lookup_set_keys. simpl.
  destruct pre_digest as [output proof]. unfold vrf_valid. simpl. destruct (from_bytes vrf_id) as [pk|]; simpl;
    [|split; [by intros (? & ? & _)|by intros (? & ? & ? & _)]].
  destruct (vrf_verify pk last_vrf_output output proof) eqn:Hv; simpl;
    [|split; [by intros (? & ? & _)|intros (? & ? & [= <-] & ? & _); congruence]].
  destruct (make_bytes pk last_vrf_output output) as [bytes|] eqn:Hm; simpl;
    [|split; [by intros (? & ? & _)|intros (? & ? & [= <-] & _ & ? & _); congruence]].
  destruct (decode bytes) as [[v rest]|] eqn:Hd; simpl;
    [|split; [by intros (? & ? & _)|intros (? & ? & [= <-] & _ & ? & Hs); simplify_eq; rewrite Hd in Hs; by destruct Hs]].
  split; [intros _; exists pk, bytes; split_and!; [done..|by rewrite Hd]|]. intros _. exists v. split; [done|].
  rewrite !(runs_run (modify _) _ _ _ tt _ eq_refl), (runs_run (gets _) _ _ _ _ _ eq_refl).
  run_step. do 2 run_step. eexists. split; [done|]. do 2 run_step. rewrite Hm. eexists. split; [done|].
  do 2 run_step. rewrite Hd. eexists. split; [done|].
  do 2 run_step. do 2 run_step. unfold fill_result. simpl. rewrite lookup_insert_eq. split; [by apply bool_decide_eq_true|].
  do 4 run_step. simpl. rewrite lookup_insert_eq. eexists. split; [done|]. run_step. split; [|done].
  by apply bool_decide_eq_true.
Qed.

Context (free_is : forall (c : L) (a : AccountId), free c a = free_balance (X := X) c a).
Context (transfer_ok : forall (c : L) (a b : AccountId) v, 0 <= v -> a <> b ->
  v + ExistentialDeposit <= free_balance (X := X) c a ->
  v = 0 \/ ExistentialDeposit <= free_balance (X := X) c b + v ->
  exists c', transfer (X := X) c a b v = inr c').
Context (account_id_apart : AddressMapping T default_address <> account_id T).

Abbreviation succeeds m s := (runs m (fun _ _ => True) s).

(** C40: when the benchmarks of the randomness pallet run through.  Let the request's deposit
    be positive and at least the existential one, which may be zero, let the money that the
    benchmarks make be issuable, nothing be requested yet, and let a transfer succeed that
    keeps its source alive and its target at the existential deposit.  In a block [b],
    the benchmark of the inherent runs through exactly if the relay epoch is read as 10
    with the default randomness, that of the hook (below the last block number) exactly if
    the signature in its constants verifies, those of requesting, finishing and increasing
    the fee exactly if 100 words and block 10 are within the limits, so not with fewer than
    100 words, that of preparing, for every number of words it is measured with, exactly
    if block 10 is, and that of the expiration exactly if moreover a request expires by
    block 10001. *)
Theorem randomness_benchmarks_run b h (c : L) :
  benchmark_chain (X := X) T ExistentialDeposit default_address b c ->
  let s := start (L := L) (H160 := H160) b h c in
  let valid := request_valid (AccountId := AccountId) T b in
  (forall epoch v, succeeds (bench_set_babe_randomness_results (X := X) T RawNone epoch v) s <->
     ensure_none T RawNone = true /\ epoch = 10 /\ v = Some (default_hash T)) /\
  (forall nimbus_id vrf_id last pre_digest w, b < umax BLOCK_BITS ->
     succeeds (bench_on_initialize (X := X) (D := D) T dummy_account oc nimbus_id vrf_id last pre_digest w) s <->
     vrf_valid vrf_id last pre_digest) /\
  (succeeds (bench_request_randomness (X := X) T ExistentialDeposit default_address zero_salt oc) s <-> valid 100) /\
  (forall x, 1 <= x <= MaxRandomWords T -> MaxRandomWords T <= umax 8 ->
     succeeds (bench_prepare_fulfillment (X := X) T ExistentialDeposit default_address zero_salt oc x) s <-> valid x) /\
  (succeeds (bench_finish_fulfillment (X := X) T ExistentialDeposit default_address zero_salt oc) s <-> valid 100) /\
  (succeeds (bench_increase_fee (X := X) T ExistentialDeposit default_address zero_salt oc) s <-> valid 100) /\
  (succeeds (bench_execute_request_expiration (X := X) T ExistentialDeposit default_address zero_salt oc) s <->
     valid 100 /\ b + BlockExpirationDelay T <= 10001).
Proof.
  intros Hchain s valid. split_and!.
  - intros epoch v. apply set_babe_benchmark.
  - intros nimbus_id vrf_id last pre_digest w Hb. apply initialize_benchmark. destruct Hchain. by split.
  - by apply request_benchmark.
  - intros x Hx Hmax. by apply prepare_benchmark.
  - by apply finish_benchmark.
  - by apply increase_benchmark.
  - by apply expiration_benchmark.
Qed.
End All.

(** ** A concrete runtime *)
Section Witnesses.
#[local] Existing Instance fixed_codec.
#[local] Existing Instance fixed_codec_laws.
#[local] Existing Instance RandomnessHooks.pair_codec.
#[local] Existing Instance RandomnessHooks.sample_vrf.

#[local] Instance pair_codec_laws : CodecLaws (Z * Z).
Proof. split. by intros []. Qed.

#[local] Instance keys_by_id : KeysLookup (Z -> option Z) Z Z := fun w n => w n.
#[local] Instance set_by_id : BenchKeys (Z -> option Z) Z Z Z :=
  fun n _ k w m => if decide (m = n) then Some k else w m.

#[local] Instance ledger_bench : BenchCurrency Z Ledger := {|
  make_free_balance_be c a v := mkLedger (<[a := v]> (l_free c)) (l_reserved c);
  issue _ v := v;
  total_issuance c := map_sum (fun _ v => Z.max 0 v) (l_free c);
  free c a := bal (l_free c) a;
|}.

#[local] Instance ledger_bench_laws : BenchCurrencyLaws Z Ledger 1.
Proof.
  split; [..|done].
  - intros c a v b Hv. unfold free, make_free_balance_be, ledger_bench, bal. simpl.
    case_decide; subst; [rewrite lookup_insert_eq; simpl; lia|by rewrite lookup_insert_ne].
  - intros c a v Hv. simpl. rewrite map_sum_insert_any. unfold bal.
    destruct (l_free c !! a); simpl; lia.
Qed.

Lemma ledger_transfer_ok (c : Ledger) a b v : 0 <= v -> a <> b -> v + 1 <= free_balance (X := unit) c a ->
  v = 0 \/ 1 <= free_balance (X := unit) c b + v -> exists c', transfer (X := unit) c a b v = inr c'.
Proof.
  intros Hv Hne Hf _. unfold transfer, ledger_currency. rewrite decide_False by done.
  simpl in Hf. rewrite (proj2 (Z.leb_le _ _)) by done. by eexists.
Qed.

Lemma ledger_free_is (c : Ledger) (a : Z) : free c a = free_balance (X := unit) c a.
Proof. done. Qed.

(** The currency and the limits of the pallet's mock, without an existential deposit. *)
Record Plain := mkPlain { plain : gmap Z Z }.

#[local] Instance plain_currency : Currency Z Plain unit := {
  free_balance c a := bal (plain c) a;
  transfer c a b v :=
    if decide (a = b) then inr c
    else if v <=? bal (plain c) a then inr (mkPlain (credit (credit (plain c) a (- v)) b v)) else inl tt;
}.

#[local] Instance plain_currency_laws : CurrencyLaws Z Plain unit.
Proof.
  split.
  - intros. apply bal_nonneg.
  - intros c a b v c' x Hv Ht. simpl in *. case_decide; simplify_eq.
    { repeat case_decide; lia. }
    case_match; simplify_eq; simpl; bool_to_prop.
    assert (Ha : forall y, bal (credit (plain c) a (- v)) y
      = bal (plain c) y + (if decide (a = y) then - v else 0)).
    { intros y. apply bal_credit. lia. }
    pose proof (bal_nonneg (plain c) b).
    rewrite bal_credit, Ha; [|rewrite Ha]; repeat case_decide; subst; done || lia.
Qed.

#[local] Instance plain_bench : BenchCurrency Z Plain := {|
  make_free_balance_be c a v := mkPlain (<[a := v]> (plain c));
  issue _ v := v;
  total_issuance c := map_sum (fun _ v => Z.max 0 v) (plain c);
  free c a := bal (plain c) a;
|}.

#[local] Instance plain_bench_laws : BenchCurrencyLaws Z Plain 0.
Proof.
  split; [..|done].
  - intros c a v b Hv. unfold free, make_free_balance_be, plain_bench, bal. simpl.
    case_decide; subst; [rewrite lookup_insert_eq; simpl; lia|by rewrite lookup_insert_ne].
  - intros c a v Hv. simpl. rewrite map_sum_insert_any. unfold bal.
    destruct (plain c !! a); simpl; lia.
Qed.

Lemma plain_transfer_ok (c : Plain) a b v : 0 <= v -> a <> b -> v + 0 <= free_balance (X := unit) c a ->
  v = 0 \/ 0 <= free_balance (X := unit) c b + v -> exists c', transfer (X := unit) c a b v = inr c'.
Proof.
  intros Hv Hne Hf _. unfold transfer, plain_currency. rewrite decide_False by done.
  simpl in Hf. rewrite (proj2 (Z.leb_le _ _)) by lia. by eexists.
Qed.

Lemma plain_free_is (c : Plain) (a : Z) : free c a = free_balance (X := unit) c a.
Proof. done. Qed.

Definition mock_config : Config bool Z Z Z := {|
  AddressMapping := Z.abs;
  account_id := -1;
  Deposit := 10;
  MaxRandomWords := 1;
  MinBlockDelay := 2;
  MaxBlockDelay := 20;
  BlockExpirationDelay := 20;
  EpochExpirationDelay := 20;
  ensure_none o := o;
  hash_bytes v := [v];
  default_hash := 0;
  hash l := from_le_bytes l;
  blake2_256 l := l;
|}.

Lemma mock_chain : benchmark_chain (X := unit) mock_config 0 0 1 (mkPlain ∅).
Proof. split; vm_compute; try done; repeat split; done. Qed.

Lemma sample_lookup (n a k : Z) (w : Z -> option Z) :
  lookup_keys (set_lookup_keys n a k w) n = Some k.
Proof. unfold lookup_keys, keys_by_id, set_lookup_keys, set_by_id. by destruct (decide (n = n)). Qed.

Lemma sample_chain : benchmark_chain (X := unit) sample_config 1 0 1 sample_ledger.
Proof. split; vm_compute; try done; split; try split; done. Qed.

Lemma randomness_benchmarks_run_witness :
  runs (bench_finish_fulfillment (X := unit) sample_config 1 0 [] true) (fun _ _ => True) (start 1 0 sample_ledger) /\
  runs (bench_prepare_fulfillment (X := unit) sample_config 1 0 [] true 7) (fun _ _ => True) (start 1 0 sample_ledger) /\
  runs (bench_execute_request_expiration (X := unit) sample_config 1 0 [] true) (fun _ _ => True) (start 1 0 sample_ledger) /\
  runs (bench_prepare_fulfillment (X := unit) mock_config 0 0 [] true 1) (fun _ _ => True) (start 1 0 (mkPlain ∅)) /\
  ~ runs (bench_finish_fulfillment (X := unit) mock_config 0 0 [] true) (fun _ _ => True) (start 1 0 (mkPlain ∅)).
Proof.
  pose proof sample_lookup as Hlookup.
  destruct (randomness_benchmarks_run (W := Z -> option Z) (NimbusId := Z) (VrfId := Z) (PublicKey := Z)
    (Output := Z) (Proof := Z) (D := Item) (X := unit) sample_config 1 true 0 [] 5 true
    Hlookup
    ledger_free_is ledger_transfer_ok ltac:(done) 1 0 sample_ledger sample_chain)
    as (_ & _ & _ & Hprepare & Hfinish & _ & Hexpire).
  assert (Hv : forall n, 1 <= n <= 100 -> request_valid (AccountId := Z) sample_config 1 n).
  { intros n Hn. split; [exact Hn|split; [by vm_compute|split; by vm_compute]]. }
  split; [apply Hfinish, Hv; lia|split; [apply Hprepare; [by vm_compute|by vm_compute|apply Hv; lia]|]].
  split; [apply Hexpire; split; [apply Hv; lia|by vm_compute]|].
  destruct (randomness_benchmarks_run (W := Z -> option Z) (NimbusId := Z) (VrfId := Z) (PublicKey := Z)
    (Output := Z) (Proof := Z) (D := Item) (X := unit) mock_config 0 true 0 [] 5 true Hlookup
    plain_free_is plain_transfer_ok ltac:(done) 1 0 (mkPlain ∅) mock_chain)
    as (_ & _ & _ & Hprepare1 & Hfinish1 & _ & _).
  split.
  - apply Hprepare1; [by vm_compute|by vm_compute|]. split; [by vm_compute|split; [by vm_compute|split; by vm_compute]].
  - intros Hr. apply Hfinish1 in Hr as [[_ Hw] _]. by vm_compute in Hw.
Defined.
End Witnesses.
